(* ===== verification/_CoqProject ===== *)
-Q . S2P
Prelude.v
StdMap.v
MACAddress.v
IDBuilder.v
BloomFilter.v
BloomTable.v
TableRARE.v
SRTypes.v
SR.v
SRProps.v
SRInv.v
Network.v
HList.v
MacConst.v
MacTypes.v
MacUtil.v
MacCsma.v
MacTask.v
MacHandlers.v
MacSample.v
MacGts.v
MacProps.v
MacInv.v
MacTiming.v
MacData.v
MacToken.v
Queue.v
QueueProps.v
PingNet.v
Node.v
NodeProps.v
Radio.v
RadioInv.v
RadioProps.v
Channel.v
ChannelProps.v
Air.v
AirProps.v
MacLegal.v
System.v
SystemProps.v
WifiTypes.v
WifiMac.v
WifiFsm.v
WifiKeeps.v
WifiInv.v
WifiSafe.v
WifiAccess.v
WifiProps.v
WifiExchange.v
WifiSample.v
WifiLedger.v
WifiMgmt.v
WifiNic.v
WifiNicProps.v
WifiEther.v
WifiEtherSample.v
