(* ===== verification/Prelude.v ===== *)
(** * Semantic routing in a wireless sensor network: verification library

    ** The program

    srwsn is a simulation, in C++ on OMNeT++ and INET, of a wireless sensor
    network.  examples/srwsn/omnetpp.ini has two configurations:
    - srwsn80211: the network layer [SR] (src/inet/src/srwsn/networklayer) above
      INET's 802.11 in ad-hoc mode (linklayer/ieee80211: the management module queues
      packets and puts them into frames, the MAC waits for the medium, sends,
      acknowledges and retries).  Nodes join a tree rooted at the sink by exchanging discovery
      packets, which give each node a 16-bit identifier with its distance to the
      sink and its area; they keep, for each neighbour, a Bloom filter of what it
      measures; queries travel to the neighbour whose filter matches, or to the one
      that answered best before (the RARE learning table), and answers travel back
      along the same path.
    - srwsn802154: hosts (nodes/srwsn802154Host.ned) with, from top to bottom,
      a network layer that sends pings (srwsn802154Net), an interface queue
      (INET's REDQueue), srwsn's own 802.15.4 MAC (linklayer/mac: beacons, slotted
      CSMA/CA, acknowledgements and retries, guaranteed time slots, association)
      and the 802.15.4 PHY (underTest2/.../ieee802154/phyLayer: states of the
      transceiver, interference, clear channel assessment).  The queue gives the
      MAC one packet per request; MAC and PHY exchange primitives and frames; a
      device calls methods of its coordinator's MAC to associate and to get slots.
    All hosts share one channel (src/inet/src/world/ChannelControl.cc), which knows
    where they are and carries frames from a radio to those in range.

    ** The files, and the sources they follow

    Shared:
    - Prelude: faults, the state monad with faults, weakest preconditions ([wpe])
      and preservation ([keeps]) with their rules and hint databases, record
      update, machine integers.
    - StdMap: [std::map] as a sorted association list, with the order of keys as a
      class.

    Network layer (networklayer/, and linklayer/contract/MACAddress):
    - MACAddress: MACAddress.cc; parsing, printing, comparison, generation.
    - IDBuilder: IDBuilder.cc; the packed identifier.
    - BloomFilter, BloomTable: BloomFilter.cc, BloomTable.cc; arrays of bits shared
      between copies of a filter, the neighbours' filters, the next hop.
    - TableRARE: TableRARE.cc; counts of positive answers, choice of a peer,
      relaxation of a query.
    - SRTypes, SR: SR.h, SRPacket_m.h and SR.cc; the node, the static members, and
      every handler of a sensor and of the sink, under the names of the source.
    - SRProps: what one handler does to one node.
    - SRInv: what every handler leaves alone, function by function.
    - Network: any number of nodes, with one event of the simulation per step.

    MAC (linklayer/mac/srwsn802154MAC.cc, ieee802154/contract, Ieee802154Link.cc):
    - HList: Ieee802154Link.cc; the list of (source, sequence number) that detects
      duplicates, with its pointers.
    - MacConst: constants, enumerations, PIB, frame formats.
    - MacTypes: the members of the class in groups, timers, frame buffers, and the
      store of modules through which a device reaches its coordinator.
    - MacUtil, MacCsma, MacTask, MacHandlers: the methods, under their names; long
      methods are cut into parts, each of which names the lines it follows.
    - MacSample: a coordinator and a device, for witnesses.
    - MacGts, MacProps, MacInv, MacTiming, MacData: theorems.
    - MacToken: requests to the queue, packets taken and packets done with.
    - MacLegal: what the MAC says to the PHY and does to other MACs.

    Above the MAC (base/PassiveQueueBase.cc, networklayer/queue, srwsn802154Net.cc):
    - Queue: the exchange of packets for requests, over an interface ([PassiveQueue],
      with the laws [Fifo]) that REDQueue and DropTailQueue implement; QueueProps:
      theorems, the first of them for every implementation of the interface.
    - PingNet: srwsn802154Net.cc.
    - Node: network layer, queue and MAC of a host, with one event per step;
      NodeProps: theorems, for every first-in first-out queue.

    PHY (phyLayer/Ieee802154Phy.cc, Ieee802154RadioModel.cc):
    - Radio: the state and every handler.
    - RadioInv: the step relation, invariants and what follows from them.
    - RadioProps: what the PHY does with requests and frames.

    Channel (world/ChannelControl.cc, base/Coord.h):
    - Channel: hosts, neighbours, transmissions; ChannelProps: theorems.
    - Air: many radios on one channel, with one event of the simulation per step;
      AirProps: theorems.

    Everything (nodes/srwsn802154Host.ned, linklayer/srwsn802154Nic.ned):
    - System: any number of hosts, each a [Node] with a radio of [Air], whose MACs
      call each other; SystemProps: theorems.

    802.11 (linklayer/ieee80211, mfcore/WirelessMacBase.cc, base/FSMA.h):
    - WifiTypes: Ieee80211Consts.h, Ieee80211Frame.msg and the members of Ieee80211Mac.h.
    - WifiMac: timing, timers, builders, senders and helpers of Ieee80211Mac.cc.
    - WifiFsm: the macros of FSMA.h, [handleWithFSM] state by state, the handlers and
      the initialisation.
    - WifiKeeps: an interface to predicates every action of the machine keeps
      ([MachineKeeps], [TurnKeeps]); WifiInv, WifiSafe, WifiAccess: the invariant, one
      event, and access to the medium; WifiProps, WifiExchange: theorems; WifiSample:
      concrete runs.
    - WifiMgmt: Ieee80211MgmtBase.cc and Ieee80211MgmtAdhoc.cc, with the queues as an
      instance of [PassiveQueue].
    - WifiLedger: the MAC's queue against its requests, and where frames come from.
    - WifiNic: Ieee80211NicAdhoc.ned, and stations on an ether, with one event per step;
      WifiNicProps, WifiEther: theorems; WifiEtherSample: a packet delivered.

    ** What the theorems show

    - The network (Network.v), for every reachable network, whatever the channel
      delays, loses or repeats: each sensor that joined has a neighbour one step
      nearer to the sink, down to the sink ([gradient_path]); neighbour lists hold
      only nodes and identifiers that exist ([neighbor_list_truthful],
      [identifiers_resolve]); the packet a timer sends is the one that was
      scheduled ([scheduled_packet_sent]); the static counters agree with the
      sensors ([sensor_counters]).
    - A node (SRProps.v): joining ([discovery_joins], with what each value of the
      random position of its request leads to), and each way of handling a query
      (repeated ones are dropped) and an answer.
    - The tables: a Bloom filter contains what was added
      ([bloom_refines_set]), the next hop and the peer chosen are optimal, counts
      are exact, packed fields are independent, addresses survive printing.
    - The MAC (MacInv.v, MacTiming.v, MacData.v, MacProps.v, MacGts.v): an
      invariant of every reachable MAC ([mac_reachable_invariant]); a transaction
      started by CSMA/CA ends inside the contention access period
      ([csma_fits_cap]), and CSMA/CA goes on for a device with a superframe
      order of at most 10, the orders its 16-bit counters can hold; frames are
      acknowledged while CSMA/CA is stopped, acknowledgements complete a request, retries are bounded;
      beacons are spaced by the beacon interval; slots allocated are disjoint and
      leave the minimal CAP.
    - The PHY (RadioInv.v, RadioProps.v): consistent states, no undefined
      behaviour but for an energy level that no [int] holds ([sound_for]), exact bookkeeping of noise, the verdict on each frame, each
      request for a state answered, transmissions completed.
    - The channel (ChannelProps.v): the cached neighbours are the hosts in range
      ([neighbors_in_range]), frames reach exactly those in range that listen
      ([channel_delivers]), transmissions are remembered long enough for a radio
      that changes its channel ([transmission_remembered]).
    - Radios and channel together (AirProps.v): they agree in every reachable world
      ([world_consistent]), no event is undefined but for that energy level
      ([world_safe]), and a frame handed to one radio reaches those in range and is
      handed up by one that hears it undisturbed ([frame_carried]).
    - Queue and MAC: packets leave a queue in the order they came, one per request
      ([queue_exchange]), within the bounds of RED ([RED_bounded]); the MAC asks for
      one packet whenever it is done with one ([one_packet_at_a_time]); together, a
      packet never reaches a MAC that is busy, and none waits for an idle one
      ([node_paced], [node_in_order]).
    - The whole 802.15.4 simulation (SystemProps.v): the MACs drive the radios as the
      radios require, so a run of the simulation is a run of the radios
      ([system_refines_air]) and what was shown of those holds of it; what a MAC says
      is understood ([system_interface_safe]); and each host keeps its books whatever
      the others do ([system_hosts_account]).
    - The 802.11 MAC (WifiProps.v, WifiExchange.v): no event of a reachable state fails,
      the states and the self messages agree and no frame is stuck, transmissions are
      bounded where [fixFSM] is set, the medium is sensed before it is used; data for
      the station is handed up and acknowledged, and an acknowledgement completes a
      transmission.
    - 802.11 stations on an ether (WifiEther.v): what a MAC needs of the frames it
      receives is established by the stations that send them ([ether_never_fails]);
      packets handed up were given to another station for this one or for all
      ([ether_integrity]); between network layer and air a station keeps the order and
      loses only what its full queue drops ([station_fifo]).
    - Errors of the code are theorems too: [force_off_keeps_transmitting], and further
      ones that are not listed as properties ([command_blocks_data],
      [retries_unbounded], [damaged_ack_accepted],
      [getLastMACNumberToInt_64_diverges], [RED_overshoot_kept],
      [sink_assigns_area], [forced_twice_leaks],
      [taken_positions_reused], [LearningPeerSelection_last_row],
      [gts_request_overlong], [neighbor_filter_is_live]).

    ** How the code is read

    - A method is a computation [M S A] over the state it can reach: it returns a
      result and a new state, or a [fault], which is a failed assertion, a thrown
      error, an operation C++ leaves undefined, or fuel used up.  A theorem that
      says "returns" excludes all of them.
    - Fuel: only where the recursion is not structural.  [advance] and [catch_up]
      of the MAC get fuel computed from the distance to be covered, which is shown
      to be enough ([csmacaLocateBoundary_spec]); the loops of IDBuilder and
      TableRARE that may really diverge are shown to do so for every fuel.  The loop
      of FSMA.h has its own bound, FSM_MAXT of the simulation kernel: six turns are
      shown to be enough for the 802.11 machine, and assumed to be allowed.
    - Integers have the width of their C++ type where it matters ([u8], [u16],
      [u32], [u64]); the width of [size_t] is a parameter.
    - Time is an integer number of picoseconds, as in [simtime_t].  The MAC's rates
      and symbol times are whole numbers of them.
    - [double]s are exact: powers are integers in units of the smallest [double],
      ratios are rational numbers.  Rounding is not modelled.
    - Values the code reads before writing them, random numbers, the addresses a
      memory allocator returns, whether log statements evaluate their operands
      ([EV]), and parameters from the NED and INI files are arguments: fields of
      the classes [Env], [MacEnv], [Propagation], [RedEnv] and [WifiEnv].
    - In Network.v what lies below SR is left open: any packet handed down may
      reach any of the nodes it is addressed to, at any later time, any number of
      times.
    - In WifiNic.v the 802.11 radio is left open in the same way: it may report any
      state, and hand up any frame another station sent, whole or damaged.
    - In System.v the links between MAC and PHY deliver in order, and a notification
      of the radio comes in the order of the other messages; the timers of the MACs
      may go off in any order relative to each other.

    ** Not modelled

    - The rest of INET: TCP/IP, routing, Ethernet and applications, which srwsn does
      not use; 802.11 in infrastructure mode; the 802.11 radio (AbstractRadio.cc), which
      WifiNic.v leaves open.  The upstream 802.15.4 MAC, which srwsn's own MAC replaces.
    - The addresses of SR's nodes are those of their interfaces; the interface table and
      the notification board are not modelled.
    - Received power (PathLossReceptionModel.cc) and the interference distance
      ([calcInterfDist]), which need [pow] and the number pi: parameters of the PHY
      and of the channel.
    - The other queues of INET, which are not first-in first-out.
    - The functions that only print (dump..., toString, printFilters), record vectors,
      or look a module up in the module tree. *)

From Stdlib Require Export Ascii.
From Stdlib Require Import ZArith Lia.
From stdpp Require Export base numbers option strings gmap list.

#[global] Set Default Proof Using "Type".
Open Scope Z_scope.

(** ** Faults

    Everything that stops a C++ simulation run is a value of [fault]: a failed
    [ASSERT]/[assert], a thrown [cRuntimeError] (also [error(...)] and the
    checks of the OMNeT++ kernel that throw), an operation the C++ standard
    leaves undefined, and a loop that does not end within the fuel given. *)

Inductive fault :=
  | AssertFailed (cond : string)
  | Thrown (what : string)
  | Undefined (what : string)
  | OutOfFuel.

#[global] Instance fault_eq_dec : EqDecision fault.
Proof. solve_decision. Defined.

Inductive outcome (A : Type) :=
  | Ok (a : A)
  | Fault (f : fault).
Arguments Ok {A} a.
Arguments Fault {A} f.

#[global] Instance outcome_ret : MRet outcome := fun A a => Ok a.
#[global] Instance outcome_bind : MBind outcome := fun A B f m =>
  match m with Ok a => f a | Fault e => Fault e end.
#[global] Instance outcome_fmap : FMap outcome := fun A B f m =>
  match m with Ok a => Ok (f a) | Fault e => Fault e end.

(** [ASSERT(b)] of the sources, outside of a stateful method. *)
Definition check (b : bool) (f : fault) : outcome unit :=
  if b then Ok tt else Fault f.

Definition is_ok {A} (o : outcome A) : bool :=
  match o with Ok _ => true | Fault _ => false end.

Lemma outcome_bind_ok {A B} (m : outcome A) (f : A -> outcome B) b :
  m ≫= f = Ok b <-> exists a, m = Ok a /\ f a = Ok b.
Proof.
  destruct m as [a|e]; cbn; split; [by exists a | by intros (? & [= <-] & ?) | done | by intros (? & ? & ?)].
Qed.

(** ** State with faults

    A method of a module is a computation over the module's state (and the
    part of the simulation it shares); a fault ends the run, so it carries no
    state. *)

Definition M (S A : Type) : Type := S -> outcome (A * S).

#[global] Instance M_ret S : MRet (M S) := fun A a s => Ok (a, s).
#[global] Instance M_bind S : MBind (M S) := fun A B f m s =>
  match m s with
  | Ok (a, s') => f a s'
  | Fault e => Fault e
  end.

Definition fail {S A} (f : fault) : M S A := fun _ => Fault f.
Definition assert_ {S} (b : bool) (cond : string) : M S unit :=
  fun s => if b then Ok (tt, s) else Fault (AssertFailed cond).
Definition gets {S A} (f : S -> A) : M S A := fun s => Ok (f s, s).
Definition modify {S} (f : S -> S) : M S unit := fun s => Ok (tt, f s).
Definition lift {S A} (o : outcome A) : M S A :=
  fun s => match o with Ok a => Ok (a, s) | Fault e => Fault e end.
Definition when {S} (b : bool) (m : M S unit) : M S unit :=
  if b then m else mret tt.

(** Running a computation on one component of a larger state. *)
Definition zoom {S T A} (get : S -> T) (put : T -> S -> S) (m : M T A) : M S A :=
  fun s => match m (get s) with
           | Ok (a, t) => Ok (a, put t s)
           | Fault e => Fault e
           end.

Lemma M_bind_ok {S A B} (m : M S A) (f : A -> M S B) s b s' :
  (m ≫= f) s = Ok (b, s') <->
  exists a s1, m s = Ok (a, s1) /\ f a s1 = Ok (b, s').
Proof.
  unfold mbind, M_bind. destruct (m s) as [[a s1]|e]; split.
  - intros H. by exists a, s1.
  - intros (a' & s1' & [= <- <-] & H). done.
  - done.
  - by intros (? & ? & ? & ?).
Qed.

(** Weakest precondition of a computation: what holds of the result if it
    returns ([Q]) and of the fault if it does not ([E]).  [wp] tolerates no
    fault. *)
Definition wpe {S A} (E : fault -> Prop) (m : M S A) (Q : A -> S -> Prop) (s : S) : Prop :=
  match m s with Ok (a, s') => Q a s' | Fault f => E f end.
Abbreviation wp := (wpe (fun _ => False)).

Section wp_rules.
Context {S : Type} (E : fault -> Prop).
Implicit Types s : S.

Lemma wpe_ret {A} (a : A) (Q : A -> S -> Prop) s : Q a s -> wpe E (mret a) Q s.
Proof. done. Qed.
Lemma wpe_bind {A B} (m : M S A) (f : A -> M S B) Q s :
  wpe E m (fun a => wpe E (f a) Q) s -> wpe E (m ≫= f) Q s.
Proof. unfold wpe, mbind, M_bind. by destruct (m s) as [[??]|]. Qed.
Lemma wpe_mono {A} (m : M S A) (P Q : A -> S -> Prop) s :
  wpe E m P s -> (forall a s', P a s' -> Q a s') -> wpe E m Q s.
Proof. unfold wpe. destruct (m s) as [[??]|]; eauto. Qed.
Lemma wpe_gets {A} (f : S -> A) (Q : A -> S -> Prop) s : Q (f s) s -> wpe E (gets f) Q s.
Proof. done. Qed.
Lemma wpe_modify (f : S -> S) (Q : unit -> S -> Prop) s : Q tt (f s) -> wpe E (modify f) Q s.
Proof. done. Qed.
Lemma wpe_assert b c (Q : unit -> S -> Prop) s :
  (b = true -> Q tt s) -> (b = false -> E (AssertFailed c)) -> wpe E (assert_ b c) Q s.
Proof. unfold wpe, assert_. destruct b; auto. Qed.
Lemma wpe_fail {A} f (Q : A -> S -> Prop) s : E f -> wpe E (fail f) Q s.
Proof. done. Qed.
Lemma wpe_when b (m : M S unit) (Q : unit -> S -> Prop) s :
  (b = true -> wpe E m Q s) -> (b = false -> Q tt s) -> wpe E (when b m) Q s.
Proof. unfold when. destruct b; [auto | intros _ H; exact (H eq_refl)]. Qed.
Lemma wpe_lift {A} (o : outcome A) (Q : A -> S -> Prop) s :
  match o with Ok a => Q a s | Fault f => E f end -> wpe E (lift o) Q s.
Proof. unfold wpe, lift. by destruct o. Qed.
Lemma wpe_zoom {T A} get put (m : M T A) (Q : A -> S -> Prop) s :
  wpe E m (fun a t => Q a (put t s)) (get s) -> wpe E (zoom get put m) Q s.
Proof. unfold wpe, zoom. by destruct (m (get s)) as [[??]|]. Qed.
Lemma wpe_eq {A} (m : M S A) (Q : A -> S -> Prop) s a s' :
  m s = Ok (a, s') -> Q a s' -> wpe E m Q s.
Proof. unfold wpe. by intros ->. Qed.
Lemma wpe_run {A} (m : M S A) (Q : A -> S -> Prop) s a s' :
  wpe E m Q s -> m s = Ok (a, s') -> Q a s'.
Proof. unfold wpe. intros H Em. by rewrite Em in H. Qed.
Lemma wpe_weaken {A} (E' : fault -> Prop) (m : M S A) (Q : A -> S -> Prop) s :
  wpe E m Q s -> (forall f, E f -> E' f) -> wpe E' m Q s.
Proof. unfold wpe. destruct (m s) as [[??]|]; eauto. Qed.
Lemma wpe_fails {A} (m : M S A) s f : wpe (fun g => g = f) m (fun _ _ => False) s -> m s = Fault f.
Proof. unfold wpe. destruct (m s) as [[??]|]; [done|]. by intros ->. Qed.
Lemma wpe_fault {A} (m : M S A) (Q : A -> S -> Prop) s f :
  wpe E m Q s -> m s = Fault f -> E f.
Proof. unfold wpe. intros H Em. by rewrite Em in H. Qed.
End wp_rules.

(** A computation with a fault-free precondition returns. *)
Lemma wp_ok {S A} (m : M S A) (Q : A -> S -> Prop) s :
  wp m Q s -> exists a s', m s = Ok (a, s') /\ Q a s'.
Proof. unfold wpe. destruct (m s) as [[a s']|]; [|done]. eauto. Qed.

(** *** Invariants of computations *)

(** A computation preserves [P], if it returns. *)
Definition keeps {S A} (P : S -> Prop) (m : M S A) : Prop :=
  forall s, P s -> wpe (fun _ => True) m (fun _ s' => P s') s.

Section rules.
Context {S : Type} (P : S -> Prop).

Lemma keeps_ret {A} (a : A) : keeps P (mret a).
Proof. intros s Hs. by apply wpe_ret. Qed.
Lemma keeps_bind {A B} (m : M S A) (f : A -> M S B) :
  keeps P m -> (forall a, keeps P (f a)) -> keeps P (m ≫= f).
Proof.
  intros Hm Hf s Hs. apply wpe_bind. eapply wpe_mono; [by apply Hm|]. intros a s'. apply Hf.
Qed.
Lemma keeps_gets {A} (f : S -> A) : keeps P (gets f).
Proof. intros s Hs. by apply wpe_gets. Qed.
Lemma keeps_modify (f : S -> S) : (forall s, P s -> P (f s)) -> keeps P (modify f).
Proof. intros Hf s Hs. by apply wpe_modify, Hf. Qed.
Lemma keeps_fail {A} e : keeps P (fail (A := A) e).
Proof. intros s Hs. by apply wpe_fail. Qed.
Lemma keeps_assert b c : keeps P (assert_ b c).
Proof. intros s Hs. by apply wpe_assert. Qed.
Lemma keeps_lift {A} (o : outcome A) : keeps P (lift o).
Proof. intros s Hs. apply wpe_lift. by destruct o. Qed.
Lemma keeps_when b (m : M S unit) : keeps P m -> keeps P (when b m).
Proof. intros Hm. destruct b; [done|apply keeps_ret]. Qed.
End rules.

Create HintDb keeps.
#[export] Hint Resolve keeps_ret keeps_gets keeps_fail keeps_assert keeps_lift : keeps.

Lemma keeps_run {S A} (P : S -> Prop) (m : M S A) s a s' : keeps P m -> P s -> m s = Ok (a, s') -> P s'.
Proof. intros Hm Hs Hrun. exact (wpe_run _ _ _ _ _ _ (Hm s Hs) Hrun). Qed.

(** One step of symbolic execution; the state is kept as a chain of updates. *)
Ltac wpe_step :=
  lazymatch goal with
  | |- wpe _ (mbind _ _) _ _ => apply wpe_bind
  | |- wpe _ (mret _) _ _ => apply wpe_ret
  | |- wpe _ (gets _) _ _ => apply wpe_gets
  | |- wpe _ (modify _) _ _ => apply wpe_modify
  | |- wpe _ (lift _) _ _ => apply wpe_lift
  | |- wpe _ (fail _) _ _ => apply wpe_fail
  | |- wpe _ (assert_ _ _) _ _ => apply wpe_assert; intros ?
  | |- wpe _ (when _ _) _ _ => apply wpe_when; intros ?
  | |- wpe _ (zoom _ _ _) _ _ => apply wpe_zoom
  end.

(** ** Record update

    [r <| f := v |>] writes one field.  A record declares how it is rebuilt
    from its projections ([Eta]); the setter of a field is that expression
    with the field's projection abstracted.  The records that are updated have
    primitive projections, which keeps conversion between long chains of
    updates cheap. *)

Class Eta (R : Type) := eta : R -> R.
Definition setter {R E : Type} (proj : R -> E) : Type := (E -> E) -> R -> R.
Class Setter {R E : Type} (proj : R -> E) := set_ : setter proj.

Ltac build_setter :=
  lazymatch goal with
  | |- @Setter ?R ?E ?proj =>
      exact (fun (g : E -> E) (r : R) =>
        ltac:(let e := eval hnf in (@eta R _ r) in
              let p := eval pattern (proj r) in e in
              lazymatch p with
              | (fun _ => ?b) _ => fail "no such field"
              | ?F _ => let b := eval cbv beta in (F (g (proj r))) in exact b
              end))
  end.
#[global] Hint Extern 1 (Setter _) => build_setter : typeclass_instances.

Declare Scope record_scope.
Notation "r <| f := v |>" := (set_ (proj := f) (fun _ => v) r)
  (at level 1, left associativity, format "r <| f  :=  v |>") : record_scope.
Notation "r <| f ::= g |>" := (set_ (proj := f) g r)
  (at level 1, left associativity, format "r <| f  ::=  g |>") : record_scope.
Open Scope record_scope.

(** ** Machine integers

    A w-bit unsigned integer is a [Z] in [0, 2^w); every store into a variable
    of that width goes through the wrap-around below. *)

Definition u8 (z : Z) : Z := z mod 2 ^ 8.
Definition u16 (z : Z) : Z := z mod 2 ^ 16.
Definition u32 (z : Z) : Z := z mod 2 ^ 32.
Definition u64 (z : Z) : Z := z mod 2 ^ 64.

Definition INT_MAX : Z := 2147483647.
Definition in_int (z : Z) : bool := bool_decide (- 2 ^ 31 <= z) && bool_decide (z <= INT_MAX).

Lemma u8_small z : 0 <= z < 256 -> u8 z = z.
Proof. intros. by apply Z.mod_small. Qed.
Lemma u16_small z : 0 <= z < 65536 -> u16 z = z.
Proof. intros. by apply Z.mod_small. Qed.
Lemma u32_small z : 0 <= z < 2 ^ 32 -> u32 z = z.
Proof. intros. by apply Z.mod_small. Qed.
Lemma u64_small z : 0 <= z < 2 ^ 64 -> u64 z = z.
Proof. intros. by apply Z.mod_small. Qed.
Lemma u8_range z : 0 <= u8 z < 256.
Proof. by apply Z.mod_pos_bound. Qed.
Lemma u16_range z : 0 <= u16 z < 65536.
Proof. by apply Z.mod_pos_bound. Qed.
Lemma u32_range z : 0 <= u32 z < 2 ^ 32.
Proof. by apply Z.mod_pos_bound. Qed.
Lemma u64_range z : 0 <= u64 z < 2 ^ 64.
Proof. by apply Z.mod_pos_bound. Qed.

Create HintDb width.
Create Rewrite HintDb width.
#[export] Hint Rewrite u8_small u16_small u32_small u64_small using lia : width.
#[export] Hint Resolve u8_range u16_range u32_range u64_range : width.

(** ** Bits *)

Lemma land_nonneg_l a b : 0 <= a -> 0 <= Z.land a b.
Proof. intros. apply Z.land_nonneg. by left. Qed.

(** A mask of [w] ones starting at bit [p] followed by a shift is division and
    remainder. *)
Lemma field_get z p w :
  0 <= p -> 0 <= w -> Z.shiftr (Z.land z (Z.shiftl (Z.ones w) p)) p = (z / 2 ^ p) mod 2 ^ w.
Proof.
  intros Hp Hw. rewrite Z.shiftr_land, Z.shiftr_shiftl_l by lia.
  rewrite Z.sub_diag, Z.shiftl_0_r, Z.land_ones, Z.shiftr_div_pow2; auto.
Qed.

(** Clearing the field: what lies below and above stays. *)
Lemma field_clear z p w n :
  0 <= p -> 0 <= w -> p + w <= n -> 0 <= z < 2 ^ n ->
  Z.land z (Z.ones n - Z.shiftl (Z.ones w) p) = z - Z.shiftl ((z / 2 ^ p) mod 2 ^ w) p.
Proof.
  intros Hp Hw Hn Hz.
  assert (Hdiff : Z.ones n - Z.shiftl (Z.ones w) p = Z.ldiff (Z.ones n) (Z.shiftl (Z.ones w) p)).
  { apply Z.sub_nocarry_ldiff. apply Z.bits_inj'. intros k Hk.
    rewrite Z.ldiff_spec, Z.shiftl_spec, Z.bits_0 by lia.
    destruct (decide (k - p < 0)); [rewrite Z.testbit_neg_r by lia; done|].
    rewrite (Z.testbit_ones_nonneg w), (Z.testbit_ones_nonneg n) by lia.
    destruct (Z.ltb_spec (k - p) w), (Z.ltb_spec k n); try done; lia. }
  rewrite Hdiff, <- field_get by lia.
  set (f := Z.shiftl (Z.shiftr _ _) p).
  assert (Hf : f = Z.land z (Z.shiftl (Z.ones w) p)).
  { apply Z.bits_inj'. intros k Hk. unfold f. rewrite Z.shiftl_spec by lia.
    destruct (decide (k - p < 0)).
    - rewrite Z.testbit_neg_r, Z.land_spec, Z.shiftl_spec, (Z.testbit_neg_r _ (k - p)) by lia.
      by rewrite andb_false_r.
    - rewrite Z.shiftr_spec by lia. by replace (k - p + p) with k by lia. }
  rewrite Hf. rewrite Z.sub_nocarry_ldiff.
  - apply Z.bits_inj'. intros k Hk. rewrite !Z.land_spec, !Z.ldiff_spec, !Z.land_spec.
    destruct (decide (k < n)).
    + rewrite Z.testbit_ones_nonneg by lia. rewrite (proj2 (Z.ltb_lt k n)) by done.
      by destruct (Z.testbit z k), (Z.testbit _ k).
    + assert (Z.testbit z k = false) as ->; [|done].
      destruct (decide (z = 0)) as [->|]; [apply Z.bits_0|].
      apply Z.bits_above_log2; [lia|]. apply Z.log2_lt_pow2; [lia|].
      apply Z.lt_le_trans with (2 ^ n); [lia|]. apply Z.pow_le_mono_r; lia.
  - apply Z.bits_inj'. intros k Hk. rewrite Z.ldiff_spec, Z.land_spec, Z.bits_0.
    by destruct (Z.testbit z k), (Z.testbit _ k).
Qed.

(** Checking a decidable statement on every integer of a small range. *)
Lemma forall_range (P : Z -> bool) lo n :
  forallb P (seqZ lo n) = true -> forall z, lo <= z < lo + n -> P z = true.
Proof.
  intros H z Hz. rewrite List.forallb_forall in H. apply H.
  apply list_elem_of_In, elem_of_seqZ. lia.
Qed.

(** [lia] with the equations of the divisions and remainders in sight. *)
Ltac eval_pow2 :=
  repeat match goal with
  | |- context [2 ^ (Zpos ?p)] =>
      let v := eval vm_compute in (2 ^ (Zpos p)) in change (2 ^ (Zpos p)) with v
  | H : context [2 ^ (Zpos ?p)] |- _ =>
      let v := eval vm_compute in (2 ^ (Zpos p)) in change (2 ^ (Zpos p)) with v in H
  end.
Ltac dmlia := eval_pow2; Z.to_euclidean_division_equations; lia.

(** Componentwise equality of tuples. *)
Ltac pair_eq := repeat match goal with |- (_, _) = (_, _) => apply f_equal2 end.
