(* ===== verification/StdMap.v ===== *)
(** * [std::map] as the sources use it

    The network layer keeps its tables in [std::map]s with [int], [uint16_t]
    or [std::string] keys and iterates over them from [begin()] to [end()],
    that is, in increasing key order; which neighbour is chosen depends on that
    order.  A map is the list of its entries, strictly sorted by key. *)

From Stdlib Require OrdersEx.
From S2P Require Import Prelude.

(** The strict order [std::less] gives the keys. *)
Class KeyOrder (K : Type) := {
  kcmp : K -> K -> comparison;
  kcmp_eq : forall a b, kcmp a b = Eq <-> a = b;
  kcmp_sym : forall a b, kcmp b a = CompOpp (kcmp a b);
  kcmp_trans : forall a b c, kcmp a b = Lt -> kcmp b c = Lt -> kcmp a c = Lt;
}.

#[export] Program Instance Z_KeyOrder : KeyOrder Z := {| kcmp := Z.compare |}.
Next Obligation. apply Z.compare_eq_iff. Qed.
Next Obligation. intros. apply Z.compare_antisym. Qed.
Next Obligation. intros a b c. rewrite !Z.compare_lt_iff. lia. Qed.

#[export] Program Instance string_KeyOrder : KeyOrder string := {| kcmp := String.compare |}.
Next Obligation.
  intros a b. split; [apply String.compare_eq_iff|].
  intros ->. pose proof (String.compare_antisym b b) as H.
  by destruct (String.compare b b).
Qed.
Next Obligation. intros. apply String.compare_antisym. Qed.
Next Obligation.
  intros a b c Hab Hbc. pose proof OrdersEx.String_as_OT.lt_strorder as [_ Ht].
  by specialize (Ht a b c Hab Hbc).
Qed.

Section stdmap.
Context {K V : Type} `{KeyOrder K}.
Implicit Types (k : K) (v : V) (m : list (K * V)).

(** [m.find(k)]: [None] is [m.end()]. *)
Fixpoint map_find k m : option V :=
  match m with
  | [] => None
  | (k', v) :: m' =>
      match kcmp k k' with
      | Eq => Some v
      | Lt => None
      | Gt => map_find k m'
      end
  end.

(** [m[k] = v]. *)
Fixpoint map_put k v m : list (K * V) :=
  match m with
  | [] => [(k, v)]
  | (k', v') :: m' =>
      match kcmp k k' with
      | Eq => (k, v) :: m'
      | Lt => (k, v) :: m
      | Gt => (k', v') :: map_put k v m'
      end
  end.

(** [m[k]] read as an rvalue: a missing key is inserted with the default. *)
Definition map_index (dflt : V) k m : V * list (K * V) :=
  match map_find k m with
  | Some v => (v, m)
  | None => (dflt, map_put k dflt m)
  end.

Definition key_lt (a b : K) : Prop := kcmp a b = Lt.

(** The representation invariant: strictly increasing keys. *)
Fixpoint map_wf m : Prop :=
  match m with
  | [] => True
  | (k, _) :: m' => Forall (fun e => key_lt k e.1) m' /\ map_wf m'
  end.

Lemma kcmp_refl k : kcmp k k = Eq.
Proof. by apply kcmp_eq. Qed.

Lemma kcmp_gt a b : kcmp a b = Gt -> kcmp b a = Lt.
Proof. intros E. by rewrite kcmp_sym, E. Qed.

Lemma kcmp_ne_lt a b : kcmp a b = Lt -> a <> b.
Proof. intros E ->. by rewrite kcmp_refl in E. Qed.

Lemma map_put_Forall (P : K * V -> Prop) k v m :
  P (k, v) -> Forall P m -> Forall P (map_put k v m).
Proof.
  intros Hk. induction m as [|[k' v'] m IH]; cbn; intros Hm.
  - by constructor.
  - apply Forall_cons_1 in Hm as [H1 H2].
    destruct (kcmp k k'); repeat constructor; auto.
Qed.

Lemma map_put_wf k v m : map_wf m -> map_wf (map_put k v m).
Proof.
  induction m as [|[k' v'] m IH]; cbn; [done|]. intros [Hlt Hwf].
  destruct (kcmp k k') eqn:E; cbn.
  - apply kcmp_eq in E as ->. done.
  - split; [|done]. constructor; [done|]. eapply Forall_impl; [exact Hlt|].
    intros [k2 v2]; cbn. by apply kcmp_trans.
  - split; [|auto]. apply map_put_Forall; [by apply kcmp_gt|done].
Qed.

Lemma map_find_put_eq k v m : map_find k (map_put k v m) = Some v.
Proof.
  induction m as [|[k' v'] m IH]; cbn; [by rewrite kcmp_refl|].
  destruct (kcmp k k') eqn:E; cbn; rewrite ?kcmp_refl, ?E; auto.
Qed.

Lemma map_find_put_ne k k1 v m :
  map_wf m -> k1 <> k -> map_find k1 (map_put k v m) = map_find k1 m.
Proof.
  intros Hwf Hne. assert (kcmp k1 k <> Eq) as Hneq by (rewrite kcmp_eq; done).
  induction m as [|[k' v'] m IH]; cbn.
  - by destruct (kcmp k1 k).
  - destruct Hwf as [Hlt Hwf]. destruct (kcmp k k') eqn:E; cbn.
    + apply kcmp_eq in E as ->. by destruct (kcmp k1 k').
    + destruct (kcmp k1 k) eqn:E1; [done| |done].
      by rewrite (kcmp_trans _ _ _ E1 E).
    + destruct (kcmp k1 k'); auto.
Qed.

Lemma map_find_Some_In k v m : map_find k m = Some v -> (k, v) ∈ m.
Proof.
  induction m as [|[k' v'] m IH]; cbn; [done|].
  destruct (kcmp k k') eqn:E; intros Hf; simplify_eq.
  - apply kcmp_eq in E as ->. left.
  - right. auto.
Qed.

Lemma map_In_find k v m : map_wf m -> (k, v) ∈ m -> map_find k m = Some v.
Proof.
  induction m as [|[k' v'] m IH]; cbn; [by intros _ ?%elem_of_nil|].
  intros [Hlt Hwf] [[= -> ->]|Hin]%elem_of_cons; [by rewrite kcmp_refl|].
  rewrite Forall_forall in Hlt. specialize (Hlt _ Hin). cbn in Hlt.
  rewrite kcmp_sym, Hlt. auto.
Qed.

Lemma map_put_In k v k1 v1 m :
  (k1, v1) ∈ map_put k v m -> (k1, v1) = (k, v) \/ (k1, v1) ∈ m.
Proof.
  induction m as [|[k' v'] m IH]; cbn.
  - intros ?%list_elem_of_singleton. auto.
  - destruct (kcmp k k'); rewrite !elem_of_cons; tauto.
Qed.

Lemma map_put_length k v m :
  map_wf m ->
  length (map_put k v m) = match map_find k m with Some _ => length m | None => S (length m) end.
Proof.
  induction m as [|[k' v'] m IH]; cbn; [done|]. intros [_ Hwf].
  destruct (kcmp k k'); cbn; [done|done|]. rewrite IH by done.
  by destruct (map_find k m).
Qed.

Lemma map_find_length k v m : map_find k m = Some v -> (0 < length m)%nat.
Proof. destruct m; cbn; [done|lia]. Qed.
End stdmap.

Arguments map_wf {K V _} m.

#[export] Hint Resolve map_put_wf : core.
