(* ===== verification/MACAddress.v ===== *)
(** * IEEE 802 addresses: linklayer/contract/MACAddress.{h,cc}

    An address is the array [unsigned char address[6]], a list of six bytes.  A
    [const char *] is the string of the characters before its terminator, or
    [None] for a null pointer. *)

From S2P Require Import Prelude.

Open Scope string_scope.
Open Scope list_scope.
Open Scope Z_scope.

Definition MAC_ADDRESS_BYTES : nat := 6.

Definition MACAddress : Type := list Z.

Definition byte_ok (b : Z) : Prop := 0 <= b < 256.

(** What the type [unsigned char[6]] guarantees. *)
Definition mac_wf (m : MACAddress) : Prop := length m = MAC_ADDRESS_BYTES /\ Forall byte_ok m.

(** The default constructor and the two constants. *)
Definition UNSPECIFIED_ADDRESS : MACAddress := [0; 0; 0; 0; 0; 0].
Definition BROADCAST_ADDRESS : MACAddress := [255; 255; 255; 255; 255; 255].

(** ** <ctype.h> in the "C" locale *)

Definition code (c : ascii) : Z := Z.of_N (Ascii.N_of_ascii c).
Definition between (lo hi : ascii) (c : ascii) : bool :=
  (code lo <=? code c) && (code c <=? code hi).
Definition isdigit (c : ascii) : bool := between "0" "9" c.
Definition islower (c : ascii) : bool := between "a" "z" c.
Definition isxdigit (c : ascii) : bool :=
  isdigit c || between "a" "f" c || between "A" "F" c.

(** [isdigit( *s ) ? *s-'0' : islower( *s ) ? *s-'a'+10 : *s-'A'+10]. *)
Definition xdigit_value (c : ascii) : Z :=
  if isdigit c then code c - code "0"
  else if islower c then code c - code "a" + 10
  else code c - code "A" + 10.

(** [while ( *s && !isxdigit( *s )) s++;] *)
Fixpoint skip_nonhex (s : string) : string :=
  match s with
  | EmptyString => EmptyString
  | String c s' => if isxdigit c then s else skip_nonhex s'
  end.

(** One turn of the loop of [hextobin]: the byte stored, the pointer after it,
    and whether [k] was incremented. *)
Definition hextobin_byte (s : string) : Z * string * bool :=
  match skip_nonhex s with
  | EmptyString => (0, EmptyString, false)
  | String c s1 =>
      let d := u8 (Z.shiftl (u8 (xdigit_value c)) 4) in
      match skip_nonhex s1 with
      | EmptyString => (0, EmptyString, false)
      | String c' s2 => (u8 (d + xdigit_value c'), s2, true)
      end
  end.

(** [hextobin(hexstr, destbuf, size)]: the bytes written and the count
    returned. *)
Fixpoint hextobin (s : string) (size : nat) : list Z * Z :=
  match size with
  | O => ([], 0)
  | S n =>
      let '(b, s', done) := hextobin_byte s in
      let '(bs, k) := hextobin s' n in
      (b :: bs, if done then k + 1 else k)
  end.

(** The syntax check of [tryParse]: [None] for a character that is neither a
    hex digit nor a separator, otherwise the number of hex digits. *)
Fixpoint count_hex_digits (s : string) : option Z :=
  match s with
  | EmptyString => Some 0
  | String c s' =>
      if isxdigit c then (Z.add 1) <$> count_hex_digits s'
      else if Ascii.eqb c " " || Ascii.eqb c ":" || Ascii.eqb c "-" then count_hex_digits s'
      else None
  end.

(** [self.tryParse(hexstr)]: the value returned and the address afterwards. *)
Definition tryParse (hexstr : option string) (self : MACAddress) : bool * MACAddress :=
  match hexstr with
  | None => (false, self)
  | Some s =>
      match count_hex_digits s with
      | None => (false, self)
      | Some n =>
          if n =? 2 * Z.of_nat MAC_ADDRESS_BYTES
          then (true, (hextobin s MAC_ADDRESS_BYTES).1)
          else (false, self)
      end
  end.

Definition setAddress (hexstr : option string) (self : MACAddress) : outcome MACAddress :=
  let '(ok, m) := tryParse hexstr self in
  if ok then Ok m else Fault (Thrown "MACAddress: wrong address syntax").

(** The constructor that takes a hex string. *)
Definition MACAddress_of_str (hexstr : string) : outcome MACAddress :=
  setAddress (Some hexstr) UNSPECIFIED_ADDRESS.

(** ** Access to the bytes *)

Definition getAddressByte (self : MACAddress) (k : nat) : outcome Z :=
  if bool_decide (6 <= k)%nat then Fault (Thrown "Array of size 6 indexed")
  else match self !! k with Some b => Ok b | None => Fault (Undefined "address[k]") end.

Definition setAddressByte (self : MACAddress) (k : nat) (addrbyte : Z) : outcome MACAddress :=
  if bool_decide (6 <= k)%nat then Fault (Thrown "Array of size 6 indexed")
  else Ok (<[k := addrbyte]> self).

Definition isBroadcast (self : MACAddress) : bool := foldr Z.land 255 self =? 255.

Definition isUnspecified (self : MACAddress) : bool :=
  negb (existsb (fun b => negb (b =? 0)) self).

Definition getAddressSize (self : MACAddress) : Z := 6.

(** [memcpy] of six bytes; reading behind the end of the array is undefined. *)
Definition setAddressBytes (addrbytes : list Z) : outcome MACAddress :=
  if bool_decide (MAC_ADDRESS_BYTES <= length addrbytes)%nat then Ok (take MAC_ADDRESS_BYTES addrbytes)
  else Fault (Undefined "memcpy").

Definition setBroadcast (self : MACAddress) : MACAddress := [0xff; 0xff; 0xff; 0xff; 0xff; 0xff].

(** The two words of an [InterfaceToken], low and high. *)
Definition formInterfaceIdentifier (self : MACAddress) : Z * Z :=
  let b k := nth k self 0 in
  let high := u32 (Z.lor (Z.lor (Z.lor (Z.shiftl (b 0%nat) 24) (Z.shiftl (b 1%nat) 16)) (Z.shiftl (b 2%nat) 8)) 0xff) in
  let low := u32 (Z.lor (Z.lor (Z.lor (Z.shiftl 0xfe 24) (Z.shiftl (b 3%nat) 16)) (Z.shiftl (b 4%nat) 8)) (b 5%nat)) in
  (low, high).

(** [memcmp] over the six bytes. *)
Fixpoint memcmp (a b : list Z) : Z :=
  match a, b with
  | x :: a', y :: b' => if x =? y then memcmp a' b' else if x <? y then -1 else 1
  | _, _ => 0
  end.
Definition equals (self other : MACAddress) : bool := memcmp self other =? 0.
Definition compareTo (self other : MACAddress) : Z := memcmp self other.

(** ** Printing: ["%2.2X-"] for each byte, the last hyphen dropped *)

Definition hex_digit (n : Z) : ascii :=
  if n <? 10 then Ascii.ascii_of_N (Z.to_N (n + 48)) else Ascii.ascii_of_N (Z.to_N (n + 55)).

Definition byte_hex (b : Z) (rest : string) : string :=
  String (hex_digit (b / 16)) (String (hex_digit (b mod 16)) rest).

Fixpoint str (self : MACAddress) : string :=
  match self with
  | [] => EmptyString
  | [b] => byte_hex b EmptyString
  | b :: m => byte_hex b (String "-" (str m))
  end.

(** ** [generateAutoAddress]: the static counter and the address made from it *)

Definition generateAutoAddress (autoAddressCtr : Z) : MACAddress * Z :=
  let ctr := u32 (autoAddressCtr + 1) in
  ([10; 170;
    Z.land (Z.shiftr ctr 24) 255; Z.land (Z.shiftr ctr 16) 255;
    Z.land (Z.shiftr ctr 8) 255; Z.land ctr 255], ctr).

(** ** Lemmas *)

Lemma hex_digit_ok n :
  0 <= n < 16 -> isxdigit (hex_digit n) = true /\ xdigit_value (hex_digit n) = n.
Proof.
  intros Hn.
  assert (H : isxdigit (hex_digit n) && (xdigit_value (hex_digit n) =? n) = true).
  { refine (forall_range (fun n => isxdigit (hex_digit n) && (xdigit_value (hex_digit n) =? n))
              0 16 _ n Hn). vm_compute. reflexivity. }
  apply andb_true_iff in H as [H1 H2]. by apply Z.eqb_eq in H2.
Qed.

Lemma byte_nibbles b : byte_ok b -> 0 <= b / 16 < 16 /\ 0 <= b mod 16 < 16.
Proof. unfold byte_ok. intros. dmlia. Qed.

Lemma hextobin_byte_hex b s : byte_ok b -> hextobin_byte (byte_hex b s) = (b, s, true).
Proof.
  intros Hb. destruct (byte_nibbles b Hb) as [Hh Hl].
  destruct (hex_digit_ok _ Hh) as [Xh Vh], (hex_digit_ok _ Hl) as [Xl Vl].
  unfold hextobin_byte, byte_hex. cbn [skip_nonhex]. rewrite Xh. cbn [skip_nonhex]. rewrite Xl.
  rewrite Vh, Vl, Z.shiftl_mul_pow2 by lia. do 2 f_equal.
  unfold byte_ok in Hb. rewrite (u8_small (b / 16)), (u8_small (_ * 2 ^ 4)), u8_small by lia.
  pose proof (Z.div_mod b 16). lia.
Qed.

Lemma hextobin_cons b s n bs k :
  byte_ok b -> hextobin s n = (bs, k) -> hextobin (byte_hex b s) (S n) = (b :: bs, k + 1).
Proof. intros Hb Hs. cbn [hextobin]. by rewrite hextobin_byte_hex, Hs. Qed.

Lemma hextobin_str m : Forall byte_ok m -> hextobin (str m) (length m) = (m, Z.of_nat (length m)).
Proof.
  induction m as [|b m IH]; [done|]. intros [Hb Hm]%Forall_cons_1. specialize (IH Hm).
  destruct m as [|b' m].
  - cbn [str length]. by rewrite (hextobin_cons _ _ _ [] 0).
  - change (str (b :: b' :: m)) with (byte_hex b (String "-" (str (b' :: m)))).
    change (length (b :: b' :: m)) with (S (length (b' :: m))).
    rewrite (hextobin_cons _ _ _ (b' :: m) (Z.of_nat (length (b' :: m)))); [|done|exact IH].
    f_equal. lia.
Qed.

Lemma count_hex_byte b s n :
  byte_ok b -> count_hex_digits s = Some n -> count_hex_digits (byte_hex b s) = Some (2 + n).
Proof.
  intros Hb Hs. destruct (byte_nibbles b Hb) as [Hh Hl].
  destruct (hex_digit_ok _ Hh) as [Xh _], (hex_digit_ok _ Hl) as [Xl _].
  unfold byte_hex. cbn [count_hex_digits]. rewrite Xh, Xl, Hs. cbn. f_equal. lia.
Qed.

Lemma count_hex_str m :
  Forall byte_ok m -> count_hex_digits (str m) = Some (2 * Z.of_nat (length m)).
Proof.
  induction m as [|b m IH]; [done|]. intros [Hb Hm]%Forall_cons_1. specialize (IH Hm).
  destruct m as [|b' m]; cbn [str].
  - by rewrite (count_hex_byte _ _ 0).
  - rewrite (count_hex_byte _ _ (2 * Z.of_nat (length (b' :: m)))); [f_equal; cbn [length]; lia|done|].
    exact IH.
Qed.

Lemma tryParse_str m a : mac_wf m -> tryParse (Some (str m)) a = (true, m).
Proof.
  intros [Hl Hb]. unfold tryParse. rewrite count_hex_str, Hl by done.
  rewrite Z.eqb_refl. by rewrite <- Hl, hextobin_str.
Qed.

Lemma MACAddress_of_str_str m : mac_wf m -> MACAddress_of_str (str m) = Ok m.
Proof. intros H. unfold MACAddress_of_str, setAddress. by rewrite tryParse_str. Qed.

Lemma str_inj m1 m2 : mac_wf m1 -> mac_wf m2 -> str m1 = str m2 -> m1 = m2.
Proof.
  intros H1 H2 E. pose proof (MACAddress_of_str_str m1 H1) as P.
  rewrite E, MACAddress_of_str_str in P by done. by injection P.
Qed.

Lemma memcmp_0 a b : length a = length b -> memcmp a b = 0 <-> a = b.
Proof.
  revert b. induction a as [|x a IH]; intros [|y b]; cbn; intros Hl; try done.
  destruct (Z.eqb_spec x y) as [->|Hne].
  - rewrite IH by lia. naive_solver.
  - destruct (x <? y); naive_solver.
Qed.

Lemma equals_spec m1 m2 : mac_wf m1 -> mac_wf m2 -> equals m1 m2 = bool_decide (m1 = m2).
Proof.
  intros [L1 _] [L2 _]. unfold equals. apply eq_true_iff_eq.
  rewrite Z.eqb_eq, bool_decide_eq_true. apply memcmp_0. lia.
Qed.

Lemma isUnspecified_spec m : mac_wf m -> isUnspecified m = bool_decide (m = UNSPECIFIED_ADDRESS).
Proof.
  intros [L _]. unfold isUnspecified. apply eq_true_iff_eq.
  rewrite negb_true_iff, bool_decide_eq_true.
  do 6 (destruct m as [|? m]; [done|]). destruct m; [|done]. cbn.
  rewrite !orb_false_iff, !negb_false_iff, !Z.eqb_eq. unfold UNSPECIFIED_ADDRESS. naive_solver.
Qed.

Lemma UNSPECIFIED_wf : mac_wf UNSPECIFIED_ADDRESS.
Proof. split; [done|]. repeat constructor; done. Qed.
Lemma BROADCAST_wf : mac_wf BROADCAST_ADDRESS.
Proof. split; [done|]. repeat constructor; done. Qed.

Lemma str_nonempty m : mac_wf m -> str m <> "".
Proof. intros [L _]. do 2 (destruct m as [|? m]; [done|]). done. Qed.

#[export] Hint Resolve UNSPECIFIED_wf BROADCAST_wf : core.

(** ** What the parser computes: the hex digits paired up, separators ignored *)

Fixpoint hex_digits (s : string) : list Z :=
  match s with
  | EmptyString => []
  | String c s' => if isxdigit c then xdigit_value c :: hex_digits s' else hex_digits s'
  end.

Fixpoint syntax_ok (s : string) : bool :=
  match s with
  | EmptyString => true
  | String c s' =>
      (isxdigit c || Ascii.eqb c " " || Ascii.eqb c ":" || Ascii.eqb c "-") && syntax_ok s'
  end.

Fixpoint pair_up (ds : list Z) : list Z :=
  match ds with
  | h :: l :: ds' => 16 * h + l :: pair_up ds'
  | _ => []
  end.

Lemma count_hex_digits_spec s :
  count_hex_digits s =
    if syntax_ok s then Some (Z.of_nat (length (hex_digits s))) else None.
Proof.
  induction s as [|c s IH]; [done|]. cbn [count_hex_digits syntax_ok hex_digits].
  rewrite IH. destruct (isxdigit c); cbn [orb andb].
  - destruct (syntax_ok s); [|done]. cbn. f_equal. lia.
  - by destruct (Ascii.eqb c " " || Ascii.eqb c ":" || Ascii.eqb c "-").
Qed.

Lemma xdigit_value_range c : isxdigit c = true -> 0 <= xdigit_value c < 16.
Proof.
  destruct c as [[] [] [] [] [] [] [] []]; vm_compute; intros H;
    (discriminate H || (split; [discriminate | reflexivity])).
Qed.

Lemma skip_nonhex_digits s d ds :
  hex_digits s = d :: ds ->
  exists c s', skip_nonhex s = String c s' /\ isxdigit c = true /\ xdigit_value c = d /\ hex_digits s' = ds.
Proof.
  induction s as [|c s IH]; cbn; [done|].
  destruct (isxdigit c) eqn:E; [|exact IH]. intros [= <- <-]. by exists c, s.
Qed.

Lemma hextobin_byte_digits s h l ds :
  hex_digits s = h :: l :: ds ->
  exists s', hextobin_byte s = (16 * h + l, s', true) /\ hex_digits s' = ds /\ byte_ok (16 * h + l).
Proof.
  intros (c & s1 & E1 & X1 & <- & (c2 & s2 & E2 & X2 & <- & E3)%skip_nonhex_digits)%skip_nonhex_digits.
  apply xdigit_value_range in X1, X2. exists s2. unfold hextobin_byte. rewrite E1, E2.
  rewrite Z.shiftl_mul_pow2 by lia.
  rewrite (u8_small (xdigit_value c)), (u8_small (_ * 2 ^ 4)), u8_small by lia.
  unfold byte_ok. repeat split; [|done|lia|lia]. do 2 f_equal. lia.
Qed.

Lemma hextobin_digits n s :
  length (hex_digits s) = (2 * n)%nat ->
  (hextobin s n).1 = pair_up (hex_digits s) /\ Forall byte_ok (pair_up (hex_digits s)) /\
  length (pair_up (hex_digits s)) = n.
Proof.
  revert s. induction n as [|n IH]; intros s; cbn [hextobin].
  - by destruct (hex_digits s).
  - destruct (hex_digits s) as [|h [|l ds]] eqn:E; cbn [length]; intros Hl; try lia.
    destruct (hextobin_byte_digits _ _ _ _ E) as (s' & -> & <- & Hb).
    destruct (IH s') as (H1 & H2 & H3); [lia|].
    destruct (hextobin s' n) as [bs k]. cbn in *. subst bs. auto.
Qed.

(** ** Properties *)

(** C39: [str] and [tryParse] are inverse: the text printed for any six-byte
    address is accepted and parsed back to the same bytes, whatever the object
    held before; so the string keys of the routing tables identify the
    addresses they were made from. *)
Theorem mac_str_roundtrip m a :
  mac_wf m -> tryParse (Some (str m)) a = (true, m) /\ hextobin (str m) MAC_ADDRESS_BYTES = (m, 6).
Proof.
  intros H. split; [by apply tryParse_str|]. destruct H as [Hl Hb].
  rewrite <- Hl, hextobin_str by done. by rewrite Hl.
Qed.

Lemma mac_str_roundtrip_witness :
  tryParse (Some "0A-AA-00-00-01-FE") UNSPECIFIED_ADDRESS = (true, [10; 170; 0; 0; 1; 254]).
Proof.
  apply (mac_str_roundtrip [10; 170; 0; 0; 1; 254] UNSPECIFIED_ADDRESS).
  split; [reflexivity|]. repeat constructor; done.
Defined.

(** [tryParse] accepts exactly the strings made of twelve hex digits and
    any number of spaces, colons and hyphens, wherever these stand; it then
    stores the digits paired into six bytes, and it leaves the address alone
    when it refuses. *)
Theorem tryParse_spec s a :
  tryParse (Some s) a =
    (if syntax_ok s && (length (hex_digits s) =? 12)%nat
     then (true, pair_up (hex_digits s)) else (false, a)) /\
  (forall m, tryParse (Some s) a = (true, m) -> mac_wf m).
Proof.
  assert (E : tryParse (Some s) a =
    (if syntax_ok s && (length (hex_digits s) =? 12)%nat
     then (true, pair_up (hex_digits s)) else (false, a))).
  { unfold tryParse. rewrite count_hex_digits_spec. destruct (syntax_ok s); [|done]. cbn [andb].
    destruct (Nat.eqb_spec (length (hex_digits s)) 12) as [El|Hne].
    - rewrite El. change (Z.of_nat 12 =? 2 * Z.of_nat MAC_ADDRESS_BYTES) with true. cbv iota.
      by rewrite (proj1 (hextobin_digits MAC_ADDRESS_BYTES s El)).
    - rewrite (proj2 (Z.eqb_neq _ _)); [done|]. unfold MAC_ADDRESS_BYTES. lia. }
  split; [exact E|]. rewrite E. intros m.
  destruct (syntax_ok s); [|done]. cbn [andb].
  destruct (Nat.eqb_spec (length (hex_digits s)) 12) as [El|]; [|done]. intros [= <-].
  destruct (hextobin_digits 6 s El) as (_ & H2 & H3). by split.
Qed.

Lemma auto_bytes c : 0 <= c < 2 ^ 32 ->
  c = Z.land (Z.shiftr c 24) 255 * 2 ^ 24 + Z.land (Z.shiftr c 16) 255 * 2 ^ 16
      + Z.land (Z.shiftr c 8) 255 * 2 ^ 8 + Z.land c 255.
Proof.
  intros Hc. change 255 with (Z.ones 8). rewrite !Z.land_ones, !Z.shiftr_div_pow2 by lia. dmlia.
Qed.

Lemma land_255_ok z : byte_ok (Z.land z 255).
Proof. change 255 with (Z.ones 8). rewrite Z.land_ones by lia. apply Z.mod_pos_bound. lia. Qed.

Lemma generateAutoAddress_wf n : mac_wf (generateAutoAddress n).1.
Proof.
  split; [done|]. cbn. repeat (constructor; [first [apply land_255_ok | unfold byte_ok; lia]|]). constructor.
Qed.

Lemma generateAutoAddress_inj n1 n2 :
  0 <= n1 < 2 ^ 32 -> 0 <= n2 < 2 ^ 32 ->
  (generateAutoAddress n1).1 = (generateAutoAddress n2).1 -> n1 = n2.
Proof.
  intros H1 H2. unfold generateAutoAddress. cbn [fst]. intros [= E1 E2 E3 E4].
  pose proof (auto_bytes (u32 (n1 + 1)) (u32_range _)) as A1.
  pose proof (auto_bytes (u32 (n2 + 1)) (u32_range _)) as A2.
  rewrite E1, E2, E3, E4, <- A2 in A1. unfold u32 in A1. dmlia.
Qed.

(** The addresses handed out by [generateAutoAddress] are pairwise distinct
    until the 32-bit counter comes round, so are their printed forms, and none
    of them is the broadcast or the unspecified address. *)
Theorem autoAddress_unique n1 n2 :
  0 <= n1 < 2 ^ 32 -> 0 <= n2 < 2 ^ 32 -> n1 <> n2 ->
  (generateAutoAddress n1).1 <> (generateAutoAddress n2).1 /\
  str (generateAutoAddress n1).1 <> str (generateAutoAddress n2).1 /\
  isBroadcast (generateAutoAddress n1).1 = false /\
  isUnspecified (generateAutoAddress n1).1 = false.
Proof.
  intros H1 H2 Hne.
  assert (Hd : (generateAutoAddress n1).1 <> (generateAutoAddress n2).1)
    by (intros E; by apply generateAutoAddress_inj in E).
  repeat split.
  - exact Hd.
  - intros E. apply str_inj in E; auto using generateAutoAddress_wf.
  - unfold isBroadcast. apply Z.eqb_neq. cbn [generateAutoAddress fst foldr]. intros E.
    apply (f_equal (fun z => Z.testbit z 0)) in E. rewrite Z.land_spec in E. cbn in E. discriminate.
Qed.

Lemma autoAddress_unique_witness :
  (generateAutoAddress 0).1 <> (generateAutoAddress 255).1 /\
  str (generateAutoAddress 0).1 <> str (generateAutoAddress 255).1 /\
  isBroadcast (generateAutoAddress 0).1 = false /\ isUnspecified (generateAutoAddress 0).1 = false.
Proof. apply (autoAddress_unique 0 255); lia. Defined.

(** ** Interface identifiers *)

Lemma lor_bytes a b c d :
  byte_ok b -> byte_ok c -> byte_ok d ->
  Z.lor (Z.lor (Z.lor (Z.shiftl a 24) (Z.shiftl b 16)) (Z.shiftl c 8)) d = a * 2 ^ 24 + b * 2 ^ 16 + c * 2 ^ 8 + d.
Proof.
  intros Hb Hc Hd. unfold byte_ok in *.
  assert (Hs : forall x y n, 0 <= n -> 0 <= y < 2 ^ n -> Z.lor (Z.shiftl x n) y = x * 2 ^ n + y).
  { intros x y n Hn Hy. rewrite <- (Z.shiftl_mul_pow2 x n) by lia. symmetry. apply Z.add_nocarry_lor. apply Z.bits_inj'.
    intros k Hk. rewrite Z.land_spec, Z.bits_0. destruct (Z.ltb_spec k n).
    - by rewrite Z.shiftl_spec_low.
    - rewrite <- (Z.mod_small y (2 ^ n)) by lia. rewrite Z.mod_pow2_bits_high by lia. apply andb_false_r. }
  assert (H1 : Z.shiftl a 24 = Z.shiftl (Z.shiftl a 8) 16) by (by rewrite Z.shiftl_shiftl).
  rewrite H1, <- Z.shiftl_lor, (Hs a b 8) by lia.
  assert (H2 : forall x, Z.shiftl x 16 = Z.shiftl (Z.shiftl x 8) 8) by (intros x; by rewrite Z.shiftl_shiftl).
  rewrite H2, <- Z.shiftl_lor, (Hs _ c 8), (Hs _ d 8) by lia. lia.
Qed.

(** The interface identifier of an address determines it, and has ff:fe in the middle. *)
Lemma formInterfaceIdentifier_inj m1 m2 :
  mac_wf m1 -> mac_wf m2 -> formInterfaceIdentifier m1 = formInterfaceIdentifier m2 -> m1 = m2.
Proof.
  intros [L1 F1] [L2 F2].
  do 7 (destruct m1 as [|? m1]; try discriminate L1). do 7 (destruct m2 as [|? m2]; try discriminate L2).
  repeat match goal with H : Forall _ (_ :: _) |- _ => inversion_clear H end.
  unfold formInterfaceIdentifier. cbn [nth]. rewrite !lor_bytes by (try done; unfold byte_ok; lia).
  unfold u32, byte_ok in *. intros [= E1 E2]. rewrite !Z.mod_small in E1, E2 by lia.
  repeat f_equal; lia.
Qed.
