(* ===== verification/IDBuilder.v ===== *)
(** * Node identifiers: srwsn/networklayer/IDBuilder.{h,cc}

    An identifier packs, in 16 bits, ten bits taken from the node's address,
    four bits of distance to the sink and two bits of area:
    [mmmm mmmm mmdd ddaa].  The object is its one field [my_id]. *)

From S2P Require Import Prelude MACAddress.

Open Scope string_scope.
Open Scope list_scope.
Open Scope Z_scope.

(** The width of [size_t]: 32 on the platforms OMNeT++ 4.0 was built for, 64
    on a 64-bit build.  It matters in [getLastMACNumberToInt]. *)
Inductive platform := Build32 | Build64.

Definition npos (p : platform) : Z :=
  match p with Build32 => 2 ^ 32 - 1 | Build64 => 2 ^ 64 - 1 end.

(** ** Accessors *)

Definition getMACExt (my_id : Z) : Z := Z.shiftr (Z.land my_id 65472) 6.
Definition getSinkDistance (my_id : Z) : Z := Z.shiftr (Z.land my_id 60) 2.
Definition getArea (my_id : Z) : Z := Z.land my_id 3.

(** The constructor that takes an identifier. *)
Definition IDBuilder_of (id : Z) : outcome Z :=
  _ ← check (id <? 65535) (AssertFailed "id < 65535"); Ok id.

Definition setSinkDistance (sinkDistance : Z) (my_id : Z) : outcome Z :=
  _ ← check (sinkDistance <? 16) (AssertFailed "sinkDistance < 16");
  let my_id := Z.land my_id 65475 in
  Ok (u16 (my_id + Z.shiftl sinkDistance 2)).

Definition setArea (area : Z) (my_id : Z) : outcome Z :=
  _ ← check (area <? 4) (AssertFailed "area < 4");
  let my_id := Z.land my_id 65532 in
  Ok (u16 (my_id + area)).

(** ** The number at the end of a printed address *)

(** [mac.find_first_of("-")]. *)
Fixpoint find_hyphen (s : string) : option nat :=
  match s with
  | EmptyString => None
  | String c s' => if Ascii.eqb c "-" then Some O else S <$> find_hyphen s'
  end.

Definition find_first_of (p : platform) (s : string) : Z :=
  match find_hyphen s with Some n => Z.of_nat n | None => npos p end.

Fixpoint string_drop (n : nat) (s : string) : string :=
  match n, s with
  | O, _ => s
  | S n', String _ s' => string_drop n' s'
  | S _, EmptyString => EmptyString
  end.

(** [mac.substr(pos)]: throws when [pos] is past the end. *)
Definition substr (pos : Z) (s : string) : outcome string :=
  if pos <=? Z.of_nat (String.length s) then Ok (string_drop (Z.to_nat pos) s)
  else Fault (Thrown "std::out_of_range").

(** The loop: [cutAt] is an [unsigned int], [npos] a [size_t]; [cutAt+1] is
    computed in [unsigned int]. *)
Fixpoint cut_hyphens (p : platform) (fuel : nat) (mac : string) : outcome string :=
  match fuel with
  | O => Fault OutOfFuel
  | S fuel' =>
      let cutAt := u32 (find_first_of p mac) in
      if cutAt =? npos p then Ok mac
      else mac' ← substr (u32 (cutAt + 1)) mac; cut_hyphens p fuel' mac'
  end.

(** [convertor >> std::hex >> dec_n] on a text of hex digits; the conversions
    with a sign, a [0x] prefix, blanks or no digit at all are left out. *)
Fixpoint hex_value (acc : Z) (s : string) : option Z :=
  match s with
  | EmptyString => Some acc
  | String c s' => if isxdigit c then hex_value (16 * acc + xdigit_value c) s' else None
  end.

Definition read_hex_u16 (s : string) : outcome Z :=
  match s with
  | EmptyString => Fault (Undefined "dec_n read but not set")
  | _ => match hex_value 0 s with
         | Some v => Ok (if v <=? 65535 then v else 65535)
         | None => Fault (Undefined "conversion not modelled")
         end
  end.

Definition getLastMACNumberToInt (p : platform) (fuel : nat) (mac : string) : outcome Z :=
  tail ← cut_hyphens p fuel mac; read_hex_u16 tail.

(** Every turn of the loop drops at least one character, so as many turns as
    the text has characters, and one for the final test, are enough. *)
Definition mac_fuel (mac : string) : nat := S (String.length mac).

Definition setMACExt (p : platform) (mac : string) (my_id : Z) : outcome Z :=
  dec_n ← getLastMACNumberToInt p (mac_fuel mac) mac;
  _ ← check (dec_n <? 1024) (AssertFailed "dec_n < 1024");
  let my_id := Z.land my_id 63 in
  Ok (u16 (my_id + Z.shiftl dec_n 6)).

Definition isMACequal (p : platform) (mac : string) (my_id : Z) : outcome bool :=
  dec_n ← getLastMACNumberToInt p (mac_fuel mac) mac;
  Ok (dec_n =? getMACExt my_id).

(** ** The fields as division and remainder *)

Definition id_ok (id : Z) : Prop := 0 <= id < 65536.

Lemma getMACExt_div id : id_ok id -> getMACExt id = id / 64.
Proof.
  intros H. unfold getMACExt. change 65472 with (Z.shiftl (Z.ones 10) 6).
  rewrite field_get by lia. unfold id_ok in H. dmlia.
Qed.
Lemma getSinkDistance_div id : getSinkDistance id = (id / 4) mod 16.
Proof. unfold getSinkDistance. change 60 with (Z.shiftl (Z.ones 4) 2). by rewrite field_get by lia. Qed.
Lemma getArea_mod id : getArea id = id mod 4.
Proof. unfold getArea. change 3 with (Z.ones 2). by rewrite Z.land_ones by lia. Qed.

Lemma setSinkDistance_eq d id :
  id_ok id -> 0 <= d < 16 ->
  setSinkDistance d id = Ok (id - 4 * ((id / 4) mod 16) + 4 * d).
Proof.
  intros Hid Hd. unfold id_ok in Hid. unfold setSinkDistance, check.
  rewrite (proj2 (Z.ltb_lt d 16)) by lia. cbn -[Z.land Z.shiftl u16].
  change 65475 with (Z.ones 16 - Z.shiftl (Z.ones 4) 2).
  rewrite (field_clear _ 2 4 16) by lia. rewrite !Z.shiftl_mul_pow2 by lia.
  rewrite u16_small; [f_equal; eval_pow2; lia|]. dmlia.
Qed.

Lemma setArea_eq a id :
  id_ok id -> 0 <= a < 4 -> setArea a id = Ok (id - id mod 4 + a).
Proof.
  intros Hid Ha. unfold id_ok in Hid. unfold setArea, check.
  rewrite (proj2 (Z.ltb_lt a 4)) by lia. cbn -[Z.land Z.shiftl u16].
  change 65532 with (Z.ones 16 - Z.shiftl (Z.ones 2) 0).
  rewrite (field_clear _ 0 2 16), Z.shiftl_0_r, Z.div_1_r by lia.
  rewrite u16_small; [done|]. dmlia.
Qed.

(** The identifier as the triple it stands for. *)
Definition unpack (id : Z) : Z * Z * Z := (getMACExt id, getSinkDistance id, getArea id).
Definition pack (ext dist area : Z) : Z := ext * 64 + dist * 4 + area.

Lemma unpack_pack e d a :
  0 <= e < 1024 -> 0 <= d < 16 -> 0 <= a < 4 -> unpack (pack e d a) = (e, d, a) /\ id_ok (pack e d a).
Proof.
  intros He Hd Ha. assert (Hok : id_ok (pack e d a)) by (unfold id_ok, pack; lia).
  split; [|done]. unfold unpack. rewrite getMACExt_div, getSinkDistance_div, getArea_mod by done.
  unfold pack. pair_eq; dmlia.
Qed.

Lemma unpack_inj id1 id2 : id_ok id1 -> id_ok id2 -> unpack id1 = unpack id2 -> id1 = id2.
Proof.
  unfold unpack. intros H1 H2.
  rewrite !getMACExt_div, !getSinkDistance_div, !getArea_mod by done. intros [= E1 E2 E3].
  unfold id_ok in *. dmlia.
Qed.

Lemma setSinkDistance_unpack d id :
  id_ok id -> 0 <= d < 16 ->
  exists id', setSinkDistance d id = Ok id' /\ id_ok id' /\
    unpack id' = (getMACExt id, d, getArea id).
Proof.
  intros Hid Hd. eexists. rewrite setSinkDistance_eq by done. split; [done|].
  assert (Hok : id_ok (id - 4 * ((id / 4) mod 16) + 4 * d)) by (unfold id_ok in *; dmlia).
  split; [done|]. unfold unpack.
  rewrite !getMACExt_div, !getSinkDistance_div, !getArea_mod by done.
  unfold id_ok in *. pair_eq; dmlia.
Qed.

Lemma setArea_unpack a id :
  id_ok id -> 0 <= a < 4 ->
  exists id', setArea a id = Ok id' /\ id_ok id' /\
    unpack id' = (getMACExt id, getSinkDistance id, a).
Proof.
  intros Hid Ha. eexists. rewrite setArea_eq by done. split; [done|].
  assert (Hok : id_ok (id - id mod 4 + a)) by (unfold id_ok in *; dmlia).
  split; [done|]. unfold unpack.
  rewrite !getMACExt_div, !getSinkDistance_div, !getArea_mod by done.
  unfold id_ok in *. pair_eq; dmlia.
Qed.

(** ** The last number of a printed address *)

Lemma hex_digit_not_hyphen n : 0 <= n < 16 -> Ascii.eqb (hex_digit n) "-" = false.
Proof.
  intros Hn. apply negb_true_iff.
  refine (forall_range (fun n => negb (Ascii.eqb (hex_digit n) "-")) 0 16 _ n Hn).
  vm_compute. reflexivity.
Qed.

Lemma find_hyphen_byte b s :
  byte_ok b -> find_hyphen (byte_hex b s) = (fun n => S (S n)) <$> find_hyphen s.
Proof.
  intros Hb. destruct (byte_nibbles b Hb) as [Hh Hl]. unfold byte_hex. cbn [find_hyphen].
  rewrite !hex_digit_not_hyphen by done. by destruct (find_hyphen s).
Qed.

Lemma substr_3 c s : substr 3 (byte_hex c (String "-" s)) = Ok s.
Proof.
  unfold substr. rewrite (proj2 (Z.leb_le _ _)); [done|]. cbn [byte_hex String.length]. lia.
Qed.

Lemma cut_hyphens_str32 fuel m b :
  (length m < fuel)%nat -> Forall byte_ok (m ++ [b]) ->
  cut_hyphens Build32 fuel (str (m ++ [b])) = Ok (byte_hex b "").
Proof.
  revert fuel. induction m as [|c m IH]; intros fuel Hf [Hb Hm]%Forall_cons_1;
    (destruct fuel as [|fuel]; [cbn in Hf; lia|]).
  - cbn [app str cut_hyphens]. unfold find_first_of. by rewrite find_hyphen_byte.
  - replace (str ((c :: m) ++ [b])) with (byte_hex c (String "-" (str (m ++ [b]))))
      by (by destruct m).
    cbn [cut_hyphens]. unfold find_first_of. rewrite find_hyphen_byte by done.
    change ((fun n => S (S n)) <$> find_hyphen (String "-" (str (m ++ [b])))) with (Some 2%nat).
    change (u32 (Z.of_nat 2) =? npos Build32) with false.
    change (u32 (u32 (Z.of_nat 2) + 1)) with 3. rewrite substr_3.
    cbn in Hf. apply IH; [lia|done].
Qed.

Lemma hex_value_byte b : byte_ok b -> hex_value 0 (byte_hex b "") = Some b.
Proof.
  intros Hb. destruct (byte_nibbles b Hb) as [Hh Hl].
  destruct (hex_digit_ok _ Hh) as [Xh Vh], (hex_digit_ok _ Hl) as [Xl Vl].
  unfold byte_hex. cbn -[isxdigit xdigit_value hex_digit Z.mul Z.add Z.div Z.modulo].
  rewrite Xh, Xl, Vh, Vl. f_equal. pose proof (Z.div_mod b 16). lia.
Qed.

Lemma mac_split m : mac_wf m -> exists m5 b, m = m5 ++ [b] /\ length m5 = 5%nat /\ m !! 5%nat = Some b.
Proof.
  intros [Hl _]. do 6 (destruct m as [|? m]; [done|]). destruct m; [|done].
  by exists [z; z0; z1; z2; z3], z4.
Qed.

Lemma str_length_ge m : (length m <= S (String.length (str m)))%nat.
Proof. induction m as [|b [|b' m] IH]; cbn -[str] in *; [lia|cbn; lia|]. cbn. cbn in IH. lia. Qed.

Lemma getLast_str m b :
  mac_wf m -> m !! 5%nat = Some b ->
  getLastMACNumberToInt Build32 (mac_fuel (str m)) (str m) = Ok b.
Proof.
  intros Hwf Hb. destruct (mac_split m Hwf) as (m5 & b' & -> & Hl & E). simplify_eq.
  destruct Hwf as [_ HF]. unfold getLastMACNumberToInt.
  rewrite cut_hyphens_str32; [|unfold mac_fuel; pose proof (str_length_ge (m5 ++ [b])) as G;
    rewrite length_app in G; cbn in G; lia|done].
  assert (byte_ok b) as Hb' by (apply Forall_app in HF as [_ HF]; by inversion HF).
  cbn [mbind outcome_bind]. unfold read_hex_u16. rewrite hex_value_byte by done.
  unfold byte_hex. unfold byte_ok in Hb'. by rewrite (proj2 (Z.leb_le b 65535)) by lia.
Qed.

Lemma setMACExt_unpack m b id :
  mac_wf m -> m !! 5%nat = Some b -> id_ok id ->
  exists id', setMACExt Build32 (str m) id = Ok id' /\ id_ok id' /\
    unpack id' = (b, getSinkDistance id, getArea id).
Proof.
  intros Hwf Hb Hid. assert (byte_ok b) as Hbb.
  { destruct Hwf as [_ HF]. by apply (Forall_lookup_1 _ _ _ _ HF Hb). }
  unfold byte_ok, id_ok in *. exists (id mod 64 + 64 * b).
  unfold setMACExt. rewrite (getLast_str m b) by done. cbn [mbind outcome_bind]. unfold check.
  rewrite (proj2 (Z.ltb_lt b 1024)) by lia. cbn [mbind outcome_bind].
  change 63 with (Z.ones 6). rewrite Z.land_ones, Z.shiftl_mul_pow2 by lia.
  assert (Hok : id_ok (id mod 64 + 64 * b)) by (unfold id_ok; dmlia).
  split; [rewrite u16_small; [f_equal; eval_pow2; lia|dmlia]|]. split; [done|].
  unfold unpack. rewrite !getMACExt_div, !getSinkDistance_div, !getArea_mod by done.
  pair_eq; dmlia.
Qed.

(** ** Properties *)

(** The three setters each write their own field of the 16-bit identifier
    and keep the other two; an argument too wide for its field stops the run
    with the assertion instead of spilling into a neighbouring field; and the
    identifier is determined by its three fields. *)
Theorem id_fields_independent id d a m b :
  id_ok id -> 0 <= d -> 0 <= a -> mac_wf m -> m !! 5%nat = Some b ->
  (if d <? 16
   then exists id', setSinkDistance d id = Ok id' /\ id_ok id' /\
          unpack id' = (getMACExt id, d, getArea id)
   else setSinkDistance d id = Fault (AssertFailed "sinkDistance < 16")) /\
  (if a <? 4
   then exists id', setArea a id = Ok id' /\ id_ok id' /\
          unpack id' = (getMACExt id, getSinkDistance id, a)
   else setArea a id = Fault (AssertFailed "area < 4")) /\
  (exists id', setMACExt Build32 (str m) id = Ok id' /\ id_ok id' /\
          unpack id' = (b, getSinkDistance id, getArea id)) /\
  id = pack (getMACExt id) (getSinkDistance id) (getArea id).
Proof.
  intros Hid Hd Ha Hm Hb. repeat split.
  - destruct (Z.ltb_spec d 16) as [Hlt|Hge]; [apply setSinkDistance_unpack; [done|lia]|].
    unfold setSinkDistance, check. by rewrite (proj2 (Z.ltb_ge d 16)) by lia.
  - destruct (Z.ltb_spec a 4) as [Hlt|Hge]; [apply setArea_unpack; [done|lia]|].
    unfold setArea, check. by rewrite (proj2 (Z.ltb_ge a 4)) by lia.
  - by apply setMACExt_unpack.
  - rewrite getMACExt_div, getSinkDistance_div, getArea_mod by done. unfold pack, id_ok in *. dmlia.
Qed.

Lemma id_fields_independent_witness :
  exists id', setMACExt Build32 "0A-AA-00-00-00-07" (pack 1023 4 2) = Ok id' /\ id_ok id' /\
    unpack id' = (7, 4, 2).
Proof.
  apply (id_fields_independent (pack 1023 4 2) 16 4 [10; 170; 0; 0; 0; 7] 7);
    [split; done | lia | lia | split; [done | repeat constructor; done] | reflexivity].
Defined.

(** With a 32-bit [size_t] the loop that cuts the printed address at its
    hyphens ends (at most as many turns as the text has characters) and the
    number read is the last byte of the address. *)
Theorem getLastMACNumberToInt_32 m b :
  mac_wf m -> m !! 5%nat = Some b ->
  getLastMACNumberToInt Build32 (mac_fuel (str m)) (str m) = Ok b.
Proof. apply getLast_str. Qed.

Lemma getLastMACNumberToInt_32_witness :
  getLastMACNumberToInt Build32 (mac_fuel "00-12-EF-32-AA-AE") "00-12-EF-32-AA-AE" = Ok 174.
Proof.
  apply (getLastMACNumberToInt_32 [0; 18; 239; 50; 170; 174] 174);
    [split; [done | repeat constructor; done] | reflexivity].
Defined.

Lemma find_first_of_bound p s :
  find_hyphen s <> None -> 0 <= find_first_of p s < Z.of_nat (String.length s).
Proof.
  unfold find_first_of. induction s as [|c s IH]; cbn -[Z.of_nat]; [done|].
  destruct (Ascii.eqb c "-"); [lia|].
  destruct (find_hyphen s) as [n|]; cbn -[Z.of_nat] in *; [|done]. intros _.
  destruct IH; [done|]. lia.
Qed.

Lemma string_drop_length n s : (String.length (string_drop n s) <= String.length s)%nat.
Proof.
  revert s. induction n as [|n IH]; intros [|c s]; cbn; try lia.
  specialize (IH s). lia.
Qed.

(** With a 64-bit [size_t] the loop of [getLastMACNumberToInt] never ends:
    [npos] does not fit the [unsigned int] it is stored in, so the test for the
    end of the search never holds and the text is cut at 0 for ever. *)
Theorem getLastMACNumberToInt_64_diverges fuel mac :
  Z.of_nat (String.length mac) < 2 ^ 32 - 1 ->
  getLastMACNumberToInt Build64 fuel mac = Fault OutOfFuel.
Proof.
  intros Hl. unfold getLastMACNumberToInt.
  assert (cut_hyphens Build64 fuel mac = Fault OutOfFuel) as ->; [|done].
  revert mac Hl. induction fuel as [|fuel IH]; intros mac Hl; [done|]. cbn [cut_hyphens].
  rewrite (proj2 (Z.eqb_neq _ _)); [|cbn [npos]; pose proof (u32_range (find_first_of Build64 mac)); lia].
  destruct (find_hyphen mac) as [n|] eqn:E.
  - pose proof (find_first_of_bound Build64 mac) as B. rewrite E in B. specialize (B ltac:(done)).
    rewrite (u32_small (find_first_of _ _)), u32_small by lia.
    unfold substr. rewrite (proj2 (Z.leb_le _ _)) by lia. cbn [mbind outcome_bind]. apply IH.
    pose proof (string_drop_length (Z.to_nat (find_first_of Build64 mac + 1)) mac). lia.
  - unfold find_first_of. rewrite E. change (u32 (u32 (npos Build64) + 1)) with 0.
    unfold substr. rewrite (proj2 (Z.leb_le _ _)) by lia. by apply IH.
Qed.

Lemma getLastMACNumberToInt_64_diverges_witness :
  getLastMACNumberToInt Build64 1000 "00-12-EF-32-AA-AE" = Fault OutOfFuel.
Proof. apply (getLastMACNumberToInt_64_diverges 1000 "00-12-EF-32-AA-AE"). reflexivity. Defined.
