(* ===== verification/BloomFilter.v ===== *)
(** * Bloom filters: srwsn/networklayer/BloomFilter.{h,cc}

    The bit array is a [char] array on the heap, and the class has no copy
    constructor: a copy of a filter (in a packet, in a neighbour table) shares
    the array of the original.  The heap of arrays is therefore explicit, and a
    filter refers to its array by location. *)

From S2P Require Import Prelude MACAddress.

Open Scope string_scope.
Open Scope list_scope.
Open Scope Z_scope.

Abbreviation loc := positive.
Abbreviation heap := (gmap positive (list Z)).

(** [typedef unsigned int] function from C strings. *)
Definition hashfunc_t : Type := string -> Z.

(** The members of an initialised filter. *)
Record BloomFilter := mkBloom {
  asize : Z;
  a : loc;
  nfuncs : nat;
  funcs : list hashfunc_t;
}.

(** [BloomFilter()] leaves every member indeterminate: [None]. *)
Definition bloom : Type := option BloomFilter.

Definition CHAR_BIT : Z := 8.

(** ** Bits of a [char] array *)

(** [a[n/CHAR_BIT] |= (1<<(n%CHAR_BIT))] *)
Definition SETBIT (arr : list Z) (n : Z) : outcome (list Z) :=
  let k := Z.to_nat (n / CHAR_BIT) in
  match arr !! k with
  | Some b => Ok (<[k := u8 (Z.lor b (Z.shiftl 1 (n mod CHAR_BIT)))]> arr)
  | None => Fault (Undefined "array index")
  end.

(** [a[n/CHAR_BIT] & (1<<(n%CHAR_BIT))], tested against 0. *)
Definition GETBIT (arr : list Z) (n : Z) : outcome bool :=
  match arr !! Z.to_nat (n / CHAR_BIT) with
  | Some b => Ok (negb (Z.land b (Z.shiftl 1 (n mod CHAR_BIT)) =? 0))
  | None => Fault (Undefined "array index")
  end.

(** ** Operations *)

(** [new char[n]]: the bytes are whatever the memory held, [junk]. *)
Definition new_chars (n : nat) (junk : nat -> Z) : M heap loc := fun h =>
  let l := fresh (dom h) in
  Ok (l, <[l := (fun i => u8 (junk i)) <$> seq 0 n]> h).

(** The variadic constructor: [args] are the function pointers passed. *)
Definition BloomFilter_new (size : Z) (nfuncs : nat) (args : list hashfunc_t) (junk : nat -> Z)
    : M heap BloomFilter :=
  arr ← new_chars (Z.to_nat ((size + CHAR_BIT - 1) / CHAR_BIT)) junk;
  if bool_decide (nfuncs <= length args)%nat
  then mret (mkBloom size arr nfuncs (take nfuncs args))
  else fail (Undefined "va_arg").

(** [funcs[n](s) % asize] *)
Definition hash_index (bf : BloomFilter) (f : hashfunc_t) (s : string) : outcome Z :=
  if asize bf =? 0 then Fault (Undefined "division by zero") else Ok (f s mod asize bf).

Fixpoint Add_loop (bf : BloomFilter) (fs : list hashfunc_t) (s : string) (arr : list Z)
    : outcome (list Z) :=
  match fs with
  | [] => Ok arr
  | f :: fs' =>
      i ← hash_index bf f s;
      arr' ← SETBIT arr i;
      Add_loop bf fs' s arr'
  end.

(** [Add(const char* )]: returns 0. *)
Definition Add (b : bloom) (s : string) : M heap Z := fun h =>
  match b with
  | None => Fault (Undefined "uninitialised filter")
  | Some bf =>
      match h !! a bf with
      | None => Fault (Undefined "dangling array")
      | Some arr =>
          arr' ← Add_loop bf (funcs bf) s arr;
          Ok (0, <[a bf := arr']> h)
      end
  end.

Fixpoint Check_loop (bf : BloomFilter) (fs : list hashfunc_t) (s : string) (arr : list Z)
    : outcome Z :=
  match fs with
  | [] => Ok 1
  | f :: fs' =>
      i ← hash_index bf f s;
      b ← GETBIT arr i;
      if (b : bool) then Check_loop bf fs' s arr else Ok 0
  end.

(** [Check(const char* )]: 1 if every bit is set, 0 otherwise. *)
Definition Check_ (b : bloom) (s : string) : M heap Z := fun h =>
  match b with
  | None => Fault (Undefined "uninitialised filter")
  | Some bf =>
      match h !! a bf with
      | None => Fault (Undefined "dangling array")
      | Some arr => r ← Check_loop bf (funcs bf) s arr; Ok (r, h)
      end
  end.

(** The overloads on [std::string] copy the text with [strncpy], that is, up to
    its first NUL. *)
Fixpoint c_str (w : string) : string :=
  match w with
  | EmptyString => EmptyString
  | String c w' => if code c =? 0 then EmptyString else String c (c_str w')
  end.

Definition Add_string (b : bloom) (word : string) : M heap Z := Add b (c_str word).
Definition Check_string (b : bloom) (word : string) : M heap Z := Check_ b (c_str word).

(** ** Abstraction: the set of bits *)

Definition bit (arr : list Z) (i : Z) : bool :=
  match arr !! Z.to_nat (i / 8) with
  | Some b => Z.testbit b (i mod 8)
  | None => false
  end.

Definition array_ok (bf : BloomFilter) (arr : list Z) : Prop :=
  0 < asize bf /\ asize bf <= 8 * Z.of_nat (length arr) /\ Forall byte_ok arr.

(** A filter whose array is allocated and long enough. *)
Definition bloom_ok (h : heap) (bf : BloomFilter) : Prop :=
  exists arr, h !! a bf = Some arr /\ array_ok bf arr.

Lemma index_range i n : 0 <= i < 8 * Z.of_nat n -> (Z.to_nat (i / 8) < n)%nat /\ 0 <= i mod 8 < 8.
Proof. intros. split; dmlia. Qed.

Lemma land_bit b k : 0 <= k < 8 -> negb (Z.land b (Z.shiftl 1 k) =? 0) = Z.testbit b k.
Proof.
  intros Hk. rewrite Z.shiftl_1_l. destruct (Z.testbit b k) eqn:E.
  - apply negb_true_iff, Z.eqb_neq. intros H0.
    apply (f_equal (fun z => Z.testbit z k)) in H0.
    rewrite Z.land_spec, Z.pow2_bits_true, E, Z.bits_0 in H0 by lia. done.
  - apply negb_false_iff, Z.eqb_eq, Z.bits_inj'. intros j Hj.
    rewrite Z.land_spec, Z.pow2_bits_eqb, Z.bits_0 by lia.
    destruct (Z.eqb_spec k j) as [<-|]; [by rewrite E|by rewrite andb_false_r].
Qed.

Lemma lor_byte b k : byte_ok b -> 0 <= k < 8 -> byte_ok (Z.lor b (Z.shiftl 1 k)).
Proof.
  unfold byte_ok. intros Hb Hk. rewrite Z.shiftl_1_l.
  assert (0 <= Z.lor b (2 ^ k)) by (apply Z.lor_nonneg; split; [lia|apply Z.pow_nonneg; lia]).
  split; [done|]. change 256 with (2 ^ 8).
  destruct (decide (Z.lor b (2 ^ k) = 0)) as [->|]; [lia|].
  apply Z.log2_lt_pow2; [lia|]. rewrite Z.log2_lor by (try lia; apply Z.pow_nonneg; lia).
  apply Z.max_lub_lt.
  - destruct (decide (b = 0)) as [->|]; [done|]. apply Z.log2_lt_pow2; lia.
  - rewrite Z.log2_pow2; lia.
Qed.

Lemma GETBIT_bit arr i : 0 <= i < 8 * Z.of_nat (length arr) -> GETBIT arr i = Ok (bit arr i).
Proof.
  intros Hi. destruct (index_range _ _ Hi) as [Hk Hm]. unfold GETBIT, bit, CHAR_BIT.
  destruct (lookup_lt_is_Some_2 arr _ Hk) as [b ->]. by rewrite land_bit.
Qed.

Lemma SETBIT_bit arr i :
  0 <= i < 8 * Z.of_nat (length arr) -> Forall byte_ok arr ->
  exists arr', SETBIT arr i = Ok arr' /\ length arr' = length arr /\ Forall byte_ok arr' /\
    forall j, 0 <= j -> bit arr' j = bit arr j || (j =? i).
Proof.
  intros Hi HF. destruct (index_range _ _ Hi) as [Hk Hm]. unfold SETBIT, CHAR_BIT.
  destruct (lookup_lt_is_Some_2 arr _ Hk) as [b Hb]. rewrite Hb. eexists. split; [done|].
  assert (Hbo : byte_ok b) by (by apply (Forall_lookup_1 _ _ _ _ HF Hb)).
  pose proof (lor_byte b (i mod 8) Hbo Hm) as Hl.
  rewrite u8_small by exact Hl. rewrite length_insert. split; [done|].
  split; [by apply Forall_insert|]. intros j Hj. unfold bit.
  destruct (decide (Z.to_nat (i / 8) = Z.to_nat (j / 8))) as [E|Hne].
  - rewrite <- E, list_lookup_insert_eq, Hb by done. rewrite Z.lor_spec, Z.shiftl_1_l. f_equal.
    rewrite Z.pow2_bits_eqb by lia. apply eq_true_iff_eq. rewrite !Z.eqb_eq.
    split; [|by intros ->]. intros E2. dmlia.
  - rewrite list_lookup_insert_ne by done.
    rewrite (proj2 (Z.eqb_neq j i)) by (intros ->; done). by rewrite orb_false_r.
Qed.

Lemma hash_index_ok bf arr f s :
  array_ok bf arr ->
  hash_index bf f s = Ok (f s mod asize bf) /\ 0 <= f s mod asize bf < 8 * Z.of_nat (length arr).
Proof.
  intros (H0 & H1 & _). unfold hash_index. rewrite (proj2 (Z.eqb_neq _ _)) by lia.
  pose proof (Z.mod_pos_bound (f s) (asize bf)). split; [done|lia].
Qed.

(** The bits [Add] turns on for a word. *)
Definition hits (bf : BloomFilter) (fs : list hashfunc_t) (s : string) (j : Z) : bool :=
  existsb (fun f => j =? f s mod asize bf) fs.

Lemma Add_loop_ok bf fs s arr :
  array_ok bf arr ->
  exists arr', Add_loop bf fs s arr = Ok arr' /\ length arr' = length arr /\ array_ok bf arr' /\
    forall j, 0 <= j -> bit arr' j = bit arr j || hits bf fs s j.
Proof.
  revert arr. induction fs as [|f fs IH]; intros arr Hok; cbn [Add_loop hits existsb].
  - exists arr. split; [done|]. split; [done|]. split; [done|]. intros. by rewrite orb_false_r.
  - destruct (hash_index_ok bf arr f s Hok) as [-> Hr]. cbn [mbind outcome_bind].
    destruct Hok as (H0 & H1 & HF).
    destruct (SETBIT_bit arr _ Hr HF) as (arr1 & -> & Hl & HF1 & Hb). cbn [mbind outcome_bind].
    destruct (IH arr1) as (arr2 & -> & Hl2 & Hok2 & Hb2);
      [split; [done|]; split; [by rewrite Hl|done]|].
    exists arr2. split; [done|]. split; [by rewrite Hl2|]. split; [done|]. intros j Hj.
    rewrite Hb2, Hb by done. unfold hits. by rewrite orb_assoc.
Qed.

Lemma Check_loop_ok bf fs s arr :
  array_ok bf arr ->
  Check_loop bf fs s arr =
    Ok (if forallb (fun f => bit arr (f s mod asize bf)) fs then 1 else 0).
Proof.
  intros Hok. induction fs as [|f fs IH]; cbn [Check_loop forallb]; [done|].
  destruct (hash_index_ok bf arr f s Hok) as [-> Hr]. cbn [mbind outcome_bind].
  rewrite GETBIT_bit by done. cbn [mbind outcome_bind].
  destruct (bit arr (f s mod asize bf)); [done|done].
Qed.

Lemma Add_ok h bf s :
  bloom_ok h bf ->
  exists arr arr', h !! a bf = Some arr /\ Add (Some bf) s h = Ok (0, <[a bf := arr']> h) /\
    length arr' = length arr /\ array_ok bf arr' /\
    forall j, 0 <= j -> bit arr' j = bit arr j || hits bf (funcs bf) s j.
Proof.
  intros (arr & Ha & Hok). exists arr.
  destruct (Add_loop_ok bf (funcs bf) s arr Hok) as (arr' & E & Hl & Hok' & Hb).
  exists arr'. cbn. rewrite Ha, E. done.
Qed.

Lemma Check_ok h bf s arr :
  h !! a bf = Some arr -> array_ok bf arr ->
  Check_ (Some bf) s h =
    Ok (if forallb (fun f => bit arr (f s mod asize bf)) (funcs bf) then 1 else 0, h).
Proof. intros Ha Hok. cbn. by rewrite Ha, Check_loop_ok. Qed.

(** ** Arrays only gain bits *)

Definition heap_le (h h' : heap) : Prop :=
  forall l arr, h !! l = Some arr ->
    exists arr', h' !! l = Some arr' /\ length arr' = length arr /\
      (Forall byte_ok arr -> Forall byte_ok arr') /\
      forall j, 0 <= j -> bit arr j = true -> bit arr' j = true.

#[export] Instance heap_le_preorder : PreOrder heap_le.
Proof.
  split.
  - intros h l arr Hl. by exists arr.
  - intros h1 h2 h3 H12 H23 l arr Hl.
    destruct (H12 _ _ Hl) as (arr2 & Hl2 & L2 & F2 & B2).
    destruct (H23 _ _ Hl2) as (arr3 & Hl3 & L3 & F3 & B3).
    exists arr3. split; [done|]. split; [by rewrite L3|]. split; [tauto|]. intros. apply B3, B2; done.
Qed.

Lemma bloom_ok_le h h' bf : heap_le h h' -> bloom_ok h bf -> bloom_ok h' bf.
Proof.
  intros Hle (arr & Ha & H0 & H1 & HF). destruct (Hle _ _ Ha) as (arr' & Ha' & L & F & _).
  exists arr'. split; [done|]. split; [done|]. split; [by rewrite L|auto].
Qed.

Lemma Add_le h bf s z h' : bloom_ok h bf -> Add (Some bf) s h = Ok (z, h') -> heap_le h h'.
Proof.
  intros Hok E. destruct (Add_ok h bf s Hok) as (arr & arr' & Ha & E' & L & (_ & _ & HF) & Hb).
  rewrite E' in E. injection E as <- <-. intros l arr0 Hl.
  destruct (decide (l = a bf)) as [->|Hne].
  - exists arr'. rewrite Ha in Hl. injection Hl as <-. rewrite lookup_insert_eq.
    split; [done|]. split; [done|]. split; [done|]. intros j Hj Hbit. by rewrite Hb, Hbit.
  - exists arr0. by rewrite lookup_insert_ne.
Qed.

(** A word is certainly found once the bits of its hashes are on, and stays
    found. *)
Definition marked (h : heap) (bf : BloomFilter) (s : string) : Prop :=
  bloom_ok h bf /\
  forall arr, h !! a bf = Some arr -> forallb (fun f => bit arr (f s mod asize bf)) (funcs bf) = true.

Lemma marked_Check h bf s : marked h bf s -> Check_ (Some bf) s h = Ok (1, h).
Proof.
  intros [(arr & Ha & Hok) Hm]. rewrite (Check_ok _ _ _ arr) by done. by rewrite Hm.
Qed.

Lemma Check_marked h bf s : bloom_ok h bf -> Check_ (Some bf) s h = Ok (1, h) -> marked h bf s.
Proof.
  intros Hok E. split; [done|]. destruct Hok as (arr & Ha & Hok). intros arr' Ha'.
  rewrite Ha in Ha'. injection Ha' as <-. rewrite (Check_ok _ _ _ arr) in E by done.
  by destruct (forallb _ _).
Qed.

Lemma marked_le h h' bf s : heap_le h h' -> marked h bf s -> marked h' bf s.
Proof.
  intros Hle [Hok Hm]. split; [by apply (bloom_ok_le h)|]. intros arr' Ha'.
  destruct Hok as (arr & Ha & H0 & _). destruct (Hle _ _ Ha) as (arr2 & Ha2 & _ & _ & Hb).
  rewrite Ha' in Ha2. injection Ha2 as ->. specialize (Hm _ Ha).
  rewrite !List.forallb_forall in *. intros f Hf. apply Hb; [|by apply Hm].
  by apply Z.mod_pos_bound.
Qed.

Lemma Add_marked h bf s z h' : bloom_ok h bf -> Add (Some bf) s h = Ok (z, h') -> marked h' bf s.
Proof.
  intros Hok E. pose proof (Add_le _ _ _ _ _ Hok E) as Hle.
  split; [by apply (bloom_ok_le h)|].
  destruct (Add_ok h bf s Hok) as (arr & arr' & Ha & E' & L & (H0 & _) & Hb).
  rewrite E' in E. injection E as <- <-. intros arr1. rewrite lookup_insert_eq. intros [= <-].
  apply List.forallb_forall. intros f Hf. rewrite Hb by (by apply Z.mod_pos_bound).
  apply orb_true_iff. right. unfold hits. apply List.existsb_exists. exists f. split; [done|].
  by apply Z.eqb_eq.
Qed.

(** A run of additions through any filters of the simulation. *)
Fixpoint run_adds (adds : list (BloomFilter * string)) : M heap unit :=
  match adds with
  | [] => mret tt
  | (bf, s) :: adds' => Add (Some bf) s ;; run_adds adds'
  end.

Lemma run_adds_ok adds h :
  Forall (fun e => bloom_ok h e.1) adds -> exists h', run_adds adds h = Ok (tt, h') /\ heap_le h h'.
Proof.
  revert h. induction adds as [|[bf s] adds IH]; intros h HF; cbn [run_adds].
  - exists h. done.
  - apply Forall_cons_1 in HF as [Hb HF]. cbn in Hb.
    destruct (Add_ok h bf s Hb) as (arr & arr' & _ & E & _).
    pose proof (Add_le _ _ _ _ _ Hb E) as Hle.
    destruct (IH (<[a bf := arr']> h)) as (h' & E' & Hle').
    { eapply Forall_impl; [exact HF|]. intros e. by apply bloom_ok_le. }
    exists h'. unfold mbind, M_bind. rewrite E. split; [done|]. by etrans.
Qed.

(** ** The set of bits as a finite set *)

Definition abs (arr : list Z) (n : Z) : gset Z :=
  list_to_set (filter (fun i => bit arr i = true) (seqZ 0 n)).

Lemma elem_of_abs arr n i : i ∈ abs arr n <-> 0 <= i < n /\ bit arr i = true.
Proof. unfold abs. rewrite elem_of_list_to_set, list_elem_of_filter, elem_of_seqZ. naive_solver lia. Qed.

Definition indices (bf : BloomFilter) (s : string) : gset Z :=
  list_to_set ((fun f : hashfunc_t => f s mod asize bf) <$> funcs bf).

Lemma elem_of_indices bf s i : i ∈ indices bf s <-> hits bf (funcs bf) s i = true.
Proof.
  unfold indices, hits. rewrite elem_of_list_to_set, list_elem_of_fmap, List.existsb_exists.
  setoid_rewrite Z.eqb_eq. setoid_rewrite list_elem_of_In. naive_solver.
Qed.

Lemma Check_subset bf s arr :
  array_ok bf arr ->
  forallb (fun f => bit arr (f s mod asize bf)) (funcs bf) =
    bool_decide (indices bf s ⊆ abs arr (asize bf)).
Proof.
  intros (H0 & _). apply eq_true_iff_eq.
  rewrite List.forallb_forall, bool_decide_eq_true. split.
  - intros Hf i. rewrite elem_of_indices, elem_of_abs. unfold hits.
    intros (f & Hin & ->%Z.eqb_eq)%List.existsb_exists. split; [by apply Z.mod_pos_bound|auto].
  - intros Hs f Hin. assert (f s mod asize bf ∈ abs arr (asize bf)) as [_ Hb]%elem_of_abs; [|done].
    apply Hs, elem_of_indices. unfold hits. apply List.existsb_exists. exists f.
    split; [done|by apply Z.eqb_eq].
Qed.

Lemma new_chars_lookup n junk h l h' :
  new_chars n junk h = Ok (l, h') ->
  h !! l = None /\ h' = <[l := (fun i => u8 (junk i)) <$> seq 0 n]> h.
Proof.
  unfold new_chars. intros [= <- <-]. split; [|done].
  apply not_elem_of_dom, is_fresh.
Qed.

Lemma junk_bit n junk i :
  0 <= i < 8 * Z.of_nat n ->
  bit ((fun i => u8 (junk i)) <$> seq 0 n) i = Z.testbit (u8 (junk (Z.to_nat (i / 8)))) (i mod 8).
Proof.
  intros Hi. destruct (index_range _ _ Hi) as [Hk _]. unfold bit.
  rewrite list_lookup_fmap, (lookup_seq_lt 0 n) by done. done.
Qed.

Lemma BloomFilter_new_ok size nf args junk h :
  0 < size -> (nf <= length args)%nat ->
  exists bf h', BloomFilter_new size nf args junk h = Ok (bf, h') /\
    asize bf = size /\ funcs bf = take nf args /\ bloom_ok h' bf /\ h !! a bf = None /\
    heap_le h h' /\
    h' !! a bf = Some ((fun i => u8 (junk i)) <$> seq 0 (Z.to_nat ((size + 7) / 8))).
Proof.
  intros Hs Hn. unfold BloomFilter_new, mbind, M_bind.
  destruct (new_chars _ junk h) as [[l h']|] eqn:E; [|done].
  apply new_chars_lookup in E as [Hf ->]. rewrite bool_decide_eq_true_2 by done.
  unfold CHAR_BIT. replace (size + 8 - 1) with (size + 7) by lia.
  eexists _, _. split; [done|]. cbn. repeat split; try done.
  - eexists. cbn. rewrite lookup_insert_eq. split; [done|]. split; [done|].
    rewrite length_fmap, length_seq. split; [cbn [asize]; dmlia|]. apply Forall_fmap, Forall_forall.
    intros i _. apply u8_range.
  - intros l' arr Hl. exists arr. split; [|done]. rewrite lookup_insert_ne; [done|].
    intros ->. by rewrite Hf in Hl.
  - by rewrite lookup_insert_eq.
Qed.

(** ** Properties *)

(** No false negatives, and no fault: a word added to a filter is found by
    every later [Check] on that filter, after any sequence of additions made
    through any filters of the simulation, copies that share the array
    included; every array access of the run is in bounds. *)
Theorem bloom_no_false_negative h bf s adds :
  bloom_ok h bf -> Forall (fun e => bloom_ok h e.1) adds ->
  exists h1 h2, Add (Some bf) s h = Ok (0, h1) /\ run_adds adds h1 = Ok (tt, h2) /\
    Check_ (Some bf) s h2 = Ok (1, h2).
Proof.
  intros Hok HF. destruct (Add_ok h bf s Hok) as (arr & arr' & _ & E & _).
  pose proof (Add_le _ _ _ _ _ Hok E) as Hle.
  destruct (run_adds_ok adds (<[a bf := arr']> h)) as (h2 & E2 & Hle2).
  { eapply Forall_impl; [exact HF|]. intros e. by apply bloom_ok_le. }
  exists (<[a bf := arr']> h), h2. split; [done|]. split; [done|].
  apply marked_Check. eapply marked_le; [exact Hle2|]. by eapply Add_marked.
Qed.

Lemma bloom_no_false_negative_witness :
  let bf := mkBloom 12 1 1 [fun s => Z.of_nat (String.length s)] in
  exists h1 h2, Add (Some bf) "TEMPERATURE" {[1%positive := [0; 0]]} = Ok (0, h1) /\
    run_adds [(bf, "SON"); (mkBloom 9 1 1 (funcs bf), "PUIT")] h1 = Ok (tt, h2) /\
    Check_ (Some bf) "TEMPERATURE" h2 = Ok (1, h2).
Proof.
  set (bf := mkBloom 12 1 1 [fun s => Z.of_nat (String.length s)]). cbv zeta.
  assert (H : forall n, 0 < n <= 16 ->
    bloom_ok {[1%positive := [0; 0]]} (mkBloom n 1 1 [fun s => Z.of_nat (String.length s)])).
  { intros n Hn. exists [0; 0]. split; [done|]. repeat split; cbn; try lia.
    repeat constructor; done. }
  apply (bloom_no_false_negative {[1%positive := [0; 0]]} bf "TEMPERATURE"
    [(bf, "SON"); (mkBloom 9 1 1 (funcs bf), "PUIT")]); [apply H; lia|].
  repeat constructor; apply H; lia.
Defined.

(** C34: a filter is a set of bit positions: [Add] adds the positions of the
    word's hashes and nothing else, leaving every other array alone; [Check]
    answers whether the positions of the word are all in the set, and changes
    nothing. *)
Theorem bloom_refines_set h bf s arr :
  h !! a bf = Some arr -> array_ok bf arr ->
  (exists arr', Add (Some bf) s h = Ok (0, <[a bf := arr']> h) /\ array_ok bf arr' /\
     abs arr' (asize bf) = abs arr (asize bf) ∪ indices bf s) /\
  Check_ (Some bf) s h =
    Ok (if bool_decide (indices bf s ⊆ abs arr (asize bf)) then 1 else 0, h).
Proof.
  intros Ha Hok. split; [|by rewrite (Check_ok _ _ _ arr), Check_subset].
  destruct (Add_ok h bf s) as (arr0 & arr' & Ha0 & E & _ & Hok' & Hb); [by exists arr|].
  rewrite Ha in Ha0. injection Ha0 as <-. exists arr'. split; [done|]. split; [done|].
  apply set_eq. intros i. rewrite elem_of_union, !elem_of_abs, elem_of_indices. split.
  - intros [Hi Hbit]. rewrite Hb in Hbit by lia. apply orb_true_iff in Hbit as [?|?]; auto.
  - intros [[Hi Hbit]|Hh]; [by rewrite Hb, Hbit by lia|].
    destruct Hok as (H0 & _). assert (0 <= i < asize bf) as Hi.
    { unfold hits in Hh. apply List.existsb_exists in Hh as (f & _ & ->%Z.eqb_eq).
      by apply Z.mod_pos_bound. }
    split; [done|]. rewrite Hb, Hh by lia. apply orb_true_r.
Qed.

Lemma bloom_refines_set_witness :
  let bf := mkBloom 12 1 1 [fun s => Z.of_nat (String.length s)] in
  Check_ (Some bf) "SON" {[1%positive := [8; 0]]} =
    Ok (if bool_decide (indices bf "SON" ⊆ abs [8; 0] 12) then 1 else 0, {[1%positive := [8; 0]]}).
Proof.
  cbv zeta.
  apply (bloom_refines_set {[1%positive := [8; 0]]}
    (mkBloom 12 1 1 [fun s => Z.of_nat (String.length s)]) "SON" [8; 0]); [reflexivity|].
  repeat split; cbn; try lia. repeat constructor; done.
Defined.

(** The constructor allocates an array of its own, long enough for [size]
    bits, but does not clear it: the new filter holds the bits the memory
    happened to hold, so it is empty only over zeroed memory, and over memory
    of ones it answers 1 for every word. *)
Theorem bloom_new_contents size nf args junk h :
  0 < size -> (nf <= length args)%nat ->
  exists bf h' arr, BloomFilter_new size nf args junk h = Ok (bf, h') /\
    h !! a bf = None /\ h' !! a bf = Some arr /\ array_ok bf arr /\
    (forall i, 0 <= i < size ->
       i ∈ abs arr (asize bf) <-> Z.testbit (u8 (junk (Z.to_nat (i / 8)))) (i mod 8) = true) /\
    ((forall k, u8 (junk k) = 255) -> forall s, Check_ (Some bf) s h' = Ok (1, h')).
Proof.
  intros Hs Hn.
  destruct (BloomFilter_new_ok size nf args junk h Hs Hn)
    as (bf & h' & E & Has & _ & (arr & Ha & Hok) & Hf & _ & Hc).
  exists bf, h', arr. split; [done|]. split; [done|]. split; [done|]. split; [done|].
  rewrite Hc in Ha. injection Ha as <-.
  assert (Hbit : forall i, 0 <= i < size ->
    i ∈ abs ((fun i => u8 (junk i)) <$> seq 0 (Z.to_nat ((size + 7) / 8))) (asize bf) <->
    Z.testbit (u8 (junk (Z.to_nat (i / 8)))) (i mod 8) = true).
  { intros i Hi. rewrite elem_of_abs, junk_bit by dmlia. rewrite Has. naive_solver. }
  split; [exact Hbit|]. intros H255 s.
  rewrite (Check_ok _ _ _ _ Hc Hok), Check_subset by done.
  rewrite bool_decide_eq_true_2; [done|]. intros i Hi. apply Hbit.
  - rewrite elem_of_indices in Hi. unfold hits in Hi.
    apply List.existsb_exists in Hi as (f & _ & ->%Z.eqb_eq). rewrite Has. by apply Z.mod_pos_bound.
  - rewrite H255. change 255 with (Z.ones 8).
    rewrite Z.testbit_ones_nonneg by dmlia. apply Z.ltb_lt. dmlia.
Qed.

Lemma bloom_new_contents_witness :
  exists bf h' arr,
    BloomFilter_new 100 2 [fun s => Z.of_nat (String.length s); fun _ => 7] (fun _ => 255) ∅ = Ok (bf, h') /\
    (∅ : heap) !! a bf = None /\ h' !! a bf = Some arr /\ array_ok bf arr /\
    (forall i, 0 <= i < 100 ->
       i ∈ abs arr (asize bf) <-> Z.testbit (u8 255) (i mod 8) = true) /\
    ((forall k : nat, u8 255 = 255) -> forall s, Check_ (Some bf) s h' = Ok (1, h')).
Proof.
  apply (bloom_new_contents 100 2 [fun s => Z.of_nat (String.length s); fun _ => 7]
    (fun _ => 255) ∅); [lia | cbn; lia].
Defined.
