(* ===== verification/BloomTable.v ===== *)
(** * The table of Bloom filters: srwsn/networklayer/BloomTable.{h,cc}

    A node keeps its own filter and, for each direct neighbour, a copy of the
    neighbour's filter keyed by the printed address.  The table is a record;
    the arrays behind the filters live in the heap shared by the simulation. *)

From S2P Require Import Prelude StdMap MACAddress BloomFilter.

Open Scope string_scope.
Open Scope list_scope.
Open Scope Z_scope.

(** ** The two hash functions, on 32-bit unsigned integers *)

(** [while( *key) h ^= (h<<5)+(h>>2)+(unsigned char)*key++;] *)
Fixpoint sax_loop (h : Z) (key : string) : Z :=
  match key with
  | EmptyString => h
  | String c key' =>
      if code c =? 0 then h
      else sax_loop (Z.lxor h (u32 (u32 (Z.shiftl h 5) + Z.shiftr h 2 + code c))) key'
  end.
Definition sax_hash (key : string) : Z := sax_loop 0 key.

(** [while( *key) h = (unsigned char)*key++ + (h<<6) + (h<<16) - h;] *)
Fixpoint sdbm_loop (h : Z) (key : string) : Z :=
  match key with
  | EmptyString => h
  | String c key' =>
      if code c =? 0 then h
      else sdbm_loop (u32 (code c + u32 (Z.shiftl h 6) + u32 (Z.shiftl h 16) - h)) key'
  end.
Definition sdbm_hash (key : string) : Z := sdbm_loop 0 key.

(** ** Sensor types *)

Definition SENSOR_HUMIDITY : Z := 0.
Definition SENSOR_LIGTH : Z := 1.
Definition SENSOR_PRESSURE : Z := 2.
Definition SENSOR_SONG : Z := 3.
Definition SENSOR_TEMPERATURE : Z := 4.
Definition SENSOR_SINK : Z := 5.

(** ** State *)

#[projections(primitive)]
Record BloomTable := mkBloomTable {
  BloomPerso : bloom;
  NeighborsTable : list (string * bloom);
  QueryTranslation : list string;
  QueryTranslation2 : list (Z * string);
  tailleFiltre : Z;
}.
#[export] Instance eta_BloomTable : Eta BloomTable := fun t =>
  mkBloomTable (BloomPerso t) (NeighborsTable t) (QueryTranslation t) (QueryTranslation2 t)
    (tailleFiltre t).

Definition query_translation : list string :=
  ["TEMPERATURE"; "PRESSION"; "SON"; "LUMIERE"; "HUMIDITE"; "PUIT"].

Definition query_translation2 : list (Z * string) :=
  map_put SENSOR_TEMPERATURE "TEMPERATURE"
    (map_put SENSOR_SONG "SONG"
      (map_put SENSOR_PRESSURE "PRESSURE"
        (map_put SENSOR_LIGTH "LIGTH"
          (map_put SENSOR_HUMIDITY "HUMIDITY" [])))).

(** [initialize()], the module parameter and the contents of fresh memory
    given; a negative size is a huge [size_t] and the allocation throws. *)
Definition BloomTable_initialize (par_tailleFiltre : Z) (junk : nat -> Z) : M heap BloomTable :=
  if par_tailleFiltre <? 0 then fail (Thrown "std::bad_alloc")
  else
    bf ← BloomFilter_new par_tailleFiltre 2 [sax_hash; sdbm_hash] junk;
    mret (mkBloomTable (Some bf) [] query_translation query_translation2 par_tailleFiltre).

(** The loop over the neighbours: the first one, in key order, whose filter
    answers. *)
Fixpoint scan_neighbors (l : list (string * bloom)) (query_str : string) : M heap MACAddress :=
  match l with
  | [] => mret UNSPECIFIED_ADDRESS
  | (mac_str, b) :: l' =>
      r ← Check_string b query_str;
      if negb (r =? 0) then lift (MACAddress_of_str (c_str mac_str))
      else scan_neighbors l' query_str
  end.

Definition GetNextHop (t : BloomTable) (QueryId : Z) (Source : bool) (myMAC : MACAddress)
    : M heap MACAddress :=
  match map_find QueryId (QueryTranslation2 t) with
  | None => fail (Undefined "dereference of end()")
  | Some query_str =>
      own ← (if negb Source then r ← Check_string (BloomPerso t) query_str; mret (negb (r =? 0))
             else mret false);
      if (own : bool) then mret myMAC
      else scan_neighbors (NeighborsTable t) query_str
  end.

Definition AddFilter (neighborBloom : bloom) (neighborMAC : MACAddress) (t : BloomTable) : BloomTable :=
  t<| NeighborsTable := map_put (str neighborMAC) neighborBloom (NeighborsTable t) |>.

Definition GetBloomPerso (t : BloomTable) : bloom := BloomPerso t.

Definition AddToBloomPerso (t : BloomTable) (info : string) : M heap Z := Add (BloomPerso t) info.

(** [selectRandomType()]: [param] is the value of [intuniform(0,4)]; the icon
    chosen for the display is returned. *)
Definition selectRandomType (t : BloomTable) (param : Z) : M heap (option string) :=
  match map_find param (QueryTranslation2 t) with
  | None => fail (AssertFailed "it != QueryTranslation2.end()")
  | Some sensorType =>
      _ ← Add_string (BloomPerso t) sensorType;
      mret (if String.eqb sensorType "HUMIDITY" then Some "srwsn/sensor_humidity"
            else if String.eqb sensorType "LIGTH" then Some "srwsn/sensor_ligth"
            else if String.eqb sensorType "PRESSURE" then Some "srwsn/sensor_pressure"
            else if String.eqb sensorType "SONG" then Some "srwsn/sensor_song"
            else if String.eqb sensorType "TEMPERATURE" then Some "srwsn/sensor_temperature"
            else None)
  end.

(** ** Well-formed tables *)

(** A key is the printed form of an address and its filter is usable. *)
Definition neighbor_ok (h : heap) (e : string * bloom) : Prop :=
  exists m bf, mac_wf m /\ e.1 = str m /\ e.2 = Some bf /\ bloom_ok h bf.

Record table_ok (h : heap) (t : BloomTable) : Prop := {
  ok_perso : exists bf, BloomPerso t = Some bf /\ bloom_ok h bf;
  ok_neighbors : Forall (neighbor_ok h) (NeighborsTable t);
  ok_sorted : map_wf (NeighborsTable t);
  ok_queries : QueryTranslation2 t = query_translation2;
}.

Lemma neighbor_ok_le h h' e : heap_le h h' -> neighbor_ok h e -> neighbor_ok h' e.
Proof.
  intros Hle (m & bf & Hm & E1 & E2 & Hok). exists m, bf. repeat split; try done; try apply Hm.
  by eapply bloom_ok_le.
Qed.

Lemma table_ok_le h h' t : heap_le h h' -> table_ok h t -> table_ok h' t.
Proof.
  intros Hle [(bf & E & Hok) Hn Hs Hq]. split; [|by eapply Forall_impl; [exact Hn|]; intros; eapply neighbor_ok_le|done|done].
  exists bf. split; [done|]. by eapply bloom_ok_le.
Qed.

Lemma AddFilter_ok h t bf m :
  table_ok h t -> mac_wf m -> bloom_ok h bf -> table_ok h (AddFilter (Some bf) m t).
Proof.
  intros [Hp Hn Hs Hq] Hm Hb. split; cbn; [done| |by apply map_put_wf|done].
  apply map_put_Forall; [|done]. by exists m, bf.
Qed.

(** Characters of a printed address are not NUL, so the copy is faithful. *)
Lemma hex_digit_not_nul n : 0 <= n < 16 -> (code (hex_digit n) =? 0) = false.
Proof.
  intros Hn. apply negb_true_iff.
  refine (forall_range (fun n => negb (code (hex_digit n) =? 0)) 0 16 _ n Hn).
  vm_compute. reflexivity.
Qed.

Lemma c_str_str m : Forall byte_ok m -> c_str (str m) = str m.
Proof.
  induction m as [|b m IH]; [done|]. intros [Hb Hm]%Forall_cons_1. specialize (IH Hm).
  destruct (byte_nibbles b Hb) as [Hh Hl].
  destruct m as [|b' m]; cbn [str] in *; unfold byte_hex in *; cbn [c_str] in *;
    rewrite !hex_digit_not_nul by done; [done|].
  change (code "-" =? 0) with false. cbv iota. do 3 f_equal. exact IH.
Qed.

(** Whether a filter answers for a query, as the code tests it. *)
Definition answers (h : heap) (b : bloom) (w : string) : Prop :=
  exists bf, b = Some bf /\ marked h bf (c_str w).

Lemma Check_string_cases h bf w :
  bloom_ok h bf ->
  (Check_string (Some bf) w h = Ok (1, h) /\ answers h (Some bf) w) \/
  (Check_string (Some bf) w h = Ok (0, h) /\ ~ answers h (Some bf) w).
Proof.
  intros Hok. pose proof Hok as (arr & Ha & Hoka). unfold Check_string.
  destruct (Check_ (Some bf) (c_str w) h) as [[r h']|] eqn:E;
    rewrite (Check_ok _ _ _ arr) in E by done; [|done].
  destruct (forallb _ _) eqn:F; injection E as <- <-.
  - left. split; [done|]. exists bf. split; [done|]. split; [done|]. intros arr' Ha'.
    rewrite Ha in Ha'. by injection Ha' as <-.
  - right. split; [done|]. intros (bf' & [= <-] & _ & Hm). rewrite (Hm _ Ha) in F. done.
Qed.

(** The scan: either the first entry that answers, or nobody answers. *)
Lemma scan_neighbors_spec h l w :
  Forall (neighbor_ok h) l ->
  exists r, scan_neighbors l w h = Ok (r, h) /\
    ((exists l1 m b l2, l = l1 ++ (str m, b) :: l2 /\ mac_wf m /\ r = m /\ answers h b w /\
        Forall (fun e => ~ answers h e.2 w) l1) \/
     (r = UNSPECIFIED_ADDRESS /\ Forall (fun e => ~ answers h e.2 w) l)).
Proof.
  induction l as [|[k b] l IH]; intros HF.
  - exists UNSPECIFIED_ADDRESS. split; [done|]. right. by split.
  - apply Forall_cons_1 in HF as [(m & bf & Hm & Ek & Eb & Hok) HF]. cbn in Ek, Eb. subst k b.
    cbn [scan_neighbors]. unfold mbind, M_bind.
    destruct (Check_string_cases h bf w Hok) as [[-> Ha]|[-> Hn]]; cbn [Z.eqb negb].
    + exists m. unfold lift. rewrite c_str_str by apply Hm.
      rewrite MACAddress_of_str_str by done. split; [done|]. left.
      exists [], m, (Some bf), l. by repeat split; try done; try apply Hm.
    + destruct (IH HF) as (r & -> & Hr). exists r. split; [done|].
      destruct Hr as [(l1 & m' & b' & l2 & -> & Hm' & Er & Ha & Hl1)|[Er Hl]].
      * left. exists ((str m, Some bf) :: l1), m', b', l2. repeat split; try done; try apply Hm'.
        by constructor.
      * right. split; [done|]. by constructor.
Qed.

Lemma sorted_split {V} (l1 : list (string * V)) k v l2 :
  map_wf (l1 ++ (k, v) :: l2) -> Forall (fun e => key_lt k e.1) l2.
Proof.
  induction l1 as [|[k' v'] l1 IH]; cbn; intros [H1 H2]; [done|]. by apply IH.
Qed.

Lemma GetNextHop_ok h t q src my w :
  table_ok h t -> map_find q query_translation2 = Some w ->
  exists r, GetNextHop t q src my h = Ok (r, h) /\
    ((src = false /\ answers h (BloomPerso t) w /\ r = my) \/
     ((src = true \/ ~ answers h (BloomPerso t) w) /\
      ((exists m b, (str m, b) ∈ NeighborsTable t /\ mac_wf m /\ r = m /\ answers h b w /\
          forall k b', (k, b') ∈ NeighborsTable t -> answers h b' w -> k = str m \/ key_lt (str m) k) \/
       (r = UNSPECIFIED_ADDRESS /\ forall k b', (k, b') ∈ NeighborsTable t -> ~ answers h b' w)))).
Proof.
  intros [(bf & Ep & Hok) Hn Hs Hq] Hw. unfold GetNextHop. rewrite Hq, Hw, Ep.
  assert (Hscan : exists r, scan_neighbors (NeighborsTable t) w h = Ok (r, h) /\
    ((exists m b, (str m, b) ∈ NeighborsTable t /\ mac_wf m /\ r = m /\ answers h b w /\
        forall k b', (k, b') ∈ NeighborsTable t -> answers h b' w -> k = str m \/ key_lt (str m) k) \/
     (r = UNSPECIFIED_ADDRESS /\ forall k b', (k, b') ∈ NeighborsTable t -> ~ answers h b' w))).
  { destruct (scan_neighbors_spec h (NeighborsTable t) w Hn) as (r & E & Hr).
    exists r. split; [done|]. destruct Hr as [(l1 & m & b & l2 & El & Hm & Er & Ha & Hl1)|[Er Hl]].
    - left. exists m, b. rewrite El in Hs |- *. split; [apply elem_of_app; right; left|].
      split; [done|]. split; [done|]. split; [done|]. intros k b' Hin Hans.
      apply elem_of_app in Hin as [Hin|[Hin|Hin]%elem_of_cons].
      + rewrite Forall_forall in Hl1. by destruct (Hl1 _ Hin).
      + left. congruence.
      + right. pose proof (sorted_split _ _ _ _ Hs) as Hlt. rewrite Forall_forall in Hlt.
        by apply (Hlt (k, b')).
    - right. split; [done|]. rewrite Forall_forall in Hl. intros k b' Hin. by apply (Hl _ Hin). }
  destruct src; cbn [negb]; unfold mbind, M_bind, mret, M_ret.
  - destruct Hscan as (r & -> & Hr). exists r. split; [done|]. right. split; [by left|done].
  - destruct (Check_string_cases h bf w Hok) as [[-> Ha]|[-> Hna]]; cbn [Z.eqb negb].
    + exists my. split; [done|]. by left.
    + destruct Hscan as (r & -> & Hr). exists r. split; [done|]. right. split; [by right|done].
Qed.

Lemma query_translation2_dom q w :
  map_find q query_translation2 = Some w -> SENSOR_HUMIDITY <= q <= SENSOR_TEMPERATURE.
Proof.
  intros E%map_find_Some_In.
  assert (T : forallb (fun e => (0 <=? e.1) && (e.1 <=? 4)) query_translation2 = true) by reflexivity.
  rewrite List.forallb_forall in T. specialize (T _ (proj1 (list_elem_of_In _ _) E)). cbn [fst] in T.
  unfold SENSOR_HUMIDITY, SENSOR_TEMPERATURE. lia.
Qed.

(** ** Properties *)

(** [GetNextHop] for a known sensor type returns, without touching any
    filter, the node's own address if it is not the source and its own filter
    answers; otherwise the answering neighbour whose printed address is the
    smallest; otherwise the unspecified address, and only when no neighbour's
    filter answers. *)
Theorem GetNextHop_spec h t q src my w :
  table_ok h t -> map_find q query_translation2 = Some w ->
  exists r, GetNextHop t q src my h = Ok (r, h) /\
    ((src = false /\ answers h (BloomPerso t) w /\ r = my) \/
     ((src = true \/ ~ answers h (BloomPerso t) w) /\
      ((exists m b, (str m, b) ∈ NeighborsTable t /\ mac_wf m /\ r = m /\ answers h b w /\
          forall k b', (k, b') ∈ NeighborsTable t -> answers h b' w -> k = str m \/ key_lt (str m) k) \/
       (r = UNSPECIFIED_ADDRESS /\ forall k b', (k, b') ∈ NeighborsTable t -> ~ answers h b' w)))).
Proof. apply GetNextHop_ok. Qed.

Definition witness_filter (l : positive) : BloomFilter := mkBloom 16 l 2 [sax_hash; sdbm_hash].
Definition witness_heap : heap := {[1%positive := [0; 0]; 2%positive := [255; 255]]}.
Definition witness_table : BloomTable :=
  AddFilter (Some (witness_filter 2)) [10; 170; 0; 0; 0; 2]
    (mkBloomTable (Some (witness_filter 1)) [] query_translation query_translation2 16).

Lemma witness_table_ok : table_ok witness_heap witness_table.
Proof.
  assert (H : forall l, l = 1%positive \/ l = 2%positive -> bloom_ok witness_heap (witness_filter l)).
  { intros l [-> | ->]; eexists; (split; [reflexivity|]); repeat split; cbn; try lia;
      repeat constructor; done. }
  apply AddFilter_ok.
  - split; cbn; [|constructor|done|done]. exists (witness_filter 1). split; [done|]. apply H. by left.
  - split; [done|]. repeat constructor; done.
  - apply H. by right.
Qed.

Lemma GetNextHop_spec_witness :
  exists r, GetNextHop witness_table SENSOR_SONG false [10; 170; 0; 0; 0; 1] witness_heap =
    Ok (r, witness_heap).
Proof.
  destruct (GetNextHop_spec witness_heap witness_table SENSOR_SONG false [10; 170; 0; 0; 0; 1] "SONG"
    witness_table_ok eq_refl) as (r & E & _).
  exists r. exact E.
Defined.

(** A query number outside the five sensor types, [SENSOR_SINK] among them,
    makes [GetNextHop] dereference the end iterator. *)
Theorem GetNextHop_unknown_query h t q src my :
  table_ok h t -> (q < SENSOR_HUMIDITY \/ SENSOR_TEMPERATURE < q) ->
  GetNextHop t q src my h = Fault (Undefined "dereference of end()").
Proof.
  intros Ht Hq. unfold GetNextHop. rewrite (ok_queries _ _ Ht).
  destruct (map_find q query_translation2) as [w|] eqn:E; [|done].
  exfalso. apply query_translation2_dom in E. lia.
Qed.

Lemma GetNextHop_unknown_query_witness :
  GetNextHop witness_table SENSOR_SINK true [10; 170; 0; 0; 0; 1] witness_heap =
    Fault (Undefined "dereference of end()").
Proof.
  apply (GetNextHop_unknown_query witness_heap witness_table SENSOR_SINK true [10; 170; 0; 0; 0; 1]
    witness_table_ok). right. reflexivity.
Defined.

(** The copy of a neighbour's filter is not a snapshot: it shares the
    neighbour's array, so a type the neighbour adds to its own filter after
    the copy was stored is found in the table at once, and [GetNextHop] then
    returns somebody who answers. *)
Theorem neighbor_filter_is_live h t q w m bf :
  table_ok h t -> mac_wf m -> bloom_ok h bf -> map_find q query_translation2 = Some w ->
  exists h' r, Add_string (Some bf) w h = Ok (0, h') /\
    GetNextHop (AddFilter (Some bf) m t) q true UNSPECIFIED_ADDRESS h' = Ok (r, h') /\
    exists m' b', (str m', b') ∈ NeighborsTable (AddFilter (Some bf) m t) /\ r = m' /\ answers h' b' w.
Proof.
  intros Ht Hm Hb Hw. unfold Add_string.
  destruct (Add_ok h bf (c_str w) Hb) as (arr & arr' & _ & E & _).
  pose proof (Add_le _ _ _ _ _ Hb E) as Hle. pose proof (Add_marked _ _ _ _ _ Hb E) as Hmk.
  set (h' := <[a bf := arr']> h) in *. exists h'.
  destruct (GetNextHop_ok h' (AddFilter (Some bf) m t) q true UNSPECIFIED_ADDRESS w)
    as (r & Er & Hr); [eapply table_ok_le; [exact Hle|]; by apply AddFilter_ok|done|].
  exists r. split; [done|]. split; [done|].
  destruct Hr as [(? & _)|(_ & [(m' & b' & Hin & _ & -> & Ha & _)|[_ Hnone]])]; [done|by exists m', b'|].
  exfalso. eapply (Hnone (str m) (Some bf)).
  - apply map_find_Some_In. cbn. apply map_find_put_eq.
  - by exists bf.
Qed.

Lemma neighbor_filter_is_live_witness :
  exists h' r, Add_string (Some (witness_filter 1)) "LIGTH" witness_heap = Ok (0, h') /\
    GetNextHop (AddFilter (Some (witness_filter 1)) [10; 170; 0; 0; 0; 1] witness_table)
      SENSOR_LIGTH true UNSPECIFIED_ADDRESS h' = Ok (r, h') /\
    exists m' b', (str m', b') ∈
      NeighborsTable (AddFilter (Some (witness_filter 1)) [10; 170; 0; 0; 0; 1] witness_table) /\
      r = m' /\ answers h' b' "LIGTH".
Proof.
  apply (neighbor_filter_is_live witness_heap witness_table SENSOR_LIGTH "LIGTH"
    [10; 170; 0; 0; 0; 1] (witness_filter 1) witness_table_ok).
  - split; [done|]. repeat constructor; done.
  - eexists. split; [reflexivity|]. repeat split; cbn; try lia. repeat constructor; done.
  - reflexivity.
Defined.

(** The answer of a zeroed filter of [n] bits that holds one word. *)
Definition cross_answer (n : Z) (w w' : string) : outcome (Z * heap) :=
  (bf ← BloomFilter_new n 2 [sax_hash; sdbm_hash] (fun _ => 0);
   _ ← Add_string (Some bf) w; Check_string (Some bf) w') ∅.

(** At the default size of 100 bits the five sensor types are told apart: a
    cleared filter that holds one of them answers for that one and for no
    other. *)
Theorem sensor_types_distinguished :
  forall q w q' w', (q, w) ∈ query_translation2 -> (q', w') ∈ query_translation2 ->
  exists h, cross_answer 100 w w' = Ok (if q =? q' then 1 else 0, h).
Proof.
  intros q w q' w' H H'.
  assert (T : forallb (fun e => forallb (fun e' =>
    match cross_answer 100 e.2 e'.2 with
    | Ok (r, _) => r =? (if e.1 =? e'.1 then 1 else 0) | Fault _ => false end)
    query_translation2) query_translation2 = true) by (vm_compute; reflexivity).
  rewrite List.forallb_forall in T. specialize (T (q, w) (proj1 (list_elem_of_In _ _) H)).
  rewrite List.forallb_forall in T. specialize (T (q', w') (proj1 (list_elem_of_In _ _) H')).
  cbn [fst snd] in T. destruct (cross_answer 100 w w') as [[r h]|]; [|done].
  exists h. by apply Z.eqb_eq in T as ->.
Qed.

Lemma sensor_types_distinguished_witness : exists h, cross_answer 100 "SONG" "LIGTH" = Ok (0, h).
Proof.
  apply (sensor_types_distinguished SENSOR_SONG "SONG" SENSOR_LIGTH "LIGTH");
    apply map_find_Some_In; reflexivity.
Defined.
