(* ===== verification/TableRARE.v ===== *)
(** * The learning table: srwsn/networklayer/TableRARE.{h,cc}

    For each query number, how often each neighbour brought an answer; plus the
    "similarity" words used to fall back from a query to a related one.
    [rand()] is a sequence of draws; the number of draws made so far is part of
    the state. *)

From S2P Require Import Prelude StdMap MACAddress BloomFilter BloomTable.

Open Scope string_scope.
Open Scope list_scope.
Open Scope Z_scope.

Abbreviation row := (list (string * Z)).

#[projections(primitive)]
Record TableRARE := mkTableRARE {
  maxQueries : Z;
  maxTypes : Z;
  ready : bool;
  QueryRelaxationMaxRetry : Z;
  QueryRelaxationRetryTime : Z;
  learningTable : list row;
  queriesSimilarity : list (Z * Z);
}.
#[export] Instance eta_TableRARE : Eta TableRARE := fun t =>
  mkTableRARE (maxQueries t) (maxTypes t) (ready t) (QueryRelaxationMaxRetry t)
    (QueryRelaxationRetryTime t) (learningTable t) (queriesSimilarity t).

Definition initial_similarity : list (Z * Z) :=
  map_put SENSOR_TEMPERATURE 13
    (map_put SENSOR_SONG 3
      (map_put SENSOR_SINK 0
        (map_put SENSOR_PRESSURE 8
          (map_put SENSOR_LIGTH 6
            (map_put SENSOR_HUMIDITY 1 []))))).

(** [initialize()], the module parameters given. *)
Definition TableRARE_initialize (par_maxRetry : Z) (par_ready : bool) (par_maxQueries par_maxTypes : Z)
    : TableRARE :=
  mkTableRARE par_maxQueries par_maxTypes par_ready par_maxRetry 0 [] initial_similarity.

(** ** Learning *)

(** [m[k] += 1] on an entry that exists; an [int] overflow is undefined. *)
Definition incr_count (v : Z) : outcome Z :=
  if v <? INT_MAX then Ok (v + 1) else Fault (Undefined "signed overflow").

Definition UpdateTable (QueryId : Z) (MAC : MACAddress) (t : TableRARE) : outcome TableRARE :=
  let key := str MAC in
  if Z.of_nat (length (learningTable t)) <=? u32 QueryId then
    (* resize(QueryId+1), then write the new row *)
    if QueryId =? -1 then Fault (Undefined "learningTable[-1]")
    else if QueryId <? 0 then Fault (Thrown "std::length_error")
    else if QueryId =? INT_MAX then Fault (Undefined "signed overflow")
    else
      let n := Z.to_nat QueryId in
      let resized := learningTable t ++ replicate (S n - length (learningTable t)) [] in
      Ok (t<| learningTable := <[n := map_put key 1 []]> resized |>)
  else
    let n := Z.to_nat (u32 QueryId) in
    match learningTable t !! n with
    | None => Fault (Undefined "learningTable[QueryId]")
    | Some mapMACInt =>
        match map_find key mapMACInt with
        | Some v =>
            v' ← incr_count v;
            Ok (t<| learningTable := <[n := map_put key v' mapMACInt]> (learningTable t) |>)
        | None =>
            Ok (t<| learningTable := <[n := map_put key 1 mapMACInt]> (learningTable t) |>)
        end
    end.

(** ** Similarity of queries *)

(** [while(number != 0){ sum += number % 2; number = number >> 1; }] *)
Fixpoint bitSum_loop (fuel : nat) (sum number : Z) : outcome Z :=
  match fuel with
  | O => Fault OutOfFuel
  | S fuel' =>
      if number =? 0 then Ok sum
      else bitSum_loop fuel' (sum + number mod 2) (Z.shiftr number 1)
  end.

(** A [uint64_t] has 64 bits: 64 turns and the final test. *)
Definition bitSum (number : Z) : outcome Z := bitSum_loop 65 0 number.

(** A [uint64_t] stored back into an [int]. *)
Definition s32 (z : Z) : Z := (z + 2 ^ 31) mod 2 ^ 32 - 2 ^ 31.

(** The loop of [QueryRelaxation]: [best] is (lastQueryNumber, lastQueryId). *)
Fixpoint relax_loop (queryId my : Z) (l : list (Z * Z)) (best : Z * Z) : outcome (Z * Z) :=
  match l with
  | [] => Ok best
  | (anotherQueryId, second) :: l' =>
      let anotherQueryNumber := u16 second in
      if anotherQueryId =? queryId then relax_loop queryId my l' best
      else
        x ← bitSum (Z.land my anotherQueryNumber);
        y ← bitSum (Z.land my best.1);
        relax_loop queryId my l'
          (if (y : Z) <? x then (anotherQueryNumber, u64 anotherQueryId) else best)
  end.

Definition QueryRelaxation (queryId : Z) (t : TableRARE) : outcome Z :=
  match map_find queryId (queriesSimilarity t) with
  | None => Ok queryId
  | Some my =>
      best ← relax_loop queryId my (queriesSimilarity t) (0, u64 queryId);
      Ok (s32 best.2)
  end.

(** The disjunction of all similarity words. *)
Definition all_bits (l : list (Z * Z)) : Z := foldl (fun pos e => Z.lor pos e.2) 0 l.

Definition increaseSimilarity (queryId1 queryId2 : Z) (t : TableRARE) : outcome TableRARE :=
  match map_find queryId1 (queriesSimilarity t), map_find queryId2 (queriesSimilarity t) with
  | Some Q1, Some Q2 =>
      let pos := all_bits (queriesSimilarity t) in
      if pos =? 0 then Ok t
      else
        _ ← check (pos <? u64 (pos + 1)) (AssertFailed "pos < pos + 1");
        let pos := u64 (pos + 1) in
        Ok (t<| queriesSimilarity :=
              map_put queryId2 (Z.lor Q2 pos)
                (map_put queryId1 (Z.lor Q1 pos) (queriesSimilarity t)) |>)
  | _, _ => Ok t
  end.

(** ** Selection *)

(** The scan of a row: the largest count seen and its key, replaced only by a
    strictly larger one. *)
Definition best_peer (r : row) : Z * string :=
  foldl (fun acc e => if acc.1 <? e.2 then (e.2, e.1) else acc) (0, "") r.

Section selection.
(** The values [rand()] returns, in order. *)
Variable rand : nat -> Z.

(** [(int)(rand() % (learningTable.size()-1))]: the draw and the counter
    after it. *)
Definition draw_row (size : nat) (pos : nat) : outcome (Z * nat) :=
  if (size =? 1)%nat then Fault (Undefined "division by zero")
  else Ok (rand pos mod (Z.of_nat size - 1), S pos).

(** Drawing until a row with an entry comes up. *)
Fixpoint draw_nonempty (fuel : nat) (lt : list row) (pos : nat) : outcome (Z * nat) :=
  match fuel with
  | O => Fault OutOfFuel
  | S fuel' =>
      d ← draw_row (length lt) pos;
      match lt !! Z.to_nat d.1 with
      | None => Fault (Undefined "learningTable[randomQuery]")
      | Some [] => draw_nonempty fuel' lt d.2
      | Some (_ :: _) => Ok d
      end
  end.

Fixpoint LearningPeerSelection (fuel : nat) (QueryId : Z) (t : TableRARE) (pos : nat)
    : outcome (MACAddress * (TableRARE * nat)) :=
  match fuel with
  | O => Fault OutOfFuel
  | S fuel' =>
      let found :=
        if u32 QueryId <? Z.of_nat (length (learningTable t)) then
          match learningTable t !! Z.to_nat (u32 QueryId) with
          | Some mapMACInt => (best_peer mapMACInt).2
          | None => ""
          end
        else "" in
      if negb (String.eqb found "") then
        m ← MACAddress_of_str (c_str found); Ok (m, (t, pos))
      else
        newQueryId ← QueryRelaxation QueryId t;
        if negb ((newQueryId : Z) =? QueryId) && (QueryRelaxationRetryTime t <? QueryRelaxationMaxRetry t)
        then
          LearningPeerSelection fuel' newQueryId
            (t<| QueryRelaxationRetryTime ::= Z.add 1 |>) pos
        else
          let t := t<| QueryRelaxationRetryTime := 0 |> in
          if (0 <? length (learningTable t))%nat then
            d ← draw_nonempty fuel' (learningTable t) pos;
            LearningPeerSelection fuel' (d : Z * nat).1 t d.2
          else Ok (UNSPECIFIED_ADDRESS, (t, pos))
  end.
End selection.

(** ** Invariants *)

Definition entry_ok (e : string * Z) : Prop :=
  (exists m, mac_wf m /\ e.1 = str m) /\ 1 <= e.2 <= INT_MAX.
Definition row_ok (r : row) : Prop := map_wf r /\ Forall entry_ok r.
Definition rows_ok (t : TableRARE) : Prop := Forall row_ok (learningTable t).

(** How often neighbour [m] has answered query [q]. *)
Definition score (t : TableRARE) (q : Z) (m : MACAddress) : Z :=
  match learningTable t !! Z.to_nat q with
  | Some r => default 0 (map_find (str m) r)
  | None => 0
  end.

Definition sim_ok (l : list (Z * Z)) : Prop :=
  map_wf l /\ Forall (fun e => - 2 ^ 31 <= e.1 <= INT_MAX /\ 0 <= e.2 < 2 ^ 64) l.

Lemma row_ok_nil : row_ok [].
Proof. split; [done | constructor]. Qed.

Lemma row_ok_put r m v :
  row_ok r -> mac_wf m -> 1 <= v <= INT_MAX -> row_ok (map_put (str m) v r).
Proof.
  intros [Hwf Hall] Hm Hv. split; [by apply map_put_wf|].
  apply map_put_Forall; [|done]. split; [by exists m | done].
Qed.

Lemma row_ok_find r k v : row_ok r -> map_find k r = Some v -> 1 <= v <= INT_MAX.
Proof.
  intros [_ Hall] Hf%map_find_Some_In. rewrite Forall_forall in Hall.
  by destruct (Hall _ Hf).
Qed.

(** ** Learning *)

(** What writing one count into row [q] of a table that has that row does. *)
Lemma score_write t rows r q m v :
  0 <= q -> rows !! Z.to_nat q = Some r -> row_ok r -> mac_wf m ->
  (forall q', 0 <= q' -> default [] (rows !! Z.to_nat q') = default [] (learningTable t !! Z.to_nat q')) ->
  let t' := t<| learningTable := <[Z.to_nat q := map_put (str m) v r]> rows |> in
  score t' q m = v /\
  (forall q' m', 0 <= q' -> mac_wf m' -> (q', m') <> (q, m) -> score t' q' m' = score t q' m').
Proof.
  intros Hq Hr [Hwf _] Hm Hsame t'.
  assert (Hscore : forall q' m', 0 <= q' ->
    score t q' m' = default 0 (map_find (str m') (default [] (rows !! Z.to_nat q')))).
  { intros q' m' Hq'. rewrite Hsame by done. unfold score.
    by destruct (learningTable t !! Z.to_nat q'). }
  assert (Hlt : (Z.to_nat q < length rows)%nat) by (eapply lookup_lt_Some; eauto).
  assert (Ht : learningTable t' = <[Z.to_nat q := map_put (str m) v r]> rows) by done.
  unfold score at 1. rewrite Ht, list_lookup_insert_eq by done.
  split; [by rewrite map_find_put_eq|].
  intros q' m' Hq' Hm' Hne. rewrite Hscore by done. unfold score. rewrite Ht.
  destruct (decide (q' = q)) as [->|Hqq].
  - rewrite list_lookup_insert_eq by done. rewrite Hr. cbn. rewrite map_find_put_ne; [done..|].
    intros E%str_inj; [|done..]. congruence.
  - rewrite list_lookup_insert_ne by lia. by destruct (rows !! Z.to_nat q').
Qed.

Lemma lookup_extend (rows : list row) n i :
  default [] ((rows ++ replicate n []) !! i) = default [] (rows !! i).
Proof.
  destruct (decide (i < length rows)%nat).
  - by rewrite lookup_app_l.
  - rewrite lookup_app_r, (lookup_ge_None_2 rows) by lia.
    destruct (replicate n [] !! _) eqn:E; [|done].
    by apply lookup_replicate in E as [-> _].
Qed.

Lemma UpdateTable_ok (t : TableRARE) (q : Z) (m : MACAddress)
  (Hok : rows_ok t) (Hm : mac_wf m) (Hq : 0 <= q < INT_MAX) (Hmax : score t q m < INT_MAX) :
  exists t', UpdateTable q m t = Ok t' /\ rows_ok t' /\
    score t' q m = score t q m + 1 /\
    (forall q' m', 0 <= q' -> mac_wf m' -> (q', m') <> (q, m) -> score t' q' m' = score t q' m') /\
    t' = t<| learningTable := learningTable t' |>.
Proof.
  unfold UpdateTable, INT_MAX in *.
  rewrite (u32_small q) by lia.
  destruct (Z.leb_spec (Z.of_nat (length (learningTable t))) q) as [Hlen|Hlen].
  - rewrite (proj2 (Z.eqb_neq q (-1))), (proj2 (Z.ltb_ge q 0)), (proj2 (Z.eqb_neq q 2147483647)) by lia.
    set (ext := learningTable t ++ _).
    assert (Hrow : ext !! Z.to_nat q = Some []).
    { unfold ext. rewrite lookup_app_r by lia. apply lookup_replicate. split; [done|lia]. }
    destruct (score_write t ext [] q m 1) as [Hs Ho]; [lia|done|apply row_ok_nil|done| |].
    { intros. apply lookup_extend. }
    eexists. split; [reflexivity|]. split; [|split; [|split; [exact Ho|by destruct t]]].
    + apply Forall_insert; cbn.
      * apply Forall_app. split; [done|]. apply Forall_replicate, row_ok_nil.
      * by apply (row_ok_put [] m 1 row_ok_nil).
    + assert (score t q m = 0) as ->; [|exact Hs].
      unfold score. by rewrite lookup_ge_None_2 by lia.
  - destruct (lookup_lt_is_Some_2 (learningTable t) (Z.to_nat q)) as [r Hr]; [lia|].
    assert (Hrok : row_ok r) by (eapply Forall_lookup_1; eauto).
    assert (Hsc : score t q m = default 0 (map_find (str m) r)) by (unfold score; by rewrite Hr).
    rewrite Hr. rewrite Hsc in Hmax |- *.
    destruct (map_find (str m) r) as [v|] eqn:Hf; cbn in Hmax |- *.
    + pose proof (row_ok_find _ _ _ Hrok Hf) as Hv.
      unfold incr_count, INT_MAX. rewrite (proj2 (Z.ltb_lt v _)) by lia. cbn.
      destruct (score_write t (learningTable t) r q m (v + 1)) as [Hs Ho]; [lia|exact Hr|done|done|done|].
      eexists. split; [reflexivity|]. split; [|split; [exact Hs|split; [exact Ho|by destruct t]]].
      apply Forall_insert; [done|]. apply row_ok_put; unfold INT_MAX; auto; lia.
    + destruct (score_write t (learningTable t) r q m 1) as [Hs Ho]; [lia|exact Hr|done|done|done|].
      eexists. split; [reflexivity|]. split; [|split; [exact Hs|split; [exact Ho|by destruct t]]].
      apply Forall_insert; [done|]. by apply row_ok_put.
Qed.

(** A learned answer is counted and nothing else changes.  On a well-formed
    table, [UpdateTable q m] with a valid query number and a count below
    [INT_MAX] returns a well-formed table in which the score of [m] for [q] has
    grown by one and the score of every other (query, neighbour) pair, the
    similarity words and the parameters are as before, whether the row had to be
    created, the neighbour was new in it, or its count existed. *)
Theorem UpdateTable_counts (t : TableRARE) (q : Z) (m : MACAddress)
  (Hok : rows_ok t) (Hm : mac_wf m) (Hq : 0 <= q < INT_MAX) (Hmax : score t q m < INT_MAX) :
  exists t', UpdateTable q m t = Ok t' /\ rows_ok t' /\
    score t' q m = score t q m + 1 /\
    (forall q' m', 0 <= q' -> mac_wf m' -> (q', m') <> (q, m) -> score t' q' m' = score t q' m') /\
    t' = t<| learningTable := learningTable t' |>.
Proof. by apply UpdateTable_ok. Qed.

Lemma UpdateTable_step t q m :
  rows_ok t -> mac_wf m -> 0 <= q < INT_MAX -> score t q m < INT_MAX ->
  exists t', UpdateTable q m t = Ok t' /\ rows_ok t' /\ score t' q m = score t q m + 1.
Proof.
  intros Hok Hm Hq Hmax. destruct (UpdateTable_ok t q m Hok Hm Hq Hmax) as (t' & E & Hok' & Hs & _).
  by exists t'.
Qed.

Definition sample_mac (k : Z) : MACAddress := [10; 170; 0; 0; 0; k].
Definition empty_table : TableRARE := TableRARE_initialize 2 true 6 4.

Lemma UpdateTable_counts_witness :
  exists t', UpdateTable 3 (sample_mac 7) empty_table = Ok t' /\ score t' 3 (sample_mac 7) = 1.
Proof.
  destruct (UpdateTable_counts empty_table 3 (sample_mac 7)) as (t' & E & _ & Hs & _).
  - constructor.
  - by apply (bool_decide_unpack _).
  - unfold INT_MAX. lia.
  - vm_compute. reflexivity.
  - exists t'. split; [exact E | rewrite Hs; reflexivity].
Defined.

(** ** Similarity *)

(** The number of ones among the [k] low bits. *)
Fixpoint popcount (k : nat) (n : Z) : Z :=
  match k with
  | O => 0
  | S k' => popcount k' n + Z.b2z (Z.testbit n (Z.of_nat k'))
  end.

Lemma popcount_shift k n :
  popcount (S k) n = n mod 2 + popcount k (Z.shiftr n 1).
Proof.
  induction k as [|k IH]; [cbn [popcount]; change (Z.of_nat 0) with 0; rewrite Z.bit0_mod; lia|].
  change (popcount (S (S k)) n) with (popcount (S k) n + Z.b2z (Z.testbit n (Z.of_nat (S k)))).
  rewrite IH. cbn [popcount]. rewrite Z.shiftr_spec by lia.
  replace (Z.of_nat k + 1) with (Z.of_nat (S k)) by lia. lia.
Qed.

Lemma bitSum_loop_popcount k fuel s n :
  0 <= n < 2 ^ Z.of_nat k -> (k < fuel)%nat -> bitSum_loop fuel s n = Ok (s + popcount k n).
Proof.
  revert fuel s n. induction k as [|k IH]; intros [|fuel] s n Hn Hf; try lia.
  - cbn in *. replace n with 0 by lia. cbn. f_equal. lia.
  - cbn [bitSum_loop]. destruct (Z.eqb_spec n 0) as [->|].
    + assert (H0 : forall k, popcount k 0 = 0).
      { intros k'. induction k' as [|k' IH']; [done|]. cbn [popcount]. rewrite IH', Z.bits_0. done. }
      rewrite H0. f_equal. lia.
    + rewrite IH; [rewrite popcount_shift; f_equal; lia| |lia].
      rewrite Nat2Z.inj_succ, Z.pow_succ_r in Hn by lia.
      rewrite Z.shiftr_div_pow2 by lia. change (2 ^ 1) with 2. dmlia.
Qed.

Lemma bitSum_popcount n : 0 <= n < 2 ^ 64 -> bitSum n = Ok (popcount 64 n).
Proof. intros. unfold bitSum. by rewrite (bitSum_loop_popcount 64) by (auto; lia). Qed.

Lemma land_below a b n : 0 <= n -> 0 <= a < 2 ^ n -> 0 <= Z.land a b < 2 ^ n.
Proof.
  intros Hn Ha. split; [apply land_nonneg_l; lia|].
  assert (Hl : Z.land a b = Z.land b a mod 2 ^ n).
  { rewrite <- (Z.land_ones (Z.land b a)) by done. rewrite <- Z.land_assoc, Z.land_ones by done.
    rewrite (Z.mod_small a), Z.land_comm by done. done. }
  rewrite Hl. apply Z.mod_pos_bound. lia.
Qed.

(** What relaxation compares: the bits shared with a similarity word after its
    truncation to [uint16_t]. *)
Definition shared_bits (my word : Z) : Z := popcount 64 (Z.land my (u16 word)).

Lemma relax_loop_spec q my l best_word best_id :
  0 <= my < 2 ^ 64 ->
  exists word id,
    relax_loop q my l (best_word, best_id) = Ok (word, id) /\
    let top := popcount 64 (Z.land my word) in
    popcount 64 (Z.land my best_word) <= top /\
    (forall k w, (k, w) ∈ l -> k <> q -> shared_bits my w <= top) /\
    ((word, id) = (best_word, best_id) \/
     exists l1 k w l2, l = l1 ++ (k, w) :: l2 /\ k <> q /\ word = u16 w /\ id = u64 k /\
       popcount 64 (Z.land my best_word) < top /\
       (forall k' w', (k', w') ∈ l1 -> k' <> q -> shared_bits my w' < top)).
Proof.
  intros Hmy. assert (Hb : forall w, bitSum (Z.land my w) = Ok (popcount 64 (Z.land my w))).
  { intros w. apply bitSum_popcount. by apply land_below. }
  revert best_word best_id. induction l as [|[k w] l IH]; intros bw bi.
  - exists bw, bi. split; [done|]. cbn zeta. split; [lia|]. split; [|by left].
    intros ?? ?%elem_of_nil. done.
  - cbn [relax_loop fst snd]. destruct (Z.eqb_spec k q) as [->|Hk].
    + destruct (IH bw bi) as (word & id & E & Hle & Hall & Hor). exists word, id.
      split; [done|]. split; [done|]. split.
      * intros k' w' [[= -> ->]|Hin]%elem_of_cons Hne; [done|eauto].
      * destruct Hor as [?|(l1 & k & w' & l2 & -> & Hk & -> & -> & Hlt & Hbefore)]; [by left|].
        right. exists ((q, w) :: l1), k, w', l2. do 5 (split; [done|]).
        intros k' w'' [[= -> ->]|Hin]%elem_of_cons Hne; [done|eauto].
    + rewrite !Hb. cbn [mbind outcome_bind].
      destruct (Z.ltb_spec (popcount 64 (Z.land my bw)) (popcount 64 (Z.land my (u16 w)))) as [Hlt|Hge].
      * destruct (IH (u16 w) (u64 k)) as (word & id & E & Hle & Hall & Hor). exists word, id.
        split; [done|]. cbn zeta in *. split; [lia|]. split.
        { intros k' w' [[= -> ->]|Hin]%elem_of_cons Hne; [done|eauto]. }
        right. destruct Hor as [[= -> ->]|(l1 & k2 & w2 & l2 & -> & Hk2 & -> & -> & Hlt2 & Hbefore)].
        { exists [], k, w, l. do 4 (split; [done|]). split; [lia|]. intros ?? ?%elem_of_nil. done. }
        exists ((k, w) :: l1), k2, w2, l2. do 4 (split; [done|]). split; [lia|].
        intros k' w' [[= -> ->]|Hin]%elem_of_cons Hne; [done|eauto].
      * destruct (IH bw bi) as (word & id & E & Hle & Hall & Hor). exists word, id.
        split; [done|]. cbn zeta in *. split; [done|]. split.
        { intros k' w' [[= -> ->]|Hin]%elem_of_cons Hne; [unfold shared_bits; lia|eauto]. }
        destruct Hor as [?|(l1 & k2 & w2 & l2 & -> & Hk2 & -> & -> & Hlt2 & Hbefore)]; [by left|].
        right. exists ((k, w) :: l1), k2, w2, l2. do 5 (split; [done|]).
        intros k' w' [[= -> ->]|Hin]%elem_of_cons Hne; [unfold shared_bits; lia|eauto].
Qed.

Lemma s32_u64 z : - 2 ^ 31 <= z <= INT_MAX -> s32 (u64 z) = z.
Proof. unfold s32, u64, INT_MAX. intros. dmlia. Qed.

Lemma map_wf_split (l1 l2 : list (Z * Z)) k w k' w' :
  map_wf (l1 ++ (k, w) :: l2) -> (k', w') ∈ l1 ++ (k, w) :: l2 -> k' < k -> (k', w') ∈ l1.
Proof.
  induction l1 as [|[k1 w1] l1 IH]; cbn [app map_wf].
  - intros [Hlt _] [[= -> ->]|Hin]%elem_of_cons Hk; [lia|].
    rewrite Forall_forall in Hlt. specialize (Hlt _ Hin). unfold key_lt in Hlt. cbn in Hlt.
    rewrite Z.compare_lt_iff in Hlt. lia.
  - intros [_ Hwf] [E|Hin]%elem_of_cons Hk; [rewrite E; left|right; auto].
Qed.

(** Query relaxation finds the most similar query.  For a query with a
    similarity word, [QueryRelaxation] always returns; it returns the query
    itself exactly when no other query shares a bit with it, and otherwise
    another known query whose (16-bit) word shares the most bits, the one with
    the smallest number among the best. *)
Theorem QueryRelaxation_optimal (t : TableRARE) (q my : Z)
  (Hok : sim_ok (queriesSimilarity t)) (Hq : map_find q (queriesSimilarity t) = Some my) :
  exists r, QueryRelaxation q t = Ok r /\
    ((r = q /\ forall k w, (k, w) ∈ queriesSimilarity t -> k <> q -> shared_bits my w <= 0) \/
     (r <> q /\ exists w, (r, w) ∈ queriesSimilarity t /\ 0 < shared_bits my w /\
        forall k' w', (k', w') ∈ queriesSimilarity t -> k' <> q ->
          shared_bits my w' <= shared_bits my w /\
          (k' < r -> shared_bits my w' < shared_bits my w))).
Proof.
  destruct Hok as [Hwf Hall]. rewrite Forall_forall in Hall.
  destruct (Hall _ (map_find_Some_In _ _ _ Hq)) as [Hqr Hmy].
  destruct (relax_loop_spec q my (queriesSimilarity t) 0 (u64 q) Hmy)
    as (word & id & E & _ & Hmax & Hor).
  unfold QueryRelaxation. rewrite Hq, E. eexists. split; [reflexivity|]. cbn [snd].
  assert (Hz : popcount 64 (Z.land my 0) = 0) by (rewrite Z.land_0_r; done).
  destruct Hor as [[= -> ->]|(l1 & k & w & l2 & El & Hk & -> & -> & Hlt & Hbefore)].
  - left. rewrite s32_u64 by done. split; [done|].
    intros k w Hin Hne. specialize (Hmax k w Hin Hne). rewrite Hz in Hmax. done.
  - assert (Hin : (k, w) ∈ queriesSimilarity t).
    { rewrite El. apply elem_of_app. right. left. }
    destruct (Hall _ Hin) as [Hkr _]. right. rewrite s32_u64 by done. split; [done|].
    exists w. split; [done|]. split; [unfold shared_bits; lia|].
    intros k' w' Hin' Hne. split; [exact (Hmax k' w' Hin' Hne)|].
    intros Hlt'. apply (Hbefore k' w'); [|done]. rewrite El in Hwf, Hin'. by eapply map_wf_split.
Qed.

Lemma initial_sim_ok : sim_ok initial_similarity.
Proof. split; [by vm_compute; repeat constructor|]. by apply (bool_decide_unpack _). Qed.

Lemma QueryRelaxation_optimal_witness :
  exists r, QueryRelaxation SENSOR_TEMPERATURE empty_table = Ok r.
Proof.
  destruct (QueryRelaxation_optimal empty_table SENSOR_TEMPERATURE 13) as (r & E & _).
  - exact initial_sim_ok.
  - reflexivity.
  - exists r. exact E.
Defined.

(** ** Growing similarity *)

Lemma all_bits_acc acc l :
  foldl (fun pos (e : Z * Z) => Z.lor pos e.2) acc l = Z.lor acc (all_bits l).
Proof.
  unfold all_bits. revert acc. induction l as [|e l IH]; intros acc; cbn [foldl]; [by rewrite Z.lor_0_r|].
  rewrite IH, (IH (Z.lor 0 e.2)), Z.lor_0_l. by rewrite Z.lor_assoc.
Qed.

Lemma all_bits_cons e l : all_bits (e :: l) = Z.lor e.2 (all_bits l).
Proof. unfold all_bits at 1. cbn [foldl]. by rewrite all_bits_acc, Z.lor_0_l. Qed.

Lemma all_bits_put k v p l :
  map_find k l = Some v -> all_bits (map_put k (Z.lor v p) l) = Z.lor (all_bits l) p.
Proof.
  induction l as [|[k' v'] l IH]; cbn [map_find map_put]; [done|].
  destruct (kcmp k k'); intros Hf; simplify_eq; rewrite !all_bits_cons; cbn [snd].
  - rewrite <- !Z.lor_assoc. f_equal. apply Z.lor_comm.
  - rewrite IH by done. by rewrite Z.lor_assoc.
Qed.

Lemma map_put_keys (R : Z -> Z -> Prop) k v v' (l : list (Z * Z)) :
  (forall x, R x x) -> map_find k l = Some v -> R v v' ->
  Forall2 (fun e e' => e.1 = e'.1 /\ R e.2 e'.2) l (map_put k v' l).
Proof.
  intros Hr. induction l as [|[k1 v1] l IH]; cbn [map_find map_put]; [done|].
  destruct (kcmp k k1) eqn:E; intros Hf HR; simplify_eq.
  - apply kcmp_eq in E as ->. constructor; [done|]. by apply Forall_Forall2_diag, Forall_true.
  - constructor; [done|]. auto.
Qed.

Lemma land_pow2_above v k : 0 <= v < 2 ^ k -> Z.land v (2 ^ k) = 0.
Proof.
  intros Hv. assert (0 <= k) by (destruct (decide (k < 0)); [rewrite Z.pow_neg_r in Hv|]; lia).
  apply Z.bits_inj'; intros i Hi. rewrite Z.land_spec, Z.bits_0, Z.pow2_bits_eqb by done.
  destruct (Z.eqb_spec k i) as [<-|]; [|by rewrite andb_false_r].
  rewrite andb_true_r. destruct (decide (v = 0)) as [->|]; [apply Z.bits_0|].
  apply Z.bits_above_log2; [lia|]. apply Z.log2_lt_pow2; lia.
Qed.

Lemma lor_pow2_fresh v k : 0 <= v < 2 ^ k -> Z.lor v (2 ^ k) = v + 2 ^ k.
Proof. intros Hv. symmetry. apply Z.add_nocarry_lor. by apply land_pow2_above. Qed.

Lemma all_bits_nonneg l : Forall (fun e : Z * Z => 0 <= e.2) l -> 0 <= all_bits l.
Proof.
  induction 1 as [|e l He _ IH]; [done|]. rewrite all_bits_cons. by apply Z.lor_nonneg.
Qed.

Lemma all_bits_above l k v :
  Forall (fun e : Z * Z => 0 <= e.2) l -> map_find k l = Some v -> v <= all_bits l.
Proof.
  intros Hnn Hf%map_find_Some_In. induction l as [|e l IH]; [by apply elem_of_nil in Hf|].
  apply Forall_cons_1 in Hnn as [He Hl]. rewrite all_bits_cons.
  pose proof (all_bits_nonneg l Hl).
  assert (Hle : forall a b, 0 <= a -> 0 <= b -> a <= Z.lor a b).
  { intros a b Ha Hb. apply Z.ldiff_le; [by apply Z.lor_nonneg|]. apply Z.bits_inj'. intros i Hi.
    rewrite Z.ldiff_spec, Z.lor_spec, Z.bits_0. by destruct (Z.testbit a i), (Z.testbit b i). }
  apply elem_of_cons in Hf as [<-|Hin]; [by apply Hle|].
  etrans; [by apply IH|]. rewrite Z.lor_comm. by apply Hle.
Qed.

(** The similarity words in use: [k] bit positions are taken, the lowest ones. *)
Definition bits_taken (k : Z) (t : TableRARE) : Prop :=
  sim_ok (queriesSimilarity t) /\ all_bits (queriesSimilarity t) = 2 ^ k - 1.

Lemma bits_taken_bound k t q v :
  bits_taken k t -> map_find q (queriesSimilarity t) = Some v -> 0 <= v < 2 ^ k.
Proof.
  intros [[Hwf Hall] Hb] Hf.
  assert (Hnn : Forall (fun e : Z * Z => 0 <= e.2) (queriesSimilarity t)).
  { eapply Forall_impl; [exact Hall|]. intros; cbn in *; lia. }
  pose proof (all_bits_above _ _ _ Hnn Hf). apply map_find_Some_In in Hf.
  rewrite Forall_forall in Hnn. specialize (Hnn _ Hf). cbn in Hnn. lia.
Qed.

Lemma sim_ok_put q v w l :
  sim_ok l -> map_find q l = Some w -> 0 <= v < 2 ^ 64 -> sim_ok (map_put q v l).
Proof.
  intros [Hwf Hall] Hf Hv. split; [by apply map_put_wf|]. apply map_put_Forall; [|done].
  apply map_find_Some_In in Hf. rewrite Forall_forall in Hall.
  destruct (Hall _ Hf) as [Hr _]. done.
Qed.

(** What one successful call writes, in terms of [map_put]. *)
Lemma increaseSimilarity_writes t q1 q2 v1 v2 k :
  bits_taken k t -> 0 < k < 64 ->
  map_find q1 (queriesSimilarity t) = Some v1 -> map_find q2 (queriesSimilarity t) = Some v2 ->
  increaseSimilarity q1 q2 t =
    Ok (t<| queriesSimilarity := map_put q2 (v2 + 2 ^ k) (map_put q1 (v1 + 2 ^ k) (queriesSimilarity t)) |>).
Proof.
  intros Hb Hk H1 H2. unfold increaseSimilarity. rewrite H1, H2.
  rewrite (proj2 Hb). cbn zeta.
  assert (2 ^ 1 <= 2 ^ k <= 2 ^ 63) by (split; apply Z.pow_le_mono_r; lia).
  rewrite (proj2 (Z.eqb_neq (2 ^ k - 1) 0)) by (change (2 ^ 1) with 2 in *; lia).
  replace (2 ^ k - 1 + 1) with (2 ^ k) by lia. rewrite u64_small by lia.
  rewrite (proj2 (Z.ltb_lt (2 ^ k - 1) _)) by lia. cbn.
  rewrite !lor_pow2_fresh by (eapply bits_taken_bound; eauto). done.
Qed.

Lemma popcount_pow2_fresh n k v :
  0 <= k < Z.of_nat n -> 0 <= v < 2 ^ k -> popcount n (v + 2 ^ k) = popcount n v + 1.
Proof.
  intros Hk Hv. rewrite <- lor_pow2_fresh by done.
  assert (Hbit : forall i, 0 <= i -> Z.b2z (Z.testbit (Z.lor v (2 ^ k)) i) =
    Z.b2z (Z.testbit v i) + (if i =? k then 1 else 0)).
  { intros i Hi. pose proof (f_equal (fun z => Z.testbit z i) (land_pow2_above v k Hv)) as H0.
    cbn beta in H0. rewrite Z.land_spec, Z.bits_0, Z.pow2_bits_eqb in H0 by lia.
    rewrite Z.lor_spec, Z.pow2_bits_eqb by lia. rewrite (Z.eqb_sym i k).
    destruct (k =? i), (Z.testbit v i); cbn in *; congruence || lia. }
  assert (Hgen : forall m, popcount m (Z.lor v (2 ^ k)) =
    popcount m v + (if k <? Z.of_nat m then 1 else 0)).
  { induction m as [|m IH]; [cbn [popcount]; rewrite (proj2 (Z.ltb_ge k (Z.of_nat 0))); lia|]. cbn [popcount].
    rewrite IH, Hbit by lia.
    destruct (Z.ltb_spec k (Z.of_nat m)), (Z.ltb_spec k (Z.of_nat (S m))), (Z.eqb_spec (Z.of_nat m) k); lia. }
  rewrite Hgen. destruct (Z.ltb_spec k (Z.of_nat n)); lia.
Qed.

#[local] Arguments popcount : simpl never.

Lemma land_add_pow2 a b k :
  0 <= a < 2 ^ k -> 0 <= b < 2 ^ k -> Z.land (a + 2 ^ k) (b + 2 ^ k) = Z.land a b + 2 ^ k.
Proof.
  intros Ha Hb. rewrite <- !lor_pow2_fresh, Z.lor_land_distr_l; auto.
  apply land_below; [|done]. destruct (decide (k < 0)); [rewrite Z.pow_neg_r in Ha|]; lia.
Qed.

(** Growing the similarity of two queries is exact.  While the positions in
    use are the [k] lowest ones ([0 < k < 64], four after initialisation),
    [increaseSimilarity q1 q2] gives the two queries one more bit in common, at
    position [k] that no query had, leaves every other word alone and leaves
    [k + 1] positions in use, so the next call finds the same situation. *)
Theorem increaseSimilarity_fresh_bit (t : TableRARE) (q1 q2 v1 v2 k : Z)
  (Hb : bits_taken k t) (Hk : 0 < k < 64) (Hne : q1 <> q2)
  (H1 : map_find q1 (queriesSimilarity t) = Some v1)
  (H2 : map_find q2 (queriesSimilarity t) = Some v2) :
  exists t' v1' v2', increaseSimilarity q1 q2 t = Ok t' /\ bits_taken (k + 1) t' /\
    map_find q1 (queriesSimilarity t') = Some v1' /\ map_find q2 (queriesSimilarity t') = Some v2' /\
    popcount 64 (Z.land v1' v2') = popcount 64 (Z.land v1 v2) + 1 /\
    (forall q, q <> q1 -> q <> q2 ->
       map_find q (queriesSimilarity t') = map_find q (queriesSimilarity t)).
Proof.
  pose proof (bits_taken_bound _ _ _ _ Hb H1) as B1. pose proof (bits_taken_bound _ _ _ _ Hb H2) as B2.
  destruct Hb as [[Hwf Hall] Hbits].
  assert (Hp : 0 < 2 ^ k /\ 2 * 2 ^ k <= 2 ^ 64).
  { split; [lia|]. rewrite <- Z.pow_succ_r by lia. apply Z.pow_le_mono_r; lia. }
  set (l1 := map_put q1 (v1 + 2 ^ k) (queriesSimilarity t)).
  assert (Hf2 : map_find q2 l1 = Some v2) by (unfold l1; rewrite map_find_put_ne; auto).
  assert (Hwf1 : map_wf l1) by (by apply map_put_wf).
  eexists _, (v1 + 2 ^ k), (v2 + 2 ^ k).
  split; [eapply increaseSimilarity_writes; [by split|..]; eauto|]. cbn. fold l1. split_and!.
  - split; cbn; fold l1.
    + eapply sim_ok_put; [eapply sim_ok_put; [by split|exact H1|lia]|exact Hf2|lia].
    + rewrite <- (lor_pow2_fresh v2), all_bits_put by done. unfold l1.
      rewrite <- (lor_pow2_fresh v1), all_bits_put, Hbits by done.
      rewrite <- Z.lor_assoc, Z.lor_diag, lor_pow2_fresh, Z.pow_add_r by lia. lia.
  - rewrite map_find_put_ne by auto. apply map_find_put_eq.
  - apply map_find_put_eq.
  - rewrite land_add_pow2, popcount_pow2_fresh; [done|lia| |done..].
    apply land_below; lia.
  - intros q Hq1 Hq2. unfold l1. by rewrite !map_find_put_ne by auto.
Qed.

Lemma increaseSimilarity_fresh_bit_witness :
  exists t', increaseSimilarity SENSOR_LIGTH SENSOR_PRESSURE empty_table = Ok t'.
Proof.
  destruct (increaseSimilarity_fresh_bit empty_table SENSOR_LIGTH SENSOR_PRESSURE 6 8 4)
    as (t' & ? & ? & E & _); [split; [exact initial_sim_ok|reflexivity]|lia|done|done|done|].
  exists t'. exact E.
Defined.

Lemma relax_loop_ext q my my' l l' best :
  Forall2 (fun e e' => e.1 = e'.1 /\ u16 e.2 = u16 e'.2) l l' ->
  (forall w, Z.land my (u16 w) = Z.land my' (u16 w)) ->
  u16 best.1 = best.1 -> relax_loop q my l best = relax_loop q my' l' best.
Proof.
  intros Hl Hland. revert best.
  induction Hl as [|[k w] [k' w'] l l' [Ek Ew] _ IH]; intros best Hb; [done|].
  cbn in Ek, Ew. subst k'. cbn [relax_loop]. destruct (k =? q); [by apply IH|].
  rewrite <- Ew, <- Hland. rewrite <- Hb, <- Hland, Hb.
  destruct (bitSum (Z.land my (u16 w))) as [x|]; [|done].
  destruct (bitSum (Z.land my best.1)) as [y|]; [|done]. cbn.
  apply IH. destruct (y <? x); [|done]. cbn. unfold u16. by rewrite Z.mod_mod.
Qed.

Lemma u16_add_pow2 v k : 16 <= k -> u16 (v + 2 ^ k) = u16 v.
Proof.
  intros Hk. unfold u16. replace k with (k - 16 + 16) by lia.
  rewrite Z.pow_add_r by lia. by rewrite Z.mod_add.
Qed.

Lemma land_u16_add_pow2 v k w :
  16 <= k -> 0 <= v < 2 ^ k -> Z.land (v + 2 ^ k) (u16 w) = Z.land v (u16 w).
Proof.
  intros Hk Hv. rewrite <- lor_pow2_fresh, Z.land_lor_distr_l by done.
  rewrite (Z.land_comm (2 ^ k)), (land_pow2_above (u16 w)), Z.lor_0_r; [done|].
  pose proof (u16_range w). assert (2 ^ 16 <= 2 ^ k) by (apply Z.pow_le_mono_r; lia). lia.
Qed.

(** Similarity learned beyond sixteen bits is lost.  Once sixteen positions
    are in use, [increaseSimilarity] still succeeds and still writes its bit,
    but [QueryRelaxation] answers every query as if it had not been called: the
    loop holds the other query's word in a [uint16_t]. *)
Theorem increaseSimilarity_ignored (t : TableRARE) (q1 q2 v1 v2 k q : Z)
  (Hb : bits_taken k t) (Hk : 16 <= k < 64) (Hne : q1 <> q2)
  (H1 : map_find q1 (queriesSimilarity t) = Some v1)
  (H2 : map_find q2 (queriesSimilarity t) = Some v2) :
  exists t', increaseSimilarity q1 q2 t = Ok t' /\ t' <> t /\ QueryRelaxation q t' = QueryRelaxation q t.
Proof.
  pose proof (bits_taken_bound _ _ _ _ Hb H1) as B1. pose proof (bits_taken_bound _ _ _ _ Hb H2) as B2.
  assert (Hwf : map_wf (queriesSimilarity t)) by apply Hb.
  eexists. split; [by eapply increaseSimilarity_writes; eauto; lia|].
  set (l1 := map_put q1 (v1 + 2 ^ k) (queriesSimilarity t)).
  assert (Hf2 : map_find q2 l1 = Some v2) by (unfold l1; rewrite map_find_put_ne; auto).
  assert (Hkeys : Forall2 (fun e e' => e.1 = e'.1 /\ u16 e.2 = u16 e'.2) (queriesSimilarity t)
                    (map_put q2 (v2 + 2 ^ k) l1)).
  { pose proof (map_put_keys (fun x y => u16 x = u16 y)) as Hput.
    eapply Forall2_trans; [|eapply Hput; [done|exact H1|]|eapply Hput; [done|exact Hf2|]].
    - intros [??] [??] [??] [??] [??]; cbn in *; split; congruence.
    - symmetry. apply u16_add_pow2; lia.
    - symmetry. apply u16_add_pow2; lia. }
  assert (Hfind : forall my, map_find q (queriesSimilarity t) = Some my ->
    exists my', map_find q (map_put q2 (v2 + 2 ^ k) l1) = Some my' /\
      forall w, Z.land my (u16 w) = Z.land my' (u16 w)).
  { intros my Hmy. destruct (decide (q = q2)) as [->|N2].
    { rewrite map_find_put_eq. eexists. split; [done|]. intros w.
      rewrite land_u16_add_pow2 by (done || lia). congruence. }
    rewrite map_find_put_ne by (by unfold l1; auto). unfold l1.
    destruct (decide (q = q1)) as [->|N1].
    - rewrite map_find_put_eq. eexists. split; [done|]. intros w.
      rewrite land_u16_add_pow2 by (done || lia). congruence.
    - rewrite map_find_put_ne by auto. by exists my. }
  split.
  - intros E. apply (f_equal (fun t => map_find q2 (queriesSimilarity t))) in E. cbn in E.
    fold l1 in E. rewrite map_find_put_eq, H2 in E. injection E. lia.
  - unfold QueryRelaxation. cbn [queriesSimilarity set_]. fold l1.
    destruct (map_find q (queriesSimilarity t)) as [my|] eqn:Ef.
    + destruct (Hfind my eq_refl) as (my' & E & Hl). cbn. fold l1. rewrite E.
      by rewrite (relax_loop_ext q my my' (queriesSimilarity t) (map_put q2 (v2 + 2 ^ k) l1)).
    + assert (map_find q (map_put q2 (v2 + 2 ^ k) l1) = None) as ->; [|done].
      unfold l1. rewrite !map_find_put_ne; auto; congruence.
Qed.

Definition wide_table : TableRARE :=
  empty_table<| queriesSimilarity := map_put SENSOR_SONG 65535 initial_similarity |>.

Lemma increaseSimilarity_ignored_witness :
  exists t', increaseSimilarity SENSOR_LIGTH SENSOR_PRESSURE wide_table = Ok t' /\
    QueryRelaxation SENSOR_LIGTH t' = QueryRelaxation SENSOR_LIGTH wide_table.
Proof.
  destruct (increaseSimilarity_ignored wide_table SENSOR_LIGTH SENSOR_PRESSURE 6 8 16 SENSOR_LIGTH)
    as (t' & E & _ & Eq); [|lia|done|done|done|].
  - split; [|reflexivity].
    apply (sim_ok_put _ _ 3 _ initial_sim_ok); [reflexivity|lia].
  - exists t'. done.
Defined.

(** ** Selection *)

Lemma best_peer_acc r c k :
  0 <= c -> Forall entry_ok r -> map_wf r ->
  let b := foldl (fun acc (e : string * Z) => if acc.1 <? e.2 then (e.2, e.1) else acc) (c, k) r in
  c <= b.1 /\ (forall k' v', (k', v') ∈ r -> v' <= b.1) /\
  (b = (c, k) \/
   ((b.2, b.1) ∈ r /\ c < b.1 /\ forall k' v', (k', v') ∈ r -> key_lt k' b.2 -> v' < b.1)).
Proof.
  intros Hc Hall Hwf. revert c k Hc.
  induction r as [|[k1 v1] r IH]; intros c k Hc; cbn [foldl fst snd].
  { split; [cbn; lia|]. split; [intros ?? ?%elem_of_nil; done|by left]. }
  apply Forall_cons_1 in Hall as [[_ Hv] Hall]. destruct Hwf as [Hlt Hwf]. cbn in Hv.
  destruct (Z.ltb_spec c v1) as [Hcv|Hcv].
  - destruct (IH Hall Hwf v1 k1 ltac:(lia)) as (Hle & Hmax & Hor). cbn zeta in *.
    set (b := foldl _ _ _) in *. split; [lia|]. split.
    { intros k' v' [[= -> ->]|Hin]%elem_of_cons; eauto. }
    right. destruct Hor as [->|(Hin & Hgt & Hmin)]; cbn [fst snd].
    + split; [left|]. split; [done|]. intros k' v' [[= -> ->]|Hin]%elem_of_cons Hk.
      { unfold key_lt in Hk. by rewrite kcmp_refl in Hk. }
      rewrite Forall_forall in Hlt. specialize (Hlt _ Hin). cbn in Hlt. unfold key_lt in *.
      pose proof (kcmp_trans _ _ _ Hlt Hk) as Hbad. by rewrite kcmp_refl in Hbad.
    + split; [by right|]. split; [lia|]. intros k' v' [[= -> ->]|Hin']%elem_of_cons Hk; [done|eauto].
  - destruct (IH Hall Hwf c k Hc) as (Hle & Hmax & Hor). cbn zeta in *.
    set (b := foldl _ _ _) in *. split; [done|]. split.
    { intros k' v' [[= -> ->]|Hin]%elem_of_cons; [lia|eauto]. }
    destruct Hor as [?|(Hin & Hgt & Hmin)]; [by left|]. right.
    split; [by right|]. split; [done|]. intros k' v' [[= -> ->]|Hin']%elem_of_cons Hk; [lia|eauto].
Qed.

Lemma best_peer_nil : best_peer [] = (0, "").
Proof. done. Qed.

(** The winner of a non-empty row. *)
Lemma best_peer_spec r :
  row_ok r -> r <> [] ->
  exists m, mac_wf m /\ best_peer r = (default 0 (map_find (str m) r), str m) /\
    0 < default 0 (map_find (str m) r) /\
    forall m', mac_wf m' ->
      default 0 (map_find (str m') r) <= default 0 (map_find (str m) r) /\
      (key_lt (str m') (str m) -> default 0 (map_find (str m') r) < default 0 (map_find (str m) r)).
Proof.
  intros [Hwf Hall] Hne.
  destruct (best_peer_acc r 0 "" ltac:(lia) Hall Hwf) as (Hle & Hmax & Hor).
  fold (best_peer r) in *. cbn zeta in *.
  assert (Hin : (((best_peer r).2, (best_peer r).1) ∈ r) /\ 0 < (best_peer r).1 /\
    forall k' v', (k', v') ∈ r -> key_lt k' (best_peer r).2 -> v' < (best_peer r).1).
  { destruct Hor as [E|?]; [|done]. destruct r as [|[k v] r]; [done|].
    specialize (Hmax k v ltac:(left)). rewrite E in Hmax. cbn in Hmax.
    apply Forall_cons_1 in Hall as [[_ Hv] _]. cbn in Hv. lia. }
  destruct Hin as (Hin & Hpos & Hmin). rewrite Forall_forall in Hall.
  destruct (Hall _ Hin) as [(m & Hm & Em) _]. cbn in Em.
  assert (Hf : map_find (str m) r = Some (best_peer r).1) by (rewrite <- Em; by apply map_In_find).
  exists m. rewrite Hf. cbn. split; [done|]. split; [rewrite <- Em; by destruct (best_peer r)|].
  split; [done|]. intros m' Hm'. destruct (map_find (str m') r) as [v|] eqn:Hf'; cbn.
  - apply map_find_Some_In in Hf'. split; [eauto|]. rewrite <- Em. eauto.
  - lia.
Qed.

Section selection_facts.
Variable rand : nat -> Z.

(** The query's own row decides when it is not empty. *)
Lemma select_row fuel q t pos r :
  rows_ok t -> learningTable t !! Z.to_nat (u32 q) = Some r -> r <> [] ->
  exists m, mac_wf m /\ LearningPeerSelection rand (S fuel) q t pos = Ok (m, (t, pos)) /\
    0 < score t (u32 q) m /\
    forall m', mac_wf m' -> score t (u32 q) m' <= score t (u32 q) m /\
      (key_lt (str m') (str m) -> score t (u32 q) m' < score t (u32 q) m).
Proof.
  intros Hok Hr Hne.
  assert (Hrok : row_ok r) by (eapply Forall_lookup_1; eauto).
  destruct (best_peer_spec r Hrok Hne) as (m & Hm & Eb & Hpos & Hbest).
  exists m. split; [done|].
  assert (Hs : forall m', score t (u32 q) m' = default 0 (map_find (str m') r)).
  { intros m'. unfold score. by rewrite Hr. }
  rewrite Hs. setoid_rewrite Hs. split; [|done].
  cbn [LearningPeerSelection]. pose proof (u32_range q).
  apply lookup_lt_Some in Hr as Hlen. rewrite (proj2 (Z.ltb_lt (u32 q) _)) by lia.
  rewrite Hr, Eb. cbn [snd]. rewrite (proj2 (String.eqb_neq _ _)) by (by apply str_nonempty).
  cbn [negb]. rewrite c_str_str by apply Hm. by rewrite MACAddress_of_str_str.
Qed.

(** A query with no answers yet. *)
Definition no_peer (t : TableRARE) (q : Z) : Prop :=
  default [] (learningTable t !! Z.to_nat (u32 q)) = [].

Lemma select_none fuel q t pos :
  no_peer t q ->
  LearningPeerSelection rand (S fuel) q t pos =
    (newQueryId ← QueryRelaxation q t;
     if negb ((newQueryId : Z) =? q) && (QueryRelaxationRetryTime t <? QueryRelaxationMaxRetry t)
     then LearningPeerSelection rand fuel newQueryId (t<| QueryRelaxationRetryTime ::= Z.add 1 |>) pos
     else
       let t := t<| QueryRelaxationRetryTime := 0 |> in
       if (0 <? length (learningTable t))%nat then
         d ← draw_nonempty rand fuel (learningTable t) pos;
         LearningPeerSelection rand fuel (d : Z * nat).1 t d.2
       else Ok (UNSPECIFIED_ADDRESS, (t, pos))).
Proof.
  unfold no_peer. intros Hn. cbn [LearningPeerSelection].
  destruct (u32 q <? Z.of_nat (length (learningTable t))); [|done].
  destruct (learningTable t !! Z.to_nat (u32 q)) as [r|]; [|done]. cbn in Hn. by subst r.
Qed.

Lemma QueryRelaxation_total q t :
  sim_ok (queriesSimilarity t) -> exists r, QueryRelaxation q t = Ok r.
Proof.
  intros [_ Hall]. unfold QueryRelaxation. destruct (map_find _ _) as [my|] eqn:E; [|eauto].
  apply map_find_Some_In in E. rewrite Forall_forall in Hall. destruct (Hall _ E) as [_ Hmy].
  destruct (relax_loop_spec q my (queriesSimilarity t) 0 (u64 q) Hmy) as (? & ? & -> & _). cbn. eauto.
Qed.
(** Drawing ends as soon as one of the draws names a row with an entry. *)
Lemma draw_nonempty_ends (lt : list row) pos j :
  (2 <= length lt)%nat -> (forall i, 0 <= rand i) ->
  default [] (lt !! Z.to_nat (rand (pos + j)%nat mod (Z.of_nat (length lt) - 1))) <> [] ->
  exists d pos' r, 0 <= d /\ lt !! Z.to_nat d = Some r /\ r <> [] /\
    forall fuel, (j < fuel)%nat -> draw_nonempty rand fuel lt pos = Ok (d, pos').
Proof.
  intros Hlen Hrand. revert pos. induction j as [|j IH]; intros pos Hhit;
    set (d := rand pos mod (Z.of_nat (length lt) - 1)) in *;
    assert (Hd : 0 <= d < Z.of_nat (length lt) - 1) by (apply Z.mod_pos_bound; lia);
    destruct (lookup_lt_is_Some_2 lt (Z.to_nat d)) as [r Hr]; [lia| |lia|].
  - rewrite Nat.add_0_r in Hhit. fold d in Hhit. rewrite Hr in Hhit. cbn in Hhit.
    exists d, (S pos), r. split; [lia|]. split; [done|]. split; [done|].
    intros [|fuel] Hf; [lia|]. cbn [draw_nonempty]. unfold draw_row.
    rewrite (proj2 (Nat.eqb_neq (length lt) 1)) by lia. cbn. fold d. rewrite Hr. by destruct r.
  - destruct r as [|e r].
    + destruct (IH (S pos)) as (d' & pos' & r' & Hd' & Hr' & Hne & Hfuel).
      { replace (S pos + j)%nat with (pos + S j)%nat by lia. done. }
      exists d', pos', r'. do 3 (split; [done|]). intros [|fuel] Hf; [lia|].
      cbn [draw_nonempty]. unfold draw_row at 1.
      rewrite (proj2 (Nat.eqb_neq (length lt) 1)) by lia. cbn. fold d. rewrite Hr.
      apply Hfuel. lia.
    + exists d, (S pos), (e :: r). split; [lia|]. split; [done|]. split; [done|].
      intros [|fuel] Hf; [lia|]. cbn [draw_nonempty]. unfold draw_row.
      rewrite (proj2 (Nat.eqb_neq (length lt) 1)) by lia. cbn. fold d. by rewrite Hr.
Qed.

(** Drawing never ends when every row the draw can name is empty: the bound
    [size - 1] leaves out the last one. *)
Lemma draw_nonempty_spins (lt : list row) pos fuel :
  (2 <= length lt)%nat -> (forall i, 0 <= rand i) ->
  (forall i, (i < length lt - 1)%nat -> lt !! i = Some []) ->
  draw_nonempty rand fuel lt pos = Fault OutOfFuel.
Proof.
  intros Hlen Hrand Hempty. revert pos. induction fuel as [|fuel IH]; intros pos; [done|].
  cbn [draw_nonempty]. unfold draw_row at 1.
  rewrite (proj2 (Nat.eqb_neq (length lt) 1)) by lia. cbn.
  assert (0 <= rand pos mod (Z.of_nat (length lt) - 1) < Z.of_nat (length lt) - 1)
    by (apply Z.mod_pos_bound; lia).
  rewrite Hempty by lia. apply IH.
Qed.

(** The two ways selection ends on a table with answers: in the query's row, or
    in the row a draw found. *)
Lemma select_now fuel q t pos e r :
  rows_ok t -> default [] (learningTable t !! Z.to_nat (u32 q)) = e :: r ->
  exists m t' pos' q', LearningPeerSelection rand (S fuel) q t pos = Ok (m, (t', pos')) /\
    mac_wf m /\ 0 < score t q' m /\ learningTable t' = learningTable t.
Proof.
  intros Hok Erow. destruct (learningTable t !! Z.to_nat (u32 q)) as [r0|] eqn:Hr; [|done].
  cbn in Erow. subst r0.
  destruct (select_row fuel q t pos (e :: r) Hok Hr) as (m & Hm & E & Hs & _); [done|].
  by exists m, t, pos, (u32 q).
Qed.

Lemma select_drawn fuel t pos d pos' (r : row) :
  rows_ok t -> Z.of_nat (length (learningTable t)) < 2 ^ 31 -> (0 < length (learningTable t))%nat ->
  0 <= d -> learningTable t !! Z.to_nat d = Some r -> r <> [] ->
  draw_nonempty rand (S fuel) (learningTable t) pos = Ok (d, pos') ->
  let t0 := t<| QueryRelaxationRetryTime := 0 |> in
  exists m t' pos'' q',
    (if (0 <? length (learningTable t0))%nat then
       d ← draw_nonempty rand (S fuel) (learningTable t0) pos;
       LearningPeerSelection rand (S fuel) (d : Z * nat).1 t0 d.2
     else Ok (UNSPECIFIED_ADDRESS, (t0, pos))) = Ok (m, (t', pos'')) /\
    mac_wf m /\ 0 < score t q' m /\ learningTable t' = learningTable t.
Proof.
  intros Hok Hsize Hlen Hd Hr Hne Hdraw t0. change (learningTable t0) with (learningTable t).
  rewrite (proj2 (Nat.ltb_lt 0 _)), Hdraw by done. cbn [mbind outcome_bind fst snd].
  apply lookup_lt_Some in Hr as Hdl.
  destruct (select_row fuel d t0 pos' r) as (m & Hm & E & Hs & _); [done| |done|].
  { by rewrite u32_small by lia. }
  by exists m, t0, pos', (u32 d).
Qed.
End selection_facts.

(** C38: the learned peer is the best one.  When some neighbour has answered the
    query, [LearningPeerSelection] returns, without any relaxation and without
    changing the table, the neighbour with the highest score, and among equals
    the one with the smallest address. *)
Theorem LearningPeerSelection_best (rand : nat -> Z) (t : TableRARE) (q : Z) (pos fuel : nat) (r : row)
  (Hok : rows_ok t) (Hq : 0 <= q < 2 ^ 31) (Hr : learningTable t !! Z.to_nat q = Some r)
  (Hne : r <> []) (Hfuel : (1 <= fuel)%nat) :
  exists m, mac_wf m /\ LearningPeerSelection rand fuel q t pos = Ok (m, (t, pos)) /\
    0 < score t q m /\
    forall m', mac_wf m' -> score t q m' <= score t q m /\
      (key_lt (str m') (str m) -> score t q m' < score t q m).
Proof.
  destruct fuel as [|fuel]; [lia|]. pose proof (select_row rand fuel q t pos r Hok) as Hs.
  rewrite u32_small in Hs by lia. auto.
Qed.

Definition learned_table : TableRARE :=
  empty_table<| learningTable :=
    [ []; map_put (str (sample_mac 9)) 4 (map_put (str (sample_mac 7)) 4 (map_put (str (sample_mac 2)) 1 [])); []; [] ] |>.

Lemma sample_mac_wf k : 0 <= k < 256 -> mac_wf (sample_mac k).
Proof. intros. split; [done|]. repeat constructor; done || lia. Qed.

Lemma learned_rows_ok : rows_ok learned_table.
Proof.
  unfold rows_ok. cbn [learningTable learned_table set_].
  repeat apply Forall_cons_2; try apply row_ok_nil; [|apply Forall_nil_2].
  repeat apply row_ok_put; auto using row_ok_nil; try (apply sample_mac_wf; lia); unfold INT_MAX; lia.
Qed.

Lemma LearningPeerSelection_best_witness :
  exists m, LearningPeerSelection (fun _ => 0) 1 1 learned_table 0 = Ok (m, (learned_table, O)) /\
    0 < score learned_table 1 m.
Proof.
  destruct (LearningPeerSelection_best (fun _ => 0) learned_table 1 0 1
    (map_put (str (sample_mac 9)) 4 (map_put (str (sample_mac 7)) 4 (map_put (str (sample_mac 2)) 1 []))))
    as (m & _ & E & Hp & _); [exact learned_rows_ok|lia|reflexivity|discriminate|lia|].
  exists m. split; [exact E|exact Hp].
Defined.

Lemma select_empty (rand : nat -> Z) (t : TableRARE) (q : Z) (pos fuel : nat)
  (Hsim : sim_ok (queriesSimilarity t)) (Hempty : learningTable t = [])
  (Hfuel : (Z.to_nat (QueryRelaxationMaxRetry t - QueryRelaxationRetryTime t) < fuel)%nat) :
  LearningPeerSelection rand fuel q t pos =
    Ok (UNSPECIFIED_ADDRESS, (t<| QueryRelaxationRetryTime := 0 |>, pos)).
Proof.
  revert q t Hsim Hempty Hfuel. induction fuel as [|fuel IH]; intros q t Hsim Hempty Hfuel; [lia|].
  rewrite select_none by (unfold no_peer; by rewrite Hempty).
  destruct (QueryRelaxation_total q t Hsim) as [q' ->]. cbn [mbind outcome_bind].
  destruct (_ && _) eqn:Eb; cbn; rewrite ?Hempty; cbn; [|done].
  apply andb_prop in Eb as [_ Hlt%Z.ltb_lt].
  rewrite IH; [done|done|done|]. cbn. lia.
Qed.

(** A node that has learned nothing says so.  On an empty table every query,
    known or not, ends with the unspecified address after at most
    [QueryRelaxationMaxRetry] relaxations, the relaxation budget restored. *)
Theorem LearningPeerSelection_empty (rand : nat -> Z) (t : TableRARE) (q : Z) (pos fuel : nat)
  (Hsim : sim_ok (queriesSimilarity t)) (Hempty : learningTable t = [])
  (Hfuel : (Z.to_nat (QueryRelaxationMaxRetry t - QueryRelaxationRetryTime t) < fuel)%nat) :
  LearningPeerSelection rand fuel q t pos =
    Ok (UNSPECIFIED_ADDRESS, (t<| QueryRelaxationRetryTime := 0 |>, pos)).
Proof. by apply select_empty. Qed.

Lemma LearningPeerSelection_empty_witness :
  exists t', LearningPeerSelection (fun _ => 0) 3 SENSOR_LIGTH empty_table 0 =
    Ok (UNSPECIFIED_ADDRESS, (t', O)).
Proof.
  eexists. apply (LearningPeerSelection_empty (fun _ => 0) empty_table SENSOR_LIGTH 0 3);
    [exact initial_sim_ok|reflexivity|cbn; lia].
Defined.

(** Selection ends with a neighbour that has answered something.  If the
    table has at least two rows and the draws of [rand()] eventually name a
    non-empty one, [LearningPeerSelection] returns, for every query whose number
    is a valid one, a neighbour with a positive score for some query (its own,
    a relaxed one or a drawn one); the learning table is unchanged. *)
Theorem LearningPeerSelection_ends (rand : nat -> Z) (t : TableRARE) (q : Z) (pos j : nat)
  (Hok : rows_ok t) (Hsim : sim_ok (queriesSimilarity t)) (Hlen : (2 <= length (learningTable t))%nat)
  (Hsize : Z.of_nat (length (learningTable t)) < 2 ^ 31)
  (Hrand : forall i, 0 <= rand i)
  (Hhit : default [] (learningTable t !!
            Z.to_nat (rand (pos + j)%nat mod (Z.of_nat (length (learningTable t)) - 1))) <> []) :
  exists fuel m t' pos' q', LearningPeerSelection rand fuel q t pos = Ok (m, (t', pos')) /\
    mac_wf m /\ 0 < score t q' m /\ learningTable t' = learningTable t.
Proof.
  destruct (draw_nonempty_ends rand _ pos j Hlen Hrand Hhit) as (d & pos' & r & Hd & Hr & Hne & Hdraw).
  remember (Z.to_nat (QueryRelaxationMaxRetry t - QueryRelaxationRetryTime t)) as n eqn:En.
  exists (S n + S (S j))%nat. revert q t Hok Hsim Hlen Hsize Hhit Hr Hdraw En.
  induction n as [|n IH]; intros q t Hok Hsim Hlen Hsize Hhit Hr Hdraw En; cbn [Nat.add] in *;
    (destruct (default [] (learningTable t !! Z.to_nat (u32 q))) as [|e0 r0] eqn:Erow;
     [|by eapply select_now]);
    rewrite (select_none rand _ q t pos Erow); destruct (QueryRelaxation_total q t Hsim) as [q' ->];
    cbn [mbind outcome_bind]; destruct (_ && _) eqn:Eb.
  - apply andb_prop in Eb as [_ Hlt%Z.ltb_lt]. lia.
  - apply (select_drawn rand _ t pos d pos' r); auto; lia.
  - destruct (IH q' (t<| QueryRelaxationRetryTime ::= Z.add 1 |>))
      as (m & t' & p & q0 & E & Hm & Hs & Ht); try done; [cbn; lia|].
    by exists m, t', p, q0.
  - apply (select_drawn rand _ t pos d pos' r); auto; try lia. apply Hdraw. lia.
Qed.

Lemma LearningPeerSelection_ends_witness :
  exists fuel m t' pos' q',
    LearningPeerSelection (fun i => Z.of_nat i) fuel SENSOR_SONG learned_table 0 = Ok (m, (t', pos')) /\
    0 < score learned_table q' m.
Proof.
  destruct (LearningPeerSelection_ends (fun i => Z.of_nat i) learned_table SENSOR_SONG 0 1)
    as (fuel & m & t' & pos' & q' & E & _ & Hs & _);
    [exact learned_rows_ok|exact initial_sim_ok|cbn; lia|cbn; lia|intros; lia|vm_compute; discriminate|].
  exists fuel, m, t', pos', q'. split; [exact E|exact Hs].
Defined.

(** The random fallback can spin for ever or divide by zero.  When the
    relaxation budget is spent and the query has no answers, then with exactly
    one row in the table the draw takes a remainder by zero, and with answers
    only in the last of several rows no draw can name that row: whatever
    [rand()] returns, no amount of fuel gives a result. *)
Theorem LearningPeerSelection_last_row (rand : nat -> Z) (t : TableRARE) (q : Z) (pos fuel : nat)
  (Hsim : sim_ok (queriesSimilarity t))
  (Hspent : QueryRelaxationMaxRetry t <= QueryRelaxationRetryTime t)
  (Hq : no_peer t q) (Hlen : (1 <= length (learningTable t))%nat) (Hrand : forall i, 0 <= rand i)
  (Hlast : forall i, (i < length (learningTable t) - 1)%nat -> learningTable t !! i = Some []) :
  LearningPeerSelection rand (S (S fuel)) q t pos =
    Fault (if (length (learningTable t) =? 1)%nat then Undefined "division by zero" else OutOfFuel).
Proof.
  rewrite (select_none rand _ q t pos Hq). destruct (QueryRelaxation_total q t Hsim) as [q' ->].
  cbn [mbind outcome_bind]. rewrite (proj2 (Z.ltb_ge _ _) Hspent), andb_false_r.
  cbn zeta. set (t0 := t<| QueryRelaxationRetryTime := 0 |>).
  change (learningTable t0) with (learningTable t). rewrite (proj2 (Nat.ltb_lt 0 _)) by lia.
  destruct (Nat.eqb_spec (length (learningTable t)) 1) as [H1|H1].
  - cbn [draw_nonempty]. unfold draw_row at 1. by rewrite H1.
  - by rewrite draw_nonempty_spins by (done || lia).
Qed.

Definition last_row_table : TableRARE :=
  empty_table<| learningTable := [ []; []; map_put (str (sample_mac 7)) 1 [] ] |>
             <| QueryRelaxationRetryTime := 2 |>.

Lemma LearningPeerSelection_last_row_witness :
  LearningPeerSelection (fun i => Z.of_nat i) 1000 SENSOR_LIGTH last_row_table 0 = Fault OutOfFuel.
Proof.
  apply (LearningPeerSelection_last_row (fun i => Z.of_nat i) last_row_table SENSOR_LIGTH 0 998);
    [exact initial_sim_ok|cbn; lia|reflexivity|cbn; lia|intros; lia|].
  intros [|[|i]] Hi; [reflexivity|reflexivity|cbn in Hi; lia].
Defined.
