(* ===== verification/SRTypes.v ===== *)
(** * Packets and node state: srwsn/networklayer/SR.h, SRPacket_m.{h,cc}

    The members of the class [SR] (one record per node), its static members
    (one record for the whole simulation), the packets, and the part of the
    simulation kernel a handler touches: the clock, the memory of filter
    arrays, the random numbers drawn so far, and what was recorded or sent. *)

From S2P Require Import Prelude StdMap MACAddress IDBuilder BloomFilter BloomTable TableRARE.

Open Scope string_scope.
Open Scope list_scope.
Open Scope Z_scope.

(** ** What the machine and the configuration decide *)

Class Env := {
  (** the values of [rand()] and of [intuniform(0,4)], in the order drawn *)
  rand : nat -> Z;
  uniform04 : nat -> Z;
  (** simulation clock ticks in a second ([simtime_t] is a 64-bit fixed-point) *)
  ticks : Z;
  (** the width of [size_t] *)
  build : platform;
  (** whether [EV << ...] evaluates its operands (it does not in express mode) *)
  ev_enabled : bool;
  (** turns granted to the recursion of [LearningPeerSelection] *)
  rare_fuel : nat;
}.

(** ** Packets *)

Definition Q_REQUEST : Z := 1.
Definition Q_REPLY : Z := 2.
Definition MSG_DISCOVERY : Z := 1.
Definition MSG_NORMAL : Z := 2.
Definition MSG_ALERT : Z := 3.

#[projections(primitive)]
Record SRPacket := mkSRPacket {
  pname : string;
  msgType : Z;
  queryType : Z;
  queryId : Z;
  srcMACAddress : MACAddress;
  destMACAddress : MACAddress;
  Id : Z;
  amIAlertGenerator : bool;
  alertTimeStamp : Z;
  pbloom : bloom;
  hopCount : Z;
  myTimestamp : Z;
  (** the [Ieee802Ctrl] attached: its destination *)
  controlInfo : option MACAddress;
}.
#[export] Instance eta_SRPacket : Eta SRPacket := fun p =>
  mkSRPacket (pname p) (msgType p) (queryType p) (queryId p) (srcMACAddress p) (destMACAddress p)
    (Id p) (amIAlertGenerator p) (alertTimeStamp p) (pbloom p) (hopCount p) (myTimestamp p)
    (controlInfo p).

(** [new SRPacket(name)] *)
Definition new_SRPacket (name : string) : SRPacket :=
  mkSRPacket name 0 0 0 UNSPECIFIED_ADDRESS UNSPECIFIED_ADDRESS 0 false 0 None 0 0 None.

(** ** Node state *)

Inductive STATUS := STATUS_DISCO | STATUS_NORMAL | STATUS_ALERT.
#[export] Instance STATUS_eq_dec : EqDecision STATUS.
Proof. solve_decision. Defined.

(** The five message objects a node schedules to itself. *)
Inductive selfmsg :=
  | selfInitializationMsg
  | internalAlertMsg
  | falseAlertTimeoutMsg
  | selfGenerateRequestMsg
  | updateStatsMsg.
#[export] Instance selfmsg_eq_dec : EqDecision selfmsg.
Proof. solve_decision. Defined.

(** The tags of the display string the code writes. *)
#[projections(primitive)]
Record display := mkDisplay { icon : string; color : string; text : string }.
#[export] Instance eta_display : Eta display := fun d => mkDisplay (icon d) (color d) (text d).

#[projections(primitive)]
Record Node := mkNode {
  bt : BloomTable;
  tr : TableRARE;
  (** interface 1 of the interface table: its address and whether it is a loopback *)
  my_ie : option (MACAddress * bool);
  myMACAddress : MACAddress;
  isSink : bool;
  myID : Z;
  iDBuilder : Z;
  areaNumber : Z;
  firstSinkMsg : bool;
  neighborList : list (Z * MACAddress);
  RecordTable : list (Z * MACAddress);
  hasSentAdvertMsg : bool;
  sensorStatus : STATUS;
  MAX_ALERT_LIVETIME : Z;
  MAX_ENTRY_RARE : Z;
  FALSE_ALERT_TIMEOUT : Z;
  LAST_ALERT_TIMESTAMP : Z;
  TIME_BETWEEN_ALERTS : Z;
  LIVETIME : Z;
  NB_EVENT_IN_LIVETIME : Z;
  EVENT_MAX_LIVETIME : Z;
  currentRequestTimeStamp : Z;
  iAmTheLast : bool;
  numSent : Z;
  numReceived : Z;
  disp : display;
  (** the future event set: self messages and packets to send, with their times *)
  timers : list (selfmsg * Z);
  outbox : list (Z * SRPacket);
}.
#[export] Instance eta_Node : Eta Node := fun n =>
  mkNode (bt n) (tr n) (my_ie n) (myMACAddress n) (isSink n) (myID n) (iDBuilder n) (areaNumber n)
    (firstSinkMsg n) (neighborList n) (RecordTable n) (hasSentAdvertMsg n) (sensorStatus n)
    (MAX_ALERT_LIVETIME n) (MAX_ENTRY_RARE n) (FALSE_ALERT_TIMEOUT n) (LAST_ALERT_TIMESTAMP n)
    (TIME_BETWEEN_ALERTS n) (LIVETIME n) (NB_EVENT_IN_LIVETIME n) (EVENT_MAX_LIVETIME n)
    (currentRequestTimeStamp n) (iAmTheLast n) (numSent n) (numReceived n) (disp n)
    (timers n) (outbox n).

(** The static members, shared by all nodes. *)
#[projections(primitive)]
Record Statics := mkStatics {
  numberSensorNotKnown : Z;
  numberSensorInNetwork : Z;
  NBTotalMessageSent : Z;
  NBTotalMessageRcvd : Z;
  hopCountPerRequest : Z;
  iCanSendRequest : bool;
  stopSim : bool;
  lastPosition : Z;
  areaBitmap : Z;
  generatorBitmap : Z;
  NBMsgSentPerRequest : Z;
  NBMsgRcvdPerRequest : Z;
}.
#[export] Instance eta_Statics : Eta Statics := fun s =>
  mkStatics (numberSensorNotKnown s) (numberSensorInNetwork s) (NBTotalMessageSent s)
    (NBTotalMessageRcvd s) (hopCountPerRequest s) (iCanSendRequest s) (stopSim s) (lastPosition s)
    (areaBitmap s) (generatorBitmap s) (NBMsgSentPerRequest s) (NBMsgRcvdPerRequest s).

Definition initial_statics : Statics := mkStatics 0 0 0 0 0 true false 0 0 0 0 0.

(** What a handler sees: its node and the shared part. *)
#[projections(primitive)]
Record Sim := mkSim {
  node : Node;
  statics : Statics;
  mem : heap;
  draws : nat;
  now : Z;
  sent : list SRPacket;
  recorded : list (string * Z);
}.
#[export] Instance eta_Sim : Eta Sim := fun s =>
  mkSim (node s) (statics s) (mem s) (draws s) (now s) (sent s) (recorded s).

(** The message a handler is called with. *)
Inductive event :=
  | SelfMsg (m : selfmsg)
  | SelfPacket (p : SRPacket)
  | NicPacket (p : SRPacket)
  | OtherMsg.

(** Reduces the field accesses of updated records, and nothing else. *)
Ltac rsimp :=
  cbn [set_ fst snd
       pname msgType queryType queryId srcMACAddress destMACAddress Id amIAlertGenerator alertTimeStamp
       pbloom hopCount myTimestamp controlInfo icon color text
       bt tr my_ie myMACAddress isSink myID iDBuilder areaNumber firstSinkMsg neighborList RecordTable
       hasSentAdvertMsg sensorStatus MAX_ALERT_LIVETIME MAX_ENTRY_RARE FALSE_ALERT_TIMEOUT
       LAST_ALERT_TIMESTAMP TIME_BETWEEN_ALERTS LIVETIME NB_EVENT_IN_LIVETIME EVENT_MAX_LIVETIME
       currentRequestTimeStamp iAmTheLast numSent numReceived disp timers outbox
       numberSensorNotKnown numberSensorInNetwork NBTotalMessageSent NBTotalMessageRcvd
       hopCountPerRequest iCanSendRequest stopSim lastPosition areaBitmap generatorBitmap
       NBMsgSentPerRequest NBMsgRcvdPerRequest
       node statics mem draws now sent recorded] in *.
