(* ===== verification/SR.v ===== *)
(** * The semantic routing module: srwsn/networklayer/SR.cc

    Every method of the class [SR], in the order of the source.  A method is a
    computation over [Sim]; a message object is passed by value and, when the
    code schedules it, stored in the node's [outbox]. *)

From stdpp Require Import pretty.
From S2P Require Import Prelude StdMap MACAddress IDBuilder BloomFilter BloomTable TableRARE SRTypes.

Open Scope string_scope.
Open Scope list_scope.
Open Scope Z_scope.

(** A number in decimal, as [sprintf("%ld")] and [<<] print it. *)
Definition decimal (z : Z) : string := pretty z.
#[global] Opaque decimal.

(** Reading a member of the node, or a static member. *)
Notation "'this' f" := (gets (fun s : Sim => f (node s))) (at level 10, f at level 9).
Notation "'stat' f" := (gets (fun s : Sim => f (statics s))) (at level 10, f at level 9).

Section SR.
Context `{Env}.

(** ** Access to the parts of the state *)

Definition upd (f : Node -> Node) : M Sim unit := modify (fun s => s<| node ::= f |>).
Definition upd_stat (f : Statics -> Statics) : M Sim unit := modify (fun s => s<| statics ::= f |>).

(** Running code that works on the filters' memory. *)
Definition on_mem {A} (m : M heap A) : M Sim A := zoom mem (fun h s => s<| mem := h |>) m.

(** [rand()] *)
Definition draw : M Sim Z := fun s => Ok (rand (draws s), s<| draws ::= S |>).
Definition draw_uniform04 : M Sim Z := fun s => Ok (uniform04 (draws s), s<| draws ::= S |>).

(** An operation of the node's [IDBuilder]. *)
Definition on_id (f : Z -> outcome Z) : M Sim unit :=
  x ← this iDBuilder; x' ← lift (f x); upd (fun n => n<| iDBuilder := x' |>).
Definition setID (id : Z) : M Sim unit := upd (fun n => n<| iDBuilder := id |>).

(** [scheduleAt(simTime()+delay, msg)] of one of the node's own messages: the
    kernel throws if that object is already scheduled. *)
Definition is_scheduled (m : selfmsg) (n : Node) : bool :=
  existsb (fun e => bool_decide (e.1 = m)) (timers n).
Definition scheduleSelf (delay : Z) (m : selfmsg) : M Sim unit :=
  b ← this (is_scheduled m);
  if (b : bool) then fail (Thrown "scheduleAt(): message is currently scheduled")
  else
    t ← gets now;
    upd (fun n => n<| timers ::= fun l => (m, t + delay * ticks) :: l |>).
Definition cancelEvent (m : selfmsg) : M Sim unit :=
  upd (fun n => n<| timers ::= filter (fun e => e.1 <> m) |>).

(** [setControlInfo]: the kernel throws if one is attached already. *)
Definition setControlInfo (p : SRPacket) (dest : MACAddress) : outcome SRPacket :=
  match controlInfo p with
  | Some _ => Fault (Thrown "setControlInfo(): object already attached")
  | None => Ok (p<| controlInfo := Some dest |>)
  end.

(** ** Common part *)

(** [initialize()]: the module's parameters, its tables and interface, and the
    members the code leaves uninitialised. *)
Definition SR_initialize (par_isSink : bool) (bt0 : BloomTable) (tr0 : TableRARE)
    (ie : option (MACAddress * bool)) (junk_id junk_ts : Z) (junk_last : bool) (disp0 : display)
    (now0 : Z) : Node :=
  let max_alert := 44640 in
  let max_entry := 256 in
  let nb := 64 in
  let event_max := 4096 in
  mkNode bt0 tr0 ie UNSPECIFIED_ADDRESS par_isSink 65535 junk_id 0 true [] [] false STATUS_DISCO
    max_alert max_entry 2 junk_ts (max_alert / max_entry) (u32 (event_max * nb)) nb event_max 0
    junk_last 0 0 disp0 [(selfInitializationMsg, now0 + 1 * ticks)] [].

Definition updateDisplay : M Sim unit :=
  sent ← this numSent;
  rcvd ← this numReceived;
  let buf := (if 0 <? (sent : Z) then "sent:" +:+ decimal sent +:+ " " else "") +:+
             (if 0 <? (rcvd : Z) then "rcvd:" +:+ decimal rcvd +:+ " " else "") in
  upd (fun n => n<| disp ::= fun d => d<| text := buf |> |>).

Definition distance_color (d : Z) : string :=
  match d with
  | 0 => "blue"
  | 1 => "green"
  | 2 => "black"
  | 3 => "red"
  | 4 => "gold"
  | 5 => "gray"
  | 6 => "#dd00ee"
  | _ => "#ffffff"
  end.

Definition changeDisplay : M Sim unit :=
  id ← this myID;
  setID id;;
  x ← this iDBuilder;
  upd (fun n => n<| disp ::= fun d => d<| color := distance_color (getSinkDistance x) |> |>).

Definition idToMACAddress (id : Z) : M Sim MACAddress :=
  my ← this myMACAddress;
  setID id;;
  x ← this iDBuilder;
  lift (setAddressByte my 5 (u8 (getMACExt x))).

(** Adds the packet to the outbox, with a random delay in seconds. *)
Definition scheduleMsgToSendNic (srPacket : SRPacket) (delayMin : Z) : M Sim unit :=
  my ← this myMACAddress;
  let srPacket := srPacket<| srcMACAddress := my |> in
  p ← lift (setControlInfo srPacket (destMACAddress srPacket));
  r ← draw;
  let randomTime := u32 (r mod 10 + 1 + u16 delayMin) in
  t ← gets now;
  upd (fun n => n<| outbox ::= fun l => l ++ [(t + randomTime * ticks, p)] |>).

Definition addNeighbor (neighborMACAddress : MACAddress) (neighborID : Z) : M Sim unit :=
  upd (fun n => n<| neighborList ::= map_put neighborID neighborMACAddress |>).

Definition addNeighborBloom (neighborMACAddress : MACAddress) (neighborID : Z) (neighborBloom : bloom)
    : M Sim unit :=
  upd (fun n => n<| bt ::= AddFilter neighborBloom neighborMACAddress |>);;
  addNeighbor neighborMACAddress neighborID.

Definition isAlertAllowed : M Sim bool := mret false.

(** The packet is built and never sent. *)
Definition broadcastAlert : M Sim unit :=
  id ← this myID;
  ts ← this LAST_ALERT_TIMESTAMP;
  let _alert := (new_SRPacket "ALERT")<| Id := id |><| msgType := MSG_ALERT |>
    <| alertTimeStamp := ts |><| amIAlertGenerator := true |><| hopCount := 0 |>
    <| queryType := Q_REQUEST |><| destMACAddress := BROADCAST_ADDRESS |> in
  mret tt.

Definition isNeighborAlertRelevant (neighborAlertTimeStamp : Z) : M Sim bool := mret true.

(** [1 << k] on an [int]; a count of 32 or more is undefined. *)
Definition shl1 (k : Z) : outcome Z :=
  if k <? 32 then Ok (if k =? 31 then - 2 ^ 31 else Z.shiftl 1 k)
  else Fault (Undefined "shift count").

(** The search for a free slot: [left] is [64 - ii]. *)
Fixpoint pick_slot (left : nat) (randPosInBitmap : Z) : M Sim (option Z) :=
  bm ← stat generatorBitmap;
  mask ← lift (shl1 randPosInBitmap);
  if Z.land bm (u64 mask) =? 1 then
    r ← draw;
    match left with
    | O => mret None
    | S left' => pick_slot left' (r mod 64)
    end
  else mret (Some randPosInBitmap).

Definition scheduleTimeToGenerateRequest : M Sim unit :=
  t ← gets now;
  let timeInSeconds := u32 t in
  live ← this LIVETIME;
  ev_max ← this EVENT_MAX_LIVETIME;
  let timeInCurrentLivetime := timeInSeconds mod live in
  assert_ (timeInCurrentLivetime <? live) "timeInCurrentLivetime < LIVETIME";;
  let nextSlotTime := u32 ((timeInCurrentLivetime / ev_max + 1) * ev_max - timeInCurrentLivetime) in
  r ← draw;
  slot ← pick_slot 64 (r mod 64);
  match slot with
  | None => mret tt
  | Some randPosInBitmap =>
      mask ← lift (shl1 randPosInBitmap);
      upd_stat (fun s => s<| generatorBitmap ::= fun b => u64 (b + mask) |>);;
      last ← stat lastPosition;
      when ((last : Z) <? randPosInBitmap)
        (upd (fun n => n<| iAmTheLast := true |>);;
         upd_stat (fun s => s<| lastPosition := randPosInBitmap |>));;
      r ← draw;
      let randomTime := u32 (nextSlotTime + randPosInBitmap * ev_max + r mod ev_max) in
      scheduleSelf randomTime selfGenerateRequestMsg
  end.

(** ** Simple sensor part *)

(** [handleInternalAlertMsg]: as long as [isAlertAllowed] says no, nothing
    after the first line runs. *)
Definition handleInternalAlertMsg : M Sim unit :=
  ok ← isAlertAllowed;
  if negb ok then mret tt
  else
    broadcastAlert;;
    upd (fun n => n<| sensorStatus := STATUS_ALERT |>);;
    d ← this FALSE_ALERT_TIMEOUT;
    scheduleSelf d falseAlertTimeoutMsg.

Definition handleFalseAlertMsg : M Sim unit :=
  st ← this sensorStatus;
  if bool_decide (st <> STATUS_ALERT) then mret tt
  else upd (fun n => n<| sensorStatus := STATUS_NORMAL |>).

(** [sendDirect(sr, getParentModule(), "ifOut", 0)] *)
Definition sendDirect (p : SRPacket) : M Sim unit :=
  modify (fun s => s<| sent ::= fun l => l ++ [p] |>).

(** The identifier derived from the sender's: same area, one hop further, the
    number of my own address. *)
Definition getIdFrom (srcSensorID : Z) : M Sim unit :=
  setID srcSensorID;;
  my ← this myMACAddress;
  on_id (setMACExt build (str my));;
  x ← this iDBuilder;
  on_id (setSinkDistance (u16 (getSinkDistance x + 1)));;
  x ← this iDBuilder;
  upd (fun n => n<| myID := x |>).

(** The advertisement, after which I am known to the network. *)
Definition advertise (delayMin : Z) : M Sim unit :=
  id ← this myID;
  b ← this (fun n => GetBloomPerso (bt n));
  let sr := (new_SRPacket "DISCO")<| Id := id |><| msgType := MSG_DISCOVERY |>
    <| pbloom := b |><| destMACAddress := BROADCAST_ADDRESS |> in
  scheduleMsgToSendNic sr delayMin;;
  upd (fun n => n<| hasSentAdvertMsg := true |>);;
  upd_stat (fun s => s<| numberSensorNotKnown ::= fun z => u16 (z - 1) |>);;
  upd (fun n => n<| sensorStatus := STATUS_NORMAL |>);;
  scheduleTimeToGenerateRequest.

(** The search for a free area position: [left] is [16 - ii]. *)
Fixpoint pick_area (left : nat) (randPosInBitmap : Z) : M Sim Z :=
  bm ← stat areaBitmap;
  mask ← lift (shl1 randPosInBitmap);
  if Z.land bm mask =? 1 then
    r ← draw;
    match left with
    | O => fail (AssertFailed "false")
    | S left' => pick_area left' (r mod 4)
    end
  else mret randPosInBitmap.

Definition handleNicDiscoveryMsg (msg : SRPacket) : M Sim unit :=
  let srcMAC := srcMACAddress msg in
  let srcSensorID := Id msg in
  setID srcSensorID;;
  x ← this iDBuilder;
  if getSinkDistance x =? 0 then
    first ← this firstSinkMsg;
    if negb first then
      (* the log line reads neighborList[srcSensorID] *)
      when ev_enabled
        (upd (fun n => n<| neighborList ::= fun l => (map_index UNSPECIFIED_ADDRESS srcSensorID l).2 |>));;
      done_ ← this hasSentAdvertMsg;
      if (done_ : bool) then mret tt
      else
        getIdFrom srcSensorID;;
        advertise 10;;
        changeDisplay
    else
      addNeighborBloom srcMAC srcSensorID (pbloom msg);;
      id ← this myID;
      b ← this (fun n => GetBloomPerso (bt n));
      let sr := (new_SRPacket "DISCO-REQUEST")<| Id := id |><| msgType := MSG_DISCOVERY |>
        <| queryType := Q_REQUEST |><| pbloom := b |><| destMACAddress := srcMAC |> in
      r ← draw;
      pos ← pick_area 16 (r mod 4);
      mask ← lift (shl1 pos);
      upd_stat (fun s => s<| areaBitmap ::= fun b => u16 (b + mask) |>);;
      scheduleMsgToSendNic sr (u16 (pos * 10));;
      upd (fun n => n<| firstSinkMsg := false |>)
  else
    l ← this neighborList;
    match map_find srcSensorID l with
    | Some _ => mret tt
    | None =>
        addNeighborBloom srcMAC srcSensorID (pbloom msg);;
        done_ ← this hasSentAdvertMsg;
        if (done_ : bool) then mret tt
        else
          getIdFrom srcSensorID;;
          x ← this iDBuilder;
          advertise (u16 (10 * getSinkDistance x))
    end.

Definition handleNicAlertMsg (alertMsg : SRPacket) : M Sim unit :=
  if negb (amIAlertGenerator alertMsg) then mret tt
  else
    st ← this sensorStatus;
    if bool_decide (st <> STATUS_ALERT) then mret tt
    else
      rel ← isNeighborAlertRelevant (alertTimeStamp alertMsg);
      if negb rel then mret tt
      else
        cancelEvent falseAlertTimeoutMsg;;
        id ← this myID;
        let alertMsg := alertMsg<| amIAlertGenerator := false |><| msgType := MSG_ALERT |>
          <| Id := id |><| destMACAddress := BROADCAST_ADDRESS |> in
        scheduleMsgToSendNic alertMsg 0.

(** [bt->GetNextHop], [tr->LearningPeerSelection] and [tr->UpdateTable] on the
    node's tables. *)
Definition getNextHop (QueryId : Z) (Source : bool) : M Sim MACAddress :=
  t ← this bt;
  my ← this myMACAddress;
  on_mem (GetNextHop t QueryId Source my).

Definition learningPeerSelection (QueryId : Z) : M Sim MACAddress := fun s =>
  match LearningPeerSelection rand rare_fuel QueryId (tr (node s)) (draws s) with
  | Ok (m, (t, pos)) => Ok (m, s<| node ::= fun n => n<| tr := t |> |><| draws := pos |>)
  | Fault e => Fault e
  end.

Definition updateTable (QueryId : Z) (MAC : MACAddress) : M Sim unit :=
  t ← this tr;
  t' ← lift (UpdateTable QueryId MAC t);
  upd (fun n => n<| tr := t' |>).

(** [RecordTable[id]] read as an rvalue. *)
Definition recordTableAt (id : Z) : M Sim MACAddress :=
  l ← this RecordTable;
  let '(m, l') := map_index UNSPECIFIED_ADDRESS id l in
  upd (fun n => n<| RecordTable := l' |>);;
  mret m.

(** The first neighbour whose address differs from [dest]. *)
Fixpoint first_other (dest : MACAddress) (l : list (Z * MACAddress)) : option MACAddress :=
  match l with
  | [] => None
  | (_, m) :: l' => if negb (equals dest m) then Some m else first_other dest l'
  end.

Definition count_sent : M Sim unit := upd_stat (fun s => s<| NBMsgSentPerRequest ::= Z.add 1 |>).

(** A request: answer it, hand it to a neighbour whose filter answers, or pass
    it on by what was learned. *)
Definition handleRequest (message : SRPacket) : M Sim unit :=
  let delayMin := 10 in
  cur ← this currentRequestTimeStamp;
  if (cur : Z) =? myTimestamp message then mret tt
  else
    upd (fun n => n<| currentRequestTimeStamp := myTimestamp message |>
                   <| RecordTable ::= map_put (Id message) (srcMACAddress message) |>);;
    my ← this myMACAddress;
    PeerWithAnswer ← getNextHop (queryId message) false;
    (if equals PeerWithAnswer my then
       ts ← this currentRequestTimeStamp;
       id ← this myID;
       let reponse := (new_SRPacket ("RESPONSE-" +:+ decimal ts))<| msgType := MSG_NORMAL |>
         <| queryType := Q_REPLY |><| Id := Id message |><| hopCount := hopCount message |>
         <| srcMACAddress := my |><| myTimestamp := ts |> in
       nextHop ← (if Id message =? id then mret my else recordTableAt (Id message));
       scheduleMsgToSendNic (reponse<| destMACAddress := nextHop |><| queryId := queryId message |>) delayMin
     else if negb (isUnspecified PeerWithAnswer) && negb (equals PeerWithAnswer (srcMACAddress message)) then
       scheduleMsgToSendNic (message<| srcMACAddress := my |><| destMACAddress := PeerWithAnswer |>) delayMin
     else
       let message := message<| srcMACAddress := my |> in
       PeerWithAnswer ← learningPeerSelection (queryId message);
       if isUnspecified PeerWithAnswer then
         l ← this neighborList;
         match first_other (destMACAddress message) l with
         | Some m => scheduleMsgToSendNic (message<| destMACAddress := m |>) delayMin
         | None => mret tt
         end
       else scheduleMsgToSendNic (message<| destMACAddress := PeerWithAnswer |>) delayMin);;
    count_sent.

Definition handleNicNormalMsg (message : SRPacket) : M Sim unit :=
  let delayMin := 10 in
  id ← this myID;
  if queryType message =? Q_REQUEST then handleRequest message
  else if (queryType message =? Q_REPLY) && negb (Id message =? id) then
    updateTable (queryId message) (srcMACAddress message);;
    nextPeerMAC ← recordTableAt (Id message);
    my ← this myMACAddress;
    scheduleMsgToSendNic (message<| srcMACAddress := my |><| destMACAddress := nextPeerMAC |>) delayMin;;
    count_sent
  else if (queryType message =? Q_REPLY) && (Id message =? id) then
    updateTable (queryId message) (srcMACAddress message);;
    upd_stat (fun s => s<| hopCountPerRequest := hopCount message |>);;
    last ← this iAmTheLast;
    when last (upd_stat (fun s => s<| stopSim := true |>))
  else mret tt.

(** [removeControlInfo()], one more hop, and the dispatch on the type. *)
Definition count_received : M Sim unit := upd (fun n => n<| numReceived ::= Z.add 1 |>).

Definition handleSRMsg (msg : SRPacket) : M Sim unit :=
  let msg := msg<| controlInfo := None |> in
  let msg := msg<| hopCount ::= fun h => u16 (h + 1) |> in
  (if msgType msg =? MSG_DISCOVERY then count_received;; handleNicDiscoveryMsg msg
   else if msgType msg =? MSG_ALERT then count_received;; handleNicAlertMsg msg
   else if msgType msg =? MSG_NORMAL then
     count_received;;
     upd_stat (fun s => s<| NBMsgRcvdPerRequest ::= Z.add 1 |>);;
     handleNicNormalMsg msg
   else mret tt);;
  updateDisplay.

Definition generaterRandomRequest : M Sim unit :=
  upd_stat (fun s => s<| iCanSendRequest := false |>);;
  t ← gets now;
  let timeInSeconds := u32 t in
  live ← this LIVETIME;
  upd (fun n => n<| currentRequestTimeStamp := timeInSeconds mod live |>);;
  ts ← this currentRequestTimeStamp;
  id ← this myID;
  let myRequest := (new_SRPacket ("REQUEST-" +:+ decimal ts))<| Id := id |><| msgType := MSG_NORMAL |>
    <| queryType := Q_REQUEST |><| queryId := SENSOR_HUMIDITY |><| hopCount := 0 |>
    <| myTimestamp := ts |> in
  peer ← getNextHop (queryId myRequest) true;
  peer ← (if isUnspecified peer then
            peer ← learningPeerSelection (queryId myRequest);
            mret (if isUnspecified peer then BROADCAST_ADDRESS else peer)
          else mret peer);
  assert_ (negb (isUnspecified peer)) "!PeerWithAnswer.isUnspecified()";;
  my ← this myMACAddress;
  scheduleMsgToSendNic (myRequest<| srcMACAddress := my |><| destMACAddress := peer |>) 5;;
  upd_stat (fun s => s<| hopCountPerRequest := 0 |><| NBMsgSentPerRequest := 0 |>
                      <| NBMsgRcvdPerRequest := 0 |>);;
  scheduleSelf live selfGenerateRequestMsg.

(** Both kinds of node start by reading their interface. *)
Definition readInterface : M Sim unit :=
  ie ← this my_ie;
  match ie with
  | None => fail (AssertFailed "my_ie")
  | Some (mac, isLoopback) =>
      assert_ (negb isLoopback) "!my_ie->isLoopback()";;
      upd (fun n => n<| myMACAddress := mac |>)
  end.

(** A packet whose sending time has come. *)
Definition assert_mine (sr : SRPacket) : M Sim unit :=
  my ← this myMACAddress;
  assert_ (compareTo my (srcMACAddress sr) =? 0) "myMACAddress.compareTo(sr->getSrcMACAddress())==0".

Definition handleSelfMsg (msg : selfmsg + SRPacket) : M Sim unit :=
  match msg with
  | inl selfInitializationMsg =>
      readInterface;;
      upd_stat (fun s => s<| numberSensorNotKnown ::= fun z => u16 (z + 1) |>
                          <| numberSensorInNetwork ::= fun z => u16 (z + 1) |>);;
      t ← this bt;
      param ← draw_uniform04;
      ic ← on_mem (selectRandomType t param);
      match ic with
      | Some i => upd (fun n => n<| disp ::= fun d => d<| icon := i |> |>)
      | None => mret tt
      end
  | inl internalAlertMsg => handleInternalAlertMsg
  | inl falseAlertTimeoutMsg => handleFalseAlertMsg
  | inl selfGenerateRequestMsg => generaterRandomRequest
  | inl updateStatsMsg => mret tt
  | inr sr =>
      assert_mine sr;;
      sendDirect sr;;
      upd (fun n => n<| numSent ::= Z.add 1 |>);;
      updateDisplay
  end.

(** ** Sink part *)

Definition record (name : string) (v : Z) : M Sim unit :=
  modify (fun s => s<| recorded ::= fun l => l ++ [(name, v)] |>).

Definition SINK_updateStats : M Sim unit :=
  hops ← stat hopCountPerRequest;
  record "hopCountPerRequest" (s32 hops);;
  record "hopCountPerRequestStats" (s32 hops);;
  nsent ← stat NBMsgSentPerRequest;
  record "NBMsgSentPerRequest" (s32 nsent);;
  t ← gets now;
  live ← this LIVETIME;
  rcvd ← stat NBMsgRcvdPerRequest;
  (if (t : Z) <? live * ticks then record "First iteration of message set" (s32 rcvd)
   else record "Second iteration of the same message set" rcvd);;
  updateDisplay;;
  ev_max ← this EVENT_MAX_LIVETIME;
  scheduleSelf (ev_max / 2) updateStatsMsg;;
  upd_stat (fun s => s<| iCanSendRequest := true |>).

Definition SINK_handleSelfMsg (msg : selfmsg + SRPacket) : M Sim unit :=
  match msg with
  | inl selfInitializationMsg =>
      readInterface;;
      my ← this myMACAddress;
      assert_ (negb (isUnspecified my)) "!myMACAddress.isUnspecified()";;
      t ← this bt;
      on_mem (AddToBloomPerso t "SINK");;
      upd (fun n => n<| disp ::= fun d => d<| icon := "srwsn/sink" |> |>);;
      on_id (setMACExt build (str my));;
      on_id (setSinkDistance 0);;
      on_id (setArea 0);;
      x ← this iDBuilder;
      upd (fun n => n<| myID := x |>);;
      id ← this myID;
      b ← this (fun n => GetBloomPerso (bt n));
      let sr := (new_SRPacket "DISCO-INIT")<| Id := id |><| msgType := MSG_DISCOVERY |>
        <| queryType := Q_REQUEST |><| pbloom := b |><| destMACAddress := BROADCAST_ADDRESS |> in
      scheduleMsgToSendNic sr 5;;
      upd (fun n => n<| sensorStatus := STATUS_NORMAL |>);;
      SINK_updateStats
  | inl updateStatsMsg => SINK_updateStats
  | inl internalAlertMsg => mret tt
  | inl falseAlertTimeoutMsg => mret tt
  | inl selfGenerateRequestMsg => mret tt
  | inr sr =>
      assert_mine sr;;
      sendDirect sr;;
      changeDisplay;;
      upd (fun n => n<| numSent ::= Z.add 1 |>)
  end.

Definition SINK_handleNicDiscoveryMsg (msg : SRPacket) : M Sim unit :=
  let srcMAC := srcMACAddress msg in
  let srcSensorID := Id msg in
  if queryType msg =? Q_REQUEST then
    count_received;;
    addNeighborBloom srcMAC srcSensorID (pbloom msg);;
    id ← this myID;
    setID id;;
    area ← this areaNumber;
    on_id (setArea area);;
    x ← this iDBuilder;
    upd (fun n => n<| myID := x |><| areaNumber ::= fun z => u16 (z + 1) |>);;
    id ← this myID;
    let sr := (new_SRPacket "DISCO-REPLY")<| Id := id |><| msgType := MSG_DISCOVERY |>
      <| queryType := Q_REPLY |><| destMACAddress := srcMAC |> in
    scheduleMsgToSendNic sr 40
  else mret tt.

Definition SINK_handleNicAlertMsg (msg : SRPacket) : M Sim unit := mret tt.

Definition SINK_handleNicNormalMsg (msg : SRPacket) : M Sim unit := handleNicNormalMsg msg.

Definition SINK_handleSRMsg (msg : SRPacket) : M Sim unit :=
  let msg := msg<| controlInfo := None |> in
  if msgType msg =? MSG_DISCOVERY then SINK_handleNicDiscoveryMsg msg
  else if msgType msg =? MSG_ALERT then SINK_handleNicAlertMsg msg
  else if msgType msg =? MSG_NORMAL then SINK_handleNicNormalMsg msg
  else mret tt.

Definition SINK_handleMessage (e : event) : M Sim unit :=
  match e with
  | SelfMsg m => SINK_handleSelfMsg (inl m)
  | SelfPacket p => SINK_handleSelfMsg (inr p)
  | NicPacket p => SINK_handleSRMsg p
  | OtherMsg => mret tt
  end.

(** ** Entry points *)

Definition handleMessage (e : event) : M Sim unit :=
  sink ← this isSink;
  if (sink : bool) then SINK_handleMessage e
  else
    match e with
    | SelfMsg m => handleSelfMsg (inl m)
    | SelfPacket p => handleSelfMsg (inr p)
    | NicPacket p => handleSRMsg p
    | OtherMsg => mret tt
    end.

Definition finish : M Sim unit :=
  id ← this myID;
  setID id;;
  (if ev_enabled then _ ← idToMACAddress id; mret tt else mret tt);;
  ns ← this numSent;
  nr ← this numReceived;
  upd_stat (fun s => s<| NBTotalMessageSent ::= Z.add ns |><| NBTotalMessageRcvd ::= Z.add nr |>);;
  record "#sent" ns;;
  record "#received" nr.

End SR.
