(* ===== verification/SRProps.v ===== *)
(** * What one node does: theorems about the handlers of SR.cc *)

From S2P Require Import Prelude StdMap MACAddress IDBuilder BloomFilter BloomTable TableRARE SRTypes SR.

Open Scope string_scope.
Open Scope list_scope.
Open Scope Z_scope.

#[local] Opaque u8 u16 u32 u64 getSinkDistance getArea getMACExt map_put map_find.

(** Symbolic execution of the accessors. *)
Ltac srs :=
  repeat (first [ progress unfold upd, upd_stat, setID, draw, count_received, count_sent, addNeighbor,
                    addNeighborBloom
                | wpe_step ]; cbv beta).

Section handlers.
Context `{Env}.

(** ** Equations of the shared steps *)

(** What scheduling a packet for sending does. *)
Definition send_time (delayMin : Z) (s : Sim) : Z :=
  now s + u32 (rand (draws s) mod 10 + 1 + u16 delayMin) * ticks.
Definition stamped (p : SRPacket) (n : Node) : SRPacket :=
  p<| srcMACAddress := myMACAddress n |><| controlInfo := Some (destMACAddress p) |>.

Lemma run_scheduleMsg p d s :
  controlInfo p = None ->
  scheduleMsgToSendNic p d s =
    Ok (tt, s<| draws ::= S |>
             <| node ::= fun n => n<| outbox ::= fun l => l ++ [(send_time d s, stamped p n)] |> |>).
Proof.
  intros Hc. unfold scheduleMsgToSendNic, upd, draw, mbind, M_bind, gets, lift, setControlInfo, modify.
  cbn. by rewrite Hc.
Qed.

Lemma send_time_bounds d s :
  (forall i, 0 <= rand i) -> 0 <= ticks -> 0 <= d < 65536 ->
  now s + (d + 1) * ticks <= send_time d s <= now s + (d + 10) * ticks.
Proof.
  intros Hr Ht Hd. unfold send_time. rewrite u16_small by lia.
  pose proof (Z.mod_pos_bound (rand (draws s)) 10). rewrite u32_small by lia. nia.
Qed.

Lemma wpe_scheduleMsg E p d s (Q : unit -> Sim -> Prop) :
  controlInfo p = None ->
  Q tt (s<| draws ::= S |>
         <| node ::= fun n => n<| outbox ::= fun l => l ++ [(send_time d s, stamped p n)] |> |>) ->
  wpe E (scheduleMsgToSendNic p d) Q s.
Proof. intros Hc HQ. eapply wpe_eq; [by apply run_scheduleMsg|done]. Qed.

Lemma wpe_scheduleSelf E d m s (Q : unit -> Sim -> Prop) :
  is_scheduled m (node s) = false ->
  Q tt (s<| node ::= fun n => n<| timers ::= fun l => (m, now s + d * ticks) :: l |> |>) ->
  wpe E (scheduleSelf d m) Q s.
Proof. intros Hs HQ. unfold scheduleSelf. srs. by rewrite Hs. Qed.

(** The identifier a node takes from a sender. *)
Definition joined_id (my : MACAddress) (src id : Z) : Prop :=
  id_ok id /\ exists b, my !! 5%nat = Some b /\ unpack id = (b, getSinkDistance src + 1, getArea src).

Lemma wpe_getIdFrom E src s (Q : unit -> Sim -> Prop) :
  build = Build32 -> mac_wf (myMACAddress (node s)) -> id_ok src -> getSinkDistance src < 15 ->
  (forall id, joined_id (myMACAddress (node s)) src id ->
     Q tt (s<| node ::= fun n => n<| iDBuilder := id |><| myID := id |> |>)) ->
  wpe E (getIdFrom src) Q s.
Proof.
  intros Hb Hm Hid Hd HQ. destruct (mac_split _ Hm) as (m5 & b & _ & _ & Hlast).
  destruct (setMACExt_unpack _ b src Hm Hlast Hid) as (id1 & E1 & Hok1 & U1).
  unfold unpack in U1. injection U1 as U1 U2 U3.
  pose proof (getSinkDistance_div src).
  destruct (setSinkDistance_unpack (getSinkDistance src + 1) id1 Hok1) as (id2 & E2 & Hok2 & U4); [dmlia|].
  unfold getIdFrom, on_id. srs. rsimp. rewrite Hb, E1. srs. rsimp.
  rewrite U2. rewrite u16_small by dmlia. rewrite E2. srs.
  apply (HQ id2). split; [done|]. exists b. split; [done|]. by rewrite U4, U1, U3.
Qed.

(** ** Choosing a slot *)

(** The constants of the slots, as initialisation sets them. *)
Definition consts_ok (n : Node) : Prop := LIVETIME n = 262144 /\ EVENT_MAX_LIVETIME n = 4096.

(** Everything choosing a slot may change; [t] is when the request is due. *)
Record slot_effect (s s' : Sim) (t : option Z) : Prop := {
  slot_node : node s' = (node s)<| iAmTheLast := iAmTheLast (node s') |>
    <| timers := match t with Some t => (selfGenerateRequestMsg, t) :: timers (node s)
                 | None => timers (node s) end |>;
  slot_statics : statics s' = (statics s)<| generatorBitmap := generatorBitmap (statics s') |>
    <| lastPosition := lastPosition (statics s') |>;
  slot_mem : mem s' = mem s;
  slot_now : now s' = now s;
  slot_sent : sent s' = sent s;
  slot_recorded : recorded s' = recorded s;
}.

(** A mask with a zero low bit never gives 1: the test of the loop only ever
    sees position 0. *)
Lemma land_even a m : Z.even m = true -> (Z.land a m =? 1) = false.
Proof.
  intros He. apply Z.eqb_neq. intros E. apply (f_equal Z.odd) in E.
  rewrite <- !Z.bit0_odd, Z.land_spec in E. rewrite (Z.bit0_odd m), <- Z.negb_even, He in E.
  by rewrite andb_false_r in E.
Qed.

Lemma shl1_even p : 0 < p < 32 -> exists m, shl1 p = Ok m /\ Z.even (u64 m) = true /\ Z.even m = true.
Proof.
  intros Hp.
  assert (Hall : forallb (fun p => match shl1 p with Ok m => Z.even (u64 m) && Z.even m | _ => false end)
                   (seqZ 1 31) = true) by reflexivity.
  pose proof (forall_range _ _ _ Hall p ltac:(lia)) as E. cbn beta in E.
  destruct (shl1 p) as [m|]; [|done].
  apply andb_prop in E as [E1 E2]. eauto.
Qed.

Lemma pick_slot_now left p s : 0 < p < 32 -> pick_slot left p s = Ok (Some p, s).
Proof.
  intros Hp. destruct (shl1_even p Hp) as (m & Em & He & _).
  destruct left; cbn -[shl1 u64 Z.land]; unfold mbind, M_bind, gets, lift; rewrite Em, land_even by done; done.
Qed.

Lemma shl1_small p : 0 <= p < 32 -> exists m, shl1 p = Ok m.
Proof. intros Hp. unfold shl1. rewrite (proj2 (Z.ltb_lt p 32)) by lia. eauto. Qed.

Lemma wpe_pick_slot E left p s (Q : option Z -> Sim -> Prop) :
  (forall i, 0 <= rand i) -> 0 <= p < 64 -> E (Undefined "shift count") ->
  (forall slot d, p < 32 -> (forall k, slot = Some k -> 0 <= k < 32) -> Q slot (s<| draws := d |>)) ->
  wpe E (pick_slot left p) Q s.
Proof.
  intros Hr Hp HE. revert p s Hp. induction left as [|left IH]; intros p s Hp HQ; cbn [pick_slot]; srs;
    (destruct (decide (p < 32)) as [Hlt|Hge];
      [|by unfold shl1; rewrite (proj2 (Z.ltb_ge p 32)) by lia]);
    (destruct (shl1_small p ltac:(lia)) as [m ->]);
    (destruct (_ =? 1);
      [|apply wpe_ret; destruct s; apply HQ; [done|]; intros ? [= <-]; lia]); srs; eapply wpe_eq; try reflexivity.
  - apply wpe_ret. by apply HQ.
  - apply IH; [apply Z.mod_pos_bound; lia|]. intros slot d _ Hs. exact (HQ slot d Hlt Hs).
Qed.

(** A request is due in one of the next 33 slots. *)
Lemma slot_time_bounds time k r base :
  0 < ticks -> 0 <= k < 32 -> 0 <= r ->
  let delay := u32 (u32 ((u32 time mod 262144 / 4096 + 1) * 4096 - u32 time mod 262144)
                 + k * 4096 + r mod 4096) in
  base + ticks <= base + delay * ticks < base + 33 * 4096 * ticks.
Proof.
  intros Ht Hk Hr delay. assert (1 <= delay < 33 * 4096) as Hd; [|nia].
  set (x := u32 time mod 262144) in *.
  assert (0 <= x < 262144) by (apply Z.mod_pos_bound; lia).
  assert (1 <= (x / 4096 + 1) * 4096 - x <= 4096) by dmlia.
  pose proof (Z.mod_pos_bound r 4096 ltac:(lia)).
  unfold delay. rewrite (u32_small ((x / 4096 + 1) * 4096 - x)) by lia. rewrite u32_small; lia.
Qed.

(** The part after the search. *)
Lemma wpe_take_slot E s (Q : unit -> Sim -> Prop) :
  (forall i, 0 <= rand i) -> consts_ok (node s) -> is_scheduled selfGenerateRequestMsg (node s) = false ->
  (forall s' t, slot_effect s s' t -> (forall t', t = Some t' -> now s + ticks <= t' < now s + 33 * 4096 * ticks) ->
     rand (draws s) mod 64 < 32 -> (0 < rand (draws s) mod 64 -> t <> None) -> Q tt s') ->
  0 < ticks -> 0 < rand (draws s) mod 64 < 32 \/ E (Undefined "shift count") ->
  wpe E scheduleTimeToGenerateRequest Q s.
Proof.
  intros Hr [Hl He] Hs HQ Ht HE. unfold scheduleTimeToGenerateRequest. srs.
  all: rsimp; rewrite ?Hl, ?He in *.
  2:{ exfalso. apply (f_equal negb) in H0. rewrite <- Z.leb_antisym in H0. apply Z.leb_le in H0.
      pose proof (Z.mod_pos_bound (u32 (now s)) 262144). lia. }
  eapply wpe_eq; [reflexivity|]. apply wpe_bind.
  set (s1 := s<| draws ::= S |>).
  assert (Hpick : wpe E (pick_slot 64 (rand (draws s) mod 64))
    (fun slot s2 => exists d, s2 = s<| draws := d |> /\
       rand (draws s) mod 64 < 32 /\ (forall k, slot = Some k -> 0 <= k < 32) /\
       (0 < rand (draws s) mod 64 -> slot <> None)) s1).
  { destruct (decide (0 < rand (draws s) mod 64 < 32)) as [Hnow|Hnot].
    - eapply wpe_eq; [by apply pick_slot_now|]. exists (S (draws s)). split; [done|].
      split; [lia|]. split; [intros k [= <-]; lia|done].
    - destruct HE as [|HE]; [done|]. apply wpe_pick_slot; [done|apply Z.mod_pos_bound; lia|done|].
      intros slot d Hlt Hk. exists d. split_and!; try done. intros ?. lia. }
  eapply wpe_mono; [exact Hpick|]. intros slot s2 (d & -> & Hlt & Hk & Hsome). destruct slot as [k|].
  - destruct (shl1_small k (Hk k eq_refl)) as [m ->]. srs; try (eapply wpe_eq; [reflexivity|]).
    all: apply wpe_scheduleSelf; [exact Hs|].
    all: eapply (HQ _ (Some _)); [split; [reflexivity|reflexivity|done..]| |done|done].
    all: intros t' [= <-]; by apply slot_time_bounds; auto.
  - apply wpe_ret. apply (HQ _ None); [by destruct s as [[] [] ? ? ? ? ?]|done|done|]. intros Hnow. by destruct (Hsome Hnow).
Qed.

(** The display is refreshed at the end of most handlers. *)
Lemma wpe_updateDisplay E s (Q : unit -> Sim -> Prop) :
  (forall txt, Q tt (s<| node ::= fun n => n<| disp ::= fun d => d<| text := txt |> |> |>)) ->
  wpe E updateDisplay Q s.
Proof. intros HQ. unfold updateDisplay. srs. apply HQ. Qed.

(** ** Joining the network *)

(** The advertisement packet of a node. *)
Definition advert (n : Node) : SRPacket :=
  (new_SRPacket "DISCO")<| Id := myID n |><| msgType := MSG_DISCOVERY |>
    <| pbloom := BloomPerso (bt n) |><| destMACAddress := BROADCAST_ADDRESS |>.

(** The state after advertising, before the slot is chosen. *)
Definition advertised (delayMin : Z) (s : Sim) : Sim :=
  s<| draws ::= S |>
   <| node ::= fun n => n<| outbox ::= fun l => l ++ [(send_time delayMin s, stamped (advert n) n)] |>
                         <| hasSentAdvertMsg := true |><| sensorStatus := STATUS_NORMAL |> |>
   <| statics ::= fun st => st<| numberSensorNotKnown ::= fun z => u16 (z - 1) |> |>.

Lemma wpe_advertise E d s (Q : unit -> Sim -> Prop) :
  (forall i, 0 <= rand i) -> consts_ok (node s) -> is_scheduled selfGenerateRequestMsg (node s) = false ->
  0 < ticks -> 0 < rand (S (draws s)) mod 64 < 32 \/ E (Undefined "shift count") ->
  (forall s' t, slot_effect (advertised d s) s' t ->
     (forall t', t = Some t' -> now s + ticks <= t' < now s + 33 * 4096 * ticks) ->
     rand (S (draws s)) mod 64 < 32 -> (0 < rand (S (draws s)) mod 64 -> t <> None) -> Q tt s') ->
  wpe E (advertise d) Q s.
Proof.
  intros Hr Hc Hs Ht HE HQ. unfold advertise. srs. apply wpe_scheduleMsg; [done|]. srs.
  apply wpe_take_slot; [done..| |done|done]. exact HQ.
Qed.

(** The position first drawn when a sensor joins: [rand()%64], after the draw of
    the delay of its advertisement. *)
Definition slot_drawn (s : Sim) : Z := rand (S (draws s)) mod 64.

(** A sensor has joined through the sender of [msg]: everything that changes
    for it and what it has announced, [delay] seconds ahead.  The position first
    drawn was below 32.  If it was not 0, a request is due within the next 33
    slots; if it was 0, the search may have given up with no request scheduled. *)
Record joined (delay : Z) (s : Sim) (msg : SRPacket) (s' : Sim) : Prop := {
  j_id : joined_id (myMACAddress (node s)) (Id msg) (myID (node s'));
  j_advert : exists t, outbox (node s') = outbox (node s) ++ [(t, stamped (advert (node s')) (node s))] /\
    now s + (delay + 1) * ticks <= t <= now s + (delay + 10) * ticks;
  j_known : hasSentAdvertMsg (node s') = true;
  j_status : sensorStatus (node s') = STATUS_NORMAL;
  j_count : numberSensorNotKnown (statics s') = u16 (numberSensorNotKnown (statics s) - 1);
  j_drawn : slot_drawn s < 32;
  j_request :
    (exists due, timers (node s') = (selfGenerateRequestMsg, due) :: timers (node s) /\
       now s + ticks <= due < now s + 33 * 4096 * ticks) \/
    (slot_drawn s = 0 /\ timers (node s') = timers (node s));
}.

(** A sensor that can join on [msg]: it is initialised (its address and the
    constants of the slots), is not known yet and has no request of its own scheduled; [msg] is a discovery message with a
    well-formed identifier. *)
Record joinable (s : Sim) (msg : SRPacket) : Prop := {
  jb_sensor : isSink (node s) = false;
  jb_mac : mac_wf (myMACAddress (node s));
  jb_new : hasSentAdvertMsg (node s) = false;
  jb_consts : consts_ok (node s);
  jb_idle : is_scheduled selfGenerateRequestMsg (node s) = false;
  jb_disco : msgType msg = MSG_DISCOVERY;
  jb_id : id_ok (Id msg);
}.

(** The one fault of joining: a position of 32 or more is drawn, by which an [int]
    cannot be shifted. *)
Definition bad_slot (s : Sim) (f : fault) : Prop := ~ 0 < slot_drawn s < 32 /\ f = Undefined "shift count".
Lemma bad_slot_cases s : 0 < rand (S (draws s)) mod 64 < 32 \/ bad_slot s (Undefined "shift count").
Proof. unfold bad_slot, slot_drawn. destruct (decide (0 < rand (S (draws s)) mod 64 < 32)); auto. Qed.

(** Only position 0 can be searched for in vain. *)
Lemma slot_zero s : (0 < rand (S (draws s)) mod 64 -> @None Z <> None) -> slot_drawn s = 0.
Proof.
  intros Hsome. unfold slot_drawn. pose proof (Z.mod_pos_bound (rand (S (draws s))) 64 ltac:(lia)) as [Hge _].
  destruct (Zle_lt_or_eq _ _ Hge) as [Hgt|]; [by destruct (Hsome Hgt)|done].
Qed.

(** Up to the dispatch on the sender's distance. *)
Ltac enter_discovery Hj :=
  destruct Hj as [Hsink Hm Hnew Hc Hs Htype Hid];
  unfold handleMessage; srs; rewrite Hsink; unfold handleSRMsg; srs; rsimp; rewrite Htype;
  cbn [Z.eqb MSG_DISCOVERY Pos.eqb]; srs; unfold handleNicDiscoveryMsg; srs; rsimp.

(** The fields of [joined], from the equations of the advertisement. *)
Ltac finish_join :=
  lazymatch goal with
  | Hn : node ?s' = _, Hst : statics ?s' = _, Hr : forall i, 0 <= rand i,
    Hlt : rand _ mod 64 < 32, Hsome : _ -> ?t <> None |- _ =>
    split; rsimp; first [exact Hlt | rewrite Hst | rewrite Hn]; rsimp; try done;
    [ eexists; split; [unfold stamped, advert; rsimp; reflexivity|];
      match goal with
      | |- _ <= send_time ?d ?x <= _ => exact (send_time_bounds d x Hr ltac:(lia) ltac:(lia))
      end
    | destruct t as [due|]; [left; eexists; split; [reflexivity|by auto]|right; split; [by apply slot_zero|done]] ]
  end.

(** C2: a sensor joins the network on the first advertisement it hears.  On a
    sensor (initialised, 32-bit build, well-formed address) that is not known yet,
    has no request of its own scheduled and does not know the sender, an
    advertisement of a node at distance [d] ([0 < d < 15]) makes it take the
    identifier (number of its own address, [d + 1], the sender's area), record
    the sender as neighbour with its filter, schedule exactly one advertisement
    of its own, broadcast under the new identifier with its own address and
    filter between [10 (d + 1) + 1] and [10 (d + 1) + 10] seconds later, and count
    itself as known.  What becomes of its request depends on rand()%64, nonnegative:
    drawn in 1..31, a request is due within the next 33 slots; in 32..63, the
    handler always ends in the undefined shift [1<<32] or more; drawn 0, it joins
    with such a request or, when the search gives up, with none, unless a position
    drawn later is an undefined shift.  There is no other fault. *)
Theorem discovery_joins (s : Sim) (msg : SRPacket)
  (Hb : build = Build32) (Hr : forall i, 0 <= rand i) (Ht : 0 < ticks) (Hj : joinable s msg)
  (Hd : 0 < getSinkDistance (Id msg) < 15)
  (Hunknown : map_find (Id msg) (neighborList (node s)) = None) :
  match handleMessage (NicPacket msg) s with
  | Ok (_, s') =>
      joined (10 * (getSinkDistance (Id msg) + 1)) s msg s' /\
      map_find (Id msg) (neighborList (node s')) = Some (srcMACAddress msg) /\
      bt (node s') = AddFilter (pbloom msg) (srcMACAddress msg) (bt (node s))
  | Fault f => ~ 0 < slot_drawn s < 32 /\ f = Undefined "shift count"
  end.
Proof.
  cut (wpe (bad_slot s) (handleMessage (NicPacket msg)) (fun _ s' => joined (10 * (getSinkDistance (Id msg) + 1)) s msg s' /\
    map_find (Id msg) (neighborList (node s')) = Some (srcMACAddress msg) /\
    bt (node s') = AddFilter (pbloom msg) (srcMACAddress msg) (bt (node s))) s); [done|].
  enter_discovery Hj. rewrite (proj2 (Z.eqb_neq _ 0)) by lia. srs. rsimp. rewrite Hunknown. srs. rsimp.
  rewrite Hnew. srs. apply wpe_getIdFrom; [done|done|done|lia|]. intros id Hid'. srs. rsimp.
  assert (getSinkDistance id = getSinkDistance (Id msg) + 1) as -> by (by destruct Hid' as (_ & b & _ & [= _ -> _])).
  rewrite (u16_small (10 * _)) by lia. apply wpe_advertise; [done..|exact (bad_slot_cases s)|].
  intros s' t [Hn Hst _ _ _ _] Hbound Hlt Hsome. unfold advertised in Hn, Hst. rsimp.
  apply wpe_updateDisplay. intros txt. rsimp. rewrite Hn. rsimp. rewrite map_find_put_eq. split; [|done].
  finish_join.
Qed.

(** A sensor in the first ring joins on the sink's answer.  Once it has asked
    the sink, the next discovery message at distance 0 gives a sensor distance 1
    in the sink's area and makes it announce itself 11 to 20 seconds later; its
    icon turns green.  The position of its request is drawn as above. *)
Theorem sink_reply_joins (s : Sim) (msg : SRPacket)
  (Hb : build = Build32) (Hr : forall i, 0 <= rand i) (Ht : 0 < ticks) (Hj : joinable s msg)
  (Hd : getSinkDistance (Id msg) = 0) (Hasked : firstSinkMsg (node s) = false) :
  match handleMessage (NicPacket msg) s with
  | Ok (_, s') => joined 10 s msg s' /\ getSinkDistance (myID (node s')) = 1 /\ color (disp (node s')) = "green"
  | Fault f => ~ 0 < slot_drawn s < 32 /\ f = Undefined "shift count"
  end.
Proof.
  cut (wpe (bad_slot s) (handleMessage (NicPacket msg)) (fun _ s' =>
    joined 10 s msg s' /\ getSinkDistance (myID (node s')) = 1 /\ color (disp (node s')) = "green") s); [done|].
  enter_discovery Hj. rewrite Hd. cbn [Z.eqb]. srs. rsimp. rewrite Hasked. cbn [negb].
  srs; rsimp; rewrite Hnew; srs; (apply wpe_getIdFrom; [done|done|done|lia|]); intros id Hid'; srs;
    (apply wpe_advertise; [done..|exact (bad_slot_cases s)|]);
    intros s' t [Hn Hst _ _ _ _] Hbound Hlt Hsome; unfold advertised in Hn, Hst; rsimp;
    unfold changeDisplay; srs; rsimp; apply wpe_updateDisplay; intros txt; rsimp;
    (assert (Hd1 : getSinkDistance id = 1) by (by destruct Hid' as (_ & b & _ & [= _ -> _]); lia));
    rewrite Hn; rsimp; rewrite Hd1; (split; [|done]); finish_join.
Qed.

(** The sink numbers the areas.  A discovery request reaching the sink makes
    it record the sender with its filter and answer it, 41 to 50 seconds later,
    with the sink's identifier in the next area; four requests are served this
    way (areas 0 to 3), the fifth stops the run on the assertion of
    [setArea]. *)
Theorem sink_assigns_area (s : Sim) (msg : SRPacket)
  (Hr : forall i, 0 <= rand i) (Ht : 0 < ticks) (Hsink : isSink (node s) = true)
  (Htype : msgType msg = MSG_DISCOVERY) (Hq : queryType msg = Q_REQUEST)
  (Hid : id_ok (myID (node s))) (Ha : 0 <= areaNumber (node s) < 65535) :
  if areaNumber (node s) <? 4 then
    exists s' t p, handleMessage (NicPacket msg) s = Ok (tt, s') /\
      unpack (myID (node s')) =
        (getMACExt (myID (node s)), getSinkDistance (myID (node s)), areaNumber (node s)) /\
      areaNumber (node s') = areaNumber (node s) + 1 /\
      map_find (Id msg) (neighborList (node s')) = Some (srcMACAddress msg) /\
      bt (node s') = AddFilter (pbloom msg) (srcMACAddress msg) (bt (node s)) /\
      outbox (node s') = outbox (node s) ++ [(t, p)] /\
      now s + 41 * ticks <= t <= now s + 50 * ticks /\
      Id p = myID (node s') /\ destMACAddress p = srcMACAddress msg /\
      srcMACAddress p = myMACAddress (node s) /\ queryType p = Q_REPLY /\ msgType p = MSG_DISCOVERY
  else handleMessage (NicPacket msg) s = Fault (AssertFailed "area < 4").
Proof.
  destruct (Z.ltb_spec (areaNumber (node s)) 4) as [Hlt|Hge].
  - destruct (setArea_unpack (areaNumber (node s)) (myID (node s)) Hid) as (id & Eid & _ & Hu); [lia|].
    cut (wp (handleMessage (NicPacket msg)) (fun _ s' => exists t p,
      node s' = (node s)<| numReceived ::= Z.add 1 |>
        <| bt ::= AddFilter (pbloom msg) (srcMACAddress msg) |>
        <| neighborList ::= map_put (Id msg) (srcMACAddress msg) |>
        <| iDBuilder := id |><| myID := id |><| areaNumber ::= fun z => u16 (z + 1) |>
        <| outbox ::= fun l => l ++ [(t, p)] |> /\
      now s + 41 * ticks <= t <= now s + 50 * ticks /\
      Id p = id /\ destMACAddress p = srcMACAddress msg /\
      srcMACAddress p = myMACAddress (node s) /\ queryType p = Q_REPLY /\ msgType p = MSG_DISCOVERY) s).
    { intros ([] & s' & E & t & p & Hn & Hrest)%wp_ok. exists s', t, p. rewrite Hn. rsimp.
      rewrite map_find_put_eq, u16_small by lia. by split_and!; try apply Hrest. }
    unfold handleMessage. srs. rewrite Hsink. cbn [SINK_handleMessage].
    unfold SINK_handleSRMsg. rsimp. rewrite Htype. cbn [Z.eqb MSG_DISCOVERY Pos.eqb].
    unfold SINK_handleNicDiscoveryMsg. rsimp. rewrite Hq. cbn [Z.eqb Q_REQUEST Pos.eqb].
    unfold on_id. srs. rsimp. rewrite Eid. srs. rsimp. apply wpe_scheduleMsg; [done|]. rsimp.
    eexists _, _. split; [reflexivity|]. split; [|by split_and!].
    match goal with |- _ <= send_time ?d ?x <= _ => exact (send_time_bounds d x Hr ltac:(lia) ltac:(lia)) end.
  - unfold handleMessage, mbind, M_bind, gets. rewrite Hsink. cbn [SINK_handleMessage].
    unfold SINK_handleSRMsg. rsimp. rewrite Htype. cbn [Z.eqb MSG_DISCOVERY Pos.eqb].
    unfold SINK_handleNicDiscoveryMsg. rsimp. rewrite Hq. cbn [Z.eqb Q_REQUEST Pos.eqb].
    unfold on_id, setID, mbind, M_bind, gets, upd, modify, lift, count_received, addNeighborBloom, addNeighbor,
      upd, modify, mbind, M_bind. rsimp.
    unfold setArea, check. rewrite (proj2 (Z.ltb_ge (areaNumber (node s)) 4)) by lia. done.
Qed.

(** ** Requests and replies *)

(** The packet as the handler of a sensor sees it. *)
Definition received (msg : SRPacket) : SRPacket :=
  msg<| controlInfo := None |><| hopCount ::= fun h => u16 (h + 1) |>.

(** Counting a normal message in. *)
Definition counted (s : Sim) : Sim :=
  s<| node ::= fun n => n<| numReceived ::= Z.add 1 |> |>
   <| statics ::= fun st => st<| NBMsgRcvdPerRequest ::= Z.add 1 |> |>.

Lemma wpe_normal E msg s (Q : unit -> Sim -> Prop) :
  isSink (node s) = false -> msgType msg = MSG_NORMAL ->
  wpe E (handleNicNormalMsg (received msg))
    (fun _ s1 => forall txt, Q tt (s1<| node ::= fun n => n<| disp ::= fun d => d<| text := txt |> |> |>))
    (counted s) ->
  wpe E (handleMessage (NicPacket msg)) Q s.
Proof.
  intros Hsink Ht Hw. unfold handleMessage. srs. rewrite Hsink. unfold handleSRMsg. srs. rsimp.
  rewrite Ht. cbn [Z.eqb MSG_DISCOVERY MSG_ALERT MSG_NORMAL Pos.eqb]. srs.
  eapply wpe_mono; [exact Hw|]. intros [] s1 HQ. by apply wpe_updateDisplay.
Qed.

Lemma wpe_getNextHop E q src w s (Q : MACAddress -> Sim -> Prop) :
  table_ok (mem s) (bt (node s)) -> map_find q query_translation2 = Some w ->
  (forall r, GetNextHop (bt (node s)) q src (myMACAddress (node s)) (mem s) = Ok (r, mem s) -> Q r s) ->
  wpe E (getNextHop q src) Q s.
Proof.
  intros Hok Hw HQ. destruct (GetNextHop_ok _ _ q src (myMACAddress (node s)) w Hok Hw) as (r & Er & _).
  unfold getNextHop, on_mem. srs. eapply wpe_eq; [exact Er|]. exact (HQ r Er).
Qed.

(** Nothing but the reception counters and the displayed text has changed. *)
Definition dropped (s s' : Sim) : Prop :=
  exists txt, s' = s<| node ::= fun n => n<| numReceived ::= Z.add 1 |>
                                   <| disp ::= fun d => d<| text := txt |> |> |>
             <| statics ::= fun st => st<| NBMsgRcvdPerRequest ::= Z.add 1 |> |>.

(** A request that was already handled is dropped.  A request with the
    timestamp of the current one changes nothing but the reception counters and
    the displayed text: nothing is scheduled, recorded, learned or drawn. *)
Theorem duplicate_request_dropped (s : Sim) (msg : SRPacket)
  (Hsink : isSink (node s) = false) (Htype : msgType msg = MSG_NORMAL)
  (Hq : queryType msg = Q_REQUEST) (Hdup : myTimestamp msg = currentRequestTimeStamp (node s)) :
  exists s', handleMessage (NicPacket msg) s = Ok (tt, s') /\ dropped s s'.
Proof.
  cut (wp (handleMessage (NicPacket msg)) (fun _ s' => dropped s s') s).
  { intros ([] & s' & E & HQ)%wp_ok. eauto. }
  apply wpe_normal; [done..|]. unfold handleNicNormalMsg, received. srs. rsimp. rewrite Hq.
  cbn [Z.eqb Q_REQUEST Pos.eqb]. unfold handleRequest. srs. rsimp.
  unfold counted. rsimp. rewrite Hdup, Z.eqb_refl. srs. intros txt. by exists txt.
Qed.

(** What a fresh request leaves behind before it is routed: its timestamp is
    current and its sender is the way back. *)
Definition noted (msg : SRPacket) (s : Sim) : Sim :=
  (counted s)<| node ::= fun n => n<| currentRequestTimeStamp := myTimestamp msg |>
     <| RecordTable ::= map_put (Id msg) (srcMACAddress msg) |> |>.

(** The answer a node gives to a request. *)
Definition answer (msg : SRPacket) (nextHop : MACAddress) : SRPacket :=
  (new_SRPacket ("RESPONSE-" +:+ decimal (myTimestamp msg)))<| msgType := MSG_NORMAL |>
    <| queryType := Q_REPLY |><| Id := Id msg |><| hopCount := u16 (hopCount msg + 1) |>
    <| myTimestamp := myTimestamp msg |><| destMACAddress := nextHop |><| queryId := queryId msg |>.

(** One packet more to send, 11 to 20 seconds from now, and the request noted. *)
Definition routes (s : Sim) (msg : SRPacket) (out : SRPacket) (s' : Sim) : Prop :=
  exists t, outbox (node s') = outbox (node s) ++ [(t, stamped out (node s))] /\
    now s + 11 * ticks <= t <= now s + 20 * ticks /\
    map_find (Id msg) (RecordTable (node s')) = Some (srcMACAddress msg) /\
    currentRequestTimeStamp (node s') = myTimestamp msg /\
    NBMsgSentPerRequest (statics s') = NBMsgSentPerRequest (statics s) + 1 /\
    learningTable (tr (node s')) = learningTable (tr (node s)) /\
    bt (node s') = bt (node s) /\ mem s' = mem s.

(** A request that reaches a sensor with well-formed tables, about a query
    identifier that the translation table of BloomTable.cc gives the word [w]. *)
Record request (s : Sim) (msg : SRPacket) (w : string) : Prop := {
  rq_sensor : isSink (node s) = false;
  rq_mac : mac_wf (myMACAddress (node s));
  rq_normal : msgType msg = MSG_NORMAL;
  rq_request : queryType msg = Q_REQUEST;
  rq_table : table_ok (mem s) (bt (node s));
  rq_word : map_find (queryId msg) query_translation2 = Some w;
}.

(** The request is the one the sensor handled last. *)
Definition repeated (s : Sim) (msg : SRPacket) : bool := myTimestamp msg =? currentRequestTimeStamp (node s).

(** A repeated request is dropped, any other gives way to [P]. *)
Definition unless_repeated (s : Sim) (msg : SRPacket) (P : Sim -> Prop) (s' : Sim) : Prop :=
  if repeated s msg then dropped s s' else P s'.

Lemma request_once s msg w (P : Sim -> Prop) :
  request s msg w -> (repeated s msg = false -> wp (handleMessage (NicPacket msg)) (fun _ => P) s) ->
  exists s', handleMessage (NicPacket msg) s = Ok (tt, s') /\ unless_repeated s msg P s'.
Proof.
  intros [Hsink _ Htype Hq _ _] Hw. unfold unless_repeated. destruct (repeated s msg) eqn:Erep.
  - apply duplicate_request_dropped; [done..|]. by apply Z.eqb_eq.
  - destruct (wp_ok _ _ _ (Hw eq_refl)) as ([] & s' & E & HP). eauto.
Qed.

(** Up to the routing decision of [handleRequest]. *)
Ltac enter_request Hreq Hfresh :=
  lazymatch type of Hreq with request ?s ?msg ?w =>
  unfold repeated in Hfresh;
  destruct Hreq as [Hsink Hm Htype Hq Htable Hw];
  apply wpe_normal; [done..|]; unfold handleNicNormalMsg, received; srs; rsimp; rewrite Hq;
  cbn [Z.eqb Q_REQUEST Pos.eqb]; unfold handleRequest; srs; unfold counted; rsimp;
  rewrite Z.eqb_sym, Hfresh; srs; rsimp;
  eapply wpe_getNextHop; [exact Htable|exact Hw|]; rsimp; intros r Er;
  destruct (GetNextHop_ok _ _ _ false (myMACAddress (node s)) w Htable Hw) as (r' & Er' & Hr');
  rewrite Er in Er'; injection Er' as <-
  end.

(** The packet is scheduled and counted: what [routes] asks for. *)
Ltac finish_routes Hr :=
  srs; apply wpe_scheduleMsg; [done|]; rsimp; srs; intros txt; eexists; rsimp;
  split; [reflexivity|]; split_and!; try done; try lia;
  match goal with
  | |- _ <= send_time ?d ?x => exact (proj1 (send_time_bounds d x Hr ltac:(lia) ltac:(lia)))
  | |- send_time ?d ?x <= _ => exact (proj2 (send_time_bounds d x Hr ltac:(lia) ltac:(lia)))
  | |- map_find _ (map_put _ _ _) = _ => apply map_find_put_eq
  end.

(** C24: a sensor whose own filter answers a request replies to the neighbour the
    request came from (or to itself if the request was its own): one reply carrying
    the requester's identifier, the request's number and timestamp and the hops so
    far, 11 to 20 seconds later, and the request is noted.  A repeated request, with
    the timestamp of the one handled last, is dropped instead: nothing changes but
    the reception counters and the displayed text.  The sensor has a well-formed
    address and well-formed filters, and the query identifier is one of the
    translation table (for an unknown one the end iterator is dereferenced, which is
    undefined); random numbers are nonnegative and a second has clock ticks. *)
Theorem request_answered (s : Sim) (msg : SRPacket) (w : string)
  (Hr : forall i, 0 <= rand i) (Ht : 0 < ticks) (Hreq : request s msg w)
  (Hown : answers (mem s) (BloomPerso (bt (node s))) w) :
  exists s', handleMessage (NicPacket msg) s = Ok (tt, s') /\
    unless_repeated s msg
      (routes s msg (answer msg (if Id msg =? myID (node s) then myMACAddress (node s) else srcMACAddress msg))) s'.
Proof.
  set (out := answer msg _). apply (request_once s msg w); [done|]. intros Hfresh.
  enter_request Hreq Hfresh. destruct Hr' as [(_ & _ & ->)|[[|Hno] _]]; [|done|done].
  rewrite equals_spec, bool_decide_true by done. srs. rsimp. unfold out.
  destruct (Id msg =? myID (node s)); unfold recordTableAt, map_index; srs; rsimp;
    rewrite ?map_find_put_eq; srs; finish_routes Hr.
Qed.

(** C26: a sensor whose own filter does not answer a request passes it on to the
    neighbour whose filter does, the first in the order of the printed addresses:
    the packet itself, one hop older, with new addresses, 11 to 20 seconds later,
    and the request is noted.  This is when that neighbour's address is neither the
    one the request came from, nor the sensor's own, nor the unspecified one, which
    the handler tests for.  A repeated request, with the timestamp of the one
    handled last, is dropped instead: nothing changes but the reception counters
    and the displayed text.  The addresses and filters are well formed, and the
    query identifier is one of the translation table; random numbers are nonnegative
    and a second has clock ticks. *)
Theorem request_forwarded (s : Sim) (msg : SRPacket) (w : string) (m : MACAddress) (b : bloom)
  (Hr : forall i, 0 <= rand i) (Ht : 0 < ticks) (Hreq : request s msg w)
  (Hown : ~ answers (mem s) (BloomPerso (bt (node s))) w)
  (Hin : (str m, b) ∈ NeighborsTable (bt (node s))) (Hans : answers (mem s) b w)
  (Hfirst : forall k b', (k, b') ∈ NeighborsTable (bt (node s)) -> answers (mem s) b' w ->
              k = str m \/ key_lt (str m) k)
  (Hmwf : mac_wf m) (Hsrc : mac_wf (srcMACAddress msg))
  (Hme : m <> myMACAddress (node s)) (Hback : m <> srcMACAddress msg) (Hspec : m <> UNSPECIFIED_ADDRESS) :
  exists s', handleMessage (NicPacket msg) s = Ok (tt, s') /\
    unless_repeated s msg (routes s msg ((received msg)<| destMACAddress := m |>)) s'.
Proof.
  apply (request_once s msg w); [done|]. intros Hfresh.
  enter_request Hreq Hfresh. destruct Hr' as [(_ & ? & _)|[_ [(m' & b' & Hin' & Hwf' & -> & Hans' & Hfirst')|[_ Hnone]]]];
    [done| |by destruct (Hnone _ _ Hin)].
  assert (m' = m) as ->.
  { apply str_inj; [done..|].
    destruct (Hfirst _ _ Hin' Hans') as [|H1]; [done|]. destruct (Hfirst' _ _ Hin Hans) as [|H2]; [done|].
    unfold key_lt in H1, H2. pose proof (kcmp_trans _ _ _ H1 H2) as H3. by rewrite kcmp_refl in H3. }
  rewrite !equals_spec, isUnspecified_spec, !bool_decide_false by done. cbn [negb andb].
  finish_routes Hr.
Qed.

Lemma wpe_learn_nothing E q s (Q : MACAddress -> Sim -> Prop) :
  sim_ok (queriesSimilarity (tr (node s))) -> learningTable (tr (node s)) = [] ->
  (Z.to_nat (QueryRelaxationMaxRetry (tr (node s)) - QueryRelaxationRetryTime (tr (node s))) < rare_fuel)%nat ->
  Q UNSPECIFIED_ADDRESS (s<| node ::= fun n => n<| tr ::= fun t => t<| QueryRelaxationRetryTime := 0 |> |> |>) ->
  wpe E (learningPeerSelection q) Q s.
Proof.
  intros Hs He Hf HQ. unfold wpe, learningPeerSelection.
  rewrite select_empty by done. exact HQ.
Qed.

(** A request nobody is known to answer goes to the first neighbour whose
    address is not the packet's destination.  With no filter that answers and
    nothing learned, the handler does not compare with the neighbour the request
    came from but with the address it was sent to; so when that neighbour comes
    first in the list, the request goes straight back to it. *)
Theorem request_flooded (s : Sim) (msg : SRPacket) (w : string) (k : Z) (m : MACAddress) (l : list (Z * MACAddress))
  (Hr : forall i, 0 <= rand i) (Ht : 0 < ticks) (Hreq : request s msg w)
  (Hown : ~ answers (mem s) (BloomPerso (bt (node s))) w)
  (Hnone : forall k b, (k, b) ∈ NeighborsTable (bt (node s)) -> ~ answers (mem s) b w)
  (Hsim : sim_ok (queriesSimilarity (tr (node s)))) (Hempty : learningTable (tr (node s)) = [])
  (Hfuel : (Z.to_nat (QueryRelaxationMaxRetry (tr (node s)) - QueryRelaxationRetryTime (tr (node s))) < rare_fuel)%nat)
  (Hl : neighborList (node s) = (k, m) :: l) (Hmwf : mac_wf m) (Hdest : mac_wf (destMACAddress msg))
  (Hne : destMACAddress msg <> m) (Hset : myMACAddress (node s) <> UNSPECIFIED_ADDRESS) :
  exists s', handleMessage (NicPacket msg) s = Ok (tt, s') /\
    unless_repeated s msg (routes s msg ((received msg)<| destMACAddress := m |>)) s'.
Proof.
  apply (request_once s msg w); [done|]. intros Hfresh.
  enter_request Hreq Hfresh. destruct Hr' as [(_ & ? & _)|[_ [(m' & b' & Hin' & _ & _ & Hans' & _)|[-> _]]]];
    [done|by destruct (Hnone _ _ Hin')|].
  rewrite equals_spec, bool_decide_false by done. rewrite isUnspecified_spec, bool_decide_true by done.
  cbn [negb andb]. srs. apply wpe_learn_nothing; [done..|].
  rewrite isUnspecified_spec, bool_decide_true by done. srs. rsimp. rewrite Hl. cbn [first_other].
  rewrite equals_spec, bool_decide_false by done. cbn [negb].
  finish_routes Hr.
Qed.

(** A reply goes back the way the request came, and is learned from.  A
    sensor that is not the requester credits the neighbour that brought the
    reply, for this query, and passes the reply on to the neighbour the request
    of that requester had come from. *)
Theorem reply_forwarded (s : Sim) (msg : SRPacket) (back : MACAddress)
  (Hr : forall i, 0 <= rand i) (Ht : 0 < ticks) (Hsink : isSink (node s) = false)
  (Htype : msgType msg = MSG_NORMAL) (Hq : queryType msg = Q_REPLY)
  (Hother : Id msg <> myID (node s)) (Hback : map_find (Id msg) (RecordTable (node s)) = Some back)
  (Hrows : rows_ok (tr (node s))) (Hsrc : mac_wf (srcMACAddress msg)) (Hid : 0 <= queryId msg < INT_MAX)
  (Hmax : score (tr (node s)) (queryId msg) (srcMACAddress msg) < INT_MAX) :
  exists s' t, handleMessage (NicPacket msg) s = Ok (tt, s') /\
    outbox (node s') = outbox (node s) ++ [(t, stamped ((received msg)<| destMACAddress := back |>) (node s))] /\
    now s + 11 * ticks <= t <= now s + 20 * ticks /\
    RecordTable (node s') = RecordTable (node s) /\
    rows_ok (tr (node s')) /\
    score (tr (node s')) (queryId msg) (srcMACAddress msg) =
      score (tr (node s)) (queryId msg) (srcMACAddress msg) + 1.
Proof.
  destruct (UpdateTable_step _ _ _ Hrows Hsrc Hid Hmax) as (t' & Et & Hrows' & Hscore).
  cut (wp (handleMessage (NicPacket msg)) (fun _ s' => exists t,
    outbox (node s') = outbox (node s) ++ [(t, stamped ((received msg)<| destMACAddress := back |>) (node s))] /\
    (now s + 11 * ticks <= t <= now s + 20 * ticks) /\
    RecordTable (node s') = RecordTable (node s) /\ tr (node s') = t') s).
  { intros ([] & s' & E & t & H1 & H2 & H3 & H4)%wp_ok. exists s', t. rewrite H4.
    by split_and!; try apply H2. }
  apply wpe_normal; [done..|]. unfold handleNicNormalMsg, received, counted. srs. rsimp. rewrite Hq.
  rewrite (proj2 (Z.eqb_neq _ _) Hother). cbn [Z.eqb Q_REQUEST Q_REPLY Pos.eqb negb andb].
  unfold updateTable. srs. rsimp. rewrite Et. unfold recordTableAt, map_index. srs. rsimp. rewrite Hback. srs. rsimp.
  apply wpe_scheduleMsg; [done|]. srs. intros txt. eexists. rsimp. split; [reflexivity|]. split_and!; try done;
  match goal with
  | |- _ <= send_time ?d ?x => exact (proj1 (send_time_bounds d x Hr ltac:(lia) ltac:(lia)))
  | |- send_time ?d ?x <= _ => exact (proj2 (send_time_bounds d x Hr ltac:(lia) ltac:(lia)))
  end.
Qed.

(** The requester learns from the answer to its own request.  The neighbour
    that brought the reply is credited, the hop count is published, the
    simulation is marked as over if this node holds the last slot, and nothing is
    sent. *)
Theorem reply_received (s : Sim) (msg : SRPacket)
  (Hsink : isSink (node s) = false) (Htype : msgType msg = MSG_NORMAL) (Hq : queryType msg = Q_REPLY)
  (Hmine : Id msg = myID (node s)) (Hrows : rows_ok (tr (node s)))
  (Hsrc : mac_wf (srcMACAddress msg)) (Hid : 0 <= queryId msg < INT_MAX)
  (Hmax : score (tr (node s)) (queryId msg) (srcMACAddress msg) < INT_MAX) :
  exists s', handleMessage (NicPacket msg) s = Ok (tt, s') /\
    outbox (node s') = outbox (node s) /\
    hopCountPerRequest (statics s') = u16 (hopCount msg + 1) /\
    stopSim (statics s') = iAmTheLast (node s) || stopSim (statics s) /\
    rows_ok (tr (node s')) /\
    score (tr (node s')) (queryId msg) (srcMACAddress msg) =
      score (tr (node s)) (queryId msg) (srcMACAddress msg) + 1.
Proof.
  destruct (UpdateTable_step _ _ _ Hrows Hsrc Hid Hmax) as (t' & Et & Hrows' & Hscore).
  cut (wp (handleMessage (NicPacket msg)) (fun _ s' => outbox (node s') = outbox (node s) /\
    hopCountPerRequest (statics s') = u16 (hopCount msg + 1) /\
    stopSim (statics s') = iAmTheLast (node s) || stopSim (statics s) /\ tr (node s') = t') s).
  { intros ([] & s' & E & H1 & H2 & H3 & H4)%wp_ok. exists s'. rewrite H4. by split_and!. }
  apply wpe_normal; [done..|]. unfold handleNicNormalMsg, received, counted. srs. rsimp. rewrite Hq, Hmine.
  rewrite (Z.eqb_refl (myID _)). cbn [Z.eqb Q_REQUEST Q_REPLY Pos.eqb negb andb].
  unfold updateTable. srs. rsimp. rewrite Et. srs; intros txt; rsimp; by rewrite H0.
Qed.

(** ** Addresses from identifiers *)

(** An identifier gives its node's address back: between nodes whose addresses
    differ only in the last byte (as automatic addresses of up to 255 nodes do),
    [idToMACAddress] replaces that byte by the number in the identifier. *)
Lemma idToMACAddress_inverse (s : Sim) (other : MACAddress) (id : Z) :
  mac_wf (myMACAddress (node s)) -> mac_wf other -> take 5 other = take 5 (myMACAddress (node s)) ->
  other !! 5%nat = Some (getMACExt id) -> exists s', idToMACAddress id s = Ok (other, s').
Proof.
  intros Hm Ho Hprefix Hb.
  assert (byte_ok (getMACExt id)) as Hbb by (destruct Ho as [_ Ho]; exact (Forall_lookup_1 _ _ _ _ Ho Hb)).
  assert (Hset : setAddressByte (myMACAddress (node s)) 5 (getMACExt id) = Ok other).
  { destruct (mac_split _ Hm) as (m5 & c & Em & Hl5 & _). destruct (mac_split _ Ho) as (o5 & c' & Eo & Hol & Hc').
    rewrite Em, Eo in Hprefix. rewrite !take_app_length' in Hprefix by done. subst o5.
    rewrite Hb in Hc'. injection Hc' as <-. unfold setAddressByte. rewrite bool_decide_false by lia.
    pose proof (insert_app_r_alt m5 [c] 5 (getMACExt id) ltac:(lia)) as Hi. rewrite Hl5 in Hi.
    rewrite Em, Eo. exact (f_equal Ok Hi). }
  unfold idToMACAddress, setID, upd, mbind, M_bind, gets, modify, lift. rsimp.
  unfold byte_ok in Hbb. rewrite u8_small by lia. rewrite Hset. eauto.
Qed.

(** ** Positions in the bitmaps *)

(** A taken position is handed out again.  The test [(bitmap & (1<<p)) == 1]
    can only be true for position 0: whatever the shared bitmap says, every other
    position drawn is accepted at once, both for the area positions of the sink's
    neighbours and for the request slots. *)
Theorem taken_positions_reused (s : Sim) (left : nat) (p : Z) :
  (0 < p < 4 -> pick_area left p s = Ok (p, s)) /\ (0 < p < 32 -> pick_slot left p s = Ok (Some p, s)).
Proof.
  split; [|by apply pick_slot_now]. intros Hp. destruct (shl1_even p ltac:(lia)) as (m & Em & _ & He).
  destruct left; cbn -[shl1 Z.land]; unfold mbind, M_bind, gets, lift; rewrite Em, land_even by done; done.
Qed.

(** ** Logging *)

(** The log line about the sink changes the routing state.  A sensor that
    is already known and hears the sink again under an identifier it has not
    seen (the sink's identifier changes with every area) does nothing but, if
    logging is enabled, enter the unspecified address as a neighbour. *)
Theorem log_inserts_neighbor (s : Sim) (msg : SRPacket)
  (Hsink : isSink (node s) = false) (Hdisco : msgType msg = MSG_DISCOVERY)
  (Hd : getSinkDistance (Id msg) = 0) (Hasked : firstSinkMsg (node s) = false)
  (Hknown : hasSentAdvertMsg (node s) = true)
  (Hunseen : map_find (Id msg) (neighborList (node s)) = None) :
  exists s', handleMessage (NicPacket msg) s = Ok (tt, s') /\
    outbox (node s') = outbox (node s) /\ timers (node s') = timers (node s) /\
    statics s' = statics s /\
    neighborList (node s') =
      if ev_enabled then map_put (Id msg) UNSPECIFIED_ADDRESS (neighborList (node s))
      else neighborList (node s).
Proof.
  cut (wp (handleMessage (NicPacket msg)) (fun _ s' =>
    outbox (node s') = outbox (node s) /\ timers (node s') = timers (node s) /\ statics s' = statics s /\
    neighborList (node s') =
      if ev_enabled then map_put (Id msg) UNSPECIFIED_ADDRESS (neighborList (node s))
      else neighborList (node s)) s).
  { intros ([] & s' & E & HQ)%wp_ok. eauto. }
  unfold handleMessage. srs. rewrite Hsink. unfold handleSRMsg. srs. rsimp. rewrite Hdisco.
  cbn [Z.eqb MSG_DISCOVERY Pos.eqb]. srs. unfold handleNicDiscoveryMsg. srs. rsimp. rewrite Hd.
  cbn [Z.eqb]. srs. rsimp. rewrite Hasked. cbn [negb].
  srs; rsimp; rewrite Hknown; srs; apply wpe_updateDisplay; intros txt; rsimp; rewrite H0;
    unfold map_index; by rewrite ?Hunseen.
Qed.
End handlers.

(** ** A small concrete simulation *)

Definition sample_env : Env :=
  {| rand := fun i => Z.of_nat i + 7; uniform04 := fun _ => SENSOR_HUMIDITY; ticks := 1000;
     build := Build32; ev_enabled := true; rare_fuel := 10 |}.

(** A sensor that has read its interface: address 0A-AA-00-00-00-[k], filter at
    location [l] of [sample_mem]. *)
Definition sample_mem : heap := {[1%positive := [0; 0]; 2%positive := [255; 255]]}.
Definition sample_bt (l : positive) : BloomTable :=
  mkBloomTable (Some (witness_filter l)) [] query_translation query_translation2 16.
Definition sample_node (k : Z) (l : positive) : Node :=
  (@SR_initialize sample_env false (sample_bt l) empty_table (Some (sample_mac k, false)) 0 0 false
     (mkDisplay "" "" "") 0)<| myMACAddress := sample_mac k |><| timers := [] |>.
Definition sample_sim (n : Node) : Sim := mkSim n initial_statics sample_mem 0 5000 [] [].

Definition sample_advert : SRPacket :=
  (new_SRPacket "DISCO")<| Id := pack 3 1 2 |><| msgType := MSG_DISCOVERY |>
    <| srcMACAddress := sample_mac 3 |><| pbloom := Some (witness_filter 2) |>
    <| destMACAddress := BROADCAST_ADDRESS |>.

Lemma discovery_joins_witness :
  exists s', @handleMessage sample_env (NicPacket sample_advert) (sample_sim (sample_node 7 1)) = Ok (tt, s') /\
    @joined sample_env 20 (sample_sim (sample_node 7 1)) sample_advert s'.
Proof.
  assert (Hj : @joinable (sample_sim (sample_node 7 1)) sample_advert).
  { split; try reflexivity.
    - apply sample_mac_wf. lia.
    - split; reflexivity.
    - vm_compute. split; [discriminate|reflexivity]. }
  pose proof (@discovery_joins sample_env (sample_sim (sample_node 7 1)) sample_advert eq_refl
    ltac:(intros i; cbn; lia) eq_refl Hj ltac:(vm_compute; split; reflexivity) eq_refl) as H.
  destruct (@handleMessage _ _ _) as [[[] s']|f].
  - destruct H as [H _]. exists s'. split; [reflexivity|]. exact H.
  - exfalso. destruct H as [H _]. apply H. vm_compute. split; reflexivity.
Defined.

Lemma sample_rand_nonneg i : 0 <= @rand sample_env i.
Proof. cbn. lia. Qed.

Lemma sample_bt_ok l : l = 1%positive \/ l = 2%positive -> table_ok sample_mem (sample_bt l).
Proof.
  intros Hl. split; cbn; [|constructor|done|done]. exists (witness_filter l). split; [done|].
  destruct Hl as [-> | ->]; eexists; (split; [reflexivity|]); repeat split; cbn; try lia; repeat constructor; done.
Qed.

(** An advertisement of the sink, as its first neighbours hear it. *)
Definition sample_sink_reply : SRPacket :=
  sample_advert<| Id := pack 1 0 2 |><| srcMACAddress := sample_mac 1 |>.

Lemma sink_reply_joins_witness :
  exists s', @handleMessage sample_env (NicPacket sample_sink_reply)
    (sample_sim ((sample_node 7 1)<| firstSinkMsg := false |>)) = Ok (tt, s').
Proof.
  set (s0 := sample_sim ((sample_node 7 1)<| firstSinkMsg := false |>)).
  assert (Hj : @joinable s0 sample_sink_reply).
  { split; try reflexivity.
    - apply sample_mac_wf. lia.
    - split; reflexivity.
    - vm_compute. split; [discriminate|reflexivity]. }
  pose proof (@sink_reply_joins sample_env s0 sample_sink_reply eq_refl sample_rand_nonneg eq_refl Hj eq_refl eq_refl) as H.
  destruct (@handleMessage _ _ _) as [[[] s']|f]; [by exists s'|].
  exfalso. destruct H as [H _]. apply H. vm_compute. split; reflexivity.
Defined.

(** A sink that has numbered two areas, and one that has numbered all four. *)
Definition sample_sink (area : Z) : Node :=
  (sample_node 1 1)<| isSink := true |><| myID := pack 1 0 0 |><| areaNumber := area |>.
Definition sample_disco_request : SRPacket :=
  sample_advert<| queryType := Q_REQUEST |><| Id := 65535 |>.

Lemma sink_assigns_area_witness :
  exists s', @handleMessage sample_env (NicPacket sample_disco_request) (sample_sim (sample_sink 2)) = Ok (tt, s').
Proof.
  destruct (@sink_assigns_area sample_env (sample_sim (sample_sink 2)) sample_disco_request)
    as (s' & t & p & E & _); try reflexivity.
  - apply sample_rand_nonneg.
  - vm_compute. split; [discriminate|reflexivity].
  - vm_compute. split; [discriminate|reflexivity].
  - exists s'. exact E.
Defined.

Definition sample_request : SRPacket :=
  (new_SRPacket "REQUEST-42")<| Id := pack 3 1 2 |><| msgType := MSG_NORMAL |><| queryType := Q_REQUEST |>
    <| queryId := SENSOR_SONG |><| srcMACAddress := sample_mac 3 |><| destMACAddress := sample_mac 7 |>
    <| myTimestamp := 42 |>.

Lemma sample_asks (n : Node) :
  isSink n = false -> mac_wf (myMACAddress n) -> table_ok sample_mem (bt n) -> request (sample_sim n) sample_request "SONG".
Proof. intros. by split. Qed.

Lemma answers_sample_2 : answers sample_mem (Some (witness_filter 2)) "SONG".
Proof.
  eexists. split; [reflexivity|]. destruct (ok_perso _ _ (sample_bt_ok 2 ltac:(by right))) as (bf & [= <-] & Hok).
  split; [done|]. intros arr [= <-]. vm_compute. reflexivity.
Qed.

Lemma answers_sample_1 : ~ answers sample_mem (Some (witness_filter 1)) "SONG".
Proof. intros (bf & [= <-] & _ & Hm). specialize (Hm _ eq_refl). vm_compute in Hm. discriminate. Qed.

Lemma request_answered_witness :
  exists s' t, @handleMessage sample_env (NicPacket sample_request) (sample_sim (sample_node 7 2)) = Ok (tt, s') /\
    outbox (node s') = [(t, stamped (answer sample_request (sample_mac 3)) (sample_node 7 2))].
Proof.
  destruct (@request_answered sample_env (sample_sim (sample_node 7 2)) sample_request "SONG")
    as (s' & E & t & Ho & _).
  - apply sample_rand_nonneg.
  - reflexivity.
  - apply sample_asks; [reflexivity|apply sample_mac_wf; lia|apply sample_bt_ok; by right].
  - exact answers_sample_2.
  - exists s', t. exact (conj E Ho).
Defined.

Lemma duplicate_request_dropped_witness :
  exists s', @handleMessage sample_env (NicPacket sample_request)
    (sample_sim ((sample_node 7 2)<| currentRequestTimeStamp := 42 |>)) = Ok (tt, s').
Proof.
  destruct (@duplicate_request_dropped sample_env (sample_sim ((sample_node 7 2)<| currentRequestTimeStamp := 42 |>))
    sample_request) as (s' & E & _); try reflexivity.
  exists s'. exact E.
Defined.

(** A node with an empty filter and one neighbour, whose filter answers. *)
Definition sample_bt2 : BloomTable := AddFilter (Some (witness_filter 2)) (sample_mac 9) (sample_bt 1).
Definition sample_node2 : Node := (sample_node 7 1)<| bt := sample_bt2 |>.

Lemma sample_bt2_ok : table_ok sample_mem sample_bt2.
Proof.
  apply AddFilter_ok; [apply sample_bt_ok; by left|apply sample_mac_wf; lia|].
  by destruct (ok_perso _ _ (sample_bt_ok 2 ltac:(by right))) as (bf & [= <-] & Hok).
Qed.

Lemma request_forwarded_witness :
  exists s' t, @handleMessage sample_env (NicPacket sample_request) (sample_sim sample_node2) = Ok (tt, s') /\
    outbox (node s') = [(t, stamped ((received sample_request)<| destMACAddress := sample_mac 9 |>) sample_node2)].
Proof.
  destruct (@request_forwarded sample_env (sample_sim sample_node2) sample_request "SONG" (sample_mac 9)
    (Some (witness_filter 2))) as (s' & E & t & Ho & _); try discriminate; try (apply sample_mac_wf; lia).
  - apply sample_rand_nonneg.
  - reflexivity.
  - apply sample_asks; [reflexivity|apply sample_mac_wf; lia|exact sample_bt2_ok].
  - exact answers_sample_1.
  - exact (list_elem_of_here (str (sample_mac 9), Some (witness_filter 2)) []).
  - exact answers_sample_2.
  - intros k b' Hin _. change ((k, b') ∈ [(str (sample_mac 9), Some (witness_filter 2))]) in Hin.
    apply list_elem_of_singleton in Hin. injection Hin as -> _. by left.
  - exists s', t. exact (conj E Ho).
Defined.

(** A node that knows only the sender of the request. *)
Definition sample_node3 : Node := (sample_node 7 1)<| neighborList := [(pack 3 1 2, sample_mac 3)] |>.

Lemma request_flooded_witness :
  exists s' t, @handleMessage sample_env (NicPacket sample_request) (sample_sim sample_node3) = Ok (tt, s') /\
    outbox (node s') = [(t, stamped ((received sample_request)<| destMACAddress := sample_mac 3 |>) sample_node3)].
Proof.
  destruct (@request_flooded sample_env (sample_sim sample_node3) sample_request "SONG" (pack 3 1 2) (sample_mac 3) [])
    as (s' & E & t & Ho & _); try discriminate; try (apply sample_mac_wf; lia); try reflexivity.
  - apply sample_rand_nonneg.
  - apply sample_asks; [reflexivity|apply sample_mac_wf; lia|apply sample_bt_ok; by left].
  - exact answers_sample_1.
  - intros k b Hin. by apply elem_of_nil in Hin.
  - exact initial_sim_ok.
  - cbn. lia.
  - exists s', t. split; [exact E|exact Ho].
Defined.

Definition sample_reply : SRPacket :=
  sample_request<| queryType := Q_REPLY |><| srcMACAddress := sample_mac 9 |>.
Definition sample_node4 : Node :=
  (sample_node 7 1)<| myID := pack 7 2 2 |><| RecordTable := [(pack 3 1 2, sample_mac 3)] |>.

Lemma reply_forwarded_witness :
  exists s', @handleMessage sample_env (NicPacket sample_reply) (sample_sim sample_node4) = Ok (tt, s') /\
    score (tr (node s')) SENSOR_SONG (sample_mac 9) = 1.
Proof.
  destruct (@reply_forwarded sample_env (sample_sim sample_node4) sample_reply (sample_mac 3))
    as (s' & t & E & _ & _ & _ & _ & Hs); try discriminate; try reflexivity.
  - apply sample_rand_nonneg.
  - constructor.
  - apply sample_mac_wf. lia.
  - vm_compute. split; [discriminate|reflexivity].
  - exists s'. split; [exact E|exact Hs].
Defined.

Lemma reply_received_witness :
  exists s', @handleMessage sample_env (NicPacket sample_reply)
    (sample_sim (sample_node4<| myID := pack 3 1 2 |>)) = Ok (tt, s').
Proof.
  destruct (@reply_received sample_env (sample_sim (sample_node4<| myID := pack 3 1 2 |>)) sample_reply)
    as (s' & E & _); try reflexivity.
  - constructor.
  - apply sample_mac_wf. lia.
  - vm_compute. split; [discriminate|reflexivity].
  - exists s'. exact E.
Defined.

Lemma taken_positions_reused_witness :
  @pick_area sample_env 16 2 ((sample_sim (sample_node 7 1))<| statics := initial_statics<| areaBitmap := 4 |> |>)
    = Ok (2, (sample_sim (sample_node 7 1))<| statics := initial_statics<| areaBitmap := 4 |> |>).
Proof. apply (@taken_positions_reused sample_env). lia. Defined.

Lemma log_inserts_neighbor_witness :
  exists s', @handleMessage sample_env (NicPacket sample_sink_reply)
    (sample_sim ((sample_node 7 1)<| firstSinkMsg := false |><| hasSentAdvertMsg := true |>)) = Ok (tt, s') /\
    neighborList (node s') = [(pack 1 0 2, UNSPECIFIED_ADDRESS)].
Proof.
  destruct (@log_inserts_neighbor sample_env
    (sample_sim ((sample_node 7 1)<| firstSinkMsg := false |><| hasSentAdvertMsg := true |>)) sample_sink_reply)
    as (s' & E & _ & _ & _ & Hl); try reflexivity.
  exists s'. split; [exact E|exact Hl].
Defined.
