(* ===== verification/SRInv.v ===== *)
(** * What a handler of SR.cc can change

    Two summaries of every handler, used for the network of nodes.  Most code
    is calm: it leaves the identity of the node, its neighbours and the counters
    of sensors alone, and schedules only packets that are not discovery packets.
    The summary of the discovery handlers says how the rest changes. *)

From S2P Require Import Prelude StdMap MACAddress IDBuilder BloomFilter BloomTable TableRARE SRTypes SR SRProps.

Open Scope string_scope.
Open Scope list_scope.
Open Scope Z_scope.

#[local] Opaque u8 u16 u32 u64 getSinkDistance getArea getMACExt map_put map_find map_index.

Section calm.
Context `{Env}.

(** The part of a node that discovery is about. *)
Definition identity (n : Node) :=
  (my_ie n, myMACAddress n, isSink n, myID n, firstSinkMsg n, neighborList n, hasSentAdvertMsg n, areaNumber n).

(** A packet scheduled by a node with address [my] at time [t0], of a kind that
    does not matter for discovery. *)
Definition harmless (my : MACAddress) (t0 : Z) (e : Z * SRPacket) : Prop :=
  srcMACAddress e.2 = my /\ t0 < e.1 /\ msgType e.2 <> MSG_DISCOVERY.

Record calm (s s' : Sim) : Prop := {
  c_identity : identity (node s') = identity (node s);
  c_timers : forall t, (selfInitializationMsg, t) ∈ timers (node s') -> (selfInitializationMsg, t) ∈ timers (node s);
  c_unknown : numberSensorNotKnown (statics s') = numberSensorNotKnown (statics s);
  c_all : numberSensorInNetwork (statics s') = numberSensorInNetwork (statics s);
  c_now : now s' = now s;
  c_sent : sent s' = sent s;
  c_outbox : exists l, outbox (node s') = outbox (node s) ++ l /\
    Forall (harmless (myMACAddress (node s)) (now s)) l;
}.

Lemma calm_refl s : calm s s.
Proof. split; try done. exists []. by rewrite app_nil_r. Qed.

Lemma calm_trans s1 s2 s3 : calm s1 s2 -> calm s2 s3 -> calm s1 s3.
Proof.
  intros [I1 T1 U1 A1 N1 S1 (l1 & O1 & F1)] [I2 T2 U2 A2 N2 S2 (l2 & O2 & F2)].
  assert (Hm : myMACAddress (node s2) = myMACAddress (node s1)) by (injection I1; congruence).
  rewrite Hm, N1 in F2. split; try congruence; [by eauto|].
  exists (l1 ++ l2). rewrite O2, O1, app_assoc. split; [done|by apply Forall_app].
Qed.

#[local] Abbreviation K s := (keeps (calm s)).

(** A leaf: an update that leaves the clauses alone. *)
Lemma keeps_calm s0 (f : Sim -> Sim) : (forall s, calm s (f s)) -> K s0 (modify f).
Proof. intros Hf. apply keeps_modify. intros s Hs. by eapply calm_trans. Qed.

Ltac calm_leaf :=
  apply keeps_calm; intros ?;
  split; unfold identity; rsimp; try done; (exists []; by rewrite app_nil_r).

Ltac calm_step :=
  first
  [ solve [auto with keeps]
  | apply keeps_bind; [|intros ?]
  | apply keeps_when
  | progress cbv zeta
  | match goal with
    | |- keeps _ (if ?b then _ else _) => destruct b
    | |- keeps _ (match ?x with _ => _ end) => destruct x
    | |- keeps _ (upd _) => unfold upd; solve [calm_leaf]
    | |- keeps _ (upd_stat _) => unfold upd_stat; solve [calm_leaf]
    | |- keeps _ (modify _) => solve [calm_leaf]
    | |- keeps _ (setID _) => unfold setID, upd; solve [calm_leaf]
    end ].
Ltac calm_body := repeat calm_step.

(** A computation that writes nothing but the draws, the node's learning table
    or the memory. *)
Lemma keeps_direct {A} s0 (m : M Sim A) :
  (forall s a s', m s = Ok (a, s') -> calm s s') -> K s0 m.
Proof.
  intros Hm s Hs. unfold wpe. destruct (m s) as [[a s']|] eqn:E; [|done]. eapply calm_trans; [exact Hs|by eapply Hm].
Qed.

Ltac calm_same := split; unfold identity; rsimp; try done; (exists []; by rewrite app_nil_r).

Lemma k_draw s0 : K s0 draw.
Proof. apply keeps_direct. intros s a s' [= <- <-]. calm_same. Qed.
Lemma k_draw04 s0 : K s0 draw_uniform04.
Proof. apply keeps_direct. intros s a s' [= <- <-]. calm_same. Qed.
Lemma k_on_mem {A} s0 (m : M heap A) : K s0 (on_mem m).
Proof.
  intros s Hs. unfold on_mem. apply wpe_zoom. unfold wpe. destruct (m _) as [[??]|]; [|done].
  eapply calm_trans; [exact Hs|]. calm_same.
Qed.
Lemma k_learning s0 q : K s0 (learningPeerSelection q).
Proof.
  intros s Hs. unfold learningPeerSelection, wpe. destruct (LearningPeerSelection _ _ _ _ _) as [[? [??]]|]; [|done].
  eapply calm_trans; [exact Hs|]. calm_same.
Qed.
Lemma k_scheduleSelf s0 d m : m <> selfInitializationMsg -> K s0 (scheduleSelf d m).
Proof.
  intros Hm. unfold scheduleSelf. apply keeps_bind; [auto with keeps|]. intros []; [auto with keeps|].
  apply keeps_bind; [auto with keeps|]. intros t. unfold upd. apply keeps_calm. intros s.
  split; unfold identity; rsimp; try done.
  - intros t' [[= <- _]|?]%elem_of_cons; done.
  - exists []. by rewrite app_nil_r.
Qed.
Lemma k_cancel s0 m : K s0 (cancelEvent m).
Proof.
  unfold cancelEvent, upd. apply keeps_calm. intros s. split; unfold identity; rsimp; try done.
  - intros t. rewrite list_elem_of_filter. tauto.
  - exists []. by rewrite app_nil_r.
Qed.
#[local] Hint Resolve k_draw k_draw04 k_on_mem k_learning k_cancel : keeps.
#[local] Hint Extern 1 (keeps _ (scheduleSelf _ _)) => (apply k_scheduleSelf; discriminate) : keeps.

(** A packet is sent later than now. *)
Lemma send_time_later d s : (forall i, 0 <= rand i) -> 0 < ticks -> now s < send_time d s.
Proof.
  intros Hr Ht. unfold send_time. pose proof (Z.mod_pos_bound (rand (draws s)) 10 ltac:(lia)).
  pose proof (u16_range d). rewrite u32_small by lia. nia.
Qed.

Context (Hrand : forall i, 0 <= rand i) (Hticks : 0 < ticks).
#[local] Set Default Proof Using "All".

Ltac later :=
  rsimp; match goal with |- _ < send_time ?d ?x => exact (send_time_later d x Hrand Hticks) end.

Lemma k_scheduleMsg s0 p d : msgType p <> MSG_DISCOVERY -> K s0 (scheduleMsgToSendNic p d).
Proof.
  intros Hp. apply keeps_direct. intros s [] s'. destruct (controlInfo p) eqn:Hc.
  { unfold scheduleMsgToSendNic, mbind, M_bind, gets, lift, setControlInfo. rsimp. by rewrite Hc. }
  rewrite (run_scheduleMsg p d s Hc). intros [= <-]. split; unfold identity; rsimp; try done.
  exists [(send_time d s, stamped p (node s))]. split; [done|]. constructor; [|constructor].
  split; [done|]. split; [|done]. by apply send_time_later.
Qed.
#[local] Hint Extern 1 (keeps _ (scheduleMsgToSendNic _ _)) => (apply k_scheduleMsg; rsimp; done) : keeps.

Lemma k_updateDisplay s0 : K s0 updateDisplay.
Proof. unfold updateDisplay. calm_body. Qed.
Lemma k_changeDisplay s0 : K s0 changeDisplay.
Proof. unfold changeDisplay. calm_body. Qed.
Lemma k_count_received s0 : K s0 count_received.
Proof. unfold count_received. calm_body. Qed.
Lemma k_count_sent s0 : K s0 count_sent.
Proof. unfold count_sent. calm_body. Qed.
Lemma k_record s0 nm v : K s0 (record nm v).
Proof. unfold record. calm_body. Qed.
Lemma k_pick_slot s0 left p : K s0 (pick_slot left p).
Proof. revert p. induction left; intros p; cbn [pick_slot]; calm_body. Qed.
Lemma k_pick_area s0 left p : K s0 (pick_area left p).
Proof. revert p. induction left; intros p; cbn [pick_area]; calm_body. Qed.
#[local] Hint Resolve k_updateDisplay k_changeDisplay k_count_received k_count_sent k_record k_pick_slot
  k_pick_area : keeps.
Lemma k_schedule_request s0 : K s0 scheduleTimeToGenerateRequest.
Proof. unfold scheduleTimeToGenerateRequest. calm_body. Qed.
Lemma k_handleFalseAlert s0 : K s0 handleFalseAlertMsg.
Proof. unfold handleFalseAlertMsg. calm_body. Qed.
Lemma k_handleInternalAlert s0 : K s0 handleInternalAlertMsg.
Proof. unfold handleInternalAlertMsg, isAlertAllowed, broadcastAlert. calm_body. Qed.
Lemma k_handleNicAlert s0 p : K s0 (handleNicAlertMsg p).
Proof. unfold handleNicAlertMsg, isNeighborAlertRelevant. calm_body. Qed.
Lemma k_getNextHop s0 q b : K s0 (getNextHop q b).
Proof. unfold getNextHop. calm_body. Qed.
Lemma k_updateTable s0 q m : K s0 (updateTable q m).
Proof. unfold updateTable. calm_body. Qed.
Lemma k_recordTableAt s0 i : K s0 (recordTableAt i).
Proof. unfold recordTableAt. calm_body. Qed.
#[local] Hint Resolve k_schedule_request k_handleFalseAlert k_handleInternalAlert k_handleNicAlert
  k_getNextHop k_updateTable k_recordTableAt : keeps.

Lemma k_handleRequest s0 p : msgType p <> MSG_DISCOVERY -> K s0 (handleRequest p).
Proof. intros Hp. unfold handleRequest. calm_body. Qed.
Lemma k_handleNicNormal s0 p : msgType p <> MSG_DISCOVERY -> K s0 (handleNicNormalMsg p).
Proof. intros Hp. unfold handleNicNormalMsg. pose proof (k_handleRequest s0 p Hp). calm_body. Qed.
Lemma k_generate s0 : K s0 generaterRandomRequest.
Proof. unfold generaterRandomRequest. calm_body. Qed.
Lemma k_SINK_updateStats s0 : K s0 SINK_updateStats.
Proof. unfold SINK_updateStats. calm_body. Qed.

(** ** Discovery messages at a sensor *)

(** A discovery packet a sensor may schedule when it handles [msg]: its own
    advertisement, or a request to the sink that sent [msg]. *)
Definition announces (n : Node) (msg p : SRPacket) : Prop :=
  (hasSentAdvertMsg n = true /\ Id p = myID n /\ destMACAddress p = BROADCAST_ADDRESS)
  \/ (getSinkDistance (Id msg) = 0 /\ destMACAddress p = srcMACAddress msg).

(** The sensor joins through the sender of [msg]. *)
Record joins (s : Sim) (msg : SRPacket) (s' : Sim) : Prop := {
  jn_new : hasSentAdvertMsg (node s) = false;
  jn_done : hasSentAdvertMsg (node s') = true;
  jn_id : joined_id (myMACAddress (node s)) (Id msg) (myID (node s'));
  jn_sink : getSinkDistance (Id msg) = 0 -> firstSinkMsg (node s) = false;
  jn_parent : getSinkDistance (Id msg) <> 0 -> map_find (Id msg) (neighborList (node s')) = Some (srcMACAddress msg);
  jn_count : numberSensorNotKnown (statics s') = u16 (numberSensorNotKnown (statics s) - 1);
}.

(** How the neighbour list changes: not at all, or by the entry a log line
    creates for an unknown identifier of the sink, or by the sender of the first
    message of the sink, or by a sensor that was not known. *)
Definition list_change (n : Node) (msg : SRPacket) (l' : list (Z * MACAddress)) : Prop :=
  l' = neighborList n
  \/ (getSinkDistance (Id msg) = 0 /\ l' = (map_index UNSPECIFIED_ADDRESS (Id msg) (neighborList n)).2)
  \/ (getSinkDistance (Id msg) = 0 /\ firstSinkMsg n = true /\ l' = map_put (Id msg) (srcMACAddress msg) (neighborList n))
  \/ (getSinkDistance (Id msg) <> 0 /\ map_find (Id msg) (neighborList n) = None
      /\ l' = map_put (Id msg) (srcMACAddress msg) (neighborList n)).

Record discovered (s : Sim) (msg : SRPacket) (s' : Sim) : Prop := {
  d_fixed : (my_ie (node s'), myMACAddress (node s'), isSink (node s'))
            = (my_ie (node s), myMACAddress (node s), isSink (node s));
  d_timers : forall t, (selfInitializationMsg, t) ∈ timers (node s') -> (selfInitializationMsg, t) ∈ timers (node s);
  d_all : numberSensorInNetwork (statics s') = numberSensorInNetwork (statics s);
  d_now : now s' = now s;
  d_sent : sent s' = sent s;
  d_list : list_change (node s) msg (neighborList (node s'));
  d_first : firstSinkMsg (node s') = firstSinkMsg (node s)
    \/ (getSinkDistance (Id msg) = 0 /\ map_find (Id msg) (neighborList (node s')) = Some (srcMACAddress msg));
  d_join : joins s msg s'
    \/ (hasSentAdvertMsg (node s'), myID (node s'), numberSensorNotKnown (statics s'))
       = (hasSentAdvertMsg (node s), myID (node s), numberSensorNotKnown (statics s));
  d_outbox : exists l, outbox (node s') = outbox (node s) ++ l /\
    Forall (fun e => srcMACAddress e.2 = myMACAddress (node s) /\ now s < e.1
                     /\ (msgType e.2 <> MSG_DISCOVERY \/ announces (node s') msg e.2)) l;
}.

Lemma discovered_calm s msg s1 s2 : discovered s msg s1 -> calm s1 s2 -> discovered s msg s2.
Proof.
  intros [F T A N S L D J (l1 & O1 & H1)] [I2 T2 U2 A2 N2 S2 (l2 & O2 & H2)].
  injection I2 as E1 E2 E3 E4 E5 E6 E7 E8. injection F as F1 F2 F3.
  split; [congruence|by eauto|congruence..|by rewrite E5, E6| |].
  - destruct J as [[]|J]; [left; split; rewrite ?E4, ?E6, ?E7, ?U2; done|right; congruence].
  - exists (l1 ++ l2). rewrite O2, O1, app_assoc. split; [done|]. apply Forall_app. split.
    + eapply Forall_impl; [exact H1|]. intros e (? & ? & Hk). split_and!; try done.
      destruct Hk as [|Hk]; [by left|right]. unfold announces in *. by rewrite E7, E4.
    + eapply Forall_impl; [exact H2|]. intros e (He1 & He2 & He3). rewrite F2 in He1. rewrite N in He2. auto.
Qed.

Lemma calm_discovered s msg s1 s2 : calm s s1 -> discovered s1 msg s2 -> discovered s msg s2.
Proof.
  intros [I T U A N S (l & O & H1)] [F2 T2 A2 N2 S2 L2 D2 J2 (l2 & O2 & H2)].
  injection I as E1 E2 E3 E4 E5 E6 E7 E8. injection F2 as G1 G2 G3. unfold list_change in *. rewrite E5, E6 in *.
  split; [congruence|by eauto|congruence..|done|done| |].
  - destruct J2 as [[]|J2]; [left; split; rewrite <- ?E2, <- ?E7, <- ?U, <- ?E5; done|right; congruence].
  - exists (l ++ l2). rewrite O2, O, app_assoc. split; [done|]. apply Forall_app. split.
    + eapply Forall_impl; [exact H1|]. intros e (? & ? & ?). auto.
    + rewrite E2, N in H2. exact H2.
Qed.

Lemma wpe_calm {A} (m : M Sim A) s (Q : A -> Sim -> Prop) :
  K s m -> (forall a s', calm s s' -> Q a s') -> wpe (fun _ => True) m Q s.
Proof. intros Hm HQ. eapply wpe_mono; [exact (Hm s (calm_refl s))|exact HQ]. Qed.

Context (Hbuild : build = Build32).

(** Taking an identifier, or failing on a distance of 15. *)
Lemma wpe_takeId src s (Q : unit -> Sim -> Prop) :
  mac_wf (myMACAddress (node s)) -> id_ok src ->
  (forall id, joined_id (myMACAddress (node s)) src id ->
     Q tt (s<| node ::= fun n => n<| iDBuilder := id |><| myID := id |> |>)) ->
  wpe (fun _ => True) (getIdFrom src) Q s.
Proof.
  intros Hm Hid HQ. destruct (decide (getSinkDistance src < 15)) as [Hd|Hd]; [by apply wpe_getIdFrom|].
  destruct (mac_split _ Hm) as (m5 & b & _ & _ & Hlast).
  destruct (setMACExt_unpack _ b src Hm Hlast Hid) as (id1 & E1 & Hok1 & U1).
  unfold unpack in U1. injection U1 as U1 U2 U3. pose proof (getSinkDistance_div src).
  unfold getIdFrom, on_id. srs. rsimp. rewrite Hbuild, E1. srs. rsimp. rewrite U2, u16_small by dmlia.
  unfold setSinkDistance, check. by rewrite (proj2 (Z.ltb_ge _ 16)) by lia.
Qed.

Lemma wpe_advertise_calm d s (Q : unit -> Sim -> Prop) :
  (forall s', calm (advertised d s) s' -> Q tt s') -> wpe (fun _ => True) (advertise d) Q s.
Proof.
  intros HQ. unfold advertise. srs. apply wpe_scheduleMsg; [done|]. srs.
  apply wpe_calm; [apply k_schedule_request|]. intros [] s'. exact (HQ s').
Qed.

(** [s1] is [s] up to the identifier, the neighbour list and fields that do not
    matter. *)
Record readied (s : Sim) (id : Z) (l' : list (Z * MACAddress)) (s1 : Sim) : Prop := {
  rd_identity : identity (node s1) = (my_ie (node s), myMACAddress (node s), isSink (node s), id,
                                      firstSinkMsg (node s), l', hasSentAdvertMsg (node s), areaNumber (node s));
  rd_timers : timers (node s1) = timers (node s);
  rd_outbox : outbox (node s1) = outbox (node s);
  rd_statics : statics s1 = statics s;
  rd_now : now s1 = now s;
  rd_sent : sent s1 = sent s;
}.

Lemma discovered_list s msg l' s1 :
  readied s (myID (node s)) l' s1 -> list_change (node s) msg l' -> discovered s msg s1.
Proof.
  intros [I T O St N Se] Hl. injection I as E1 E2 E3 E4 E5 E6 E7 E8. rewrite <- E6 in Hl.
  split; [congruence|intros t; by rewrite T|congruence|done|done|done|by left|right; congruence|].
  exists []. rewrite app_nil_r. by split.
Qed.

Lemma discovered_joined s msg id l' d s1 :
  readied s id l' s1 -> hasSentAdvertMsg (node s) = false -> joined_id (myMACAddress (node s)) (Id msg) id ->
  list_change (node s) msg l' -> (getSinkDistance (Id msg) = 0 -> firstSinkMsg (node s) = false) ->
  (getSinkDistance (Id msg) <> 0 -> map_find (Id msg) l' = Some (srcMACAddress msg)) ->
  discovered s msg (advertised d s1).
Proof.
  intros [I T O St N Se] Hnew Hid Hl Hfirst Hpar. injection I as E1 E2 E3 E4 E5 E6 E7 E8.
  unfold advertised. split; rsimp;
    [congruence|intros t; by rewrite T|congruence|done|done|by rewrite E6|by left| |].
  - left. split; rsimp; rewrite ?E4, ?E6, ?St; done.
  - exists [(send_time d s1, stamped (advert (node s1)) (node s1))]. rewrite O. split; [done|].
    constructor; [|constructor]. split_and!; [done|rewrite <- N; by apply send_time_later|]. right. left. done.
Qed.

(** The two ways a sender is dealt with once the list is up to date; [rest]
    advertises. *)
Lemma wpe_join_or_not s msg l' s1 (rest : M Sim unit) :
  readied s (myID (node s)) l' s1 -> mac_wf (myMACAddress (node s)) -> id_ok (Id msg) ->
  list_change (node s) msg l' -> (getSinkDistance (Id msg) = 0 -> firstSinkMsg (node s) = false) ->
  (getSinkDistance (Id msg) <> 0 -> map_find (Id msg) l' = Some (srcMACAddress msg)) ->
  (forall s2 (Q : unit -> Sim -> Prop), (forall d s3, calm (advertised d s2) s3 -> Q tt s3) ->
     wpe (fun _ => True) rest Q s2) ->
  wpe (fun _ => True) (if hasSentAdvertMsg (node s) then mret tt else getIdFrom (Id msg);; rest)
    (fun _ s' => discovered s msg s') s1.
Proof.
  intros Hrd Hm Hid Hl Hfirst Hpar Hrest. pose proof Hrd as [I T O St N Se]. injection I as E1 E2 E3 E4 E5 E6 E7 E8.
  destruct (hasSentAdvertMsg (node s)) eqn:Hnew; [apply wpe_ret; by eapply discovered_list|].
  srs. apply wpe_takeId; [by rewrite E2|done|]. intros id Hid'. rewrite E2 in Hid'. apply Hrest. intros d s3.
  apply discovered_calm. eapply discovered_joined; [|done..]. split; unfold identity; rsimp; congruence.
Qed.

Lemma wpe_discovery msg s :
  mac_wf (myMACAddress (node s)) -> id_ok (Id msg) ->
  wpe (fun _ => True) (handleNicDiscoveryMsg msg) (fun _ s' => discovered s msg s') s.
Proof.
  intros Hm Hid. unfold handleNicDiscoveryMsg. srs. rsimp.
  destruct (Z.eqb_spec (getSinkDistance (Id msg)) 0) as [Hd|Hd].
  - srs. rsimp. destruct (firstSinkMsg (node s)) eqn:Hfirst; cbn [negb].
    + srs. eapply wpe_eq; [reflexivity|]. apply wpe_bind, wpe_calm; [apply k_pick_area|].
      intros pos s1 Hc. srs. destruct (shl1 pos) as [mask|]; [|done]. srs. apply wpe_scheduleMsg; [done|]. srs.
      destruct Hc as [I T U A N S (l & O & F)]. unfold identity in I. rsimp. injection I as E1 E2 E3 E4 E5 E6 E7 E8.
      split; rsimp; [congruence|done|done|done|done|rewrite E6; right; right; left; done
                    |right; split; [done|by rewrite E6, map_find_put_eq]|right; congruence|].
      rewrite O. rewrite <- app_assoc. eexists. split; [reflexivity|]. apply Forall_app. split.
      * eapply Forall_impl; [exact F|]. intros e (? & ? & ?). auto.
      * constructor; [|constructor]. split_and!; [exact E2|rsimp; rewrite <- N|].
        { later. }
        right. right. done.
    + assert (Hl1 : list_change (node s) msg (neighborList (node s))) by (by left).
      assert (Hl2 : list_change (node s) msg (map_index UNSPECIFIED_ADDRESS (Id msg) (neighborList (node s))).2)
        by (right; by left).
      assert (Hrest : forall s2 (Q : unit -> Sim -> Prop), (forall d s3, calm (advertised d s2) s3 -> Q tt s3) ->
        wpe (fun _ => True) (advertise 10;; changeDisplay) Q s2).
      { intros s2 Q HQ. srs. apply wpe_advertise_calm. intros s3 Hc. apply wpe_calm; [apply k_changeDisplay|].
        intros [] s4 Hc'. eapply HQ. by eapply calm_trans. }
      srs; rsimp; [eapply (wpe_join_or_not s msg _ _ _)|eapply (wpe_join_or_not s msg _ _ _)]; try done.
  - srs. rsimp. destruct (map_find (Id msg) (neighborList (node s))) eqn:Hf.
    + apply wpe_ret. eapply discovered_list; [by split|by left].
    + srs. rsimp. eapply (wpe_join_or_not s msg _ _ _); try done.
      * right. right. right. done.
      * intros _. apply map_find_put_eq.
      * intros s2 Q HQ. srs. apply wpe_advertise_calm. intros s3 Hc. by eapply HQ.
Qed.

(** ** Handlers of a sensor *)

(** The address a node reads from its interface, and a sensor counted in. *)
Definition addressed (a : MACAddress) (s : Sim) : Sim := s<| node ::= fun n => n<| myMACAddress := a |> |>.
Definition registered (s : Sim) : Sim :=
  s<| statics ::= fun st => st<| numberSensorNotKnown ::= fun z => u16 (z + 1) |>
                              <| numberSensorInNetwork ::= fun z => u16 (z + 1) |> |>.

Lemma wpe_readInterface s (Q : unit -> Sim -> Prop) :
  (forall a, my_ie (node s) = Some (a, false) -> Q tt (addressed a s)) ->
  wpe (fun _ => True) readInterface Q s.
Proof.
  intros HQ. unfold readInterface. srs. destruct (my_ie (node s)) as [[a lo]|]; [|done].
  destruct lo; [done|]. srs; [by apply HQ|done].
Qed.

Lemma wpe_sensor_init s :
  isSink (node s) = false ->
  wpe (fun _ => True) (handleMessage (SelfMsg selfInitializationMsg))
    (fun _ s' => exists a, my_ie (node s) = Some (a, false) /\ calm (registered (addressed a s)) s') s.
Proof.
  intros Hs. unfold handleMessage. apply wpe_bind, wpe_gets. rewrite Hs. cbn [handleSelfMsg].
  apply wpe_bind, wpe_readInterface. intros a Ha. apply wpe_bind, wpe_modify.
  match goal with |- wpe _ _ _ ?x => change x with (registered (addressed a s)) end.
  apply wpe_calm; [calm_body|]. eauto.
Qed.

Lemma wpe_sensor_timer m s :
  isSink (node s) = false -> m <> selfInitializationMsg ->
  wpe (fun _ => True) (handleMessage (SelfMsg m)) (fun _ s' => calm s s') s.
Proof.
  intros Hs Hm. unfold handleMessage. apply wpe_bind, wpe_gets. rewrite Hs.
  pose proof k_generate. apply wpe_calm; [|done]. destruct m; cbn [handleSelfMsg]; calm_body.
Qed.

(** A packet whose time has come is sent. *)
Definition handed (p : SRPacket) (s : Sim) : Sim := s<| sent ::= fun l => l ++ [p] |>.

Lemma wpe_send p s :
  wpe (fun _ => True) (handleMessage (SelfPacket p))
    (fun _ s' => calm (handed p s) s') s.
Proof.
  unfold handleMessage. apply wpe_bind, wpe_gets.
  destruct (isSink (node s)); cbn [SINK_handleMessage SINK_handleSelfMsg handleSelfMsg];
    (apply wpe_bind; unfold assert_mine; apply wpe_bind, wpe_gets, wpe_assert; [intros _|done]);
    apply wpe_bind, wpe_modify; (apply wpe_calm; [calm_body|done]).
Qed.

(** A sensor takes a packet from the network interface. *)
Lemma wpe_sensor_receive p s :
  isSink (node s) = false -> mac_wf (myMACAddress (node s)) -> (msgType p = MSG_DISCOVERY -> id_ok (Id p)) ->
  wpe (fun _ => True) (handleMessage (NicPacket p))
    (fun _ s' => if msgType p =? MSG_DISCOVERY then discovered s (received p) s' else calm s s') s.
Proof.
  intros Hs Hm Hid. unfold handleMessage. apply wpe_bind, wpe_gets. rewrite Hs. unfold handleSRMsg.
  change (_<| hopCount ::= _ |>) with (received p). change (msgType (received p)) with (msgType p).
  destruct (Z.eqb_spec (msgType p) MSG_DISCOVERY) as [Hd|Hd].
  - srs. eapply wpe_mono; [apply wpe_discovery; [done|by apply Hid]|]. intros [] s1 D1.
    apply wpe_calm; [apply k_updateDisplay|]. intros [] s2 C2. eapply discovered_calm; [|exact C2].
    eapply calm_discovered; [|exact D1]. calm_same.
  - pose proof (k_handleNicNormal s (received p) Hd). apply wpe_calm; [calm_body|done].
Qed.

(** ** Handlers of the sink *)

(** The sink announces itself, or answers a request: it takes an identifier at
    distance 0 and schedules one discovery packet that carries it. *)
Record served (s : Sim) (ext : Z) (s' : Sim) : Prop := {
  sv_fixed : (my_ie (node s'), myMACAddress (node s'), isSink (node s'))
             = (my_ie (node s), myMACAddress (node s), isSink (node s));
  sv_id : id_ok (myID (node s')) /\ getSinkDistance (myID (node s')) = 0 /\ getMACExt (myID (node s')) = ext;
  sv_area : 0 <= areaNumber (node s) -> 0 <= areaNumber (node s');
  sv_timers : forall t, (selfInitializationMsg, t) ∈ timers (node s') -> (selfInitializationMsg, t) ∈ timers (node s);
  sv_unknown : numberSensorNotKnown (statics s') = numberSensorNotKnown (statics s);
  sv_all : numberSensorInNetwork (statics s') = numberSensorInNetwork (statics s);
  sv_now : now s' = now s;
  sv_sent : sent s' = sent s;
  sv_outbox : exists e l, outbox (node s') = outbox (node s) ++ e :: l /\
    srcMACAddress e.2 = myMACAddress (node s) /\ now s < e.1 /\ Id e.2 = myID (node s') /\
    Forall (harmless (myMACAddress (node s)) (now s)) l;
}.

Lemma served_calm s x s1 s2 : served s x s1 -> calm s1 s2 -> served s x s2.
Proof.
  intros [F I Ar T U A N S (e & l1 & O1 & H1 & H2 & H3 & H4)] [I2 T2 U2 A2 N2 S2 (l2 & O2 & F2)].
  injection I2 as E1 E2 E3 E4 E5 E6 E7 E8. injection F as F0 F1 F3. rewrite F1, N in F2.
  split; [congruence|by rewrite E4|by rewrite E8|by eauto|congruence..|]. exists e, (l1 ++ l2). rewrite O2, O1.
  split_and!; [by rewrite <- app_assoc|done|done|congruence|by apply Forall_app].
Qed.

Lemma wpe_sink_init s :
  isSink (node s) = true -> id_ok (iDBuilder (node s)) ->
  (forall a, my_ie (node s) = Some (a, false) -> mac_wf a) ->
  wpe (fun _ => True) (handleMessage (SelfMsg selfInitializationMsg))
    (fun _ s' => exists a b, my_ie (node s) = Some (a, false) /\ a !! 5%nat = Some b /\ served (addressed a s) b s') s.
Proof.
  intros Hs Hid Hwf. unfold handleMessage. apply wpe_bind, wpe_gets. rewrite Hs.
  cbn [SINK_handleMessage SINK_handleSelfMsg].
  apply wpe_bind, wpe_readInterface. intros a Ha. specialize (Hwf a Ha).
  destruct (mac_split _ Hwf) as (m5 & b & _ & _ & Hlast).
  destruct (setMACExt_unpack _ b _ Hwf Hlast Hid) as (id1 & E1 & Hok1 & U1).
  destruct (setSinkDistance_unpack 0 id1 Hok1 ltac:(lia)) as (id2 & E2 & Hok2 & U2).
  destruct (setArea_unpack 0 id2 Hok2 ltac:(lia)) as (id3 & E3 & Hok3 & U3).
  unfold unpack in *. injection U1 as U1 _ _. injection U2 as U2 V2 _. injection U3 as U3 V3 _.
  unfold addressed. srs; [|done]. rsimp. unfold on_mem. srs. unfold wpe at 1. destruct (AddToBloomPerso _ _ _) as [[? h]|]; [|done].
  unfold on_id. srs. rsimp. rewrite Hbuild, E1. srs. rsimp. rewrite E2. srs. rsimp. rewrite E3. srs. rsimp.
  apply wpe_scheduleMsg; [done|]. srs. apply wpe_calm; [apply k_SINK_updateStats|]. intros [] s' C.
  exists a, b. split_and!; [done..|]. eapply served_calm; [|exact C]. unfold addressed. clear C.
  split; rsimp; [done|by rewrite V3, V2, U3, U2, U1|done..|].
  eexists _, []. split; [reflexivity|]. split_and!; try done. later.
Qed.

Lemma wpe_sink_timer m s :
  isSink (node s) = true -> m <> selfInitializationMsg ->
  wpe (fun _ => True) (handleMessage (SelfMsg m)) (fun _ s' => calm s s') s.
Proof.
  intros Hs Hm. unfold handleMessage. apply wpe_bind, wpe_gets. rewrite Hs. cbn [SINK_handleMessage].
  pose proof k_SINK_updateStats. apply wpe_calm; [|done]. destruct m; cbn [SINK_handleSelfMsg]; calm_body.
Qed.

Lemma wpe_sink_receive p s :
  isSink (node s) = true -> id_ok (myID (node s)) -> getSinkDistance (myID (node s)) = 0 ->
  0 <= areaNumber (node s) ->
  wpe (fun _ => True) (handleMessage (NicPacket p))
    (fun _ s' => served s (getMACExt (myID (node s))) s' \/ calm s s') s.
Proof.
  intros Hs Hid Hd Har. unfold handleMessage. apply wpe_bind, wpe_gets. rewrite Hs. cbn [SINK_handleMessage].
  unfold SINK_handleSRMsg. rsimp. destruct (msgType p =? MSG_DISCOVERY) eqn:Ht.
  - unfold SINK_handleNicDiscoveryMsg. rsimp. destruct (queryType p =? Q_REQUEST); [|apply wpe_ret; right; apply calm_refl].
    unfold on_id. srs. rsimp. destruct (setArea _ _) as [id|] eqn:E; [|done].
    assert (0 <= areaNumber (node s) < 4) as Ha.
    { split; [done|]. unfold setArea, check in E. by destruct (Z.ltb_spec (areaNumber (node s)) 4). }
    destruct (setArea_unpack _ _ Hid Ha) as (id' & E' & Hok & U). rewrite E' in E. injection E as <-.
    unfold unpack in U. injection U as U1 U2 _. srs. apply wpe_scheduleMsg; [done|]. left.
    split; rsimp; [done|by rewrite U1, U2, Hd|intros _; apply u16_range|done..|].
    eexists _, []. split; [reflexivity|]. split_and!; try done. later.
  - apply Z.eqb_neq in Ht. apply wpe_calm; [|by right]. unfold SINK_handleNicAlertMsg, SINK_handleNicNormalMsg.
    pose proof (k_handleNicNormal s (p<| controlInfo := None |>) Ht). calm_body.
Qed.
End calm.
