(* ===== verification/Network.v ===== *)
(** * The network of nodes

    Many nodes that run the module of SR.cc and share its static members, the
    simulation clock and the memory.  A step is one event of the simulation:
    a self message or a packet whose time has come, in the order of their times,
    or a packet that the network interfaces carry to another node.  The radio and
    the MAC below the module are not fixed: a packet handed to the interface may
    reach any subset of the nodes it is addressed to, any number of times, at any
    later time.  The theorems are about every network that can be reached. *)

From S2P Require Import Prelude StdMap MACAddress IDBuilder BloomFilter BloomTable TableRARE SRTypes SR SRProps SRInv.

Open Scope string_scope.
Open Scope list_scope.
Open Scope Z_scope.

Lemma u16_add_l x y : u16 (u16 x + y) = u16 (x + y).
Proof. apply Zplus_mod_idemp_l. Qed.
Lemma u16_idem x : u16 (u16 x) = u16 x.
Proof. by apply Z.mod_mod. Qed.

Lemma compareTo_refl a : compareTo a a = 0.
Proof. unfold compareTo. induction a as [|x a IH]; cbn; [done|]. by rewrite Z.eqb_refl. Qed.

#[local] Opaque u8 u16 u32 u64 getSinkDistance getArea getMACExt map_put map_find.

#[projections(primitive)]
Record Net := mkNet {
  nodes : gmap nat Node;
  net_statics : Statics;
  net_mem : heap;
  net_draws : nat;
  net_now : Z;
  net_sent : list SRPacket;
  net_recorded : list (string * Z);
}.

Section network.
Context `{Env}.

(** What the handler of node [n] sees at time [t], and the network after it. *)
Definition view (N : Net) (n : Node) (t : Z) : Sim :=
  mkSim n (net_statics N) (net_mem N) (net_draws N) t (net_sent N) (net_recorded N).
Definition store (N : Net) (i : nat) (s : Sim) : Net :=
  mkNet (<[i := node s]> (nodes N)) (statics s) (mem s) (draws s) (now s) (sent s) (recorded s).

(** No event is due before [t]. *)
Definition next (N : Net) (t : Z) : Prop :=
  net_now N <= t /\ forall i n, nodes N !! i = Some n ->
    Forall (fun e => t <= e.2) (timers n) /\ Forall (fun e => t <= e.1) (outbox n).

Inductive net_step (N : Net) : Net -> Prop :=
  | step_timer i n m t s' :
      nodes N !! i = Some n -> next N t -> (m, t) ∈ timers n ->
      handleMessage (SelfMsg m) (view N (n<| timers ::= filter (fun e => e.1 <> m) |>) t) = Ok (tt, s') ->
      net_step N (store N i s')
  | step_send i n l1 l2 t p s' :
      nodes N !! i = Some n -> next N t -> outbox n = l1 ++ (t, p) :: l2 ->
      handleMessage (SelfPacket p) (view N (n<| outbox := l1 ++ l2 |>) t) = Ok (tt, s') ->
      net_step N (store N i s')
  | step_deliver i n t p c a lo s' :
      nodes N !! i = Some n -> next N t -> p ∈ net_sent N ->
      my_ie n = Some (a, lo) -> destMACAddress p = a \/ destMACAddress p = BROADCAST_ADDRESS ->
      handleMessage (NicPacket (p<| controlInfo := c |>)) (view N n t) = Ok (tt, s') ->
      net_step N (store N i s').

(** A network at the start: every node has been through [initialize()] at time
    0, and its interface has an address of its own. *)
Record starts (N : Net) : Prop := {
  st_nodes : forall i n, nodes N !! i = Some n -> exists sink bt0 tr0 a id ts last disp0,
    n = SR_initialize sink bt0 tr0 (Some (a, false)) id ts last disp0 0 /\
    mac_wf a /\ a <> BROADCAST_ADDRESS /\ id_ok id;
  st_addresses : forall i j n n', nodes N !! i = Some n -> nodes N !! j = Some n' -> my_ie n = my_ie n' -> i = j;
  st_statics : net_statics N = initial_statics;
  st_now : net_now N = 0;
  st_sent : net_sent N = [];
}.

Definition reachable (N : Net) : Prop := exists N0, starts N0 /\ rtc net_step N0 N.

(** ** What a node relies on other nodes for *)

Definition address (n : Node) (a : MACAddress) : Prop := my_ie n = Some (a, false).
Definition is_joined (n : Node) : Prop := isSink n = false /\ hasSentAdvertMsg n = true.

Definition sink_at (N : Net) (a : MACAddress) : Prop :=
  exists i n, nodes N !! i = Some n /\ isSink n = true /\ address n a.
Definition joined_at (N : Net) (a : MACAddress) (id : Z) : Prop :=
  exists i n, nodes N !! i = Some n /\ is_joined n /\ address n a /\ myID n = id.

(** A later network: nobody moves, nobody leaves, nobody is renamed. *)
Record later_net (N N' : Net) : Prop := {
  ln_sink : forall a, sink_at N a -> sink_at N' a;
  ln_joined : forall a id, joined_at N a id -> joined_at N' a id;
}.

(** A discovery packet on its way, from the node with address [a]. *)
Inductive disco_ok (N : Net) (p : SRPacket) : Prop :=
  | disco_sink : sink_at N (srcMACAddress p) -> id_ok (Id p) -> getSinkDistance (Id p) = 0 -> disco_ok N p
  | disco_advert : joined_at N (srcMACAddress p) (Id p) -> disco_ok N p
  | disco_request : sink_at N (destMACAddress p) -> disco_ok N p.
Definition packet_ok (N : Net) (p : SRPacket) : Prop := msgType p = MSG_DISCOVERY -> disco_ok N p.

(** The neighbour a sensor at distance [d] in area [ar] has towards the sink. *)
Definition has_parent (N : Net) (n : Node) : Prop :=
  exists k a, map_find k (neighborList n) = Some a /\
    ((getSinkDistance (myID n) = 1 /\ sink_at N a) \/
     (joined_at N a k /\ getSinkDistance (myID n) = getSinkDistance k + 1 /\ getArea (myID n) = getArea k)).

(** A sensor that has read its interface. *)
Record sensor_ok (N : Net) (n : Node) (a : MACAddress) : Prop := {
  so_wf : map_wf (neighborList n);
  so_entries : forall k b, map_find k (neighborList n) = Some b -> getSinkDistance k <> 0 -> joined_at N b k;
  so_sink : firstSinkMsg n = false ->
    exists k b, map_find k (neighborList n) = Some b /\ getSinkDistance k = 0 /\ sink_at N b;
  so_joined : hasSentAdvertMsg n = true ->
    has_parent N n /\ id_ok (myID n) /\ 0 < getSinkDistance (myID n) /\ a !! 5%nat = Some (getMACExt (myID n));
}.
Record sink_ok (n : Node) (a : MACAddress) : Prop := {
  ko_id : id_ok (myID n) /\ getSinkDistance (myID n) = 0 /\ a !! 5%nat = Some (getMACExt (myID n));
  ko_area : 0 <= areaNumber n;
}.

(** A node that has not: it has done nothing. *)
Record untouched (n : Node) : Prop := {
  un_timers : timers n = [(selfInitializationMsg, ticks)];
  un_outbox : outbox n = [];
  un_list : neighborList n = [];
  un_first : firstSinkMsg n = true;
  un_advert : hasSentAdvertMsg n = false;
  un_id : id_ok (iDBuilder n);
  un_area : areaNumber n = 0;
}.

Record started (N : Net) (n : Node) (a : MACAddress) : Prop := {
  sd_timers : forall t, (selfInitializationMsg, t) ∉ timers n;
  sd_mac : myMACAddress n = a;
  sd_now : ticks <= net_now N;
  sd_outbox : Forall (fun e => srcMACAddress e.2 = a /\ ticks < e.1 /\ packet_ok N e.2) (outbox n);
  sd_role : if isSink n then sink_ok n a else sensor_ok N n a;
}.

Definition node_ok (N : Net) (n : Node) : Prop :=
  exists a, address n a /\ mac_wf a /\ a <> BROADCAST_ADDRESS /\
    ((untouched n /\ net_now N <= ticks) \/ started N n a).

(** ** Counting nodes *)

Definition is_started (n : Node) : bool := negb (is_scheduled selfInitializationMsg n).
Definition is_sensor (n : Node) : bool := negb (isSink n) && is_started n.
Definition is_unknown (n : Node) : bool := is_sensor n && negb (hasSentAdvertMsg n).

Definition count (f : Node -> bool) (m : gmap nat Node) : Z :=
  Z.of_nat (size (filter (fun x => f x.2 = true) m)).

Lemma count_fresh f i n m : m !! i = None -> count f (<[i := n]> m) = count f m + Z.b2z (f n).
Proof.
  intros Hi. unfold count. destruct (f n) eqn:E.
  - rewrite map_filter_insert_True by done. rewrite map_size_insert_None; [cbn; lia|].
    apply map_lookup_filter_None. by left.
  - rewrite map_filter_insert_False by (cbn; congruence). rewrite delete_id by done. cbn. lia.
Qed.

Lemma count_insert f i n n' m :
  m !! i = Some n -> count f (<[i := n']> m) = count f m + Z.b2z (f n') - Z.b2z (f n).
Proof.
  intros Hi. rewrite <- (insert_delete_id m i n Hi) at 2. rewrite <- insert_delete_eq.
  rewrite !count_fresh by apply lookup_delete_eq. lia.
Qed.

(** ** The invariant *)

Record net_inv (N : Net) : Prop := {
  ni_nodes : forall i n, nodes N !! i = Some n -> node_ok N n;
  ni_addresses : forall i j n n', nodes N !! i = Some n -> nodes N !! j = Some n' -> my_ie n = my_ie n' -> i = j;
  ni_sent : Forall (packet_ok N) (net_sent N);
  ni_time : net_sent N <> [] -> ticks < net_now N;
  ni_all : numberSensorInNetwork (net_statics N) = u16 (count is_sensor (nodes N));
  ni_unknown : numberSensorNotKnown (net_statics N) = u16 (count is_unknown (nodes N));
}.

Lemma packet_ok_later N N' p : later_net N N' -> packet_ok N p -> packet_ok N' p.
Proof.
  intros [Ls Lj] Hp Ht. destruct (Hp Ht); [apply disco_sink|apply disco_advert|apply disco_request]; auto.
Qed.

Lemma sensor_ok_later N N' n a : later_net N N' -> sensor_ok N n a -> sensor_ok N' n a.
Proof.
  intros [Ls Lj] [Hw He Hs Hj]. split; [done|by eauto| |].
  - intros (k & b & ? & ? & ?)%Hs. exists k, b. auto.
  - intros ((k & b & Hf & Hp) & Hid)%Hj. split; [|done]. exists k, b. split; [done|].
    destruct Hp as [[]|(? & ? & ?)]; auto.
Qed.

(** A node whose identity is unchanged, and whose packets are fine. *)
Lemma started_later N N' n n' a :
  later_net N N' -> net_now N <= net_now N' -> identity n' = identity n ->
  (forall t, (selfInitializationMsg, t) ∈ timers n' -> (selfInitializationMsg, t) ∈ timers n) ->
  Forall (fun e => srcMACAddress e.2 = a /\ ticks < e.1 /\ packet_ok N' e.2) (outbox n') ->
  started N n a -> started N' n' a.
Proof.
  intros L Ht I T O [Hti Hm Hn Ho Hr]. injection I as E1 E2 E3 E4 E5 E6 E7 E8.
  split; [by intros t ?%T%Hti|congruence|lia|done|]. rewrite E3. destruct (isSink n).
  - destruct Hr as [Hid Har]. split; by rewrite ?E4, ?E8.
  - destruct (sensor_ok_later N N' n a L Hr) as [Hw He Hs Hj].
    split; unfold has_parent; rewrite ?E4, ?E5, ?E6, ?E7; done.
Qed.

Lemma outbox_later N N' a l :
  later_net N N' ->
  Forall (fun e => srcMACAddress e.2 = a /\ ticks < e.1 /\ packet_ok N e.2) l ->
  Forall (fun e : Z * SRPacket => srcMACAddress e.2 = a /\ ticks < e.1 /\ packet_ok N' e.2) l.
Proof. intros L Hl. eapply Forall_impl; [exact Hl|]. intros e (? & ? & ?). split_and!; [done..|by eapply packet_ok_later]. Qed.

Lemma outbox_harmless N a t l :
  ticks <= t -> Forall (harmless a t) l ->
  Forall (fun e : Z * SRPacket => srcMACAddress e.2 = a /\ ticks < e.1 /\ packet_ok N e.2) l.
Proof. intros Ht Hl. eapply Forall_impl; [exact Hl|]. intros e (? & ? & ?). split_and!; [done|lia|by intros ?]. Qed.

(** A node of a network replaced by another with the same place in it. *)
Lemma store_later N i n s' :
  nodes N !! i = Some n -> (my_ie (node s'), isSink (node s')) = (my_ie n, isSink n) ->
  (is_joined n -> hasSentAdvertMsg (node s') = true /\ myID (node s') = myID n) ->
  later_net N (store N i s').
Proof.
  intros Hi [= Hie Hs] Hj. split.
  - intros a (j & m & Hm & Hsk & Ha). destruct (decide (i = j)) as [<-|Hne].
    + rewrite Hi in Hm. injection Hm as <-. exists i, (node s'). unfold address in *. cbn.
      rewrite lookup_insert_eq. split_and!; congruence.
    + exists j, m. cbn. by rewrite lookup_insert_ne.
  - intros a id (j & m & Hm & Hjm & Ha & Hid). destruct (decide (i = j)) as [<-|Hne].
    + rewrite Hi in Hm. injection Hm as <-. destruct (Hj Hjm) as [Hj1 Hj2]. exists i, (node s').
      unfold address, is_joined in *. cbn. rewrite lookup_insert_eq. destruct Hjm. split_and!; congruence.
    + exists j, m. cbn. by rewrite lookup_insert_ne.
Qed.

(** One step of a node keeps the invariant if it keeps its own part. *)
Lemma inv_store N i n s' t :
  net_inv N -> nodes N !! i = Some n -> next N t -> now s' = t ->
  (my_ie (node s'), isSink (node s')) = (my_ie n, isSink n) ->
  (is_joined n -> hasSentAdvertMsg (node s') = true /\ myID (node s') = myID n) ->
  (later_net N (store N i s') -> node_ok (store N i s') (node s')) ->
  (later_net N (store N i s') -> Forall (packet_ok (store N i s')) (sent s') /\ (sent s' <> [] -> ticks < t)) ->
  numberSensorInNetwork (statics s')
    = u16 (numberSensorInNetwork (net_statics N) + Z.b2z (is_sensor (node s')) - Z.b2z (is_sensor n)) ->
  numberSensorNotKnown (statics s')
    = u16 (numberSensorNotKnown (net_statics N) + Z.b2z (is_unknown (node s')) - Z.b2z (is_unknown n)) ->
  net_inv (store N i s').
Proof.
  intros [In Ia Is It Iall Iun] Hi [Hnow Hdue] Ht Hfix Hj Hnode Hsent Hall Hun.
  pose proof (store_later N i n s' Hi Hfix Hj) as L. injection Hfix as Hie Hs.
  split; cbn.
  - intros j m. destruct (decide (i = j)) as [<-|Hne].
    + rewrite lookup_insert_eq. intros [= <-]. by apply Hnode.
    + rewrite lookup_insert_ne by done. intros Hm. destruct (In j m Hm) as (a & Ha & Hwf & Hb & Hst).
      exists a. split_and!; try done. destruct Hst as [[Hu _]|Hst].
      * left. split; [done|]. cbn. rewrite Ht. destruct (Hdue j m Hm) as [Hd _]. rewrite (un_timers _ Hu) in Hd.
        by inv Hd.
      * right. pose proof (sd_outbox _ _ _ Hst). apply (started_later N _ m m a); try done; [cbn; lia|].
        by eapply outbox_later.
  - intros j k m m'. destruct (decide (i = j)) as [<-|Hj1], (decide (i = k)) as [<-|Hk1]; try done;
      rewrite ?lookup_insert_eq, ?lookup_insert_ne by done.
    + intros [= <-] Hm' Heq. eapply Ia; [exact Hi|exact Hm'|congruence].
    + intros Hm [= <-] Heq. symmetry. eapply Ia; [exact Hi|exact Hm|congruence].
    + apply Ia.
  - by apply Hsent.
  - rewrite Ht. by apply Hsent.
  - rewrite Hall, Iall, (count_insert _ _ _ _ _ Hi). by rewrite <- !Z.add_sub_assoc, u16_add_l.
  - rewrite Hun, Iun, (count_insert _ _ _ _ _ Hi). by rewrite <- !Z.add_sub_assoc, u16_add_l.
Qed.

Lemma is_started_true n : is_started n = true <-> forall t, (selfInitializationMsg, t) ∉ timers n.
Proof.
  unfold is_started, is_scheduled. rewrite negb_true_iff. split.
  - intros E t Hin. apply not_true_iff_false in E. apply E, existsb_exists. exists (selfInitializationMsg, t).
    split; [by apply list_elem_of_In|]. by apply bool_decide_eq_true_2.
  - intros Hn. apply not_true_iff_false. intros ([m t] & Hin & E)%existsb_exists.
    apply bool_decide_eq_true_1 in E. cbn in E. subst m. eapply Hn. by apply list_elem_of_In.
Qed.

Lemma started_true N n a : started N n a -> is_started n = true.
Proof. intros Hs. apply is_started_true, (sd_timers _ _ _ Hs). Qed.

Lemma untouched_false n : untouched n -> is_started n = false.
Proof. intros Hu. unfold is_started, is_scheduled. by rewrite (un_timers _ Hu). Qed.

Lemma u16_same z w b : z = u16 w -> z = u16 (z + b - b).
Proof. intros ->. by rewrite Z.add_simpl_r, u16_idem. Qed.

(** Nothing about discovery happens at a node that has started: [n1] is the node
    with the event it handles taken away, [l] what it hands to its interface. *)
Lemma inv_calm N i n n1 a t l s' :
  net_inv N -> nodes N !! i = Some n -> next N t -> started N n a -> address n a -> mac_wf a -> a <> BROADCAST_ADDRESS ->
  identity n1 = identity n -> timers n1 ⊆ timers n -> outbox n1 ⊆ outbox n ->
  Forall (packet_ok N) l -> (l <> [] -> ticks < t) ->
  calm ((view N n1 t)<| sent ::= fun x => x ++ l |>) s' -> net_inv (store N i s').
Proof.
  intros Hinv Hi Hnext Hst Ha Hwf Hb I1 T1 O1 Hl Hlt [I T U A Nw S (lo & O & F)]. unfold view in *. rsimp.
  assert (I2 : identity (node s') = identity n) by (etrans; [exact I|exact I1]).
  pose proof (sd_outbox _ _ _ Hst) as Hout.
  assert (Hlater : net_now N <= t) by apply Hnext.
  assert (Hstart : later_net N (store N i s') -> started (store N i s') (node s') a).
  { intros L. apply (started_later N _ n); [done|cbn; by rewrite Nw|done|by auto| |done].
    rewrite O. apply Forall_app. split.
    - rewrite Forall_forall in Hout |- *. intros e He.
      destruct (Hout e (O1 e He)) as (? & ? & ?). split_and!; [done..|by eapply packet_ok_later].
    - eapply outbox_harmless; [|injection I1 as _ E1 _ _ _ _ _ _; rewrite E1, (sd_mac _ _ _ Hst) in F; exact F].
      pose proof (sd_now _ _ _ Hst). cbn. lia. }
  assert (Hsame : is_started (node s') = is_started n).
  { rewrite (started_true _ _ _ Hst). apply is_started_true. intros x Hx%T%T1. by apply (sd_timers _ _ _ Hst x). }
  injection I2 as E1 E2 E3 E4 E5 E6 E7 E8.
  eapply (inv_store N i n s' t); try done.
  - congruence.
  - intros [_ Hj]. by rewrite E7.
  - intros L. exists a. unfold address. rewrite E1. split_and!; try done. right. by apply Hstart.
  - intros L. rewrite S. cbn. split.
    + apply Forall_app. split; [|eapply Forall_impl; [exact Hl|]; by intros ? ?%(packet_ok_later _ _ _ L)].
      eapply Forall_impl; [apply (ni_sent _ Hinv)|]. by intros ? ?%(packet_ok_later _ _ _ L).
    + intros Hne. destruct l; [|by apply Hlt]. rewrite app_nil_r in Hne. pose proof (ni_time _ Hinv Hne). lia.
  - unfold is_sensor. rewrite A, Hsame, E3. eapply u16_same, (ni_all _ Hinv).
  - unfold is_unknown, is_sensor. rewrite U, Hsame, E3, E7. eapply u16_same, (ni_unknown _ Hinv).
Qed.

(** The sink starts, or answers a request. *)
Lemma inv_served N i n n1 a ext t s' :
  net_inv N -> nodes N !! i = Some n -> next N t -> address n a -> mac_wf a -> a <> BROADCAST_ADDRESS -> isSink n = true ->
  (my_ie n1, isSink n1, myMACAddress n1) = (my_ie n, isSink n, a) ->
  (forall x, (selfInitializationMsg, x) ∉ timers n1) ->
  Forall (fun e => srcMACAddress e.2 = a /\ ticks < e.1 /\ packet_ok N e.2) (outbox n1) ->
  ticks <= t -> 0 <= areaNumber n1 -> a !! 5%nat = Some ext ->
  served (view N n1 t) ext s' -> net_inv (store N i s').
Proof.
  intros Hinv Hi Hnext Ha Hwf Hb Hs [= F1 F2 F3] Ht Ho Hlt Har Hext
    [Fx (Hid1 & Hid2 & Hid3) Ar T U A Nw S (e & l & O & P1 & P2 & P3 & F)].
  unfold view in *. rsimp. injection Fx as G1 G2 G3.
  assert (Hie : my_ie (node s') = my_ie n) by congruence.
  assert (Hsk : isSink (node s') = true) by congruence.
  assert (Hsink : sink_at (store N i s') a).
  { exists i, (node s'). cbn. rewrite lookup_insert_eq. unfold address. by rewrite Hie. }
  eapply (inv_store N i n s' t); try done.
  - congruence.
  - intros [? _]. congruence.
  - intros L. exists a. split_and!; [by unfold address; rewrite Hie|done|done|]. right.
    split; [intros x ?%T; by eapply Ht|congruence|cbn; by rewrite Nw| |].
    + rewrite O. apply Forall_app. split; [by eapply outbox_later|]. rewrite F3 in P1, F. constructor.
      * split_and!; [done|lia|]. intros _. rewrite <- P1 in Hsink. apply disco_sink; congruence.
      * by eapply outbox_harmless.
    + rewrite Hsk. split; [by rewrite Hid3|by apply Ar].
  - intros L. rewrite S. split; [|intros Hne; pose proof (ni_time _ Hinv Hne); destruct Hnext; lia].
    eapply Forall_impl; [apply (ni_sent _ Hinv)|]. by intros ? ?%(packet_ok_later _ _ _ L).
  - unfold is_sensor. rewrite A, Hsk, Hs. eapply u16_same, (ni_all _ Hinv).
  - unfold is_unknown, is_sensor. rewrite U, Hsk, Hs. eapply u16_same, (ni_unknown _ Hinv).
Qed.

(** A sensor starts. *)
Lemma inv_registered N i n n1 a t s' :
  net_inv N -> nodes N !! i = Some n -> next N t -> address n a -> mac_wf a -> a <> BROADCAST_ADDRESS -> isSink n = false ->
  untouched n -> n1 = n<| timers := [] |> -> ticks <= t ->
  calm (registered (addressed a (view N n1 t))) s' -> net_inv (store N i s').
Proof.
  intros Hinv Hi Hnext Ha Hwf Hb Hs Hu -> Hlt [I T U A Nw S (lo & O & F)].
  unfold registered, addressed, view in *. rsimp. destruct Hu as [Ut Uo Ul Uf Ua Ui Uar].
  injection I as E1 E2 E3 E4 E5 E6 E7 E8. rsimp. rewrite Ul, Uf, Ua, Hs, Uo, app_nil_l in *.
  assert (Hst : is_started (node s') = true) by (apply is_started_true; by intros x ?%T%elem_of_nil).
  eapply (inv_store N i n s' t); try done.
  - by rewrite E1, E3, Hs.
  - intros [_ ?]. congruence.
  - intros L. exists a. split_and!; [unfold address; congruence|done|done|]. right.
    split; [by intros x ?%T%elem_of_nil|done|cbn; by rewrite Nw|rewrite O; by eapply outbox_harmless|].
    rewrite E3. split; rewrite ?E5, ?E6, ?E7; done.
  - intros L. rewrite S. split; [|intros Hne; pose proof (ni_time _ Hinv Hne); destruct Hnext; lia].
    eapply Forall_impl; [apply (ni_sent _ Hinv)|]. by intros ? ?%(packet_ok_later _ _ _ L).
  - unfold is_sensor. rewrite A, Hst, E3, Hs. rewrite untouched_false by done. cbn. by rewrite Z.sub_0_r.
  - unfold is_unknown, is_sensor. rewrite U, Hst, E3, E7, Hs. rewrite untouched_false by done. cbn. by rewrite Z.sub_0_r.
Qed.

(** *** The neighbour list of a sensor that hears a discovery message *)

Lemma map_index_find (d : MACAddress) k k1 (l : list (Z * MACAddress)) b :
  map_wf l -> map_find k1 (map_index d k l).2 = Some b -> map_find k1 l = Some b \/ k1 = k.
Proof.
  intros Hw. unfold map_index.
  destruct (map_find k l); cbn; [by left|]. destruct (decide (k1 = k)); [by right|].
  rewrite map_find_put_ne by done. by left.
Qed.
Lemma map_index_keep (d : MACAddress) k k1 (l : list (Z * MACAddress)) b :
  map_wf l -> map_find k1 l = Some b -> map_find k1 (map_index d k l).2 = Some b.
Proof.
  intros Hw Hf. unfold map_index.
  destruct (map_find k l) eqn:E; cbn; [done|]. rewrite map_find_put_ne; [done..|congruence].
Qed.

Lemma list_change_wf n msg l' : map_wf (neighborList n) -> list_change n msg l' -> map_wf l'.
Proof.
  intros Hw [->|[[_ ->]|[(_ & _ & ->)|(_ & _ & ->)]]]; [done| |by apply map_put_wf..].
  unfold map_index.
  destruct (map_find (Id msg) (neighborList n)); [done|by apply map_put_wf].
Qed.

Lemma list_change_find n msg l' k b :
  map_wf (neighborList n) -> list_change n msg l' -> map_find k l' = Some b ->
  map_find k (neighborList n) = Some b \/ (k = Id msg /\ (b = srcMACAddress msg \/ getSinkDistance (Id msg) = 0)).
Proof.
  intros Hw Hl Hf. destruct (decide (k = Id msg)) as [->|Hne].
  - destruct Hl as [->|[[? ->]|[(? & ? & ->)|(? & ? & ->)]]]; [by left|by auto..|].
    rewrite map_find_put_eq in Hf. injection Hf as <-. auto.
  - left. destruct Hl as [->|[[? ->]|[(? & ? & ->)|(? & ? & ->)]]]; [done| |by rewrite map_find_put_ne in Hf..].
    by destruct (map_index_find _ _ _ _ _ Hw Hf).
Qed.

Lemma list_change_keep n msg l' k b :
  map_wf (neighborList n) -> list_change n msg l' -> map_find k (neighborList n) = Some b ->
  map_find k l' = Some b \/
  (k = Id msg /\ getSinkDistance k = 0 /\ firstSinkMsg n = true /\ map_find k l' = Some (srcMACAddress msg)).
Proof.
  intros Hw Hl Hf. destruct (decide (k = Id msg)) as [->|Hne];
    destruct Hl as [->|[[? ->]|[(? & ? & ->)|(? & ? & ->)]]]; rewrite ?map_find_put_eq, ?map_find_put_ne by done;
    auto using map_index_keep. congruence.
Qed.

(** A sensor that hears a discovery message of a sink or of a sensor that has
    joined. *)
Lemma sensor_ok_discovered N N' n a t msg s' :
  later_net N N' -> sensor_ok N n a -> myMACAddress n = a ->
  (getSinkDistance (Id msg) = 0 -> sink_at N (srcMACAddress msg)) ->
  (getSinkDistance (Id msg) <> 0 -> joined_at N (srcMACAddress msg) (Id msg)) ->
  discovered (view N n t) msg s' -> sensor_ok N' (node s') a.
Proof.
  intros L [Hw He Hs Hj] Hm Hsink Hsens [_ _ _ _ _ Hl Hfirst Hjoin _]. destruct L as [Ls Lj]. unfold view in *. rsimp.
  assert (Hkeep : forall k b, map_find k (neighborList n) = Some b ->
    exists b', map_find k (neighborList (node s')) = Some b' /\
      (b' = b \/ (firstSinkMsg n = true /\ getSinkDistance k = 0 /\ sink_at N b'))).
  { intros k b Hf. destruct (list_change_keep _ _ _ _ _ Hw Hl Hf) as [|(-> & Hd & Hfi & Hf')]; eauto 10. }
  split.
  - by eapply list_change_wf.
  - intros k b Hf Hd. destruct (list_change_find _ _ _ _ _ Hw Hl Hf) as [|[-> [->|]]]; [by eauto| |done].
    by apply Lj, Hsens.
  - intros Hfi. destruct Hfirst as [Hsame|[Hd Hf]]; [|by eauto 10].
    rewrite Hsame in Hfi. destruct (Hs Hfi) as (k & b & Hf & Hd & Hk). destruct (Hkeep k b Hf) as (b' & Hf' & Hb').
    exists k, b'. destruct Hb' as [->|(? & ? & ?)]; auto.
  - intros Hsent. destruct Hjoin as [[Jn Jd (Hok & x & Hx & Hu) Jsink Jpar _]|[= Hse Hid _]].
    + unfold unpack in Hu. rsimp. rewrite Hm in Hx. injection Hu as U1 U2 U3.
      split; [|split; [done|]; split; [|by rewrite U1]].
      * destruct (decide (getSinkDistance (Id msg) = 0)) as [Hd|Hd].
        -- destruct (Hs (Jsink Hd)) as (k & b & Hf & Hdk & Hk). destruct (Hkeep k b Hf) as (b' & Hf' & Hb').
           exists k, b'. split; [done|]. left. split; [lia|]. destruct Hb' as [->|(? & ? & ?)]; auto.
        -- exists (Id msg), (srcMACAddress msg). split; [by apply Jpar|]. right. split; [by apply Lj, Hsens|done].
      * pose proof (getSinkDistance_div (Id msg)). dmlia.
    + rewrite Hse in Hsent. destruct (Hj Hsent) as ((k & b & Hf & Hp) & Hrest). rewrite Hid. split; [|done].
      destruct (Hkeep k b Hf) as (b' & Hf' & Hb'). exists k, b'. split; [done|]. rewrite Hid.
      destruct Hb' as [->|(? & Hd0 & ?)].
      * destruct Hp as [[]|(? & ? & ?)]; auto.
      * left. split; [|by auto]. destruct Hp as [[]|(? & ? & ?)]; [done|lia].
Qed.

Lemma inv_discovered N i n a t msg s' :
  net_inv N -> nodes N !! i = Some n -> next N t -> started N n a -> address n a -> mac_wf a -> a <> BROADCAST_ADDRESS ->
  isSink n = false ->
  (getSinkDistance (Id msg) = 0 -> sink_at N (srcMACAddress msg)) ->
  (getSinkDistance (Id msg) <> 0 -> joined_at N (srcMACAddress msg) (Id msg)) ->
  discovered (view N n t) msg s' -> net_inv (store N i s').
Proof.
  intros Hinv Hi Hnext Hst Ha Hwf Hb Hs Hsink Hsens D. pose proof D as [F T A Nw S _ _ J (l & O & Hl)].
  assert (Hlater : net_now N <= t) by apply Hnext.
  unfold view in F, T, A, Nw, S, J, O, Hl. rsimp. injection F as F1 F2 F3.
  assert (Hsame : is_started (node s') = true) by (apply is_started_true; intros x Hx%T; by apply (sd_timers _ _ _ Hst x)).
  assert (Hold : is_started n = true) by (by eapply started_true).
  assert (Hjoin : is_joined n -> hasSentAdvertMsg (node s') = true /\ myID (node s') = myID n).
  { intros [_ Hj]. destruct J as [[Jn _ _ _ _ _]|[= -> -> _]]; [|done]. rsimp. congruence. }
  eapply (inv_store N i n s' t); try done.
  - congruence.
  - intros L. exists a. split_and!; [unfold address; by rewrite F1|done|done|]. right.
    pose proof (sd_mac _ _ _ Hst) as Hm. pose proof (sd_role _ _ _ Hst) as Hr. rewrite Hs in Hr.
    split; [by apply is_started_true|congruence|cbn; pose proof (sd_now _ _ _ Hst); lia| |].
    + rewrite O. apply Forall_app. split; [eapply outbox_later; [done|apply (sd_outbox _ _ _ Hst)]|].
      eapply Forall_impl; [exact Hl|]. intros e (P1 & P2 & P3). rewrite Hm in P1.
      split_and!; [done|pose proof (sd_now _ _ _ Hst); lia|]. intros Ht.
      destruct P3 as [|[(Q1 & Q2 & Q3)|[Q1 Q2]]]; [done| |].
      * apply disco_advert. rewrite P1, Q2. exists i, (node s'). cbn. rewrite lookup_insert_eq.
        unfold is_joined, address. rewrite F1, F3. done.
      * apply disco_request. rewrite Q2. by apply L, Hsink.
    + rewrite F3, Hs. by eapply sensor_ok_discovered.
  - intros L. rewrite S. split; [|intros Hne; pose proof (ni_time _ Hinv Hne); lia].
    eapply Forall_impl; [apply (ni_sent _ Hinv)|]. by intros ? ?%(packet_ok_later _ _ _ L).
  - unfold is_sensor. rewrite A, Hsame, Hold, F3. eapply u16_same, (ni_all _ Hinv).
  - unfold is_unknown, is_sensor. rewrite Hsame, Hold, F3, Hs. destruct J as [[Jn Jd _ _ _ Jc]|[= -> _ ->]].
    + rsimp. rewrite Jc, Jn, Jd. cbn. by rewrite Z.add_0_r.
    + eapply u16_same, (ni_unknown _ Hinv).
Qed.

(** ** Every step keeps the invariant *)

Context (Hrand : forall i, 0 <= rand i) (Hticks : 0 < ticks) (Hbuild : build = Build32).
#[local] Set Default Proof Using "All".

Lemma joined_at_id N a id : net_inv N -> joined_at N a id -> id_ok id /\ 0 < getSinkDistance id.
Proof.
  intros Hinv (i & n & Hi & [Hs Hj] & _ & <-). destruct (ni_nodes _ Hinv i n Hi) as (b & _ & _ & _ & [[Hu _]|Hst]).
  - destruct Hu. congruence.
  - pose proof (sd_role _ _ _ Hst) as Hr. rewrite Hs in Hr. destruct (so_joined _ _ _ Hr Hj) as (_ & ? & ? & _). done.
Qed.

Lemma timer_step_inv N i n m t s' :
  net_inv N -> nodes N !! i = Some n -> next N t -> (m, t) ∈ timers n ->
  handleMessage (SelfMsg m) (view N (n<| timers ::= filter (fun e => e.1 <> m) |>) t) = Ok (tt, s') ->
  net_inv (store N i s').
Proof.
  intros Hinv Hi Hnext Hin Hrun. destruct (ni_nodes _ Hinv i n Hi) as (a & Ha & Hwf & Hb & [[Hu Hnow]|Hst]).
  - pose proof (un_timers _ Hu) as Ht. rewrite Ht in Hin. apply list_elem_of_singleton in Hin. injection Hin as -> ->.
    assert (Hn1 : n<| timers ::= filter (fun e => e.1 <> selfInitializationMsg) |> = n<| timers := [] |>).
    { unfold set_. cbn. rewrite Ht. reflexivity. }
    assert (Hwf' : forall a', my_ie n = Some (a', false) -> mac_wf a').
    { intros a' E. rewrite Ha in E. by injection E as <-. }
    rewrite Hn1 in Hrun. set (n1 := n<| timers := [] |>) in *. destruct (isSink n) eqn:Hs.
    + pose proof (wpe_sink_init Hrand Hticks Hbuild (view N n1 ticks) Hs (un_id _ Hu) Hwf') as W.
      destruct (wpe_run _ _ _ _ _ _ W Hrun) as (a' & b & Ha' & Hb' & Sv).
      cbn in Ha'. assert (a' = a) as -> by (unfold address in Ha; congruence).
      eapply (inv_served N i n (n1<| myMACAddress := a |>) a b ticks); try done; cbn.
      * intros x. apply not_elem_of_nil.
      * rewrite (un_outbox _ Hu). constructor.
      * by rewrite (un_area _ Hu).
    + destruct (wpe_run _ _ _ _ _ _ (wpe_sensor_init Hrand Hticks Hbuild (view N n1 ticks) Hs) Hrun)
        as (a' & Ha' & C).
      cbn in Ha'. assert (a' = a) as -> by (unfold address in Ha; congruence).
      by apply (inv_registered N i n n1 a ticks).
  - assert (Hm : m <> selfInitializationMsg) by (intros ->; by apply (sd_timers _ _ _ Hst t)).
    set (n1 := n<| timers ::= filter (fun e => e.1 <> m) |>) in *.
    assert (Hc : calm (view N n1 t) s').
    { destruct (isSink n) eqn:Hs.
      - exact (wpe_run _ _ _ _ _ _ (wpe_sink_timer Hrand Hticks Hbuild m (view N n1 t) Hs Hm) Hrun).
      - exact (wpe_run _ _ _ _ _ _ (wpe_sensor_timer Hrand Hticks Hbuild m (view N n1 t) Hs Hm) Hrun). }
    eapply (inv_calm N i n n1 a t []); try done.
    + cbn. intros e He%list_elem_of_filter. tauto.
    + unfold set_. cbn. rewrite app_nil_r. exact Hc.
Qed.

Lemma send_step_inv N i n l1 l2 t p s' :
  net_inv N -> nodes N !! i = Some n -> next N t -> outbox n = l1 ++ (t, p) :: l2 ->
  handleMessage (SelfPacket p) (view N (n<| outbox := l1 ++ l2 |>) t) = Ok (tt, s') ->
  net_inv (store N i s').
Proof.
  intros Hinv Hi Hnext Hout Hrun. destruct (ni_nodes _ Hinv i n Hi) as (a & Ha & Hwf & Hb & [[Hu _]|Hst]).
  { rewrite (un_outbox _ Hu) in Hout. by destruct l1. }
  pose proof (sd_outbox _ _ _ Hst) as Ho. rewrite Hout, Forall_app, Forall_cons in Ho.
  destruct Ho as (_ & (_ & Hlt & Hp) & _).
  set (n1 := n<| outbox := l1 ++ l2 |>) in *.
  eapply (inv_calm N i n n1 a t [p]); try done.
  - cbn. rewrite Hout. intros e. rewrite !elem_of_app, elem_of_cons. tauto.
  - by constructor.
  - exact (wpe_run _ _ _ _ _ _ (wpe_send Hrand Hticks Hbuild p (view N n1 t)) Hrun).
Qed.

(** A discovery packet that reaches a sensor comes from the sink or from a sensor
    that has joined: the request to the sink reaches nobody else. *)
Lemma heard_by_sensor N i n p a :
  net_inv N -> nodes N !! i = Some n -> isSink n = false -> address n a -> a <> BROADCAST_ADDRESS ->
  (forall b, sink_at N b -> b <> BROADCAST_ADDRESS) ->
  destMACAddress p = a \/ destMACAddress p = BROADCAST_ADDRESS -> disco_ok N p ->
  id_ok (Id p) /\ (getSinkDistance (Id p) = 0 -> sink_at N (srcMACAddress p)) /\
  (getSinkDistance (Id p) <> 0 -> joined_at N (srcMACAddress p) (Id p)).
Proof.
  intros Hinv Hi Hs Ha Hb Hsb Hd [Hsrc Hid Hz|Hj|Hsk].
  - split_and!; done.
  - destruct (joined_at_id _ _ _ Hinv Hj). split_and!; [done|lia|done].
  - exfalso. destruct Hd as [Hd|Hd]; [|by apply (Hsb _ Hsk)]. destruct Hsk as (j & m & Hm & Hms & Hma).
    unfold address in *. assert (i = j) as <- by (eapply (ni_addresses _ Hinv); [exact Hi|exact Hm|congruence]). congruence.
Qed.

Lemma sink_not_broadcast N b : net_inv N -> sink_at N b -> b <> BROADCAST_ADDRESS.
Proof.
  intros Hinv (j & m & Hm & _ & Ha). destruct (ni_nodes _ Hinv j m Hm) as (a & Ha' & _ & Hb & _).
  unfold address in *. congruence.
Qed.

Lemma deliver_step_inv N i n t p c a lo s' :
  net_inv N -> nodes N !! i = Some n -> next N t -> p ∈ net_sent N ->
  my_ie n = Some (a, lo) -> destMACAddress p = a \/ destMACAddress p = BROADCAST_ADDRESS ->
  handleMessage (NicPacket (p<| controlInfo := c |>)) (view N n t) = Ok (tt, s') ->
  net_inv (store N i s').
Proof.
  intros Hinv Hi Hnext Hp Hie Hd Hrun. destruct (ni_nodes _ Hinv i n Hi) as (a' & Ha & Hwf & Hb & Hst).
  unfold address in Ha. rewrite Hie in Ha. injection Ha as -> ->.
  destruct Hst as [[_ Hnow]|Hst].
  { assert (net_sent N <> []) as Hne by (intros E; rewrite E in Hp; by apply elem_of_nil in Hp).
    pose proof (ni_time _ Hinv Hne). lia. }
  pose proof (ni_sent _ Hinv) as Hsent. rewrite Forall_forall in Hsent. specialize (Hsent p Hp).
  pose proof (sd_role _ _ _ Hst) as Hr. set (q := p<| controlInfo := c |>) in *.
  assert (Hcalm : calm (view N n t) s' -> net_inv (store N i s')).
  { intros C. eapply (inv_calm N i n n a' t []); try done. unfold set_. cbn. rewrite app_nil_r. exact C. }
  destruct (isSink n) eqn:Hs.
  - destruct Hr as [(Hid & Hz & Hext) Har].
    destruct (wpe_run _ _ _ _ _ _ (wpe_sink_receive Hrand Hticks Hbuild q (view N n t) Hs Hid Hz Har) Hrun)
      as [Sv|C]; [|by apply Hcalm].
    eapply (inv_served N i n n a' _ t); try done.
    + rewrite (sd_mac _ _ _ Hst). congruence.
    + apply (sd_timers _ _ _ Hst).
    + apply (sd_outbox _ _ _ Hst).
    + pose proof (sd_now _ _ _ Hst). destruct Hnext. lia.
  - assert (Hheard : msgType p = MSG_DISCOVERY -> _) by
      (intros Ht; exact (heard_by_sensor N i n p a' Hinv Hi Hs Hie Hb (fun b => sink_not_broadcast N b Hinv) Hd (Hsent Ht))).
    assert (Hmac : mac_wf (myMACAddress n)) by (by rewrite (sd_mac _ _ _ Hst)).
    pose proof (wpe_run _ _ _ _ _ _ (wpe_sensor_receive Hrand Hticks Hbuild q (view N n t) Hs Hmac
      (fun Ht => proj1 (Hheard Ht))) Hrun) as W. cbn beta in W. change (msgType q) with (msgType p) in W.
    destruct (Z.eqb_spec (msgType p) MSG_DISCOVERY) as [Ht|_]; [|by apply Hcalm].
    destruct (Hheard Ht) as (_ & H1 & H2). by eapply (inv_discovered N i n a' t (received q)).
Qed.

Lemma net_step_inv N N' : net_inv N -> net_step N N' -> net_inv N'.
Proof. intros Hinv [???????|????????|?????????]; eauto using timer_step_inv, send_step_inv, deliver_step_inv. Qed.

Lemma count_none f m : (forall i n, m !! i = Some n -> f n = false) -> count f m = 0.
Proof.
  intros Hf. unfold count. rewrite (proj2 (map_empty_filter _ m)); [by rewrite map_size_empty|].
  intros i n Hi. cbn. rewrite (Hf i n Hi). done.
Qed.

Lemma starts_inv N : starts N -> net_inv N.
Proof.
  intros [Hn Ha Hst Hnow Hs].
  assert (Hun : forall i n, nodes N !! i = Some n -> is_sensor n = false).
  { intros i n Hi. destruct (Hn i n Hi) as (sink & bt0 & tr0 & a & id & ts & la & d0 & -> & _). by destruct sink. }
  split; [|done|by rewrite Hs|by rewrite Hs| |].
  - intros i n Hi. destruct (Hn i n Hi) as (sink & bt0 & tr0 & a & id & ts & la & d0 & -> & Hwf & Hb & Hid).
    exists a. split_and!; try done. left. split; [|rewrite Hnow; lia]. split; cbn; try done. by rewrite Z.add_0_l; destruct ticks.
  - rewrite Hst, count_none; done.
  - rewrite Hst, count_none; [done|]. intros i n Hi. unfold is_unknown. by rewrite (Hun i n Hi).
Qed.

Lemma reachable_inv N : reachable N -> net_inv N.
Proof.
  intros (N0 & Hs%starts_inv & Hr). induction Hr as [|N1 N2 N3 Hstep _ IH]; [done|]. apply IH. by eapply net_step_inv.
Qed.

(** ** Properties of every reachable network *)

(** [j] is a neighbour of the sensor [i] that is one hop nearer to the sink: the
    sink itself, or a sensor of the same area that is known under the identifier
    the neighbour list has it under. *)
Definition uphill (N : Net) (i j : nat) : Prop :=
  exists n n' k a, nodes N !! i = Some n /\ nodes N !! j = Some n' /\
    map_find k (neighborList n) = Some a /\ address n' a /\
    ((isSink n' = true /\ getSinkDistance (myID n) = 1) \/
     (is_joined n' /\ myID n' = k /\ getSinkDistance (myID n) = getSinkDistance k + 1 /\ getArea (myID n) = getArea k)).

Lemma reachable_joined N i n :
  reachable N -> nodes N !! i = Some n -> is_joined n -> exists a, address n a /\ mac_wf a /\ has_parent N n /\
    id_ok (myID n) /\ 0 < getSinkDistance (myID n) /\ a !! 5%nat = Some (getMACExt (myID n)).
Proof.
  intros Hr%reachable_inv Hi [Hs Hj]. destruct (ni_nodes _ Hr i n Hi) as (a & Ha & Hwf & _ & [[Hu _]|Hst]).
  { destruct Hu. congruence. }
  pose proof (sd_role _ _ _ Hst) as Hrole. rewrite Hs in Hrole. destruct (so_joined _ _ _ Hrole Hj) as (? & ? & ? & ?).
  by exists a.
Qed.

Lemma climb N d : forall i n, reachable N -> nodes N !! i = Some n -> is_joined n ->
  getSinkDistance (myID n) = Z.of_nat d ->
  exists j n', nsteps (uphill N) d i j /\ nodes N !! j = Some n' /\ isSink n' = true.
Proof.
  induction d as [|d IH]; intros i n Hr Hi Hj Hd;
    destruct (reachable_joined N i n Hr Hi Hj) as (a & Ha & Hwf & (k & b & Hf & Hp) & _ & Hpos & _); [lia|].
  destruct Hp as [[H1 (j & n' & Hn' & Hs' & Ha')]|((j & n' & Hn' & Hj' & Ha' & Hk) & Hdk & Har)].
  - exists j, n'. split; [|done]. replace (S d) with 1%nat by lia. apply nsteps_once.
    exists n, n', k, b. split_and!; auto.
  - destruct (IH j n' Hr Hn' Hj') as (m & nm & Hst & Hm & Hs); [rewrite Hk; lia|].
    exists m, nm. split; [|done]. econstructor; [|exact Hst]. exists n, n', k, b. split_and!; auto 10.
Qed.

(** C3: the identifiers form a gradient.  In every network that can be reached,
    whatever the radio loses, repeats or reorders, a sensor that has joined has a
    distance [d] between 1 and 15, and following neighbour lists for exactly [d]
    hops leads from it to a sink, each hop to a sensor of the same area that is
    one nearer and known under its present identifier. *)
Theorem gradient_path (N : Net) (i : nat) (n : Node)
  (Hr : reachable N) (Hi : nodes N !! i = Some n) (Hj : is_joined n) :
  1 <= getSinkDistance (myID n) <= 15 /\
  exists j n', nsteps (uphill N) (Z.to_nat (getSinkDistance (myID n))) i j /\
    nodes N !! j = Some n' /\ isSink n' = true.
Proof.
  destruct (reachable_joined N i n Hr Hi Hj) as (a & _ & _ & _ & _ & Hpos & _).
  pose proof (getSinkDistance_div (myID n)). split; [dmlia|]. eapply climb; [done..|]. rewrite Z2Nat.id; lia.
Qed.

(** C4: neighbour lists tell the truth.  In every network that can be reached, an
    entry of a sensor's neighbour list with a distance other than 0 names a
    sensor that has joined, by the address of its interface and the identifier
    it has now, whose number is the last byte of that address. *)
Theorem neighbor_list_truthful (N : Net) (i : nat) (n : Node) (k : Z) (b : MACAddress)
  (Hr : reachable N) (Hi : nodes N !! i = Some n) (Hs : isSink n = false)
  (Hf : map_find k (neighborList n) = Some b) (Hd : getSinkDistance k <> 0) :
  exists j n', nodes N !! j = Some n' /\ is_joined n' /\ address n' b /\ myID n' = k /\
    b !! 5%nat = Some (getMACExt k).
Proof.
  pose proof (reachable_inv N Hr) as Hinv.
  destruct (ni_nodes _ Hinv i n Hi) as (a & Ha & Hwf & _ & [[Hu _]|Hst]).
  { by rewrite (un_list _ Hu) in Hf. }
  pose proof (sd_role _ _ _ Hst) as Hrole. rewrite Hs in Hrole.
  destruct (so_entries _ _ _ Hrole k b Hf Hd) as (j & n' & Hn' & Hj' & Ha' & Hk). exists j, n'.
  destruct (reachable_joined N j n' Hr Hn' Hj') as (b' & Hb' & _ & _ & _ & _ & Hext).
  unfold address in *. rewrite Hk in Hext. split_and!; try done. congruence.
Qed.

(** C35: what was scheduled can be sent.  In every network that can be reached, the
    packet of a node that is due passes the assertion that it carries the node's
    own address, and the event hands exactly that packet to the interface. *)
Theorem scheduled_packet_sent (N : Net) (i : nat) (n : Node) (l1 l2 : list (Z * SRPacket)) (t : Z) (p : SRPacket)
  (Hr : reachable N) (Hi : nodes N !! i = Some n) (Hout : outbox n = l1 ++ (t, p) :: l2) :
  exists s', handleMessage (SelfPacket p) (view N (n<| outbox := l1 ++ l2 |>) t) = Ok (tt, s') /\
    sent s' = net_sent N ++ [p] /\ outbox (node s') = l1 ++ l2 /\ numSent (node s') = numSent n + 1.
Proof.
  pose proof (reachable_inv N Hr) as Hinv.
  destruct (ni_nodes _ Hinv i n Hi) as (a & Ha & Hwf & _ & [[Hu _]|Hst]).
  { rewrite (un_outbox _ Hu) in Hout. by destruct l1. }
  pose proof (sd_outbox _ _ _ Hst) as Ho. rewrite Hout, Forall_app, Forall_cons in Ho.
  destruct Ho as (_ & (Hsrc & _) & _).
  cut (wp (handleMessage (SelfPacket p)) (fun _ s' => sent s' = net_sent N ++ [p] /\ outbox (node s') = l1 ++ l2 /\
    numSent (node s') = numSent n + 1) (view N (n<| outbox := l1 ++ l2 |>) t)).
  { intros ([] & s' & E & HQ)%wp_ok. eauto. }
  unfold handleMessage, view. srs. rsimp.
  destruct (isSink n); cbn [SINK_handleMessage SINK_handleSelfMsg handleSelfMsg];
    unfold assert_mine, sendDirect, changeDisplay, updateDisplay; srs; rsimp;
    try (split_and!; [done..|lia]); rewrite (sd_mac _ _ _ Hst), Hsrc, compareTo_refl in *; done.
Qed.

(** An identifier gives its node's address back, anywhere.  In every network
    that can be reached in which two nodes' addresses differ only in the last
    byte, [idToMACAddress] at a node that has started turns the identifier of a
    sensor that has joined into the address of that sensor's interface. *)
Theorem identifiers_resolve (N : Net) (i j : nat) (n n' : Node) (a b : MACAddress) (t : Z)
  (Hr : reachable N) (Hi : nodes N !! i = Some n) (Hstart : is_started n = true) (Ha : address n a)
  (Hj : nodes N !! j = Some n') (Hjoin : is_joined n') (Hb : address n' b) (Hprefix : take 5 b = take 5 a) :
  exists s', idToMACAddress (myID n') (view N n t) = Ok (b, s').
Proof.
  destruct (reachable_joined N j n' Hr Hj Hjoin) as (b' & Hb' & Hwf' & _ & _ & _ & Hext).
  destruct (ni_nodes _ (reachable_inv N Hr) i n Hi) as (a' & Ha' & Hwf & _ & [[Hu _]|Hst]).
  { rewrite untouched_false in Hstart; done. }
  unfold address in *. assert (a' = a) as -> by congruence. assert (b' = b) as -> by congruence.
  pose proof (sd_mac _ _ _ Hst) as Hm. apply idToMACAddress_inverse; cbn; rewrite ?Hm; done.
Qed.

(** The counters of sensors are right.  In every network of less than 65536
    nodes that can be reached, the two static counters are the number of sensors
    that have started and the number of those that have not joined yet. *)
Theorem sensor_counters (N : Net) (Hr : reachable N) (Hsize : Z.of_nat (size (nodes N)) < 65536) :
  numberSensorInNetwork (net_statics N) = count is_sensor (nodes N) /\
  numberSensorNotKnown (net_statics N) = count is_unknown (nodes N).
Proof.
  pose proof (reachable_inv N Hr) as Hinv. rewrite (ni_all _ Hinv), (ni_unknown _ Hinv).
  assert (Hle : forall f, 0 <= count f (nodes N) < 65536).
  { intros f. unfold count. pose proof (map_size_filter (fun x => f x.2 = true) (nodes N)). lia. }
  split; by apply u16_small.
Qed.
End network.

(** ** Running a network

    An event chosen from outside, executed if it is one of the steps above. *)

Inductive choice :=
  | Timer (i : nat) (m : selfmsg)
  | Send (i k : nat)
  | Deliver (i k : nat) (t : Z).

Section runs.
Context `{Env}.

Definition nextb (N : Net) (t : Z) : bool :=
  (net_now N <=? t) && forallb (fun x => forallb (fun e => t <=? e.2) (timers x.2) && forallb (fun e => t <=? e.1) (outbox x.2))
    (map_to_list (nodes N)).

Definition handle (N : Net) (i : nat) (n : Node) (t : Z) (e : event) : option Net :=
  if nextb N t then
    match handleMessage e (view N n t) with
    | Ok (_, s') => Some (store N i s')
    | Fault _ => None
    end
  else None.

Definition run_choice (N : Net) (c : choice) : option Net :=
  match c with
  | Timer i m =>
      n ← nodes N !! i;
      e ← head (filter (fun e => e.1 = m) (timers n));
      handle N i (n<| timers ::= filter (fun e => e.1 <> m) |>) e.2 (SelfMsg m)
  | Send i k =>
      n ← nodes N !! i;
      e ← outbox n !! k;
      handle N i (n<| outbox := take k (outbox n) ++ drop (S k) (outbox n) |>) e.1 (SelfPacket e.2)
  | Deliver i k t =>
      n ← nodes N !! i;
      p ← net_sent N !! k;
      a ← my_ie n;
      if bool_decide (destMACAddress p = a.1) || bool_decide (destMACAddress p = BROADCAST_ADDRESS)
      then handle N i n t (NicPacket p) else None
  end.
Definition run (N : Net) (l : list choice) : option Net := foldl (fun o c => N ← o; run_choice N c) (Some N) l.

Lemma nextb_next N t : nextb N t = true -> next N t.
Proof.
  intros [H1 H2]%andb_prop. split; [by apply Z.leb_le|]. intros i n Hi. rewrite List.forallb_forall in H2.
  specialize (H2 (i, n)). rewrite <- list_elem_of_In, elem_of_map_to_list in H2. specialize (H2 Hi).
  apply andb_prop in H2 as [H2 H3]. cbn in H2, H3. rewrite List.forallb_forall in H2, H3. rewrite !Forall_forall.
  split; intros e He; apply Z.leb_le; [apply H2|apply H3]; by apply list_elem_of_In.
Qed.

Lemma handle_Some N i n t e N' : handle N i n t e = Some N' ->
  next N t /\ exists s', handleMessage e (view N n t) = Ok (tt, s') /\ N' = store N i s'.
Proof.
  unfold handle. destruct (nextb N t) eqn:E; [|done]. apply nextb_next in E.
  destruct (handleMessage e _) as [[[] s']|]; [|done]. intros [= <-]. eauto.
Qed.

Lemma run_choice_step N c N' : run_choice N c = Some N' -> net_step N N'.
Proof.
  destruct c as [i m|i k|i k t]; cbn [run_choice]; intros (n & Hi & E)%bind_Some.
  - apply bind_Some in E as ([m' t] & He & (Hn & s' & Hrun & ->)%handle_Some).
    apply head_Some_elem_of, list_elem_of_filter in He as [Em Hin]. cbn in Em. subst m'. by eapply step_timer.
  - apply bind_Some in E as ([t p] & He & (Hn & s' & Hrun & ->)%handle_Some).
    eapply step_send; [done|done| |exact Hrun]. by rewrite take_drop_middle.
  - apply bind_Some in E as (p & Hp & ([a lo] & Ha & E)%bind_Some).
    destruct (_ || _) eqn:Hd; [|done]. apply handle_Some in E as (Hn & s' & Hrun & ->).
    apply orb_true_iff in Hd as [Hd%bool_decide_eq_true_1|Hd%bool_decide_eq_true_1]; cbn in Hd;
      (eapply (step_deliver N i n t p (controlInfo p) a lo); [done|done|by eapply list_elem_of_lookup_2|done|by auto|];
       by destruct p).
Qed.

Lemma run_steps l : forall N N', run N l = Some N' -> rtc net_step N N'.
Proof.
  unfold run. induction l as [|c l IH] using rev_ind; intros N N'; [intros [= ->]; apply rtc_refl|].
  rewrite foldl_app. cbn. intros (N1 & H1 & H2%run_choice_step)%bind_Some. eapply rtc_r; [by apply IH|done].
Qed.
End runs.

(** *** A sink and two sensors in a row *)

Definition chain_node (sink : bool) (k : Z) : Node :=
  @SR_initialize sample_env sink (sample_bt 1) empty_table (Some (sample_mac k, false)) 0 0 false (mkDisplay "" "" "") 0.
Definition chain : Net :=
  mkNet {[0%nat := chain_node true 1; 1%nat := chain_node false 2; 2%nat := chain_node false 3]}
    initial_statics sample_mem 0 0 [] [].

Definition chain_run : list choice :=
  [Timer 0 selfInitializationMsg; Timer 1 selfInitializationMsg; Timer 2 selfInitializationMsg;
   Send 0 0; Deliver 1 0 14000; Send 1 0; Deliver 0 1 36000; Send 0 0; Deliver 1 2 100000; Send 1 0;
   Deliver 2 3 150000].
Definition chain_end : Net := default chain (@run sample_env chain chain_run).
Definition chain_member (i : nat) : Node := default (chain_node false 0) (nodes chain_end !! i).

Lemma chain_starts : @starts sample_env chain.
Proof.
  assert (Hall : map_Forall (fun i n => exists sink k, n = chain_node sink k /\ 0 <= k < 256 /\ k = Z.of_nat i + 1) (nodes chain)).
  { apply map_Forall_insert_2; [by exists true, 1|]. apply map_Forall_insert_2; [by exists false, 2|].
    apply map_Forall_singleton. by exists false, 3. }
  split; try done.
  - intros i n (sink & k & -> & Hk & Ei)%Hall.
    exists sink, (sample_bt 1), empty_table, (sample_mac k), 0, 0, false, (mkDisplay "" "" "").
    split_and!; [done|by apply sample_mac_wf| |done]. intros E. apply (f_equal (fun l => nth 0 l 0)) in E. done.
  - intros i j n n' (sink & k & -> & Hk & Ei)%Hall (sink' & k' & -> & Hk' & Ej)%Hall E.
    cbn in E. injection E as E. lia.
Qed.

Lemma default_Some {A} (d : A) (o : option A) : bool_decide (is_Some o) = true -> o = Some (default d o).
Proof. intros [x ->]%bool_decide_eq_true_1. done. Qed.

Lemma chain_reachable : @reachable sample_env chain_end.
Proof.
  exists chain. split; [exact chain_starts|]. apply (@run_steps sample_env chain_run), default_Some.
  vm_compute. reflexivity.
Qed.

#[local] Opaque chain_end.

Lemma chain_members i : bool_decide (is_Some (nodes chain_end !! i)) = true -> nodes chain_end !! i = Some (chain_member i).
Proof. unfold chain_member. exact (default_Some (chain_node false 0) (nodes chain_end !! i)). Qed.

Lemma chain_second : nodes chain_end !! 2%nat = Some (chain_member 2) /\ is_joined (chain_member 2).
Proof. split; [apply chain_members; vm_compute; reflexivity|split; vm_compute; reflexivity]. Qed.

(** The second sensor is at distance 2, and two hops lead to the sink. *)
Lemma gradient_path_witness :
  exists j n', nsteps (uphill chain_end) 2%nat 2%nat j /\ nodes chain_end !! j = Some n' /\ isSink n' = true.
Proof.
  exact (proj2 (@gradient_path sample_env sample_rand_nonneg eq_refl eq_refl chain_end 2 (chain_member 2)
    chain_reachable (proj1 chain_second) (proj2 chain_second))).
Defined.

Lemma neighbor_list_truthful_witness :
  exists j n', nodes chain_end !! j = Some n' /\ address n' (sample_mac 2) /\ myID n' = pack 2 1 0.
Proof.
  destruct (@neighbor_list_truthful sample_env sample_rand_nonneg eq_refl eq_refl chain_end 2 (chain_member 2)
    (pack 2 1 0) (sample_mac 2) chain_reachable (proj1 chain_second) (proj1 (proj2 chain_second)))
    as (j & n' & Hj & _ & Ha & Hid & _); [vm_compute; reflexivity|vm_compute; discriminate|].
  exact (ex_intro _ j (ex_intro _ n' (conj Hj (conj Ha Hid)))).
Defined.

Lemma scheduled_packet_sent_witness :
  exists t p s', outbox (chain_member 2) = [(t, p)] /\
    @handleMessage sample_env (SelfPacket p) (view chain_end ((chain_member 2)<| outbox := [] |>) t) = Ok (tt, s').
Proof.
  assert (Hl : length (outbox (chain_member 2)) = 1%nat) by (vm_compute; reflexivity).
  destruct (outbox (chain_member 2)) as [|[t p] [|]] eqn:Ho; [discriminate Hl| |discriminate Hl].
  destruct (@scheduled_packet_sent sample_env sample_rand_nonneg eq_refl eq_refl chain_end 2 (chain_member 2) [] []
    t p chain_reachable (proj1 chain_second) Ho) as (s' & E & _).
  exists t, p, s'. split; [reflexivity|exact E].
Defined.

Lemma identifiers_resolve_witness :
  exists s', @idToMACAddress (pack 3 2 0) (view chain_end (chain_member 0) 150000) = Ok (sample_mac 3, s').
Proof.
  apply (@identifiers_resolve sample_env sample_rand_nonneg eq_refl eq_refl chain_end 0 2 (chain_member 0) (chain_member 2)
    (sample_mac 1) (sample_mac 3) 150000 chain_reachable); try apply chain_second.
  - apply chain_members. vm_compute. reflexivity.
  - vm_compute. reflexivity.
  - vm_compute. reflexivity.
  - vm_compute. reflexivity.
Defined.

Lemma sensor_counters_witness :
  numberSensorInNetwork (net_statics chain_end) = 2 /\ numberSensorNotKnown (net_statics chain_end) = 0.
Proof.
  destruct (@sensor_counters sample_env sample_rand_nonneg eq_refl eq_refl chain_end chain_reachable) as [-> ->];
    [vm_compute; reflexivity|]. split; vm_compute; reflexivity.
Defined.
