(* ===== verification/HList.v ===== *)
(** * The duplicate filter: underTest2/.../mac/Ieee802154Link.{h,cc}

    One entry per source address with the sequence number last received from
    it, kept in a doubly linked list.  The list is modelled with its pointers:
    a memory of nodes, and the two pointers to the first and last node that the
    functions receive by address. *)

From S2P Require Import Prelude.

Open Scope string_scope.
Open Scope list_scope.
Open Scope Z_scope.

#[projections(primitive)]
Record HLISTLINK := mkHLISTLINK {
  hostID : Z;
  SN : Z;
  last_ : option positive;
  next_ : option positive;
}.
#[export] Instance eta_HLISTLINK : Eta HLISTLINK := fun n =>
  mkHLISTLINK (hostID n) (SN n) (last_ n) (next_ n).

Abbreviation hmem := (gmap positive HLISTLINK).

(** The state the functions work on: [*hlistLink1], [*hlistLink2] and the
    nodes allocated. *)
#[projections(primitive)]
Record hlist := mkHlist {
  hlistLink1 : option positive;
  hlistLink2 : option positive;
  nodes : hmem;
}.
#[export] Instance eta_hlist : Eta hlist := fun l => mkHlist (hlistLink1 l) (hlistLink2 l) (nodes l).

Definition empty_hlist : hlist := mkHlist None None ∅.

Definition hl_oper_del : Z := 1.
Definition hl_oper_rpl : Z := 3.

(** [*p], undefined on a null or dangling pointer. *)
Definition hderef (p : option positive) : M hlist HLISTLINK := fun s =>
  match p with
  | None => Fault (Undefined "null pointer")
  | Some a => match nodes s !! a with
              | Some n => Ok (n, s)
              | None => Fault (Undefined "dangling pointer")
              end
  end.

(** [p->field = v] *)
Definition hupd (p : option positive) (f : HLISTLINK -> HLISTLINK) : M hlist unit :=
  n ← hderef p;
  match p with
  | None => mret tt
  | Some a => modify (fun s => s<| nodes ::= fun h => <[a := f n]> h |>)
  end.

(** [new HLISTLINK(hostid, sn)] *)
Definition hnew (hostid sn : Z) : M hlist (option positive) := fun s =>
  let a := fresh (dom (nodes s)) in
  Ok (Some a, s<| nodes ::= fun h => <[a := mkHLISTLINK hostid sn None None]> h |>).

Definition hdelete (p : option positive) : M hlist unit :=
  _ ← hderef p;
  match p with
  | None => mret tt
  | Some a => modify (fun s => s<| nodes ::= fun h => delete a h |>)
  end.

(** ** Operations *)

Definition addHListLink (hostid sn : Z) : M hlist Z :=
  l2 ← gets (fun s => hlistLink2 s);
  match l2 with
  | None =>
      p ← hnew hostid sn;
      modify (fun s => s<| hlistLink2 := p |>);;
      modify (fun s => s<| hlistLink1 := hlistLink2 s |>);;
      mret 0
  | Some _ =>
      tmp ← hnew hostid sn;
      hupd tmp (fun n => n<| last_ := l2 |>);;
      hupd l2 (fun n => n<| next_ := tmp |>);;
      modify (fun s => s<| hlistLink2 := tmp |>);;
      mret 0
  end.

(** Unlinking the node [tmp]. *)
Definition unlink (tmp : option positive) : M hlist unit :=
  n ← hderef tmp;
  (match last_ n with
   | Some _ =>
       hupd (last_ n) (fun m => m<| next_ := next_ n |>);;
       match next_ n with
       | Some _ => hupd (next_ n) (fun m => m<| last_ := last_ n |>)
       | None => modify (fun s => s<| hlistLink2 := last_ n |>)
       end
   | None =>
       match next_ n with
       | Some _ =>
           modify (fun s => s<| hlistLink1 := next_ n |>);;
           hupd (next_ n) (fun m => m<| last_ := None |>)
       | None => modify (fun s => s<| hlistLink1 := None |><| hlistLink2 := None |>)
       end
   end);;
  hdelete tmp.

(** The loop over the nodes from [tmp] on. *)
Fixpoint update_loop (fuel : nat) (oper hostid sn : Z) (tmp : option positive) : M hlist Z :=
  match fuel with
  | O => fail OutOfFuel
  | S fuel' =>
      match tmp with
      | None => mret 1
      | Some _ =>
          n ← hderef tmp;
          if hostID n =? hostid then
            when (oper =? hl_oper_del) (unlink tmp);;
            if oper =? hl_oper_rpl then
              if negb (SN n =? sn) then hupd tmp (fun m => m<| SN := sn |>);; mret 0
              else mret 2
            else mret 0
          else update_loop fuel' oper hostid sn (next_ n)
      end
  end.

(** A well-formed list visits each node once; one more turn sees the end. *)
Definition updateHListLink (oper hostid sn : Z) : M hlist Z :=
  size_ ← gets (fun s => size (nodes s));
  l1 ← gets (fun s => hlistLink1 s);
  update_loop (S size_) oper hostid sn l1.

Definition chkAddUpdHListLink (hostid sn : Z) : M hlist Z :=
  i ← updateHListLink hl_oper_rpl hostid sn;
  if (i : Z) =? 0 then mret 1
  else if i =? 2 then mret 2
  else
    i ← addHListLink hostid sn;
    mret (if (i : Z) =? 0 then 0 else 3).

Fixpoint empty_loop (fuel : nat) (tmp : option positive) : M hlist unit :=
  match fuel with
  | O => fail OutOfFuel
  | S fuel' =>
      match tmp with
      | None => mret tt
      | Some _ =>
          n ← hderef tmp;
          hdelete tmp;;
          empty_loop fuel' (next_ n)
      end
  end.

Definition emptyHListLink : M hlist unit :=
  l1 ← gets (fun s => hlistLink1 s);
  size_ ← gets (fun s => size (nodes s));
  (match l1 with
   | None => mret tt
   | Some _ => empty_loop (S size_) l1;; modify (fun s => s<| hlistLink1 := None |>)
   end);;
  modify (fun s => s<| hlistLink2 := hlistLink1 s |>).

(** ** What the list stands for *)

(** The nodes in order: address, source and sequence number. *)
Abbreviation cell := (positive * (Z * Z))%type.

Definition at_ (l : list cell) (i : Z) : option positive :=
  if i <? 0 then None else fst <$> l !! Z.to_nat i.

(** [h] holds exactly the doubly linked list [l]. *)
Record hrepr (s : hlist) (l : list cell) : Prop := {
  h_first : hlistLink1 s = fst <$> head l;
  h_last : hlistLink2 s = fst <$> last l;
  h_nodup : NoDup l.*1;
  h_dom : dom (nodes s) = list_to_set l.*1;
  h_cells : forall i a id sn, l !! i = Some (a, (id, sn)) ->
    nodes s !! a = Some (mkHLISTLINK id sn (at_ l (Z.of_nat i - 1)) (at_ l (Z.of_nat i + 1)));
}.

(** The filter itself: an association from sources to numbers. *)
Fixpoint seen (hostid sn : Z) (l : list (Z * Z)) : Z * list (Z * Z) :=
  match l with
  | [] => (0, [(hostid, sn)])
  | (id, n) :: l' =>
      if id =? hostid then
        if n =? sn then (2, (id, n) :: l') else (1, (id, sn) :: l')
      else let '(r, l'') := seen hostid sn l' in (r, (id, n) :: l'')
  end.

(** ** The loop *)

Lemma at_nat l i : at_ l (Z.of_nat i) = fst <$> l !! i.
Proof. unfold at_. rewrite (proj2 (Z.ltb_ge _ 0)) by lia. by rewrite Nat2Z.id. Qed.

Lemma at_succ l i : at_ l (Z.of_nat i + 1) = fst <$> l !! S i.
Proof. replace (Z.of_nat i + 1) with (Z.of_nat (S i)) by lia. apply at_nat. Qed.

Lemma head_drop {A} (l : list A) i : head (drop i l) = l !! i.
Proof.
  revert i. induction l as [|x l IH]; intros [|i]; try done. cbn. by rewrite IH.
Qed.

Definition is_host (hostid : Z) (c : cell) : Prop := c.2.1 = hostid.
#[export] Instance is_host_dec hostid c : Decision (is_host hostid c).
Proof. unfold is_host. apply _. Defined.

Lemma list_find_drop_S {A} (P : A -> Prop) `{forall x, Decision (P x)} l i x :
  l !! i = Some x -> ~ P x ->
  list_find P (drop i l) = prod_map S id <$> list_find P (drop (S i) l).
Proof.
  intros Hx Hn. rewrite (drop_S _ _ _ Hx). cbn. by rewrite decide_False.
Qed.

(** What the replacing loop does from position [i] on. *)
Lemma update_loop_spec s l hostid sn fuel i :
  hrepr s l -> (length l - i < fuel)%nat ->
  update_loop fuel hl_oper_rpl hostid sn (fst <$> l !! i) s =
    match list_find (is_host hostid) (drop i l) with
    | None => Ok (1, s)
    | Some (j, (a, (id, n))) =>
        if n =? sn then Ok (2, s)
        else Ok (0, s<| nodes ::= <[a := mkHLISTLINK id sn (at_ l (Z.of_nat (i + j) - 1))
                                          (at_ l (Z.of_nat (i + j) + 1))]> |>)
    end.
Proof.
  intros Hr. revert i. induction fuel as [|fuel IH]; intros i Hf; [lia|].
  cbn [update_loop]. destruct (l !! i) as [[a [id n]]|] eqn:Hi; cbn [fmap option_fmap option_map fst].
  - pose proof (h_cells _ _ Hr _ _ _ _ Hi) as Hc.
    unfold mbind at 1, M_bind, hderef. rewrite Hc. cbn [hostID SN next_].
    destruct (Z.eqb_spec id hostid) as [->|Hne].
    + rewrite (drop_S _ _ _ Hi). cbn [list_find]. rewrite decide_True by done.
      rewrite Nat.add_0_r. cbn. destruct (n =? sn); [done|].
      cbn. unfold hupd, mbind, M_bind, hderef. cbn. rewrite Hc. done.
    + rewrite (list_find_drop_S _ _ _ _ Hi) by (cbn; done).
      apply lookup_lt_Some in Hi as Hlt.
      rewrite at_succ, IH by lia.
      destruct (list_find _ (drop (S i) l)) as [[j [a' [id' n']]]|]; cbn; [|done].
      by replace (i + S j)%nat with (S (i + j))%nat by lia.
  - rewrite drop_ge by (by apply lookup_ge_None). done.
Qed.

Lemma hrepr_size s l : hrepr s l -> size (nodes s) = length l.
Proof.
  intros Hr. rewrite <- size_dom, (h_dom _ _ Hr), size_list_to_set by apply Hr.
  by rewrite length_fmap.
Qed.

Lemma hrepr_head s l : hrepr s l -> hlistLink1 s = fst <$> l !! O.
Proof. intros Hr. rewrite (h_first _ _ Hr). by destruct l. Qed.

(** A new number in place. *)
Lemma hrepr_replace s l j a id n sn :
  hrepr s l -> l !! j = Some (a, (id, n)) ->
  hrepr (s<| nodes ::= <[a := mkHLISTLINK id sn (at_ l (Z.of_nat j - 1)) (at_ l (Z.of_nat j + 1))]> |>)
    (<[j := (a, (id, sn))]> l).
Proof.
  intros [H1 H2 H3 H4 H5] Hj.
  assert (Hfst : (<[j := (a, (id, sn))]> l).*1 = l.*1).
  { rewrite list_fmap_insert. cbn. apply list_insert_id. by rewrite list_lookup_fmap, Hj. }
  assert (Hat : forall i, at_ (<[j := (a, (id, sn))]> l) i = at_ l i).
  { intros i. unfold at_. destruct (i <? 0); [done|]. by rewrite <- !list_lookup_fmap, Hfst. }
  split; cbn; rewrite ?Hfst; auto.
  - rewrite H1. rewrite !head_lookup. by rewrite <- !list_lookup_fmap, Hfst.
  - rewrite H2. rewrite !last_lookup, length_insert. by rewrite <- !list_lookup_fmap, Hfst.
  - rewrite dom_insert_L, H4.
    assert (a ∈ (list_to_set l.*1 : gset positive)); [|set_solver].
    apply elem_of_list_to_set, list_elem_of_fmap. exists (a, (id, n)). split; [done|].
    by eapply list_elem_of_lookup_2.
  - intros i a' id' sn' Hi. rewrite !Hat. destruct (decide (i = j)) as [->|Hij].
    + rewrite list_lookup_insert_eq in Hi by (by eapply lookup_lt_Some). injection Hi as <- <- <-.
      by rewrite lookup_insert_eq.
    + rewrite list_lookup_insert_ne in Hi by done. rewrite lookup_insert_ne; [by apply H5|].
      intros <-. apply Hij. eapply (NoDup_lookup l.*1); [done| |];
        rewrite list_lookup_fmap; [rewrite Hi|rewrite Hj]; done.
Qed.

(** A node at the end. *)
Lemma at_app l c i : i < Z.of_nat (length l) -> at_ (l ++ [c]) i = at_ l i.
Proof.
  intros Hi. unfold at_. destruct (Z.ltb_spec i 0); [done|].
  by rewrite lookup_app_l by lia.
Qed.

Lemma at_last l a c : at_ (l ++ [(a, c)]) (Z.of_nat (length l)) = Some a.
Proof. rewrite at_nat, lookup_app_r, Nat.sub_diag by lia. done. Qed.

Lemma at_end l : at_ l (Z.of_nat (length l)) = None.
Proof. rewrite at_nat, lookup_ge_None_2 by lia. done. Qed.

Lemma hrepr_snoc_cells (h : hmem) l a id sn :
  a ∉ l.*1 -> NoDup l.*1 ->
  (forall i b id' sn', l !! i = Some (b, (id', sn')) ->
     h !! b = Some (mkHLISTLINK id' sn' (at_ l (Z.of_nat i - 1)) (at_ (l ++ [(a, (id, sn))]) (Z.of_nat i + 1)))) ->
  h !! a = Some (mkHLISTLINK id sn (at_ l (Z.of_nat (length l) - 1)) None) ->
  forall i b id' sn', (l ++ [(a, (id, sn))]) !! i = Some (b, (id', sn')) ->
    h !! b = Some (mkHLISTLINK id' sn' (at_ (l ++ [(a, (id, sn))]) (Z.of_nat i - 1))
                     (at_ (l ++ [(a, (id, sn))]) (Z.of_nat i + 1))).
Proof.
  intros Ha Hd Hl Hn i b id' sn' Hi.
  destruct (decide (i < length l)%nat).
  - rewrite lookup_app_l in Hi by done. rewrite at_app by lia. by apply Hl.
  - apply lookup_lt_Some in Hi as Hlt. rewrite length_app in Hlt. cbn in Hlt.
    replace i with (length l) in * by lia.
    rewrite lookup_app_r, Nat.sub_diag in Hi by lia. injection Hi as <- <- <-.
    rewrite at_app by lia. rewrite Hn. do 2 f_equal.
    replace (Z.of_nat (length l) + 1) with (Z.of_nat (length (l ++ [(a, (id, sn))])))
      by (rewrite length_app; cbn; lia).
    by rewrite at_end.
Qed.

Lemma hrepr_fresh s l : hrepr s l -> fresh (dom (nodes s)) ∉ l.*1.
Proof.
  intros Hr Hin. apply (is_fresh (dom (nodes s))).
  rewrite (h_dom _ _ Hr) at 2. by apply elem_of_list_to_set.
Qed.

Lemma addHListLink_nil s host sn :
  hrepr s [] -> exists s' a, addHListLink host sn s = Ok (0, s') /\ hrepr s' [(a, (host, sn))].
Proof.
  intros [H1 H2 _ H4 _]. cbn in H1, H2, H4.
  unfold addHListLink, mbind, M_bind, gets. rewrite H2. cbn.
  eexists _, _. split; [reflexivity|]. split; cbn; auto.
  - apply NoDup_singleton.
  - rewrite dom_insert_L, H4. set_solver.
  - intros [|i] a id sn' Hi; [|done]. injection Hi as <- <- <-. by rewrite lookup_insert_eq.
Qed.

Lemma addHListLink_snoc s l b id n host sn :
  hrepr s (l ++ [(b, (id, n))]) ->
  exists s' a, addHListLink host sn s = Ok (0, s') /\ hrepr s' ((l ++ [(b, (id, n))]) ++ [(a, (host, sn))]).
Proof.
  set (l0 := l ++ [_]). intros Hr. pose proof (hrepr_fresh _ _ Hr) as Hf. destruct Hr as [H1 H2 H3 H4 H5].
  set (a := fresh _) in Hf.
  assert (Hlen : length l0 = S (length l)) by (unfold l0; rewrite length_app; cbn; lia).
  assert (Hlast : l0 !! length l = Some (b, (id, n))) by (unfold l0; by rewrite lookup_app_r, Nat.sub_diag by lia).
  assert (Hb : hlistLink2 s = Some b) by (rewrite H2; unfold l0; by rewrite last_snoc).
  pose proof (H5 _ _ _ _ Hlast) as Hcb.
  assert (Hab : a <> b).
  { intros ->. apply Hf, list_elem_of_fmap. exists (b, (id, n)). split; [done|]. by eapply list_elem_of_lookup_2. }
  unfold addHListLink, mbind, M_bind, gets. rewrite Hb. cbn. fold a.
  unfold hupd, hderef, mbind, M_bind, modify. cbn. rewrite lookup_insert_eq. cbn.
  rewrite insert_insert_eq, lookup_insert_ne, Hcb by done. cbn.
  eexists _, a. split; [reflexivity|]. split; cbn.
  - rewrite H1. unfold l0. by destruct l.
  - by rewrite last_snoc.
  - rewrite fmap_app. apply NoDup_app. split_and!; [done| |apply NoDup_singleton].
    intros x Hx ->%list_elem_of_singleton. done.
  - rewrite !dom_insert_L, H4, fmap_app, list_to_set_app_L.
    assert (b ∈ (list_to_set l0.*1 : gset positive)); [|set_solver].
    apply elem_of_list_to_set, list_elem_of_fmap. exists (b, (id, n)). split; [done|].
    by eapply list_elem_of_lookup_2.
  - apply hrepr_snoc_cells; [done|done| |].
    + intros i c id' sn' Hi. destruct (decide (i = length l)) as [->|Hne].
      * rewrite Hlast in Hi. injection Hi as <- <- <-. rewrite lookup_insert_eq. do 2 f_equal.
        replace (Z.of_nat (length l) + 1) with (Z.of_nat (length l0)) by lia. by rewrite at_last.
      * apply lookup_lt_Some in Hi as Hlt. rewrite at_app by lia.
        assert (a <> c).
        { intros <-. apply Hf, list_elem_of_fmap. eexists (_, _). split; [done|]. by eapply list_elem_of_lookup_2. }
        assert (b <> c).
        { intros <-. apply Hne. eapply (NoDup_lookup l0.*1); [done| |];
            rewrite list_lookup_fmap; [rewrite Hi|rewrite Hlast]; done. }
        rewrite !lookup_insert_ne by done. by apply H5.
    + rewrite lookup_insert_ne, lookup_insert_eq by done. do 2 f_equal.
      rewrite Hlen. replace (Z.of_nat (S (length l)) - 1) with (Z.of_nat (length l)) by lia.
      by rewrite at_nat, Hlast.
Qed.

Lemma addHListLink_spec s l host sn :
  hrepr s l -> exists s' a, addHListLink host sn s = Ok (0, s') /\ hrepr s' (l ++ [(a, (host, sn))]).
Proof.
  destruct l as [|[b [id n]] l _] using rev_ind; intros Hr.
  - by apply addHListLink_nil.
  - by eapply addHListLink_snoc.
Qed.

(** ** The filter *)

Lemma seen_find (l : list cell) host sn :
  seen host sn l.*2 =
    match list_find (is_host host) l with
    | None => (0, l.*2 ++ [(host, sn)])
    | Some (j, (_, (id, n))) => if n =? sn then (2, l.*2) else (1, (<[j := (id, sn)]> l.*2))
    end.
Proof.
  induction l as [|[a [id n]] l IH]; [done|]. cbn [fmap list_fmap seen snd list_find].
  destruct (Z.eqb_spec id host) as [->|Hne].
  - rewrite decide_True by done. by destruct (n =? sn).
  - rewrite decide_False by done. change (list_fmap _ _ snd l) with (l.*2). rewrite IH.
    destruct (list_find (is_host host) l) as [[j [a' [id' n']]]|]; cbn; [|done].
    by destruct (n' =? sn).
Qed.

(** The pointer program computes the filter [seen] on the entries the list
    holds, and leaves a well-formed list. *)
Lemma chk_seen s l host sn :
  hrepr s l ->
  exists s' l', chkAddUpdHListLink host sn s = Ok ((seen host sn l.*2).1, s')
    /\ hrepr s' l' /\ l'.*2 = (seen host sn l.*2).2.
Proof.
  intros Hr. unfold chkAddUpdHListLink, updateHListLink, mbind, M_bind, gets.
  rewrite (hrepr_head _ _ Hr), (hrepr_size _ _ Hr), (update_loop_spec _ _ _ _ _ O Hr) by lia.
  rewrite drop_0, seen_find. destruct (list_find _ l) as [[j [a [id n]]]|] eqn:Hfind.
  - apply list_find_Some in Hfind as (Hj & _ & _). destruct (n =? sn); cbn.
    + by exists s, l.
    + eexists _, _. split; [reflexivity|]. split; [by apply (hrepr_replace _ _ _ _ _ n)|].
      by rewrite list_fmap_insert.
  - cbn. destruct (addHListLink_spec s l host sn Hr) as (s' & a & -> & Hr').
    eexists _, _. split; [reflexivity|]. split; [done|]. by rewrite fmap_app.
Qed.

(** Histories of frames: what the filter answered to each. *)
Fixpoint deliver (frames : list (Z * Z)) : M hlist (list Z) :=
  match frames with
  | [] => mret []
  | (host, sn) :: frames' =>
      r ← chkAddUpdHListLink host sn;
      rs ← deliver frames';
      mret (r :: rs)
  end.

(** The number last received from [host], in a history given newest first. *)
Fixpoint last_from (host : Z) (past : list (Z * Z)) : option Z :=
  match past with
  | [] => None
  | (h, sn) :: past' => if h =? host then Some sn else last_from host past'
  end.

Lemma seen_assoc host sn l h :
  (seen host sn l).1 = match last_from host l with None => 0 | Some n => if n =? sn then 2 else 1 end
  /\ last_from h (seen host sn l).2 = if h =? host then Some sn else last_from h l.
Proof.
  induction l as [|[id n] l [IH1 IH2]]; cbn [seen last_from].
  - split; [done|]. cbn. rewrite Z.eqb_sym. by destruct (h =? host).
  - destruct (Z.eqb_spec id host) as [->|Hne].
    + rewrite (Z.eqb_sym host h). destruct (Z.eqb_spec n sn) as [->|]; cbn;
        rewrite (Z.eqb_sym host h); by destruct (h =? host).
    + destruct (seen host sn l) as [r l'] eqn:Hs. cbn in *. split; [done|].
      destruct (Z.eqb_spec id h) as [->|]; [|done]. by rewrite (proj2 (Z.eqb_neq _ _)) by done.
Qed.

Lemma deliver_from s l past frames :
  hrepr s l -> (forall h, last_from h l.*2 = last_from h past) ->
  exists s' l' rs, deliver frames s = Ok (rs, s') /\ hrepr s' l' /\
    (forall h, last_from h l'.*2 = last_from h (rev frames ++ past)) /\
    length rs = length frames /\
    forall i host sn, frames !! i = Some (host, sn) ->
      rs !! i = Some (match last_from host (rev (take i frames) ++ past) with
                      | None => 0
                      | Some n => if n =? sn then 2 else 1
                      end).
Proof.
  revert s l past. induction frames as [|[host sn] frames IH]; intros s l past Hr Hl.
  - exists s, l, []. split_and!; try done.
  - destruct (chk_seen s l host sn Hr) as (s1 & l1 & E1 & Hr1 & Hl1).
    destruct (IH s1 l1 ((host, sn) :: past) Hr1) as (s2 & l2 & rs & E2 & Hr2 & Hl2 & Hlen & Hrs).
    { intros h. rewrite Hl1. rewrite (proj2 (seen_assoc host sn l.*2 h)). cbn.
      rewrite (Z.eqb_sym host h). by destruct (h =? host). }
    exists s2, l2, ((seen host sn l.*2).1 :: rs). split_and!.
    + cbn [deliver]. unfold mbind, M_bind. by rewrite E1, E2.
    + done.
    + intros h. rewrite Hl2. cbn. by rewrite <- app_assoc.
    + cbn. by rewrite Hlen.
    + intros [|i] host' sn' Hi.
      * injection Hi as <- <-. cbn. by rewrite (proj1 (seen_assoc host sn l.*2 0)), Hl.
      * etransitivity; [exact (Hrs i host' sn' Hi)|]. cbn. by rewrite <- app_assoc.
Qed.

Lemma empty_hrepr : hrepr empty_hlist [].
Proof. split; cbn; try done. constructor. Qed.

(** C36: the duplicate filter, from an empty list and for every history of
    received frames, always returns, and its answer to the [i]-th frame is 2
    (duplicate) exactly when the last frame before it from the same source had
    the same sequence number, 1 when that source's last number was another one,
    0 when nothing had been received from the source. *)
Theorem duplicate_filter_spec (frames : list (Z * Z)) :
  exists s' l' rs, deliver frames empty_hlist = Ok (rs, s') /\ hrepr s' l' /\
    length rs = length frames /\
    forall i host sn, frames !! i = Some (host, sn) ->
      rs !! i = Some (match last_from host (rev (take i frames)) with
                      | None => 0
                      | Some n => if n =? sn then 2 else 1
                      end).
Proof.
  destruct (deliver_from empty_hlist [] [] frames empty_hrepr) as (s' & l' & rs & E & Hr & _ & Hlen & Hrs).
  { done. }
  exists s', l', rs. split_and!; try done. intros i host sn Hi. by rewrite (Hrs i host sn Hi), app_nil_r.
Qed.

(** ** Releasing the list *)

Lemma hrepr_tail_free (h : hmem) l1 l2 (l := l1 ++ l2) i :
  NoDup l.*1 -> i = length l1 ->
  (forall k a id sn, l !! k = Some (a, (id, sn)) -> (i <= k)%nat ->
    h !! a = Some (mkHLISTLINK id sn (at_ l (Z.of_nat k - 1)) (at_ l (Z.of_nat k + 1)))) ->
  dom h = list_to_set l2.*1 ->
  forall s fuel, nodes s = h -> (length l2 < fuel)%nat ->
  exists s', empty_loop fuel (fst <$> head l2) s = Ok (tt, s') /\ nodes s' = ∅ /\
    hlistLink1 s' = hlistLink1 s /\ hlistLink2 s' = hlistLink2 s.
Proof.
  subst l. revert h l1 i. induction l2 as [|[a [id sn]] l2 IH]; intros h l1 i Hd Hi Hc Hdom s fuel Hs Hf.
  - destruct fuel; [cbn in Hf; lia|]. exists s. cbn. rewrite Hs. split_and!; try done.
    apply dom_empty_iff_L. by rewrite Hdom.
  - destruct fuel as [|fuel]; [cbn in Hf; lia|].
    assert (Hla : (l1 ++ (a, (id, sn)) :: l2) !! i = Some (a, (id, sn)))
      by (rewrite Hi, lookup_app_r, Nat.sub_diag by lia; done).
    pose proof (Hc i a id sn Hla ltac:(lia)) as Ha.
    cbn [fmap option_fmap option_map head fst empty_loop].
    unfold mbind at 1, M_bind, hderef. rewrite Hs, Ha. cbn [next_].
    unfold mbind at 1, M_bind, hdelete, mbind, M_bind, hderef. rewrite Hs, Ha.
    assert (at_ (l1 ++ (a, (id, sn)) :: l2) (Z.of_nat i + 1) = fst <$> head l2) as ->.
    { rewrite at_succ, Hi, lookup_app_r, Nat.sub_succ_l, Nat.sub_diag by lia. by destruct l2. }
    rewrite fmap_app, fmap_cons in Hd. cbn [fst] in Hd.
    edestruct (IH (delete a h) (l1 ++ [(a, (id, sn))]) (S i))
      with (s := s<| nodes ::= fun h => delete a h |>) (fuel := fuel) as (s' & E & Hn & H1 & H2);
      [| |intros k b id' sn' Hk Hik| | | |exists s'; split_and!; done].
    + rewrite <- app_assoc, fmap_app. done.
    + rewrite length_app. cbn. lia.
    + rewrite <- app_assoc in Hk. cbn in Hk. rewrite <- app_assoc. cbn [app].
      rewrite lookup_delete_ne; [apply Hc; [done|lia]|].
      intros <-. assert (i = k); [|lia].
      eapply (NoDup_lookup (l1.*1 ++ a :: l2.*1)); [done| |];
        change (a :: l2.*1) with (((a, (id, sn)) :: l2).*1); rewrite <- fmap_app, list_lookup_fmap;
        [rewrite Hla|rewrite Hk]; done.
    + rewrite dom_delete_L, Hdom. cbn. apply NoDup_app in Hd as (_ & _ & Hd). apply NoDup_cons in Hd as [Hd _].
      set_solver.
    + cbn. by rewrite Hs.
    + cbn in Hf. lia.
Qed.

(** Emptying a list frees every node of it and leaves the empty list. *)
Lemma emptyHListLink_frees s l :
  hrepr s l -> emptyHListLink s = Ok (tt, empty_hlist).
Proof.
  intros Hr. pose proof (hrepr_size _ _ Hr) as Hsz. destruct Hr as [H1 H2 H3 H4 H5].
  unfold emptyHListLink, mbind, M_bind, gets. rewrite H1.
  destruct l as [|[a [id sn]] l]; cbn [fmap option_fmap option_map head fst].
  - destruct s as [x y z]. cbn in *. apply dom_empty_iff_L in H4. by subst.
  - destruct (hrepr_tail_free (nodes s) [] ((a, (id, sn)) :: l) O H3 eq_refl) with (s := s) (fuel := S (size (nodes s)))
      as (s' & E & Hn & E1 & E2); try done; [intros; by apply H5|rewrite Hsz; lia|].
    cbn [fmap option_fmap option_map head fst] in E. rewrite E. cbn.
    destruct s' as [x y z]. cbn in *. by subst z.
Qed.
