(* ===== verification/MacConst.v ===== *)
(** * The 802.15.4 contract headers

    underTest2/.../ieee802154/contract/Ieee802154{Const,Enum,Field}.h and the
    frame classes of mac/Ieee802154Frame.msg: constants, enumerations and the
    structures that frames and the MAC share. *)

From S2P Require Import Prelude.

Open Scope string_scope.
Open Scope list_scope.
Open Scope Z_scope.

(** ** Constants (Ieee802154Const.h) *)

Definition aMaxPHYPacketSize : Z := 127.
Definition aTurnaroundTime : Z := 12.
(** Rates of the bands in units of 100 b/s or 100 symbols/s, so that 62.5 is
    an integer. *)
Definition BR_868M : Z := 200.
Definition BR_915M : Z := 400.
Definition BR_2_4G : Z := 2500.
Definition SR_868M : Z := 200.
Definition SR_915M : Z := 400.
Definition SR_2_4G : Z := 625.
Definition def_phyHeaderLength : Z := 6.
Definition def_phyCurrentChannel : Z := 11.

Definition SIZE_OF_802154_ASSOCIATION_RESPONSE : Z := 29.
Definition SIZE_OF_802154_DISASSOCIATION_NOTIFICATION : Z := 21.
Definition SIZE_OF_802154_PANID_CONFLICT_NOTIFICATION : Z := 26.
Definition SIZE_OF_802154_ORPHAN_NOTIFICATION : Z := 20.
Definition SIZE_OF_802154_BEACON_REQUEST : Z := 10.
Definition SIZE_OF_802154_GTS_REQUEST : Z := 11.
Definition SIZE_OF_802154_ACK : Z := 5.

Definition aNumSuperframeSlots : Z := 16.
Definition aBaseSlotDuration : Z := 60.
Definition aBaseSuperframeDuration : Z := u16 (aBaseSlotDuration * aNumSuperframeSlots).
Definition aMaxBE : Z := 5.
Definition aMaxBeaconOverhead : Z := 75.
Definition aMaxBeaconPayloadLength : Z := u8 (aMaxPHYPacketSize - aMaxBeaconOverhead).
Definition aMaxFrameOverhead : Z := 25.
Definition aMaxFrameRetries : Z := 3.
Definition aMaxLostBeacons : Z := 4.
Definition aMaxMACFrameSize : Z := u8 (aMaxPHYPacketSize - aMaxFrameOverhead).
Definition aMaxSIFSFrameSize : Z := 18.
Definition aMinCAPLength : Z := 440.
Definition aMinLIFSPeriod : Z := 40.
Definition aMinSIFSPeriod : Z := 12.
Definition aUnitBackoffPeriod : Z := 20.

(** Defaults of the MAC PIB (Tables 71, 72). *)
Definition def_macAckWaitDuration : Z := 54.
Definition def_macAssociationPermit : bool := false.
Definition def_macAutoRequest : bool := true.
Definition def_macBattLifeExt : bool := false.
Definition def_macBattLifeExtPeriods : Z := 6.
Definition def_macBeaconPayload : string := "".
Definition def_macBeaconPayloadLength : Z := 0.
Definition def_macBeaconOrder : Z := 15.
Definition def_macBeaconTxTime : Z := 0.
Definition def_macCoordExtendedAddress : Z := 0xffff.
Definition def_macCoordShortAddress : Z := 0xffff.
Definition def_macGTSPermit : bool := true.
Definition def_macMaxCSMABackoffs : Z := 4.
Definition def_macMinBE : Z := 3.
Definition def_macPANId : Z := 0xffff.
Definition def_macPromiscuousMode : bool := false.
Definition def_macRxOnWhenIdle : bool := true.
Definition def_macShortAddress : Z := 0xffff.
Definition def_macSuperframeOrder : Z := 15.
Definition def_macTransactionPersistenceTime : Z := 0x01f4.

(** ** Enumerations (Ieee802154Enum.h) *)

(** The primitives the PHY sends up, and those the MAC sends down. *)
Inductive Ieee802154MacPhyPrimitiveType :=
  | PD_DATA_CONFIRM | PLME_CCA_REQUEST | PLME_CCA_CONFIRM | PLME_ED_REQUEST | PLME_ED_CONFIRM
  | PLME_SET_TRX_STATE_REQUEST | PLME_SET_TRX_STATE_CONFIRM | PLME_SET_REQUEST | PLME_SET_CONFIRM.

Inductive PHYenum :=
  | phy_BUSY | phy_BUSY_RX | phy_BUSY_TX | phy_FORCE_TRX_OFF | phy_IDLE | phy_INVALID_PARAMETER
  | phy_RX_ON | phy_SUCCESS | phy_TRX_OFF | phy_TX_ON | phy_UNSUPPORT_ATTRIBUTE.

Inductive PHYPIBenum :=
  | PHY_CURRENT_CHANNEL | PHY_CHANNELS_SUPPORTED | PHY_TRANSMIT_POWER | PHY_CCA_MODE.

(** Values of the message kind set by the PHY. *)
Definition COLLISION : Z := 1.
Definition BITERROR : Z := 2.
Definition BITERROR_FORCE_TRX_OFF : Z := 3.
Definition RX_DURING_CCA : Z := 4.

Inductive MACenum :=
  | mac_SUCCESS | mac_PAN_at_capacity | mac_PAN_access_denied
  | mac_BEACON_LOSS | mac_CHANNEL_ACCESS_FAILURE | mac_DENIED | mac_DISABLE_TRX_FAILURE
  | mac_FAILED_SECURITY_CHECK | mac_FRAME_TOO_LONG | mac_INVALID_GTS | mac_INVALID_HANDLE
  | mac_INVALID_PARAMETER | mac_NO_ACK | mac_NO_BEACON | mac_NO_DATA | mac_NO_SHORT_ADDRESS
  | mac_OUT_OF_CAP | mac_PAN_ID_CONFLICT | mac_REALIGNMENT | mac_TRANSACTION_EXPIRED
  | mac_TRANSACTION_OVERFLOW | mac_TX_ACTIVE | mac_UNAVAILABLE_KEY | mac_UNSUPPORTED_ATTRIBUTE
  | mac_UNDEFINED.

(** The frame types; [Ieee802154_OTHER] is any other value of the field. *)
Inductive Ieee802154FrameType :=
  | Ieee802154_BEACON | Ieee802154_DATA | Ieee802154_ACK | Ieee802154_CMD | Ieee802154_OTHER.

(** The command types; [Ieee802154_OTHER_CMD] is any other value of the field. *)
Inductive Ieee802154MacCmdType :=
  | Ieee802154_ASSOCIATION_REQUEST | Ieee802154_ASSOCIATION_RESPONSE
  | Ieee802154_DISASSOCIATION_NOTIFICATION | Ieee802154_DATA_REQUEST
  | Ieee802154_PANID_CONFLICT_NOTIFICATION | Ieee802154_ORPHAN_NOTIFICATION
  | Ieee802154_BEACON_REQUEST | Ieee802154_COORDINATOR_REALIGNMENT | Ieee802154_GTS_REQUEST
  | Ieee802154_OTHER_CMD.

Inductive Ieee802154TxOption := DIRECT_TRANS | INDIRECT_TRANS | GTS_TRANS | OTHER_TRANS.

(** [(Ieee802154TxOption)dataTransMode] *)
Definition TxOption_of_int (n : Z) : Ieee802154TxOption :=
  if n =? 1 then DIRECT_TRANS else if n =? 2 then INDIRECT_TRANS
  else if n =? 3 then GTS_TRANS else OTHER_TRANS.

Inductive Ieee802154MacTimerType :=
  | START_PAN_COOR_TIMER | MAC_BACKOFF_TIMER | MAC_DEFER_CCA_TIMER | MAC_BCN_RX_TIMER
  | MAC_BCN_TX_TIMER | MAC_ACK_TIMEOUT_TIMER | MAC_TX_ACK_BOUND_TIMER
  | MAC_TX_CMD_DATA_BOUND_TIMER | MAC_IFS_TIMER | MAC_TX_SD_TIMER | MAC_RX_SD_TIMER
  | MAC_FINAL_CAP_TIMER | MAC_GTS_TIMER.

Inductive Ieee802154MacTaskType :=
  | TP_MCPS_DATA_REQUEST | TP_MLME_ASSOCIATE_REQUEST | TP_MLME_ASSOCIATE_RESPONSE
  | TP_MLME_DISASSOCIATE_REQUEST | TP_MLME_ORPHAN_RESPONSE | TP_MLME_RESET_REQUEST
  | TP_MLME_RX_ENABLE_REQUEST | TP_MLME_SCAN_REQUEST | TP_MLME_START_REQUEST
  | TP_MLME_SYNC_REQUEST | TP_MLME_POLL_REQUEST | TP_CCA_CSMACA | TP_RX_ON_CSMACA.

#[export] Instance PHYenum_eq_dec : EqDecision PHYenum.
Proof. solve_decision. Defined.
#[export] Instance FrameType_eq_dec : EqDecision Ieee802154FrameType.
Proof. solve_decision. Defined.
#[export] Instance CmdType_eq_dec : EqDecision Ieee802154MacCmdType.
Proof. solve_decision. Defined.
#[export] Instance TxOption_eq_dec : EqDecision Ieee802154TxOption.
Proof. solve_decision. Defined.
#[export] Instance TimerType_eq_dec : EqDecision Ieee802154MacTimerType.
Proof. solve_decision. Defined.

(** Equality tests of the sources on these types. *)
Notation "x ==! y" := (bool_decide (x = y)) (at level 70, no associativity) : Z_scope.
Notation "x !=! y" := (negb (bool_decide (x = y))) (at level 70, no associativity) : Z_scope.

(** ** Structures (Ieee802154Field.h) *)

Definition defFrmCtrl_AddrModeNone : Z := 0.
Definition defFrmCtrl_AddrMode16 : Z := 2.
Definition defFrmCtrl_AddrMode64 : Z := 3.

#[projections(primitive)]
Record PAN_ELE := mkPAN_ELE {
  CoordAddrMode : Z;
  CoordPANId : Z;
  CoordAddress_16_or_64 : Z;
  LogicalChannel : Z;
}.

#[projections(primitive)]
Record MAC_PIB := mkMAC_PIB {
  macAckWaitDuration : Z;
  macAssociationPermit : bool;
  macAutoRequest : bool;
  macBattLifeExt : bool;
  macBattLifeExtPeriods : Z;
  macBeaconPayload : string;
  macBeaconPayloadLength : Z;
  macBeaconOrder : Z;
  macBeaconTxTime : Z;
  macBSN : Z;
  macCoordExtendedAddress : Z;
  macCoordShortAddress : Z;
  macDSN : Z;
  macGTSPermit : bool;
  macMaxCSMABackoffs : Z;
  macMinBE : Z;
  macPANId : Z;
  macPromiscuousMode : bool;
  macRxOnWhenIdle : bool;
  macShortAddress : Z;
  macSuperframeOrder : Z;
  macTransactionPersistenceTime : Z;
}.
#[export] Instance eta_MAC_PIB : Eta MAC_PIB := fun p => mkMAC_PIB
  (macAckWaitDuration p) (macAssociationPermit p) (macAutoRequest p) (macBattLifeExt p)
  (macBattLifeExtPeriods p) (macBeaconPayload p) (macBeaconPayloadLength p) (macBeaconOrder p)
  (macBeaconTxTime p) (macBSN p) (macCoordExtendedAddress p) (macCoordShortAddress p) (macDSN p)
  (macGTSPermit p) (macMaxCSMABackoffs p) (macMinBE p) (macPANId p) (macPromiscuousMode p)
  (macRxOnWhenIdle p) (macShortAddress p) (macSuperframeOrder p) (macTransactionPersistenceTime p).

#[projections(primitive)]
Record FrameCtrl := mkFrameCtrl {
  frmType : Ieee802154FrameType;
  secu : bool;
  frmPending : bool;
  ackReq : bool;
  intraPan : bool;
  dstAddrMode : Z;
  srcAddrMode : Z;
}.

#[projections(primitive)]
Record SuperframeSpec := mkSuperframeSpec {
  BO : Z;
  BI : Z;
  SO : Z;
  SD : Z;
  finalCap : Z;
  battLifeExt : bool;
  panCoor : bool;
  assoPmt : bool;
}.

#[projections(primitive)]
Record DevCapability := mkDevCapability {
  alterPANCoor : bool;
  FFD : bool;
  recvOnWhenIdle : bool;
  secuCapable : bool;
  alloShortAddr : bool;
  hostName : string;
}.

#[projections(primitive)]
Record GTSDescriptor := mkGTSDescriptor {
  devShortAddr : Z;
  startSlot : Z;
  length_ : Z;
  isRecvGTS_ : bool;
  isTxPending : bool;
}.
#[export] Instance eta_GTSDescriptor : Eta GTSDescriptor := fun d => mkGTSDescriptor
  (devShortAddr d) (startSlot d) (length_ d) (isRecvGTS_ d) (isTxPending d).

(** ** Frames (Ieee802154Frame.msg) *)

(** A packet of the upper layer, which the MAC carries without looking into it. *)
Record cPacket := mkPacket {
  pktId : Z;
  pktByteLength : Z;
}.

(** The subclasses of [Ieee802154Frame] that the MAC distinguishes by casts. *)
Inductive FrameClass :=
  | BeaconFrame (sfSpec : SuperframeSpec)
  | DataFrame
  | AckFrame
  | CmdFrame (cmdType : Ieee802154MacCmdType)
  | PlainFrame.

(** [byteLength] is the length of the frame itself, without the packet it
    encapsulates; [getByteLength] adds that one. *)
#[projections(primitive)]
Record Frame := mkFrame {
  cls : FrameClass;
  frmCtrl : FrameCtrl;
  bdsn : Z;
  dstPanId : Z;
  dstAddr : Z;
  srcPanId : Z;
  srcAddr : Z;
  isIndirect : bool;
  isGTS : bool;
  kind : Z;
  ownByteLength : Z;
  encapsulated : option cPacket;
}.
#[export] Instance eta_Frame : Eta Frame := fun f => mkFrame
  (cls f) (frmCtrl f) (bdsn f) (dstPanId f) (dstAddr f) (srcPanId f) (srcAddr f)
  (isIndirect f) (isGTS f) (kind f) (ownByteLength f) (encapsulated f).

Definition getByteLength (f : Frame) : Z :=
  ownByteLength f + match encapsulated f with Some p => pktByteLength p | None => 0 end.
Definition getBitLength (f : Frame) : Z := 8 * getByteLength f.
