(* ===== verification/MacTypes.v ===== *)
(** * The state of the MAC: srwsn/linklayer/mac/srwsn802154MAC.h

    The members of [srwsn802154Mac], grouped as the header groups them, the
    pending task, the simulation kernel's services the MAC uses (timers, clock,
    random numbers, gates, memory), and the store of MAC modules of the other
    hosts, which the MAC reaches by host name.

    Time is an integer number of picoseconds, the resolution of [simtime_t].
    The durations the MAC computes are whole numbers of symbols or bits at the
    rates of [getRate], which are whole numbers of picoseconds. *)

From S2P Require Import Prelude HList MacConst.

Open Scope string_scope.
Open Scope list_scope.
Open Scope Z_scope.

(** ** Time *)

Definition second : Z := 10 ^ 12.
(** [n / rate], for a rate in 1/s. *)
Definition secs (n rate : Z) : Z := n * second / rate.

Lemma secs_pos n r : 0 <= n -> 0 < r -> 0 <= secs n r.
Proof. intros Hn Hr. unfold secs, second. apply Z.div_pos; lia. Qed.

(** ** The pending task *)

#[projections(primitive)]
Record taskPending := mkTaskPending {
  mcps_data_request : bool;
  mcps_data_request_STEP : Z;
  mcps_data_request_frFunc : string;
  mcps_data_request_TxOption : Ieee802154TxOption;
  CCA_csmaca : bool;
  CCA_csmaca_STEP : Z;
  RX_ON_csmaca : bool;
  RX_ON_csmaca_STEP : Z;
}.
#[export] Instance eta_taskPending : Eta taskPending := fun t => mkTaskPending
  (mcps_data_request t) (mcps_data_request_STEP t) (mcps_data_request_frFunc t)
  (mcps_data_request_TxOption t) (CCA_csmaca t) (CCA_csmaca_STEP t) (RX_ON_csmaca t)
  (RX_ON_csmaca_STEP t).

Definition taskPending_init (t : taskPending) : taskPending :=
  t<| mcps_data_request := false |><| mcps_data_request_STEP := 0 |>
   <| CCA_csmaca := false |><| CCA_csmaca_STEP := 0 |>
   <| RX_ON_csmaca := false |><| RX_ON_csmaca_STEP := 0 |>.

(** [taskStatus(task)], read. *)
Definition taskStatus (task : Ieee802154MacTaskType) (t : taskPending) : outcome bool :=
  match task with
  | TP_MCPS_DATA_REQUEST => Ok (mcps_data_request t)
  | TP_CCA_CSMACA => Ok (CCA_csmaca t)
  | TP_RX_ON_CSMACA => Ok (RX_ON_csmaca t)
  | _ => Fault (AssertFailed "0")
  end.

(** [taskStatus(task) = b]. *)
Definition set_taskStatus (task : Ieee802154MacTaskType) (b : bool) (t : taskPending) : outcome taskPending :=
  match task with
  | TP_MCPS_DATA_REQUEST => Ok (t<| mcps_data_request := b |>)
  | TP_CCA_CSMACA => Ok (t<| CCA_csmaca := b |>)
  | TP_RX_ON_CSMACA => Ok (t<| RX_ON_csmaca := b |>)
  | _ => Fault (AssertFailed "0")
  end.

Definition taskStep (task : Ieee802154MacTaskType) (t : taskPending) : outcome Z :=
  match task with
  | TP_MCPS_DATA_REQUEST => Ok (mcps_data_request_STEP t)
  | TP_CCA_CSMACA => Ok (CCA_csmaca_STEP t)
  | TP_RX_ON_CSMACA => Ok (RX_ON_csmaca_STEP t)
  | _ => Fault (AssertFailed "0")
  end.

Definition set_taskStep (task : Ieee802154MacTaskType) (n : Z) (t : taskPending) : outcome taskPending :=
  match task with
  | TP_MCPS_DATA_REQUEST => Ok (t<| mcps_data_request_STEP := u8 n |>)
  | TP_CCA_CSMACA => Ok (t<| CCA_csmaca_STEP := u8 n |>)
  | TP_RX_ON_CSMACA => Ok (t<| RX_ON_csmaca_STEP := u8 n |>)
  | _ => Fault (AssertFailed "0")
  end.

Definition taskFrFunc (task : Ieee802154MacTaskType) (t : taskPending) : outcome string :=
  match task with
  | TP_MCPS_DATA_REQUEST => Ok (mcps_data_request_frFunc t)
  | _ => Fault (AssertFailed "0")
  end.

(** [strcpy(taskFrFunc(task), f)]; the array holds 80 characters. *)
Definition set_taskFrFunc (task : Ieee802154MacTaskType) (f : string) (t : taskPending) : outcome taskPending :=
  match task with
  | TP_MCPS_DATA_REQUEST => Ok (t<| mcps_data_request_frFunc := f |>)
  | _ => Fault (AssertFailed "0")
  end.

(** ** Groups of members *)

(** User-adjustable parameters. *)
#[projections(primitive)]
Record Params := mkParams {
  ack4Data : bool;
  ack4Gts : bool;
  secuData : bool;
  secuBeacon : bool;
  isPANCoor : bool;
  dataTransMode : Z;
  panStartTime : Z;
  panCoorName : string;
  isRecvGTS : bool;
  gtsPayload : Z;
}.
#[export] Instance eta_Params : Eta Params := fun p => mkParams
  (ack4Data p) (ack4Gts p) (secuData p) (secuBeacon p) (isPANCoor p) (dataTransMode p)
  (panStartTime p) (panCoorName p) (isRecvGTS p) (gtsPayload p).

(** What the PHY announced, and the radio state last requested. *)
#[projections(primitive)]
Record Phy := mkPhy {
  phyCurrentChannel : Z;
  tmp_phyCurrentChannel : Z;
  phy_bitrate : Z;
  phy_symbolrate : Z;
  trx_state_req : PHYenum;
}.
#[export] Instance eta_Phy : Eta Phy := fun p => mkPhy
  (phyCurrentChannel p) (tmp_phyCurrentChannel p) (phy_bitrate p) (phy_symbolrate p) (trx_state_req p).

(** Beacon related variables. *)
#[projections(primitive)]
Record Bcn := mkBcn {
  rxBO : Z;
  rxSO : Z;
  txSfSlotDuration : Z;
  rxSfSlotDuration : Z;
  txBcnDuration : Z;
  rxBcnDuration : Z;
  bPeriod : Z;
  bcnRxTime : Z;
  schedBcnRxTime : Z;
  txSfSpec : SuperframeSpec;
  rxSfSpec : SuperframeSpec;
  rxPanDescriptor : PAN_ELE;
  beaconEnabled : bool;
  beaconWaitingTx : bool;
  notAssociated : bool;
  bcnLossCounter : Z;
}.
#[export] Instance eta_Bcn : Eta Bcn := fun b => mkBcn
  (rxBO b) (rxSO b) (txSfSlotDuration b) (rxSfSlotDuration b) (txBcnDuration b) (rxBcnDuration b)
  (bPeriod b) (bcnRxTime b) (schedBcnRxTime b) (txSfSpec b) (rxSfSpec b) (rxPanDescriptor b)
  (beaconEnabled b) (beaconWaitingTx b) (notAssociated b) (bcnLossCounter b).

(** CSMA/CA related variables. *)
#[projections(primitive)]
Record Csma := mkCsma {
  NB : Z;
  CW : Z;
  BE : Z;
  backoffStatus : Z;
  bPeriodsLeft : Z;
  csmacaAckReq : bool;
  csmacaWaitNextBeacon : bool;
}.
#[export] Instance eta_Csma : Eta Csma := fun c => mkCsma
  (NB c) (CW c) (BE c) (backoffStatus c) (bPeriodsLeft c) (csmacaAckReq c) (csmacaWaitNextBeacon c).

(** GTS related variables, of the coordinator and of the devices. *)
#[projections(primitive)]
Record Gts := mkGts {
  gtsCount : Z;
  gtsList : list GTSDescriptor;
  tmp_finalCap : Z;
  indexCurrGts : Z;
  gtsLength : Z;
  gtsStartSlot : Z;
  gtsTransDuration : Z;
}.
#[export] Instance eta_Gts : Eta Gts := fun g => mkGts
  (gtsCount g) (gtsList g) (tmp_finalCap g) (indexCurrGts g) (gtsLength g) (gtsStartSlot g)
  (gtsTransDuration g).

Abbreviation ptr := (option positive).

(** Frame buffers. *)
#[projections(primitive)]
Record Bufs := mkBufs {
  txPkt : ptr;
  txBeacon : ptr;
  txBcnCmdUpper : ptr;
  txBcnCmd : ptr;
  txData : ptr;
  txGTS : ptr;
  txAck : ptr;
  txCsmaca : ptr;
  tmpCsmaca : ptr;
  rxBeacon : ptr;
  rxData : ptr;
  rxCmd : ptr;
}.
#[export] Instance eta_Bufs : Eta Bufs := fun b => mkBufs
  (txPkt b) (txBeacon b) (txBcnCmdUpper b) (txBcnCmd b) (txData b) (txGTS b) (txAck b)
  (txCsmaca b) (tmpCsmaca b) (rxBeacon b) (rxData b) (rxCmd b).

(** Timer messages (when each is scheduled) and the variables for timers. *)
#[projections(primitive)]
Record Timers := mkTimers {
  scheduled : Ieee802154MacTimerType -> option Z;
  lastTime_bcnRxTimer : Z;
  txNow_bcnTxTimer : bool;
  inTxSD_txSDTimer : bool;
  inRxSD_rxSDTimer : bool;
  index_gtsTimer : Z;
}.
#[export] Instance eta_Timers : Eta Timers := fun t => mkTimers
  (scheduled t) (lastTime_bcnRxTimer t) (txNow_bcnTxTimer t) (inTxSD_txSDTimer t)
  (inRxSD_rxSDTimer t) (index_gtsTimer t).

(** Data transmission related variables. *)
#[projections(primitive)]
Record Txv := mkTxv {
  inTransmission : bool;
  waitBcnCmdAck : bool;
  waitBcnCmdUpperAck : bool;
  waitDataAck : bool;
  waitGTSAck : bool;
  numBcnCmdRetry : Z;
  numBcnCmdUpperRetry : Z;
  numDataRetry : Z;
  numGTSRetry : Z;
}.
#[export] Instance eta_Txv : Eta Txv := fun t => mkTxv
  (inTransmission t) (waitBcnCmdAck t) (waitBcnCmdUpperAck t) (waitDataAck t) (waitGTSAck t)
  (numBcnCmdRetry t) (numBcnCmdUpperRetry t) (numDataRetry t) (numGTSRetry t).

(** Statistical variables. *)
#[projections(primitive)]
Record Stats := mkStats {
  numUpperPkt : Z;
  numUpperPktLost : Z;
  numCollision : Z;
  numLostBcn : Z;
  numTxBcnPkt : Z;
  numTxDataSucc : Z;
  numTxDataFail : Z;
  numTxGTSSucc : Z;
  numTxGTSFail : Z;
  numTxAckPkt : Z;
  numRxBcnPkt : Z;
  numRxDataPkt : Z;
  numRxGTSPkt : Z;
  numRxAckPkt : Z;
  numTxAckInactive : Z;
}.
#[export] Instance eta_Stats : Eta Stats := fun s => mkStats
  (numUpperPkt s) (numUpperPktLost s) (numCollision s) (numLostBcn s) (numTxBcnPkt s)
  (numTxDataSucc s) (numTxDataFail s) (numTxGTSSucc s) (numTxGTSFail s) (numTxAckPkt s)
  (numRxBcnPkt s) (numRxDataPkt s) (numRxGTSPkt s) (numRxAckPkt s) (numTxAckInactive s).

(** What the module sends: primitives and frames to the PHY, packets to the
    upper layer, requests to the queue; and what it records. *)
Inductive mevent :=
  | ToPhy_SET_TRX_STATE (state : PHYenum)
  | ToPhy_SET (channel : Z)
  | ToPhy_CCA
  | ToPhy_frame (f : Frame)
  | ToUpper (p : cPacket)
  | QueueRequest
  | Scalar (name : string) (v : Z).

(** [queueModule]: the member is not initialised when no queue is configured. *)
Inductive queue_ptr := QNull | QModule | QWild.

(** ** The module *)

#[projections(primitive)]
Record Mac := mkMac {
  par : Params;
  queueModule : queue_ptr;
  taskP : taskPending;
  phy : Phy;
  aExtendedAddress : Z;
  mpib : MAC_PIB;
  capability : DevCapability;
  bcn : Bcn;
  csma : Csma;
  gts : Gts;
  buf : Bufs;
  tim : Timers;
  tx : Txv;
  hlistB : hlist;
  hlistD : hlist;
  deviceList : gmap Z DevCapability;
  stats : Stats;
  (** the simulation kernel: allocated frames, clock, random numbers drawn, output *)
  frames : gmap positive Frame;
  now : Z;
  draws : nat;
  out : list mevent;
}.
#[export] Instance eta_Mac : Eta Mac := fun m => mkMac
  (par m) (queueModule m) (taskP m) (phy m) (aExtendedAddress m) (mpib m) (capability m) (bcn m)
  (csma m) (gts m) (buf m) (tim m) (tx m) (hlistB m) (hlistD m) (deviceList m) (stats m)
  (frames m) (now m) (draws m) (out m).

(** What the run takes from outside of the sources: the random numbers, the
    values found in variables that are read before they are written, whether
    log messages are evaluated, and where the allocator puts a new frame. *)
Class MacEnv := {
  mac_rand : nat -> Z;
  uninit_int : Z;
  uninit_bool : bool;
  ev_on : bool;
  mac_alloc : gset positive -> positive;
  mac_alloc_fresh : forall X, mac_alloc X ∉ X;
}.

(** ** Access *)

Definition self : M Mac Mac := gets (fun s => s).
Definition upd_par (f : Params -> Params) : M Mac unit := modify (fun s => s<| par ::= f |>).
Definition upd_phy (f : Phy -> Phy) : M Mac unit := modify (fun s => s<| phy ::= f |>).
Definition upd_mpib (f : MAC_PIB -> MAC_PIB) : M Mac unit := modify (fun s => s<| mpib ::= f |>).
Definition upd_bcn (f : Bcn -> Bcn) : M Mac unit := modify (fun s => s<| bcn ::= f |>).
Definition upd_csma (f : Csma -> Csma) : M Mac unit := modify (fun s => s<| csma ::= f |>).
Definition upd_gts (f : Gts -> Gts) : M Mac unit := modify (fun s => s<| gts ::= f |>).
Definition upd_buf (f : Bufs -> Bufs) : M Mac unit := modify (fun s => s<| buf ::= f |>).
Definition upd_tim (f : Timers -> Timers) : M Mac unit := modify (fun s => s<| tim ::= f |>).
Definition upd_tx (f : Txv -> Txv) : M Mac unit := modify (fun s => s<| tx ::= f |>).
Definition upd_stats (f : Stats -> Stats) : M Mac unit := modify (fun s => s<| stats ::= f |>).
Definition emit (e : mevent) : M Mac unit := modify (fun s => s<| out ::= fun o => o ++ [e] |>).

Definition get_taskStatus (task : Ieee802154MacTaskType) : M Mac bool :=
  s ← self; lift (taskStatus task (taskP s)).
Definition get_taskStep (task : Ieee802154MacTaskType) : M Mac Z :=
  s ← self; lift (taskStep task (taskP s)).
Definition get_taskFrFunc (task : Ieee802154MacTaskType) : M Mac string :=
  s ← self; lift (taskFrFunc task (taskP s)).
Definition upd_task (f : taskPending -> outcome taskPending) : M Mac unit :=
  s ← self; t ← lift (f (taskP s)); modify (fun s => s<| taskP := t |>).
Definition put_taskStatus (task : Ieee802154MacTaskType) (b : bool) : M Mac unit :=
  upd_task (set_taskStatus task b).
Definition put_taskStep (task : Ieee802154MacTaskType) (n : Z) : M Mac unit :=
  upd_task (set_taskStep task n).
Definition put_taskFrFunc (task : Ieee802154MacTaskType) (f : string) : M Mac unit :=
  upd_task (set_taskFrFunc task f).

(** ** Timers *)

Definition isScheduled (t : Ieee802154MacTimerType) (s : Mac) : bool :=
  match scheduled (tim s) t with Some _ => true | None => false end.

Definition set_timer (t : Ieee802154MacTimerType) (v : option Z)
    (f : Ieee802154MacTimerType -> option Z) : Ieee802154MacTimerType -> option Z :=
  fun t' => if t' ==! t then v else f t'.

Definition cancelEvent (t : Ieee802154MacTimerType) : M Mac unit :=
  upd_tim (fun m => m<| scheduled ::= set_timer t None |>).

(** The kernel refuses to schedule into the past, or a message already scheduled. *)
Definition scheduleAt (time : Z) (t : Ieee802154MacTimerType) : M Mac unit :=
  s ← self;
  if time <? now s then fail (Thrown "cannot schedule message to the past")
  else if isScheduled t s then fail (Thrown "message is currently scheduled")
  else upd_tim (fun m => m<| scheduled ::= set_timer t (Some time) |>).

(** The pattern of every timer starter. *)
Definition restartAt (time : Z) (t : Ieee802154MacTimerType) : M Mac unit :=
  s ← self;
  when (isScheduled t s) (cancelEvent t);;
  scheduleAt time t.

(** ** Frames in memory *)

Definition is_set (p : ptr) : bool := match p with Some _ => true | None => false end.

(** [*p] *)
Definition deref (p : ptr) : M Mac Frame :=
  match p with
  | None => fail (Undefined "null pointer")
  | Some a =>
      s ← self;
      match frames s !! a with
      | Some f => mret f
      | None => fail (Undefined "dangling pointer")
      end
  end.

(** [check_and_cast<Ieee802154Frame *>(p)] *)
Definition cast_deref (p : ptr) : M Mac Frame :=
  match p with
  | None => fail (Thrown "check_and_cast: cannot cast NULL")
  | Some _ => deref p
  end.

(** [delete p] *)
Definition delete_frame (p : ptr) : M Mac unit :=
  match p with
  | None => mret tt
  | Some a =>
      _ ← deref p;
      modify (fun s => s<| frames ::= fun h => delete a h |>)
  end.

Section alloc.
Context `{MacEnv}.

Definition new_frame (f : Frame) : M Mac ptr :=
  s ← self;
  let a := mac_alloc (dom (frames s)) in
  modify (fun s => s<| frames ::= fun h => <[a := f]> h |>);;
  mret (Some a).

(** [intrand(n)] *)
Definition intrand (n : Z) : M Mac Z :=
  s ← self;
  modify (fun s => s<| draws ::= S |>);;
  mret (mac_rand (draws s) mod n).

(** A pointer followed in the arguments of a log message. *)
Definition ev_deref (p : ptr) : M Mac unit :=
  if ev_on then _ ← deref p; mret tt else mret tt.
End alloc.

(** ** The hosts

    [self_name] is the full name of the host of the module at work; [others]
    has the other hosts, with their MAC module if they have one of this class. *)
#[projections(primitive)]
Record World := mkWorld {
  self_name : string;
  me : Mac;
  others : gmap string (option Mac);
}.
#[export] Instance eta_World : Eta World := fun w => mkWorld (self_name w) (me w) (others w).

(** Work of the module itself. *)
Definition own {A} (m : M Mac A) : M World A := zoom (fun w => me w) (fun s w => w<| me := s |>) m.

(** [check_and_cast<srwsn802154Mac *>(module)->m], for the module of the host
    found under [name]. *)
Definition remote {A} (name : string) (m : M Mac A) : M World A := fun w =>
  if String.eqb name (self_name w) then own m w
  else match others w !! name with
       | None => Fault (Undefined "no such host")
       | Some None => Fault (Thrown "check_and_cast: cannot cast NULL")
       | Some (Some s) =>
           match m s with
           | Ok (a, s') => Ok (a, w<| others ::= fun o => <[name := Some s']> o |>)
           | Fault f => Fault f
           end
       end.

(** Simplification of reads of updated records. *)
Ltac msimp :=
  cbn [set_ fst snd
       frmType secu frmPending ackReq intraPan dstAddrMode srcAddrMode
       BO BI SO SD finalCap battLifeExt panCoor assoPmt
       alterPANCoor FFD recvOnWhenIdle secuCapable alloShortAddr hostName
       devShortAddr startSlot length_ isRecvGTS_ isTxPending
       cls frmCtrl bdsn dstPanId dstAddr srcPanId srcAddr isIndirect isGTS kind ownByteLength encapsulated
       macAckWaitDuration macAssociationPermit macAutoRequest macBattLifeExt macBattLifeExtPeriods
       macBeaconPayload macBeaconPayloadLength macBeaconOrder macBeaconTxTime macBSN
       macCoordExtendedAddress macCoordShortAddress macDSN macGTSPermit macMaxCSMABackoffs macMinBE
       macPANId macPromiscuousMode macRxOnWhenIdle macShortAddress macSuperframeOrder
       macTransactionPersistenceTime
       mcps_data_request mcps_data_request_STEP mcps_data_request_frFunc mcps_data_request_TxOption
       CCA_csmaca CCA_csmaca_STEP RX_ON_csmaca RX_ON_csmaca_STEP
       ack4Data ack4Gts secuData secuBeacon isPANCoor dataTransMode panStartTime panCoorName
       isRecvGTS gtsPayload
       phyCurrentChannel tmp_phyCurrentChannel phy_bitrate phy_symbolrate trx_state_req
       rxBO rxSO txSfSlotDuration rxSfSlotDuration txBcnDuration rxBcnDuration bPeriod bcnRxTime
       schedBcnRxTime txSfSpec rxSfSpec rxPanDescriptor beaconEnabled beaconWaitingTx notAssociated
       bcnLossCounter NB CW BE backoffStatus bPeriodsLeft csmacaAckReq csmacaWaitNextBeacon
       gtsCount gtsList tmp_finalCap indexCurrGts gtsLength gtsStartSlot gtsTransDuration
       txPkt txBeacon txBcnCmdUpper txBcnCmd txData txGTS txAck txCsmaca tmpCsmaca rxBeacon rxData rxCmd
       scheduled lastTime_bcnRxTimer txNow_bcnTxTimer inTxSD_txSDTimer inRxSD_rxSDTimer index_gtsTimer
       inTransmission waitBcnCmdAck waitBcnCmdUpperAck waitDataAck waitGTSAck numBcnCmdRetry
       numBcnCmdUpperRetry numDataRetry numGTSRetry
       numUpperPkt numUpperPktLost numCollision numLostBcn numTxBcnPkt numTxDataSucc numTxDataFail
       numTxGTSSucc numTxGTSFail numTxAckPkt numRxBcnPkt numRxDataPkt numRxGTSPkt numRxAckPkt
       numTxAckInactive
       par queueModule taskP phy aExtendedAddress mpib capability bcn csma gts buf tim tx hlistB hlistD
       deviceList stats frames now draws out self_name me others] in *.
