(* ===== verification/MacUtil.v ===== *)
(** * The MAC: lengths, durations, primitives to the PHY, timers

    srwsn802154MAC.cc: the utility functions, [resetTRX] and the MAC2PHY
    primitives, [sendDown], [reqtMsgFromIFq], [constructACK], [frameFilter] and
    the functions that start timers. *)

From S2P Require Import Prelude HList MacConst MacTypes.

Open Scope string_scope.
Open Scope list_scope.
Open Scope Z_scope.

(** ** Utility functions *)

Definition calMHRByteLength (addrModeSum : Z) : outcome Z :=
  if addrModeSum =? 0 then Ok 3
  else if addrModeSum =? 2 then Ok 7
  else if addrModeSum =? 3 then Ok 13
  else if addrModeSum =? 4 then Ok 11
  else if addrModeSum =? 5 then Ok 17
  else if addrModeSum =? 6 then Ok 23
  else Fault (Thrown "[MAC]: impossible address mode sum!").

(** The length of a command frame with a header of [MHRLength] bytes. *)
Definition cmdByteLength (MHRLength : Z) (cmdType : Ieee802154MacCmdType) : outcome Z :=
  match cmdType with
  | Ieee802154_ASSOCIATION_REQUEST => Ok (MHRLength + 4)
  | Ieee802154_ASSOCIATION_RESPONSE => Ok SIZE_OF_802154_ASSOCIATION_RESPONSE
  | Ieee802154_DISASSOCIATION_NOTIFICATION => Ok SIZE_OF_802154_DISASSOCIATION_NOTIFICATION
  | Ieee802154_DATA_REQUEST => Ok (MHRLength + 3)
  | Ieee802154_PANID_CONFLICT_NOTIFICATION => Ok SIZE_OF_802154_PANID_CONFLICT_NOTIFICATION
  | Ieee802154_ORPHAN_NOTIFICATION => Ok SIZE_OF_802154_ORPHAN_NOTIFICATION
  | Ieee802154_BEACON_REQUEST => Ok SIZE_OF_802154_BEACON_REQUEST
  | Ieee802154_COORDINATOR_REALIGNMENT => Ok (MHRLength + 10)
  | Ieee802154_GTS_REQUEST => Ok SIZE_OF_802154_GTS_REQUEST
  | Ieee802154_OTHER_CMD =>
      Fault (Thrown "[MAC]: cannot calculate the size of a MAC command frame with unknown type!")
  end.

Definition calFrmByteLength (frame : Frame) : outcome Z :=
  MHRLength ← calMHRByteLength (u8 (srcAddrMode (frmCtrl frame) + dstAddrMode (frmCtrl frame)));
  match frmType (frmCtrl frame) with
  | Ieee802154_BEACON =>
      match cls frame with
      | BeaconFrame _ => Ok (MHRLength + 6)
      | _ => Fault (Thrown "check_and_cast: not an Ieee802154BeaconFrame")
      end
  | Ieee802154_DATA => Ok (11 + 2)
  | Ieee802154_ACK => Ok SIZE_OF_802154_ACK
  | Ieee802154_CMD =>
      match cls frame with
      | CmdFrame cmdType => cmdByteLength MHRLength cmdType
      | _ => Fault (Thrown "check_and_cast: not an Ieee802154CmdFrame")
      end
  | Ieee802154_OTHER => Fault (Thrown "[MAC]: cannot calculate the size of a MAC frame with unknown type!")
  end.

Definition calDuration (frame : Frame) (s : Mac) : Z :=
  secs (def_phyHeaderLength * 8 + getBitLength frame) (phy_bitrate (phy s)).

Definition getRate (bitOrSymbol : ascii) (channel : Z) : Z :=
  let rate :=
    if channel =? 0 then if Ascii.eqb bitOrSymbol "b" then BR_868M else SR_868M
    else if channel <=? 10 then if Ascii.eqb bitOrSymbol "b" then BR_915M else SR_915M
    else if Ascii.eqb bitOrSymbol "b" then BR_2_4G else SR_2_4G in
  rate * 100.

Definition toParent_of (frame : Frame) (p : MAC_PIB) : bool :=
  ((dstAddrMode (frmCtrl frame) =? defFrmCtrl_AddrMode16) && (dstAddr frame =? macCoordShortAddress p))
  || ((dstAddrMode (frmCtrl frame) =? defFrmCtrl_AddrMode64) && (dstAddr frame =? macCoordExtendedAddress p)).

Definition toParent (p : ptr) : M Mac bool :=
  f ← deref p;
  s ← self;
  mret (toParent_of f (mpib s)).

(** [aBaseSlotDuration * (1 << so)] and [aBaseSuperframeDuration * (1 << bo)],
    computed in [int]. *)
Definition int_shl (a k : Z) : outcome Z :=
  if (k <? 31) && (a * 2 ^ k <=? INT_MAX) then Ok (a * 2 ^ k)
  else Fault (Undefined "shift or multiplication overflows int").

(** The inter-frame space after a frame of [bytes] bytes, in symbols. *)
Definition ifs_for (bytes : Z) : Z :=
  if bytes <=? aMaxSIFSFrameSize then aMinSIFSPeriod else aMinLIFSPeriod.

(** The duration of a beacon in backoff periods, given its length in symbols
    (held in a [simtime_t]): [(UINT_8)(x / aUnitBackoffPeriod)], one more if a
    part of a period remains.  The conversion of a value outside of [UINT_8] is
    undefined. *)
Definition backoff_periods (x : Z) : outcome Z :=
  let n := x / (aUnitBackoffPeriod * second) in
  if (0 <=? n) && (n <? 256) then
    Ok (if 0 <? Z.rem x (aUnitBackoffPeriod * second) then u8 (n + 1) else n)
  else Fault (Undefined "conversion to UINT_8 out of range").

(** [(UINT_16)(x / y - d)] *)
Definition to_u16 (x y d : Z) : outcome Z :=
  let n := x - d * y in
  if (- y <? n) && (n <? 65536 * y) then Ok (Z.quot n y)
  else Fault (Undefined "conversion to UINT_16 out of range").

(** [while (x + step < limit) x += step].  A step that does not advance makes
    the loop endless. *)
Fixpoint advance_loop (fuel : nat) (x step limit : Z) : outcome Z :=
  match fuel with
  | O => Fault OutOfFuel
  | S fuel' => if x + step <? limit then advance_loop fuel' (x + step) step limit else Ok x
  end.
Definition advance (x step limit : Z) : outcome Z :=
  advance_loop (S (Z.to_nat ((limit - x) / step))) x step limit.

(** [while (x < limit) x += step] *)
Fixpoint catch_up_loop (fuel : nat) (x step limit : Z) : outcome Z :=
  match fuel with
  | O => Fault OutOfFuel
  | S fuel' => if x <? limit then catch_up_loop fuel' (x + step) step limit else Ok x
  end.
Definition catch_up (x step limit : Z) : outcome Z :=
  catch_up_loop (S (S (Z.to_nat ((limit - x) / step)))) x step limit.

(** ** Radio state *)

Definition PLME_SET_TRX_STATE_request (state : PHYenum) : M Mac unit :=
  emit (ToPhy_SET_TRX_STATE state);;
  upd_phy (fun p => p<| trx_state_req := state |>).

Definition PLME_SET_request (attribute : PHYPIBenum) : M Mac unit :=
  match attribute with
  | PHY_CURRENT_CHANNEL => s ← self; emit (ToPhy_SET (tmp_phyCurrentChannel (phy s)))
  | _ => fail (Thrown "invalid PHY PIB attribute")
  end.

Definition PLME_CCA_request : M Mac unit := emit ToPhy_CCA.

Definition beacon_enabled (s : Mac) : bool :=
  negb (macBeaconOrder (mpib s) =? 15) || negb (rxBO (bcn s) =? 15).

Definition resetTRX_state (s : Mac) : PHYenum :=
  if beacon_enabled s then
    if negb (inTxSD_txSDTimer (tim s)) && negb (inRxSD_rxSDTimer (tim s)) then phy_TRX_OFF
    else if inTxSD_txSDTimer (tim s) then phy_RX_ON
    else if macRxOnWhenIdle (mpib s) then phy_RX_ON else phy_TRX_OFF
  else if macRxOnWhenIdle (mpib s) then phy_RX_ON else phy_TRX_OFF.

Definition resetTRX : M Mac unit :=
  s ← self;
  PLME_SET_TRX_STATE_request (resetTRX_state s).

(** [sendDown(p->dup())]: the frame sent is a copy. *)
Definition sendDown (frame : Frame) : M Mac unit :=
  upd_tx (fun t => t<| inTransmission := true |>);;
  emit (ToPhy_frame frame).

Definition sendDown_dup (p : ptr) : M Mac unit :=
  f ← deref p;
  sendDown f.

Definition reqtMsgFromIFq : M Mac unit :=
  s ← self;
  match queueModule s with
  | QNull => mret tt
  | QModule => emit QueueRequest
  | QWild => fail (Undefined "queueModule was never initialised")
  end.

(** ** Timer starters *)

Definition startBackoffTimer `{MacEnv} (wtime : Z) : M Mac unit :=
  s ← self;
  ev_deref (tmpCsmaca (buf s));;
  restartAt (now s + wtime) MAC_BACKOFF_TIMER.

Definition startDeferCCATimer (wtime : Z) : M Mac unit :=
  s ← self; restartAt (now s + wtime) MAC_DEFER_CCA_TIMER.

Definition startBcnRxTimer : M Mac unit :=
  s ← self;
  let rxBI := secs (BI (rxSfSpec (bcn s))) (phy_symbolrate (phy s)) in
  (* while (now - t > rxBI) t += rxBI *)
  t_bcnRxTime ← lift (advance (bcnRxTime (bcn s)) rxBI (now s));
  let len12s := secs aTurnaroundTime (phy_symbolrate (phy s)) in
  let wtime := rxBI - (now s - t_bcnRxTime) in
  let wtime := if len12s <=? wtime then wtime - len12s else wtime in
  let wtime :=
    if now s + wtime - lastTime_bcnRxTimer (tim s) <? rxBI - len12s
    then 2 * rxBI - now s + t_bcnRxTime - len12s else wtime in
  upd_tim (fun t => t<| lastTime_bcnRxTimer := now s + wtime |>);;
  restartAt (now s + wtime) MAC_BCN_RX_TIMER.

Definition startAckTimeoutTimer : M Mac unit :=
  s ← self;
  restartAt (now s + secs (macAckWaitDuration (mpib s)) (phy_symbolrate (phy s))) MAC_ACK_TIMEOUT_TIMER.

Definition startTxAckBoundTimer (wtime : Z) : M Mac unit :=
  s ← self; restartAt (now s + wtime) MAC_TX_ACK_BOUND_TIMER.

Definition startTxCmdDataBoundTimer (wtime : Z) : M Mac unit :=
  s ← self; restartAt (now s + wtime) MAC_TX_CMD_DATA_BOUND_TIMER.

Definition startIfsTimer (sifs : bool) : M Mac unit :=
  s ← self;
  let wtime := secs (if sifs then aMinSIFSPeriod else aMinLIFSPeriod) (phy_symbolrate (phy s)) in
  restartAt (now s + wtime) MAC_IFS_TIMER.

Definition startTxSDTimer : M Mac unit :=
  s ← self;
  assert_ (negb (inTxSD_txSDTimer (tim s))) "!inTxSD_txSDTimer";;
  let wtime := secs (u32 (aNumSuperframeSlots * txSfSlotDuration (bcn s))) (phy_symbolrate (phy s)) in
  restartAt (now s + wtime) MAC_TX_SD_TIMER;;
  upd_tim (fun t => t<| inTxSD_txSDTimer := true |>).

Definition startRxSDTimer : M Mac unit :=
  s ← self;
  assert_ (negb (inRxSD_rxSDTimer (tim s))) "!inRxSD_rxSDTimer";;
  let wtime := secs (u32 (aNumSuperframeSlots * rxSfSlotDuration (bcn s))) (phy_symbolrate (phy s)) in
  let wtime := wtime + bcnRxTime (bcn s) - now s in
  assert_ (0 <? wtime) "wtime>0.0";;
  restartAt (now s + wtime) MAC_RX_SD_TIMER;;
  upd_tim (fun t => t<| inRxSD_rxSDTimer := true |>).

Definition startGtsTimer (w_time : Z) : M Mac unit :=
  s ← self; restartAt (now s + w_time) MAC_GTS_TIMER.

Definition startFinalCapTimer (w_time : Z) : M Mac unit :=
  s ← self; restartAt (now s + w_time) MAC_FINAL_CAP_TIMER.

(** [gtsList[i]]: the array has seven entries. *)
Definition gts_at (i : Z) (s : Mac) : M Mac GTSDescriptor :=
  match gtsList (gts s) !! Z.to_nat i with
  | Some d => mret d
  | None => fail (Undefined "gtsList index out of range")
  end.

Definition upd_gts_at (i : Z) (f : GTSDescriptor -> GTSDescriptor) : M Mac unit :=
  s ← self;
  d ← gts_at i s;
  upd_gts (fun g => g<| gtsList ::= fun l => <[Z.to_nat i := f d]> l |>).

Definition gtsScheduler : M Mac unit :=
  s ← self;
  assert_ (isPANCoor (par s)) "isPANCoor";;
  d ← gts_at (index_gtsTimer (tim s)) s;
  let tmpf := macBeaconTxTime (mpib s)
              + secs (u32 (startSlot d * txSfSlotDuration (bcn s))) (phy_symbolrate (phy s)) in
  let w_time := tmpf - now s in
  let w_time := if isRecvGTS_ d then w_time
                else w_time - secs aTurnaroundTime (phy_symbolrate (phy s)) in
  startGtsTimer w_time.

(** ** Frame reception: filter and acknowledgement *)

(** The value is true if the frame is filtered out. *)
Definition frameFilter_of (frame : Frame) (s : Mac) : bool :=
  let c := frmCtrl frame in
  let t := frmType c in
  let p := mpib s in
  if kind frame =? COLLISION then true
  else if kind frame =? RX_DURING_CCA then true
  else if macPromiscuousMode p then false
  else if (t !=! Ieee802154_BEACON) && (t !=! Ieee802154_DATA) && (t !=! Ieee802154_ACK)
          && (t !=! Ieee802154_CMD) then true
  else if (t ==! Ieee802154_BEACON) && negb (macPANId p =? 0xffff)
          && negb (srcPanId frame =? macPANId p) then true
  else if ((dstAddrMode c =? defFrmCtrl_AddrMode16) || (dstAddrMode c =? defFrmCtrl_AddrMode64))
          && (negb (dstPanId frame =? 0xffff) && negb (dstPanId frame =? macPANId p)) then true
  else if (dstAddrMode c =? defFrmCtrl_AddrMode16)
          && (negb (dstAddr frame =? 0xffff) && negb (dstAddr frame =? macShortAddress p)) then true
  else if negb (dstAddrMode c =? defFrmCtrl_AddrMode16) && (dstAddrMode c =? defFrmCtrl_AddrMode64)
          && negb (dstAddr frame =? aExtendedAddress s) then true
  else if (t ==! Ieee802154_ACK) && negb (dstAddr frame =? aExtendedAddress s) then true
  else if ((t ==! Ieee802154_DATA) || (t ==! Ieee802154_CMD))
          && (dstAddrMode c =? defFrmCtrl_AddrModeNone) && negb (isPANCoor (par s)) then true
  else false.

Definition frameFilter (frame : Frame) : M Mac bool :=
  s ← self;
  when (kind frame =? COLLISION) (upd_stats (fun t => t<| numCollision ::= Z.succ |>));;
  mret (frameFilter_of frame s).

Section ack.
Context `{MacEnv}.

Definition constructACK (rxFrame : Frame) : M Mac unit :=
  (* i = 1: no packet is pending *)
  let ackFrmCtrl := mkFrameCtrl Ieee802154_ACK false (1 =? 0) false (intraPan (frmCtrl rxFrame))
                      defFrmCtrl_AddrModeNone defFrmCtrl_AddrModeNone in
  let tmpAck := mkFrame AckFrame ackFrmCtrl (bdsn rxFrame) 0 (srcAddr rxFrame) 0 0 false false 0 0 None in
  len ← lift (calFrmByteLength tmpAck);
  let tmpAck := tmpAck<| ownByteLength := len |> in
  let tmpAck := if isGTS rxFrame then tmpAck<| isGTS := true |> else tmpAck in
  p ← new_frame tmpAck;
  s ← self;
  assert_ (negb (is_set (txAck (buf s)))) "!txAck";;
  upd_buf (fun b => b<| txAck := p |>).
End ack.
