(* ===== verification/MacCsma.v ===== *)
(** * The MAC: slotted CSMA/CA

    srwsn802154MAC.cc: the functions [csmaca...] and [getFinalCAP]. *)

From S2P Require Import Prelude HList MacConst MacTypes MacUtil.

Open Scope string_scope.
Open Scope list_scope.
Open Scope Z_scope.

Section csma.
Context `{MacEnv}.

Definition csmacaReset (bcnEnabled : bool) : M Mac unit :=
  s ← self;
  if bcnEnabled then
    upd_csma (fun c => c<| NB := 0 |><| CW := 2 |><| BE := macMinBE (mpib s) |>);;
    s ← self;
    when (macBattLifeExt (mpib s) && (2 <? BE (csma s))) (upd_csma (fun c => c<| BE := 2 |>))
  else
    upd_csma (fun c => c<| NB := 0 |><| BE := macMinBE (mpib s) |>).

(** [schedBcnRxTime]: when the latest beacon should have arrived. *)
Definition updateSchedBcnRxTime : M Mac unit :=
  s ← self;
  when (negb (rxBO (bcn s) =? 15)) (
    let rxBI := secs (BI (rxSfSpec (bcn s))) (phy_symbolrate (phy s)) in
    t ← lift (advance (bcnRxTime (bcn s)) rxBI (now s));
    upd_bcn (fun b => b<| schedBcnRxTime := t |>)).

Definition csmacaAdjustTime (wtime : Z) : M Mac Z :=
  s ← self;
  assert_ (is_set (tmpCsmaca (buf s))) "tmpCsmaca";;
  up ← toParent (tmpCsmaca (buf s));
  if negb up then
    if negb (macBeaconOrder (mpib s) =? 15) then
      let neg := now s - txBcnDuration (bcn s) * bPeriod (bcn s) + wtime - macBeaconTxTime (mpib s) in
      mret (if neg <? 0 then wtime - neg else wtime)
    else mret wtime
  else
    if negb (rxBO (bcn s) =? 15) then
      let neg := now s - rxBcnDuration (bcn s) * bPeriod (bcn s) + wtime - schedBcnRxTime (bcn s) in
      mret (if neg <? 0 then wtime - neg else wtime)
    else mret wtime.

Definition csmacaLocateBoundary (toParent_ : bool) (wtime : Z) : M Mac Z :=
  s ← self;
  if (macBeaconOrder (mpib s) =? 15) && (rxBO (bcn s) =? 15) then mret wtime
  else
    let align := if toParent_ then if rxBO (bcn s) =? 15 then 1 else 2
                 else if macBeaconOrder (mpib s) =? 15 then 2 else 1 in
    updateSchedBcnRxTime;;
    s ← self;
    let bcnTxRxTime := if align =? 1 then macBeaconTxTime (mpib s) else schedBcnRxTime (bcn s) in
    let newtime := Z.rem (now s + wtime - bcnTxRxTime) (bPeriod (bcn s)) in
    mret (if 0 <? newtime then wtime + (bPeriod (bcn s) - newtime) else wtime).

Definition oneDay (s : Mac) : Z := now s + 24 * 3600 * second.

Definition getFinalCAP (trxType : ascii) : M Mac Z :=
  s ← self;
  let rate := phy_symbolrate (phy s) in
  if (macBeaconOrder (mpib s) =? 15) && (rxBO (bcn s) =? 15) then mret (oneDay s)
  else
    let rxBI := secs (BI (rxSfSpec (bcn s))) rate in
    if Ascii.eqb trxType "t" then
      if negb (macBeaconOrder (mpib s) =? 15) then
        if battLifeExt (txSfSpec (bcn s)) then fail (Thrown "[MAC]: this function TBD")
        else
          let txCAP := macBeaconTxTime (mpib s)
                       + (finalCap (txSfSpec (bcn s)) + 1) * secs (txSfSlotDuration (bcn s)) rate in
          mret (if now s <=? txCAP then txCAP else oneDay s)
      else mret (oneDay s)
    else
      if negb (rxBO (bcn s) =? 15) then
        if battLifeExt (rxSfSpec (bcn s)) then fail (Thrown "[MAC]: this function TBD")
        else
          let rxCAP := bcnRxTime (bcn s)
                       + (finalCap (rxSfSpec (bcn s)) + 1) * secs (rxSfSlotDuration (bcn s)) rate in
          let tmpf := aMaxLostBeacons * rxBI in
          rxCAP ← (if (rxCAP <? now s) && (now s <=? rxCAP + tmpf)
                   then lift (catch_up rxCAP rxBI (now s)) else mret rxCAP);
          mret (if now s <=? rxCAP then rxCAP else oneDay s)
      else mret (oneDay s).

(** The first two checks of [csmacaCanProceed]: whether it is now in the CAP
    (if not, [None]) and how many backoff periods would be left at its end. *)
Definition csmacaPeriodsLeft (up : bool) (wtime : Z) (s : Mac) : outcome (option Z) :=
  let left_ (bcnTime slot fcap dur : Z) :=
    let t_fCAP := bcnTime + secs (u32 ((fcap + 1) * slot)) (phy_symbolrate (phy s)) in
    if t_fCAP <=? now s then Ok None
    else
      let t_CAP := u16 (u32 ((fcap + 1) * slot) / aUnitBackoffPeriod - dur) in
      let tmpf := now s + wtime - bcnTime in
      t_bPeriods ← to_u16 tmpf (bPeriod (bcn s)) dur;
      let t_bPeriods := if 0 <? Z.rem tmpf (bPeriod (bcn s)) then u16 (t_bPeriods + 1) else t_bPeriods in
      Ok (Some (t_bPeriods - t_CAP)) in
  if negb up then
    if negb (macBeaconOrder (mpib s) =? 15) then
      left_ (macBeaconTxTime (mpib s)) (txSfSlotDuration (bcn s)) (finalCap (txSfSpec (bcn s))) (txBcnDuration (bcn s))
    else Ok (Some (-1))
  else
    if negb (rxBO (bcn s) =? 15) then
      left_ (schedBcnRxTime (bcn s)) (rxSfSlotDuration (bcn s)) (finalCap (rxSfSpec (bcn s))) (rxBcnDuration (bcn s))
    else Ok (Some (-1)).

(** The estimate of the time a whole transaction takes. *)
Definition csmacaTransacTime (afterCCA : bool) : M Mac Z :=
  s ← self;
  let rate := phy_symbolrate (phy s) in
  let t_CCATime := secs 8 rate in
  f ← deref (tmpCsmaca (buf s));
  let t_IFS := secs (ifs_for (getByteLength f)) rate in
  t_transacTime ←
    (if negb afterCCA then
       let t := t_CCATime in
       up ← toParent (tmpCsmaca (buf s));
       b ← csmacaLocateBoundary up t;
       mret (t + (b - t) + t_CCATime)
     else mret 0);
  up ← toParent (tmpCsmaca (buf s));
  b ← csmacaLocateBoundary up t_transacTime;
  let t_transacTime := t_transacTime + (b - t_transacTime) + calDuration f s in
  mret (if csmacaAckReq (csma s)
        then t_transacTime + secs (macAckWaitDuration (mpib s)) rate + t_IFS
        else t_transacTime + secs aTurnaroundTime rate + t_IFS).

(** "need to track next beacon if it is not being tracked", and wait for it. *)
Definition csmacaPostpone : M Mac unit :=
  s ← self;
  when (negb (rxBO (bcn s) =? 15)) (when (negb (isScheduled MAC_BCN_RX_TIMER s)) startBcnRxTimer);;
  upd_csma (fun c => c<| csmacaWaitNextBeacon := true |>).

(** The third check: the whole transaction before the end of the CAP. *)
Definition csmacaFitsCAP (wtime : Z) (afterCCA : bool) : M Mac bool :=
  t_transacTime ← csmacaTransacTime afterCCA;
  s ← self;
  let tmpf := now s + wtime + t_transacTime in
  up ← toParent (tmpCsmaca (buf s));
  t_fCAP ← (if negb up then
              if negb (macBeaconOrder (mpib s) =? 15) then getFinalCAP "t" else getFinalCAP "r"
            else
              if negb (rxBO (bcn s) =? 15) then getFinalCAP "r" else getFinalCAP "t");
  if t_fCAP <? tmpf then
    upd_csma (fun c => c<| bPeriodsLeft := 0 |>);;
    csmacaPostpone;;
    mret false
  else
    upd_csma (fun c => c<| bPeriodsLeft := -1 |>);;
    mret true.

Definition csmacaCanProceed (wtime : Z) (afterCCA : bool) : M Mac bool :=
  upd_csma (fun c => c<| csmacaWaitNextBeacon := false |>);;
  s ← self;
  up ← toParent (tmpCsmaca (buf s));
  wtime ← csmacaLocateBoundary up wtime;
  s ← self;
  left_ ← lift (csmacaPeriodsLeft up wtime s);
  match left_ with
  | None =>
      upd_csma (fun c => c<| csmacaWaitNextBeacon := true |><| bPeriodsLeft := 0 |>);;
      mret false
  | Some n =>
      upd_csma (fun c => c<| bPeriodsLeft := n |>);;
      let ok := negb (0 <? n) &&
        negb ((n =? 0) && ((negb up && negb (battLifeExt (txSfSpec (bcn s))))
                           || (up && negb (battLifeExt (rxSfSpec (bcn s)))))) in
      if negb ok then csmacaPostpone;; mret false
      else csmacaFitsCAP wtime afterCCA
  end.

Definition csmacaStart (firsttime : bool) (frame : ptr) (ackReq : bool) : M Mac unit :=
  s ← self;
  if is_set (txAck (buf s)) then
    upd_csma (fun c => c<| backoffStatus := 0 |>);;
    upd_buf (fun b => b<| tmpCsmaca := None |>)
  else
    assert_ (negb (isScheduled MAC_BACKOFF_TIMER s)) "!backoffTimer->isScheduled()";;
    when firsttime (
      ev_deref frame;;
      upd_bcn (fun b => b<| beaconEnabled := beacon_enabled s |>);;
      csmacaReset (beacon_enabled s);;
      s ← self;
      assert_ (negb (is_set (tmpCsmaca (buf s)))) "tmpCsmaca == 0";;
      upd_buf (fun b => b<| tmpCsmaca := frame |>);;
      upd_csma (fun c => c<| csmacaAckReq := ackReq |>));;
    updateSchedBcnRxTime;;
    s ← self;
    range ← lift (int_shl 1 (BE (csma s)));
    r ← intrand range;
    wtime ← csmacaAdjustTime (r * bPeriod (bcn s));
    s ← self;
    if beaconEnabled (bcn s) then
      wtime ← (if firsttime then up ← toParent (tmpCsmaca (buf s)); csmacaLocateBoundary up wtime
               else mret wtime);
      backoff ← csmacaCanProceed wtime false;
      when backoff (startBackoffTimer wtime)
    else startBackoffTimer wtime.

Definition csmacaCancel : M Mac unit :=
  s ← self;
  (if isScheduled MAC_BACKOFF_TIMER s then cancelEvent MAC_BACKOFF_TIMER
   else if isScheduled MAC_DEFER_CCA_TIMER s then cancelEvent MAC_DEFER_CCA_TIMER
   else put_taskStatus TP_CCA_CSMACA false);;
  upd_buf (fun b => b<| tmpCsmaca := None |>).

Definition csmacaResume : M Mac unit :=
  s ← self;
  if negb (backoffStatus (csma s) =? 99) && negb (inTransmission (tx s)) then
    if is_set (txBcnCmd (buf s)) && negb (waitBcnCmdAck (tx s)) then
      upd_csma (fun c => c<| backoffStatus := 99 |>);;
      f ← deref (txBcnCmd (buf s));
      upd_buf (fun b => b<| txCsmaca := txBcnCmd b |>);;
      csmacaStart true (txBcnCmd (buf s)) (ackReq (frmCtrl f))
    else if is_set (txBcnCmdUpper (buf s)) && negb (waitBcnCmdUpperAck (tx s)) then
      upd_csma (fun c => c<| backoffStatus := 99 |>);;
      f ← deref (txBcnCmdUpper (buf s));
      upd_buf (fun b => b<| txCsmaca := txBcnCmdUpper b |>);;
      csmacaStart true (txBcnCmdUpper (buf s)) (ackReq (frmCtrl f))
    else if is_set (txData (buf s)) && negb (waitDataAck (tx s)) then
      put_taskFrFunc TP_MCPS_DATA_REQUEST "csmacaCallBack";;
      put_taskStep TP_MCPS_DATA_REQUEST 1;;
      upd_csma (fun c => c<| backoffStatus := 99 |>);;
      f ← deref (txData (buf s));
      upd_buf (fun b => b<| txCsmaca := txData b |>);;
      csmacaStart true (txData (buf s)) (ackReq (frmCtrl f))
    else mret tt
  else mret tt.

Definition csmacaEntry (pktType : ascii) : M Mac unit :=
  s ← self;
  if Ascii.eqb pktType "c" then
    upd_tx (fun t => t<| waitBcnCmdAck := false |><| numBcnCmdRetry := 0 |>);;
    when (backoffStatus (csma s) =? 99)
      (upd_csma (fun c => c<| backoffStatus := 0 |>);; csmacaCancel);;
    csmacaResume
  else if Ascii.eqb pktType "u" then
    upd_tx (fun t => t<| waitBcnCmdUpperAck := false |><| numBcnCmdUpperRetry := 0 |>);;
    when ((backoffStatus (csma s) =? 99) && (txCsmaca (buf s) !=! txBcnCmd (buf s)))
      (upd_csma (fun c => c<| backoffStatus := 0 |>);; csmacaCancel);;
    csmacaResume
  else
    upd_tx (fun t => t<| waitDataAck := false |><| numDataRetry := 0 |>);;
    csmacaResume.

(** Before a CCA the receiver is turned on. *)
Definition handleBackoffTimer : M Mac unit :=
  put_taskStatus TP_RX_ON_CSMACA true;;
  PLME_SET_TRX_STATE_request phy_RX_ON.

Definition handleDeferCCATimer : M Mac unit :=
  put_taskStatus TP_CCA_CSMACA true;;
  PLME_CCA_request.

Definition csmaca_handle_RX_ON_confirm (status : PHYenum) : M Mac unit :=
  if status !=! phy_RX_ON then
    if status ==! phy_BUSY_TX then put_taskStatus TP_RX_ON_CSMACA true
    else handleBackoffTimer
  else
    s ← self;
    wtime ← (if beaconEnabled (bcn s) then
               up ← toParent (tmpCsmaca (buf s)); csmacaLocateBoundary up 0
             else mret 0);
    if (wtime : Z) =? 0 then
      put_taskStatus TP_CCA_CSMACA true;;
      PLME_CCA_request
    else startDeferCCATimer wtime.

(** [wtime] starts at 0, the default value of a [simtime_t]. *)
Definition csmacaTrxBeacon : M Mac unit :=
  s ← self;
  when (negb (is_set (txAck (buf s)))) (PLME_SET_TRX_STATE_request phy_RX_ON);;
  upd_bcn (fun b => b<| beaconEnabled := beacon_enabled s |>);;
  csmacaReset (beacon_enabled s);;
  s ← self;
  if csmacaWaitNextBeacon (csma s)
     && (is_set (tmpCsmaca (buf s)) && negb (isScheduled MAC_BACKOFF_TIMER s)) then
    assert_ (0 <=? bPeriodsLeft (csma s)) "bPeriodsLeft >= 0";;
    if bPeriodsLeft (csma s) =? 0 then csmacaStart false None false
    else
      let wtime := bPeriodsLeft (csma s) * bPeriod (bcn s) in
      ok ← csmacaCanProceed wtime false;
      when ok (startBackoffTimer wtime)
  else upd_csma (fun c => c<| csmacaWaitNextBeacon := false |>).

End csma.
