(* ===== verification/MacTask.v ===== *)
(** * The MAC: pending tasks

    srwsn802154MAC.cc: [taskSuccess], [taskFailed], [checkTaskOverflow],
    [FSM_MCPS_DATA_request], [dispatch], [csmacaCallBack], [gtsCanProceed] and
    the SSCS-MAC primitives. *)

From S2P Require Import Prelude HList MacConst MacTypes MacUtil MacCsma.

Open Scope string_scope.
Open Scope list_scope.
Open Scope Z_scope.

Section task.
Context `{MacEnv}.

(** Reports to the upper layer; does nothing. *)
Definition MCPS_DATA_confirm (status : MACenum) : M Mac unit := mret tt.

(** "request another msg from ifq, only when MAC is idle for data transmission" *)
Definition reqtIfIdle : M Mac unit :=
  busy ← get_taskStatus TP_MCPS_DATA_REQUEST;
  when (negb busy) reqtMsgFromIFq.

(** ** Ends of tasks *)

Definition taskSuccess_beacon (csmacaRes : bool) : M Mac bool :=
  s ← self;
  f ← deref (txBeacon (buf s));
  let tmpf := calDuration f s * phy_symbolrate (phy s) + ifs_for (getByteLength f) * second in
  dur ← lift (backoff_periods tmpf);
  upd_bcn (fun b => b<| txBcnDuration := dur |>);;
  let t_CAP := u16 (u32 ((finalCap (txSfSpec (bcn s)) + 1) * txSfSlotDuration (bcn s))
                    / aUnitBackoffPeriod - dur) in
  csmacaRes ← (if t_CAP =? 0 then PLME_SET_TRX_STATE_request phy_TRX_OFF;; mret false
               else PLME_SET_TRX_STATE_request phy_RX_ON;; mret csmacaRes);
  s ← self;
  when (backoffStatus (csma s) =? 99) csmacaTrxBeacon;;
  upd_bcn (fun b => b<| beaconWaitingTx := false |>);;
  s ← self;
  delete_frame (txBeacon (buf s));;
  upd_buf (fun b => b<| txBeacon := None |>);;
  upd_stats (fun t => t<| numTxBcnPkt ::= Z.succ |>);;
  mret csmacaRes.

(** The coordinator clears the pending flag of the GTS it transmits in. *)
Definition clearTxPending : M Mac unit :=
  s ← self;
  when (isPANCoor (par s)) (
    d ← gts_at (indexCurrGts (gts s)) s;
    assert_ (isTxPending d) "gtsList[indexCurrGts].isTxPending";;
    upd_gts_at (indexCurrGts (gts s)) (fun d => d<| isTxPending := false |>)).

Definition taskSuccess (type_ : ascii) (csmacaRes : bool) : M Mac unit :=
  csmacaRes ←
    (if Ascii.eqb type_ "b" then taskSuccess_beacon csmacaRes
     else if Ascii.eqb type_ "a" then
       upd_stats (fun t => t<| numTxAckPkt ::= Z.succ |>);;
       s ← self;
       assert_ (is_set (txAck (buf s))) "txAck";;
       delete_frame (txAck (buf s));;
       upd_buf (fun b => b<| txAck := None |>);;
       mret csmacaRes
     else if Ascii.eqb type_ "d" then
       s ← self;
       assert_ (is_set (txData (buf s))) "txData";;
       ev_deref (txData (buf s));;
       delete_frame (txData (buf s));;
       upd_buf (fun b => b<| txData := None |>);;
       MCPS_DATA_confirm mac_SUCCESS;;
       upd_stats (fun t => t<| numTxDataSucc ::= Z.succ |>);;
       reqtIfIdle;;
       mret csmacaRes
     else if Ascii.eqb type_ "g" then
       s ← self;
       assert_ (is_set (txGTS (buf s))) "txGTS";;
       ev_deref (txGTS (buf s));;
       clearTxPending;;
       delete_frame (txGTS (buf s));;
       upd_buf (fun b => b<| txGTS := None |>);;
       MCPS_DATA_confirm mac_SUCCESS;;
       upd_stats (fun t => t<| numTxGTSSucc ::= Z.succ |>);;
       reqtIfIdle;;
       mret false
     else assert_ false "0";; mret csmacaRes);
  when csmacaRes csmacaResume.

Definition taskFailed (type_ : ascii) (status : MACenum) (csmacaRes : bool) : M Mac unit :=
  if Ascii.eqb type_ "b" || Ascii.eqb type_ "a" || Ascii.eqb type_ "c" then assert_ false "0"
  else if Ascii.eqb type_ "C" then
    s ← self;
    delete_frame (txBcnCmdUpper (buf s));;
    upd_buf (fun b => b<| txBcnCmdUpper := None |>)
  else if Ascii.eqb type_ "d" then
    s ← self;
    assert_ (is_set (txData (buf s))) "txData";;
    ev_deref (txData (buf s));;
    delete_frame (txData (buf s));;
    upd_buf (fun b => b<| txData := None |>);;
    upd_stats (fun t => t<| numTxDataFail ::= Z.succ |>);;
    MCPS_DATA_confirm status;;
    when csmacaRes csmacaResume;;
    reqtIfIdle
  else if Ascii.eqb type_ "g" then
    s ← self;
    assert_ (is_set (txGTS (buf s))) "txGTS";;
    ev_deref (txGTS (buf s));;
    clearTxPending;;
    delete_frame (txGTS (buf s));;
    upd_buf (fun b => b<| txGTS := None |>);;
    upd_stats (fun t => t<| numTxGTSFail ::= Z.succ |>);;
    MCPS_DATA_confirm status;;
    reqtIfIdle
  else mret tt.

Definition checkTaskOverflow (task : Ieee802154MacTaskType) : M Mac unit :=
  busy ← get_taskStatus task;
  if (busy : bool) then fail (Thrown "[MAC-TASK]: task overflow!")
  else
    put_taskStep task 0;;
    put_taskFrFunc task "".

(** ** The machine of a data request *)

Definition task_next (frFunc : string) : M Mac unit :=
  n ← get_taskStep TP_MCPS_DATA_REQUEST;
  put_taskStep TP_MCPS_DATA_REQUEST (n + 1);;
  put_taskFrFunc TP_MCPS_DATA_REQUEST frFunc.

(** Direct transmission: the steps are 1 CSMA/CA, 2 sent, 3 wait for the ACK. *)
Definition FSM_direct (pStatus : PHYenum) : M Mac unit :=
  step ← get_taskStep TP_MCPS_DATA_REQUEST;
  if (step : Z) =? 1 then
    if pStatus ==! phy_IDLE then
      task_next "handle_PD_DATA_confirm";;
      PLME_SET_TRX_STATE_request phy_TX_ON
    else csmacaResume
  else if step =? 2 then
    s ← self;
    f ← deref (txData (buf s));
    if ackReq (frmCtrl f) then
      task_next "handleAck";;
      PLME_SET_TRX_STATE_request phy_RX_ON;;
      startAckTimeoutTimer;;
      upd_tx (fun t => t<| waitDataAck := true |>)
    else
      put_taskStatus TP_MCPS_DATA_REQUEST false;;
      resetTRX;;
      taskSuccess "d" true
  else if step =? 3 then
    s ← self;
    ev_deref (txData (buf s));;
    if pStatus ==! phy_SUCCESS then
      put_taskStatus TP_MCPS_DATA_REQUEST false;;
      upd_tx (fun t => t<| waitDataAck := false |>);;
      resetTRX;;
      taskSuccess "d" true
    else
      upd_tx (fun t => t<| numDataRetry ::= fun n => u8 (n + 1) |>);;
      s ← self;
      if numDataRetry (tx s) <=? aMaxFrameRetries then
        put_taskStep TP_MCPS_DATA_REQUEST 1;;
        put_taskFrFunc TP_MCPS_DATA_REQUEST "csmacaCallBack";;
        upd_tx (fun t => t<| waitDataAck := false |>);;
        csmacaResume
      else
        put_taskStatus TP_MCPS_DATA_REQUEST false;;
        upd_tx (fun t => t<| waitDataAck := false |>);;
        resetTRX;;
        taskFailed "d" mac_NO_ACK true
  else mret tt.

(** Transmission in a GTS: 1 wait for the slot, 2 sent, 3 wait for the ACK,
    4 wait for the inter-frame space. *)
Definition FSM_gts (pStatus : PHYenum) : M Mac unit :=
  step ← get_taskStep TP_MCPS_DATA_REQUEST;
  if (step : Z) =? 1 then
    task_next "handle_PD_DATA_confirm";;
    PLME_SET_TRX_STATE_request phy_FORCE_TRX_OFF;;
    PLME_SET_TRX_STATE_request phy_TX_ON
  else if step =? 2 then
    s ← self;
    f ← deref (txGTS (buf s));
    if ackReq (frmCtrl f) then
      task_next "handleAck";;
      PLME_SET_TRX_STATE_request phy_RX_ON;;
      startAckTimeoutTimer;;
      upd_tx (fun t => t<| waitGTSAck := true |>)
    else
      PLME_SET_TRX_STATE_request phy_FORCE_TRX_OFF;;
      put_taskStep TP_MCPS_DATA_REQUEST 4;;
      put_taskFrFunc TP_MCPS_DATA_REQUEST "handleIfsTimer";;
      startIfsTimer (getByteLength f <=? aMaxSIFSFrameSize)
  else if step =? 3 then
    s ← self;
    if pStatus ==! phy_SUCCESS then
      upd_tx (fun t => t<| waitGTSAck := false |>);;
      ev_deref (txGTS (buf s));;
      PLME_SET_TRX_STATE_request phy_FORCE_TRX_OFF;;
      task_next "handleIfsTimer";;
      f ← deref (txGTS (buf s));
      startIfsTimer (getByteLength f <=? aMaxSIFSFrameSize)
    else
      ev_deref (txGTS (buf s));;
      upd_tx (fun t => t<| numGTSRetry ::= fun n => u8 (n + 1) |>);;
      s ← self;
      if numGTSRetry (tx s) <=? aMaxFrameRetries then
        put_taskStep TP_MCPS_DATA_REQUEST 1;;
        put_taskFrFunc TP_MCPS_DATA_REQUEST "handleGtsTimer";;
        upd_tx (fun t => t<| waitGTSAck := false |>);;
        PLME_SET_TRX_STATE_request phy_FORCE_TRX_OFF
      else
        put_taskStatus TP_MCPS_DATA_REQUEST false;;
        upd_tx (fun t => t<| waitGTSAck := false |>);;
        PLME_SET_TRX_STATE_request phy_FORCE_TRX_OFF;;
        taskFailed "g" mac_NO_ACK true
  else if step =? 4 then
    put_taskStatus TP_MCPS_DATA_REQUEST false;;
    taskSuccess "g" true
  else mret tt.

Definition FSM_MCPS_DATA_request (pStatus : PHYenum) : M Mac unit :=
  s ← self;
  match mcps_data_request_TxOption (taskP s) with
  | DIRECT_TRANS => FSM_direct pStatus
  | INDIRECT_TRANS => mret tt
  | GTS_TRANS => FSM_gts pStatus
  | OTHER_TRANS => fail (Thrown "[MAC]: undefined txOption")
  end.

(** ** Who a status is for *)

(** "taskStatus && frFunc is f" *)
Definition task_waits (f : string) : M Mac bool :=
  busy ← get_taskStatus TP_MCPS_DATA_REQUEST;
  if (busy : bool) then g ← get_taskFrFunc TP_MCPS_DATA_REQUEST; mret (String.eqb g f)
  else mret false.

Definition assert_task_waits (f : string) : M Mac unit :=
  ok ← task_waits f;
  assert_ ok "taskStatus(TP_MCPS_DATA_REQUEST) && taskFrFunc == frFunc".

(** An acknowledgement went out. *)
Definition dispatch_ack_sent : M Mac unit :=
  s ← self;
  (if is_set (rxCmd (buf s)) then
     f ← deref (rxCmd (buf s));
     startIfsTimer (getByteLength f <=? aMaxSIFSFrameSize);;
     resetTRX
   else if is_set (rxData (buf s)) then
     f ← deref (rxData (buf s));
     startIfsTimer (getByteLength f <=? aMaxSIFSFrameSize);;
     if isGTS f then
       if isPANCoor (par s) then PLME_SET_TRX_STATE_request phy_RX_ON
       else PLME_SET_TRX_STATE_request phy_TRX_OFF
     else resetTRX
   else resetTRX);;
  taskSuccess "a" true.

Definition dispatch_PD_DATA_confirm (pStatus : PHYenum) : M Mac unit :=
  s ← self;
  let b := buf s in
  if txPkt b ==! txBeacon b then resetTRX;; taskSuccess "b" true
  else if txPkt b ==! txAck b then dispatch_ack_sent
  else if txPkt b ==! txData b then
    assert_task_waits "handle_PD_DATA_confirm";;
    _ ← deref (txData b);
    busy ← get_taskStatus TP_MCPS_DATA_REQUEST;
    when busy (FSM_MCPS_DATA_request pStatus)
  else if txPkt b ==! txGTS b then
    assert_task_waits "handle_PD_DATA_confirm";;
    assert_ (mcps_data_request_TxOption (taskP s) ==! GTS_TRANS) "TxOption == GTS_TRANS";;
    FSM_MCPS_DATA_request pStatus
  else mret tt.

Definition dispatch_handleAck (pStatus : PHYenum) : M Mac unit :=
  s ← self;
  let b := buf s in
  waits ← task_waits "handleAck";
  if txPkt b ==! txData b then
    if (waits : bool) then FSM_MCPS_DATA_request pStatus
    else
      busy ← get_taskStatus TP_MCPS_DATA_REQUEST;
      when busy (put_taskStatus TP_MCPS_DATA_REQUEST false);;
      resetTRX;;
      taskSuccess "d" true
  else if txPkt b ==! txGTS b then
    when waits (FSM_MCPS_DATA_request pStatus)
  else mret tt.

Definition dispatch_handleAckTimeoutTimer : M Mac unit :=
  s ← self;
  let b := buf s in
  if txPkt b ==! txData b then
    waits ← task_waits "handleAck";
    when waits (FSM_MCPS_DATA_request phy_BUSY)
  else if txPkt b ==! txGTS b then
    assert_task_waits "handleAck";;
    assert_ (mcps_data_request_TxOption (taskP s) ==! GTS_TRANS) "TxOption == GTS_TRANS";;
    FSM_MCPS_DATA_request phy_BUSY
  else mret tt.

Definition dispatch (pStatus : PHYenum) (frFunc : string) : M Mac unit :=
  s ← self;
  let b := buf s in
  if String.eqb frFunc "csmacaCallBack" then
    if txCsmaca b ==! txBcnCmdUpper b then mret tt
    else if txCsmaca b ==! txData b then
      assert_task_waits "csmacaCallBack";;
      FSM_MCPS_DATA_request pStatus
    else mret tt
  else if String.eqb frFunc "handle_PD_DATA_confirm" then dispatch_PD_DATA_confirm pStatus
  else if String.eqb frFunc "handleAck" then dispatch_handleAck pStatus
  else if String.eqb frFunc "handleAckTimeoutTimer" then dispatch_handleAckTimeoutTimer
  else mret tt.

Definition csmacaCallBack (status : PHYenum) : M Mac unit :=
  s ← self;
  let b := buf s in
  if (negb (is_set (txBcnCmd b)) || waitBcnCmdAck (tx s))
     && (negb (is_set (txBcnCmdUpper b)) || waitBcnCmdUpperAck (tx s))
     && (negb (is_set (txData b)) || waitDataAck (tx s)) then mret tt
  else
    upd_csma (fun c => c<| backoffStatus := if status ==! phy_IDLE then 1 else 2 |>);;
    dispatch status "csmacaCallBack".

(** ** Data requests *)

Definition gtsCanProceed : M Mac bool :=
  s ← self;
  assert_ ((index_gtsTimer (tim s) =? 99) && isScheduled MAC_GTS_TIMER s)
    "index_gtsTimer == 99 && gtsTimer->isScheduled()";;
  mret (match scheduled (tim s) MAC_GTS_TIMER with
        | Some t => gtsTransDuration (gts s) <? t - now s
        | None => false
        end).

(** The MPDU for a packet of the upper layer.  [ackReq] is not set for an
    indirect transmission. *)
Definition data_frame (SrcAddrMode SrcPANId SrcAddr DstAddrMode DstPANId DstAddr : Z)
    (TxOption : Ieee802154TxOption) (s : Mac) : Frame :=
  let frmCtrl := mkFrameCtrl Ieee802154_DATA (secuData (par s)) false
                   (match TxOption with
                    | DIRECT_TRANS => ack4Data (par s)
                    | GTS_TRANS => ack4Gts (par s)
                    | _ => uninit_bool
                    end) (SrcPANId =? DstPANId) DstAddrMode SrcAddrMode in
  mkFrame DataFrame frmCtrl (macDSN (mpib s)) DstPANId DstAddr SrcPANId SrcAddr false
    (TxOption ==! GTS_TRANS) 0 0 None.

Definition MCPS_DATA_request (SrcAddrMode SrcPANId SrcAddr DstAddrMode DstPANId DstAddr : Z)
    (msdu : cPacket) (TxOption : Ieee802154TxOption) : M Mac unit :=
  checkTaskOverflow TP_MCPS_DATA_REQUEST;;
  put_taskStatus TP_MCPS_DATA_REQUEST true;;
  upd_task (fun t => Ok (t<| mcps_data_request_TxOption := TxOption |>));;
  s ← self;
  let tmpData := data_frame SrcAddrMode SrcPANId SrcAddr DstAddrMode DstPANId DstAddr TxOption s in
  upd_mpib (fun p => p<| macDSN := u8 (macDSN (mpib s) + 1) |>);;
  len ← lift (calFrmByteLength tmpData);
  p ← new_frame (tmpData<| ownByteLength := len |><| encapsulated := Some msdu |>);
  s ← self;
  match TxOption with
  | DIRECT_TRANS =>
      task_next "csmacaCallBack";;
      assert_ (negb (is_set (txData (buf s)))) "txData == NULL";;
      upd_buf (fun b => b<| txData := p |>);;
      csmacaEntry "d"
  | INDIRECT_TRANS => mret tt
  | GTS_TRANS =>
      task_next "handleGtsTimer";;
      assert_ (negb (is_set (txGTS (buf s)))) "txGTS == NULL";;
      upd_buf (fun b => b<| txGTS := p |>);;
      upd_tx (fun t => t<| numGTSRetry := 0 |>);;
      when (negb (isPANCoor (par s)) && (index_gtsTimer (tim s) =? 99)) (
        assert_ (isScheduled MAC_GTS_TIMER s) "gtsTimer->isScheduled()";;
        ok ← gtsCanProceed;
        when ok (FSM_MCPS_DATA_request phy_SUCCESS))
  | OTHER_TRANS => fail (Thrown "[MAC]: undefined txOption")
  end.

(** The packet goes up and the frame is released. *)
Definition MCPS_DATA_indication (tmpData : ptr) : M Mac unit :=
  f ← deref tmpData;
  (if isGTS f then upd_stats (fun t => t<| numRxGTSPkt ::= Z.succ |>)
   else upd_stats (fun t => t<| numRxDataPkt ::= Z.succ |>));;
  delete_frame tmpData;;
  match encapsulated f with
  | Some p => emit (ToUpper p)
  | None => if ev_on then fail (Undefined "null pointer") else fail (Thrown "send(): message pointer is NULL")
  end.

End task.
