(* ===== verification/MacHandlers.v ===== *)
(** * The MAC: handlers

    srwsn802154MAC.cc: construction and initialisation, the handlers of
    messages from above, from below and of timers, and the two methods that
    other MAC modules call. *)

From S2P Require Import Prelude HList MacConst MacTypes MacUtil MacCsma MacTask.

Open Scope string_scope.
Open Scope list_scope.
Open Scope Z_scope.

(** The default PIB. *)
Definition MPIB : MAC_PIB := mkMAC_PIB
  def_macAckWaitDuration def_macAssociationPermit def_macAutoRequest def_macBattLifeExt
  def_macBattLifeExtPeriods def_macBeaconPayload def_macBeaconPayloadLength def_macBeaconOrder
  def_macBeaconTxTime 0 def_macCoordExtendedAddress def_macCoordShortAddress 0 def_macGTSPermit
  def_macMaxCSMABackoffs def_macMinBE def_macPANId def_macPromiscuousMode def_macRxOnWhenIdle
  def_macShortAddress def_macSuperframeOrder def_macTransactionPersistenceTime.

Definition no_buffers : Bufs :=
  mkBufs None None None None None None None None None None None None.

(** The constructor: [g] stands for what the memory of the object held; the
    members of type [simtime_t] start at 0.  The second value is the address
    counter after it. *)
Definition srwsn802154Mac_ctor (addrCount : Z) (g : Mac) : Mac * Z :=
  (g<| aExtendedAddress := addrCount |>
    <| par ::= fun p => p<| panStartTime := 0 |> |>
    <| bcn ::= fun b => b<| bPeriod := 0 |><| bcnRxTime := 0 |><| schedBcnRxTime := 0 |> |>
    <| gts ::= fun t => t<| gtsTransDuration := 0 |> |>
    <| buf := no_buffers |>
    <| tim ::= fun t => t<| scheduled := fun _ => None |><| lastTime_bcnRxTimer := 0 |> |>
    <| hlistB := empty_hlist |><| hlistD := empty_hlist |>
    <| taskP ::= taskPending_init |>
    <| deviceList := ∅ |><| frames := ∅ |><| out := [] |>,
   u16 (addrCount + 1)).

(** The destructor. *)
Definition srwsn802154Mac_dtor : M Mac unit :=
  upd_tim (fun t => t<| scheduled := fun _ => None |>);;
  zoom (fun s => hlistB s) (fun l s => s<| hlistB := l |>) emptyHListLink;;
  zoom (fun s => hlistD s) (fun l s => s<| hlistD := l |>) emptyHListLink.

(** The parameters of the NED file.  [ned_queue] is [None] when no queue is
    named, otherwise whether the module named is a queue. *)
Record Ned := mkNed {
  ned_isPANCoor : bool;
  ned_BO : Z;
  ned_SO : Z;
  ned_dataTransMode : Z;
  ned_panCoorName : string;
  ned_isRecvGTS : bool;
  ned_gtsPayload : Z;
  ned_ack4Gts : bool;
  ned_queue : option bool;
}.

Section mac.
Context `{MacEnv}.

(** ** Initialisation *)

Definition initializeQueueModule (q : option bool) : M Mac unit :=
  match q with
  | None => mret tt
  | Some true => modify (fun s => s<| queueModule := QModule |>);; emit QueueRequest
  | Some false => fail (Thrown "check_and_cast: not an IPassiveQueue")
  end.

Definition no_gts : GTSDescriptor := mkGTSDescriptor def_macShortAddress 0 0 false false.

(** The checks on the parameters. *)
Definition check_params (p : MAC_PIB) (mode : Z) : outcome unit :=
  if (15 <? macBeaconOrder p) || (macBeaconOrder p <? macSuperframeOrder p) then
    Fault (Thrown "[MAC]: wrong values for MAC parameter BO or SO")
  else if macBeaconOrder p =? 15 then
    Fault (Thrown "[MAC]: non-beacon mode (BO = 15) has not been tested!")
  else if macSuperframeOrder p =? macBeaconOrder p then
    Fault (Thrown "[MAC]: warning!! the case BO == SO has not been tested!")
  else if negb (mode =? 1) && negb (mode =? 3) then
    Fault (Thrown "[MAC]: data transfer mode is not supported in the model!")
  else Ok tt.

(** What stage 0 sets once the parameters have been checked. *)
Definition initial_members (host : string) (n : Ned) (s : Mac) : Mac :=
  s<| par := mkParams true (ned_ack4Gts n) false false (ned_isPANCoor n) (ned_dataTransMode n) 0
               (ned_panCoorName n) (ned_isRecvGTS n) (ned_gtsPayload n) |>
   <| taskP ::= taskPending_init |>
   <| bcn ::= fun b => b<| rxBO := 15 |><| rxSO := 15 |><| beaconWaitingTx := false |>
                        <| notAssociated := true |><| bcnLossCounter := 0 |> |>
   <| tx := mkTxv false false false false false 0 0 0 0 |>
   <| csma ::= fun c => c<| csmacaWaitNextBeacon := false |><| backoffStatus := 0 |> |>
   <| tim ::= fun t => t<| lastTime_bcnRxTimer := 0 |><| inTxSD_txSDTimer := false |>
                        <| inRxSD_rxSDTimer := false |><| index_gtsTimer := 0 |> |>
   <| capability := mkDevCapability false true (macRxOnWhenIdle (mpib s)) false true host |>
   <| gts := mkGts 0 (replicate 7 no_gts) (u8 (aNumSuperframeSlots - 1)) 99 0 0 0 |>
   <| stats := mkStats 0 0 0 0 0 0 0 0 0 0 0 0 0 0 0 |>.

Definition initialize_stage0 (host : string) (n : Ned) : M Mac unit :=
  initializeQueueModule (ned_queue n);;
  bsn ← intrand 256;
  dsn ← intrand 256;
  let p := MPIB<| macBSN := u8 bsn |><| macDSN := u8 dsn |>
               <| macBeaconOrder := u8 (ned_BO n) |><| macSuperframeOrder := u8 (ned_SO n) |> in
  modify (fun s => s<| mpib := p |>);;
  lift (check_params p (ned_dataTransMode n));;
  modify (initial_members host n).

Definition startDevice : M Mac unit :=
  upd_mpib (fun p => p<| macBeaconOrder := 15 |><| macSuperframeOrder := 15 |>
                      <| macAssociationPermit := false |>);;
  PLME_SET_TRX_STATE_request phy_RX_ON.

Definition initialize (stage : Z) (host : string) (n : Ned) : M Mac unit :=
  if stage =? 0 then initialize_stage0 host n
  else if stage =? 1 then mret tt
  else if stage =? 2 then
    s ← self;
    if isPANCoor (par s) then
      if negb (String.eqb (panCoorName (par s)) host) then
        fail (Thrown "[MAC]: name of PAN coordinator does not match!")
      else scheduleAt (now s + panStartTime (par s)) START_PAN_COOR_TIMER
    else startDevice
  else mret tt.

(** A notification of the radio: its id and its channel; [None] if the details
    are not a [RadioState].  The test of the id precedes the first label of the
    switch and is never executed. *)
Definition receiveChangeNotification (channel_changed : bool) (details : option (Z * Z)) : M Mac unit :=
  when channel_changed (
    match details with
    | None => fail (Thrown "check_and_cast: not a RadioState")
    | Some (_, channel) =>
        upd_phy (fun p => p<| phyCurrentChannel := channel |>
                           <| phy_bitrate := getRate "b" channel |>
                           <| phy_symbolrate := getRate "s" channel |>);;
        s ← self;
        upd_bcn (fun b => b<| bPeriod := secs aUnitBackoffPeriod (phy_symbolrate (phy s)) |>)
    end).

Definition finish : M Mac unit :=
  s ← self;
  let t := stats s in
  if now s =? 0 then mret tt
  else
    emit (Scalar "Total simulation time" (now s));;
    emit (Scalar "total num of upper pkts received" (numUpperPkt t));;
    emit (Scalar "num of upper pkts dropped" (numUpperPktLost t));;
    emit (Scalar "num of BEACON pkts sent" (numTxBcnPkt t));;
    emit (Scalar "num of DATA pkts sent successfully" (numTxDataSucc t));;
    emit (Scalar "num of DATA pkts failed" (numTxDataFail t));;
    emit (Scalar "num of DATA pkts sent successfully in GTS" (numTxGTSSucc t));;
    emit (Scalar "num of DATA pkts failed in GTS" (numTxGTSFail t));;
    emit (Scalar "num of ACK pkts sent" (numTxAckPkt t));;
    emit (Scalar "num of BEACON pkts received" (numRxBcnPkt t));;
    emit (Scalar "num of BEACON pkts lost" (numLostBcn t));;
    emit (Scalar "num of DATA pkts received" (numRxDataPkt t));;
    emit (Scalar "num of DATA pkts received in GTS" (numRxGTSPkt t));;
    emit (Scalar "num of ACK pkts received" (numRxAckPkt t));;
    emit (Scalar "num of collisions" (numCollision t)).

(** ** Methods called by other modules *)

Definition getMacAddr : M Mac Z := s ← self; mret (aExtendedAddress s).

Definition associate_request_cmd (extAddr : Z) (capaInfo : DevCapability) : M Mac Z :=
  modify (fun s => s<| deviceList ::= fun l => <[extAddr := capaInfo]> l |>);;
  mret extAddr.

Definition gts_request_cmd (macShortAddr length : Z) (isReceive : bool) : M Mac Z :=
  s ← self;
  assert_ (isPANCoor (par s)) "isPANCoor";;
  match deviceList s !! macShortAddr with
  | None => mret 0
  | Some _ =>
      if 7 <=? gtsCount (gts s) then mret 0
      else
        let t_cap := u32 (txSfSlotDuration (bcn s) * (tmp_finalCap (gts s) - length + 1)) in
        if t_cap <? aMinCAPLength then mret 0
        else
          let fcap := u8 (tmp_finalCap (gts s) - length) in
          let start := u8 (fcap + 1) in
          upd_gts (fun g => g<| tmp_finalCap := fcap |>);;
          upd_gts_at (gtsCount (gts s)) (fun d =>
            d<| devShortAddr := macShortAddr |><| startSlot := start |>
             <| length_ := length |><| isRecvGTS_ := isReceive |>);;
          upd_gts (fun g => g<| gtsCount := u8 (gtsCount g + 1) |>);;
          mret start
  end.

(** ** Beacons sent *)

(** [startBcnTxTimer()]: alternates between turning the transmitter on and
    sending. *)
Definition startBcnTxTimer : M Mac unit :=
  s ← self;
  (if negb (txNow_bcnTxTimer (tim s)) then
     restartAt (now s + secs aTurnaroundTime (phy_symbolrate (phy s))) MAC_BCN_TX_TIMER
   else if negb (macBeaconOrder (mpib s) =? 15) then
     d ← lift (int_shl aBaseSuperframeDuration (macBeaconOrder (mpib s)));
     restartAt (now s + secs (d - aTurnaroundTime) (phy_symbolrate (phy s))) MAC_BCN_TX_TIMER
   else mret tt);;
  upd_tim (fun t => t<| txNow_bcnTxTimer ::= negb |>).

Definition beacon_frame (spec : SuperframeSpec) (s : Mac) : Frame :=
  let p := mpib s in
  let long := macShortAddress p =? 0xfffe in
  let c := mkFrameCtrl Ieee802154_BEACON (secuBeacon (par s)) false false false defFrmCtrl_AddrModeNone
             (if long then defFrmCtrl_AddrMode64 else defFrmCtrl_AddrMode16) in
  mkFrame (BeaconFrame spec) c (macBSN p) 0 0 (macPANId p)
    (if long then aExtendedAddress s else macShortAddress p) false false 0 0 None.

Definition sendBeacon : M Mac unit :=
  s ← self;
  assert_ (negb (is_set (txBeacon (buf s)))) "txBeacon == NULL";;
  bi ← lift (int_shl aBaseSuperframeDuration (macBeaconOrder (mpib s)));
  sd ← lift (int_shl aBaseSuperframeDuration (macSuperframeOrder (mpib s)));
  let spec := mkSuperframeSpec (macBeaconOrder (mpib s)) bi (macSuperframeOrder (mpib s)) sd
                (tmp_finalCap (gts s)) (macBattLifeExt (mpib s)) (isPANCoor (par s))
                (macAssociationPermit (mpib s)) in
  let tmpBcn := beacon_frame spec s in
  upd_mpib (fun p => p<| macBSN := u8 (macBSN p + 1) |>);;
  upd_bcn (fun b => b<| txSfSpec := spec |>);;
  len ← lift (calFrmByteLength tmpBcn);
  p ← new_frame (tmpBcn<| ownByteLength := len |>);
  upd_buf (fun b => b<| txBeacon := p |><| txPkt := p |>);;
  upd_mpib (fun q => q<| macBeaconTxTime := now s |>);;
  sendDown_dup p;;
  startTxSDTimer;;
  s ← self;
  when (0 <? gtsCount (gts s)) (
    upd_tim (fun t => t<| index_gtsTimer := u8 (gtsCount (gts s) - 1) |>);;
    gtsScheduler).

Definition dropAck : M Mac unit :=
  s ← self;
  when (is_set (txAck (buf s))) (
    delete_frame (txAck (buf s));;
    upd_buf (fun b => b<| txAck := None |>)).

Definition handleBcnTxTimer : M Mac unit :=
  s ← self;
  when (negb (macBeaconOrder (mpib s) =? 15)) (
    if negb (txNow_bcnTxTimer (tim s)) then
      upd_bcn (fun b => b<| beaconWaitingTx := true |>);;
      PLME_SET_TRX_STATE_request phy_FORCE_TRX_OFF;;
      dropAck;;
      PLME_SET_TRX_STATE_request phy_TX_ON
    else sendBeacon);;
  startBcnTxTimer.

(** [startBcnTxTimer(true, startTime)] *)
Definition startBcnTxTimer_first (startTime : Z) : M Mac unit :=
  s ← self;
  assert_ (negb (macBeaconOrder (mpib s) =? 15)) "mpib.macBeaconOrder != 15";;
  if startTime =? 0 then
    upd_tim (fun t => t<| txNow_bcnTxTimer := true |>);;
    upd_bcn (fun b => b<| beaconWaitingTx := true |>);;
    PLME_SET_TRX_STATE_request phy_FORCE_TRX_OFF;;
    PLME_SET_TRX_STATE_request phy_TX_ON;;
    handleBcnTxTimer
  else
    upd_tim (fun t => t<| txNow_bcnTxTimer := false |>);;
    let wtime := startTime - (now s - bcnRxTime (bcn s)) - secs aTurnaroundTime (phy_symbolrate (phy s)) in
    assert_ (0 <=? wtime) "wtime >= 0.0";;
    restartAt (now s + wtime) MAC_BCN_TX_TIMER.

Definition startPANCoor : M Mac unit :=
  s ← self;
  upd_mpib (fun p => p<| macShortAddress := aExtendedAddress s |><| macPANId := aExtendedAddress s |>
                      <| macAssociationPermit := true |>);;
  d ← lift (int_shl aBaseSlotDuration (macSuperframeOrder (mpib s)));
  upd_bcn (fun b => b<| txSfSlotDuration := u32 d |>);;
  startBcnTxTimer_first 0.

(** ** Other timers *)

Definition handleBcnRxTimer : M Mac unit :=
  s ← self;
  when (negb (rxBO (bcn s) =? 15)) (
    dropAck;;
    PLME_SET_TRX_STATE_request phy_RX_ON;;
    when (negb (bcnLossCounter (bcn s) =? 0)) (upd_stats (fun t => t<| numCollision ::= Z.succ |>));;
    upd_bcn (fun b => b<| bcnLossCounter := u8 (bcnLossCounter b + 1) |>);;
    startBcnRxTimer).

Definition handleAckTimeoutTimer : M Mac unit :=
  s ← self;
  let b := buf s in
  if is_set (txBcnCmd b) || is_set (txBcnCmdUpper b) || is_set (txData b)
     || (is_set (txGTS b) && waitGTSAck (tx s))
  then dispatch phy_BUSY "handleAckTimeoutTimer"
  else fail (Thrown "handleAckTimeoutTimer").

Definition handleTxAckBoundTimer : M Mac unit :=
  s ← self;
  when (negb (beaconWaitingTx (bcn s))) (
    when (is_set (txAck (buf s))) (
      upd_buf (fun b => b<| txPkt := txAck b |>);;
      sendDown_dup (txAck (buf s)))).

Definition handleTxCmdDataBoundTimer : M Mac unit :=
  s ← self;
  let b := buf s in
  if txBcnCmd b ==! txCsmaca b then
    upd_buf (fun b => b<| txPkt := txBcnCmd b |>);; sendDown_dup (txBcnCmd b)
  else if txBcnCmdUpper b ==! txCsmaca b then
    upd_buf (fun b => b<| txPkt := txBcnCmdUpper b |>);; sendDown_dup (txBcnCmdUpper b)
  else if txData b ==! txCsmaca b then
    upd_buf (fun b => b<| txPkt := txData b |>);; sendDown_dup (txData b)
  else mret tt.

Definition handleIfsTimer : M Mac unit :=
  s ← self;
  let b := buf s in
  assert_ (is_set (rxData b) || is_set (rxCmd b) || is_set (txGTS b))
    "rxData != NULL || rxCmd != NULL || txGTS != NULL";;
  if is_set (rxCmd b) then mret tt
  else if is_set (rxData b) then
    MCPS_DATA_indication (rxData b);;
    upd_buf (fun b => b<| rxData := None |>)
  else if is_set (txGTS b) then
    busy ← get_taskStatus TP_MCPS_DATA_REQUEST;
    step ← get_taskStep TP_MCPS_DATA_REQUEST;
    assert_ (busy && ((step : Z) =? 4)) "taskStatus(TP_MCPS_DATA_REQUEST) && taskStep == 4";;
    FSM_MCPS_DATA_request phy_SUCCESS
  else mret tt.

Definition handleSDTimer : M Mac unit :=
  upd_tim (fun t => t<| inTxSD_txSDTimer := false |><| inRxSD_rxSDTimer := false |>);;
  s ← self;
  when (isPANCoor (par s)) (upd_gts (fun g => g<| indexCurrGts := 99 |>));;
  if negb (is_set (txAck (buf s))) then PLME_SET_TRX_STATE_request phy_TRX_OFF
  else upd_stats (fun t => t<| numTxAckInactive ::= Z.succ |>).

Definition handleFinalCapTimer : M Mac unit :=
  s ← self;
  assert_ (finalCap (rxSfSpec (bcn s)) + 1 <? gtsStartSlot (gts s)) "gtsStartSlot > rxSfSpec.finalCap + 1";;
  PLME_SET_TRX_STATE_request phy_TRX_OFF.

(** The data waiting for the GTS that starts goes to the machine. *)
Definition startGtsTransmission : M Mac unit :=
  busy ← get_taskStatus TP_MCPS_DATA_REQUEST;
  step ← get_taskStep TP_MCPS_DATA_REQUEST;
  assert_ (busy && ((step : Z) =? 1)) "taskStatus(TP_MCPS_DATA_REQUEST) && taskStep == 1";;
  FSM_MCPS_DATA_request phy_SUCCESS.

Definition handleGtsTimer_coordinator : M Mac unit :=
  s ← self;
  let i := index_gtsTimer (tim s) in
  upd_gts (fun g => g<| indexCurrGts := i |>);;
  d ← gts_at i s;
  (if negb (isRecvGTS_ d) then PLME_SET_TRX_STATE_request phy_RX_ON
   else if is_set (txGTS (buf s)) && isTxPending d then startGtsTransmission
   else PLME_SET_TRX_STATE_request phy_TRX_OFF);;
  s ← self;
  when (0 <? index_gtsTimer (tim s)) (
    upd_tim (fun t => t<| index_gtsTimer := u8 (index_gtsTimer t - 1) |>);;
    gtsScheduler).

Definition handleGtsTimer_device : M Mac unit :=
  s ← self;
  if negb (index_gtsTimer (tim s) =? 99) then
    (if isRecvGTS (par s) then PLME_SET_TRX_STATE_request phy_RX_ON
     else if is_set (txGTS (buf s)) then startGtsTransmission
     else PLME_SET_TRX_STATE_request phy_FORCE_TRX_OFF);;
    upd_tim (fun t => t<| index_gtsTimer := 99 |>);;
    let w_time := secs (u32 (gtsLength (gts s) * rxSfSlotDuration (bcn s))) (phy_symbolrate (phy s)) in
    let w_time := if isRecvGTS (par s) then w_time + secs aTurnaroundTime (phy_symbolrate (phy s))
                  else w_time in
    startGtsTimer w_time
  else
    upd_tim (fun t => t<| index_gtsTimer := 0 |>);;
    PLME_SET_TRX_STATE_request phy_TRX_OFF.

Definition handleGtsTimer : M Mac unit :=
  s ← self;
  if isPANCoor (par s) then handleGtsTimer_coordinator else handleGtsTimer_device.

Definition handleSelfMsg (kind_ : Ieee802154MacTimerType) : M Mac unit :=
  match kind_ with
  | START_PAN_COOR_TIMER => startPANCoor
  | MAC_BACKOFF_TIMER => handleBackoffTimer
  | MAC_DEFER_CCA_TIMER => handleDeferCCATimer
  | MAC_BCN_RX_TIMER => handleBcnRxTimer
  | MAC_BCN_TX_TIMER => handleBcnTxTimer
  | MAC_ACK_TIMEOUT_TIMER => handleAckTimeoutTimer
  | MAC_TX_ACK_BOUND_TIMER => handleTxAckBoundTimer
  | MAC_TX_CMD_DATA_BOUND_TIMER => handleTxCmdDataBoundTimer
  | MAC_IFS_TIMER => handleIfsTimer
  | MAC_TX_SD_TIMER | MAC_RX_SD_TIMER => handleSDTimer
  | MAC_FINAL_CAP_TIMER => handleFinalCapTimer
  | MAC_GTS_TIMER => handleGtsTimer
  end.

(** ** Primitives from the PHY *)

Definition handle_PD_DATA_confirm (status : PHYenum) : M Mac unit :=
  upd_tx (fun t => t<| inTransmission := false |>);;
  s ← self;
  when (backoffStatus (csma s) =? 1) (upd_csma (fun c => c<| backoffStatus := 0 |>));;
  let b := buf s in
  if status ==! phy_SUCCESS then dispatch status "handle_PD_DATA_confirm"
  else if txPkt b ==! txBeacon b then
    upd_bcn (fun b => b<| beaconWaitingTx := false |>);;
    delete_frame (txBeacon b);;
    upd_buf (fun b => b<| txBeacon := None |>)
  else if txPkt b ==! txAck b then
    delete_frame (txAck b);;
    upd_buf (fun b => b<| txAck := None |>)
  else if txPkt b ==! txGTS b then fail (Thrown "[GTS]: GTS transmission failed")
  else mret tt.

Definition csmacaSucceeds (status : PHYenum) : M Mac unit :=
  upd_buf (fun b => b<| tmpCsmaca := None |>);;
  csmacaCallBack status.

Definition handle_PLME_CCA_confirm (status : PHYenum) : M Mac unit :=
  pending ← get_taskStatus TP_CCA_CSMACA;
  when pending (
    put_taskStatus TP_CCA_CSMACA false;;
    s ← self;
    if status ==! phy_IDLE then
      if negb (beaconEnabled (bcn s)) then csmacaSucceeds phy_IDLE
      else
        upd_csma (fun c => c<| CW := u8 (CW c - 1) |>);;
        s ← self;
        if CW (csma s) =? 0 then
          ok ← csmacaCanProceed 0 true;
          if (ok : bool) then csmacaSucceeds phy_IDLE
          else upd_csma (fun c => c<| CW := 2 |><| bPeriodsLeft := 0 |><| csmacaWaitNextBeacon := true |>)
        else handleBackoffTimer
    else
      when (beaconEnabled (bcn s)) (upd_csma (fun c => c<| CW := 2 |>));;
      upd_csma (fun c => c<| NB := u8 (NB c + 1) |>);;
      s ← self;
      if macMaxCSMABackoffs (mpib s) <? NB (csma s) then csmacaSucceeds phy_BUSY
      else
        upd_csma (fun c => c<| BE := u8 (BE c + 1) |>);;
        upd_csma (fun c => c<| BE := if aMaxBE <? BE c then aMaxBE else BE c |>);;
        csmacaStart false None false).

(** With the transmitter on, what is waiting goes out: on a backoff boundary
    if beacons are enabled. *)
Definition transmitOnTxOn : M Mac unit :=
  s ← self;
  let b := buf s in
  let nonbeacon := (macBeaconOrder (mpib s) =? 15) && (rxBO (bcn s) =? 15) in
  if beaconWaitingTx (bcn s) then mret tt
  else if is_set (txAck b) then
    f ← deref (txAck b);
    delay ← (if nonbeacon then mret 0
             else if isGTS f then mret 0
             else
               d ← csmacaLocateBoundary (dstAddr f =? macCoordShortAddress (mpib s)) 0;
               assert_ (d <? bPeriod (bcn s)) "delay < bPeriod";;
               mret d);
    if (delay : Z) =? 0 then handleTxAckBoundTimer else startTxAckBoundTimer delay
  else if is_set (txGTS b) then
    upd_buf (fun b => b<| txPkt := txGTS b |>);;
    sendDown_dup (txGTS b)
  else
    delay ← (if nonbeacon then mret 0
             else up ← toParent (txCsmaca b); csmacaLocateBoundary up 0);
    if (delay : Z) =? 0 then handleTxCmdDataBoundTimer else startTxCmdDataBoundTimer delay.

Definition handle_PLME_SET_TRX_STATE_confirm (status : PHYenum) : M Mac unit :=
  s ← self;
  let status := if status ==! phy_SUCCESS then trx_state_req (phy s) else status in
  when (backoffStatus (csma s) =? 99) (
    when (trx_state_req (phy s) ==! phy_RX_ON) (
      pending ← get_taskStatus TP_RX_ON_CSMACA;
      when pending (
        put_taskStatus TP_RX_ON_CSMACA false;;
        csmaca_handle_RX_ON_confirm status)));;
  when (status ==! phy_TX_ON) transmitOnTxOn.

(** The kind of a message decides which primitive it is. *)
Definition primitive_of_kind (k : Z) : option Ieee802154MacPhyPrimitiveType :=
  if k =? 1 then Some PD_DATA_CONFIRM else if k =? 2 then Some PLME_CCA_REQUEST
  else if k =? 3 then Some PLME_CCA_CONFIRM else if k =? 4 then Some PLME_ED_REQUEST
  else if k =? 5 then Some PLME_ED_CONFIRM else if k =? 6 then Some PLME_SET_TRX_STATE_REQUEST
  else if k =? 7 then Some PLME_SET_TRX_STATE_CONFIRM else if k =? 8 then Some PLME_SET_REQUEST
  else if k =? 9 then Some PLME_SET_CONFIRM else None.

Definition handleMacPhyPrimitive (msgkind : Z) (status : PHYenum) : M Mac unit :=
  match primitive_of_kind msgkind with
  | Some PD_DATA_CONFIRM => handle_PD_DATA_confirm status
  | Some PLME_CCA_CONFIRM => handle_PLME_CCA_confirm status
  | Some PLME_ED_CONFIRM => mret tt
  | Some PLME_SET_TRX_STATE_CONFIRM => handle_PLME_SET_TRX_STATE_confirm status
  | Some PLME_SET_CONFIRM => mret tt
  | _ => fail (Thrown "unknown primitive")
  end.

(** ** Frames received *)

Definition handleData (frame : ptr) : M Mac unit :=
  f ← deref frame;
  s ← self;
  assert_ (negb (is_set (rxData (buf s)))) "rxData == NULL";;
  upd_buf (fun b => b<| rxData := frame |>);;
  when (negb (ackReq (frmCtrl f))) (startIfsTimer (getByteLength f <=? aMaxSIFSFrameSize)).

(** The retry counter of the frame acknowledged. *)
Definition resetRetry (s : Mac) (t : Txv) : Txv :=
  let b := buf s in
  if txPkt b ==! txBcnCmd b then t<| numBcnCmdRetry := 0 |>
  else if txPkt b ==! txBcnCmdUpper b then t<| numBcnCmdUpperRetry := 0 |>
  else if txPkt b ==! txData b then t<| numDataRetry := 0 |>
  else if txPkt b ==! txGTS b then t<| numGTSRetry := 0 |>
  else t.

Definition handleAck (frame : ptr) : M Mac unit :=
  s ← self;
  let b := buf s in
  if negb (is_set (txBcnCmd b)) && negb (is_set (txBcnCmdUpper b)) && negb (is_set (txData b))
     && negb (is_set (txGTS b)) then delete_frame frame
  else if (txPkt b !=! txBcnCmd b) && (txPkt b !=! txBcnCmdUpper b) && (txPkt b !=! txData b)
          && (txPkt b !=! txGTS b) then delete_frame frame
  else
    f ← deref frame;
    g ← cast_deref (txPkt b);
    if negb (bdsn f =? bdsn g) then delete_frame frame
    else if isScheduled MAC_ACK_TIMEOUT_TIMER s then
      upd_stats (fun t => t<| numRxAckPkt ::= Z.succ |>);;
      cancelEvent MAC_ACK_TIMEOUT_TIMER;;
      upd_tx (resetRetry s);;
      dispatch phy_SUCCESS "handleAck";;
      delete_frame frame
    else if txPkt b !=! txData b then delete_frame frame
    else
      when (backoffStatus (csma s) =? 99) (
        ev_deref (txData b);;
        upd_csma (fun c => c<| backoffStatus := 0 |>);;
        csmacaCancel);;
      dispatch phy_SUCCESS "handleAck";;
      delete_frame frame.

Definition handleCommand (frame : ptr) : M Mac unit :=
  f ← deref frame;
  match cls f with
  | CmdFrame cmdType =>
      let keep :=
        s ← self;
        assert_ (negb (is_set (rxCmd (buf s)))) "rxCmd == NULL";;
        upd_buf (fun b => b<| rxCmd := frame |>) in
      match cmdType with
      | Ieee802154_ASSOCIATION_REQUEST => keep
      | Ieee802154_DATA_REQUEST => keep
      | Ieee802154_BEACON_REQUEST => fail (Thrown "Beacon request")
      | Ieee802154_OTHER_CMD => fail (Thrown "Undefined MAC command type")
      | Ieee802154_ASSOCIATION_RESPONSE | Ieee802154_DISASSOCIATION_NOTIFICATION
      | Ieee802154_PANID_CONFLICT_NOTIFICATION | Ieee802154_ORPHAN_NOTIFICATION
      | Ieee802154_COORDINATOR_REALIGNMENT | Ieee802154_GTS_REQUEST => delete_frame frame
      end
  | _ => fail (Thrown "check_and_cast: not an Ieee802154CmdFrame")
  end.

(** The first part of [handleBeacon]: the superframe it announces. *)
Definition readBeacon (f : Frame) (sfSpec : SuperframeSpec) : M Mac unit :=
  slot ← lift (int_shl aBaseSlotDuration (SO sfSpec));
  s ← self;
  let duration := calDuration f s in
  upd_bcn (fun b => b<| rxSfSpec := sfSpec |><| rxBO := BO sfSpec |><| rxSO := SO sfSpec |>
                     <| rxSfSlotDuration := u32 slot |>
                     <| bcnRxTime := now s - duration |><| schedBcnRxTime := now s - duration |>);;
  let tmpf := duration * phy_symbolrate (phy s) + ifs_for (getByteLength f) * second in
  dur ← lift (backoff_periods tmpf);
  upd_bcn (fun b => b<| rxBcnDuration := dur |>
                     <| rxPanDescriptor := mkPAN_ELE (srcAddrMode (frmCtrl f)) (srcPanId f) (srcAddr f)
                                             (u8 (phyCurrentChannel (phy s))) |>);;
  startRxSDTimer;;
  upd_bcn (fun b => b<| bcnLossCounter := 0 |>).

(** The transaction the device plans for in its GTS. *)
Definition gts_duration (s : Mac) : Z :=
  let dataFrmLength := 11 + gtsPayload (par s) + 2 in
  let ifs := ifs_for dataFrmLength in
  secs ((def_phyHeaderLength + dataFrmLength) * 8) (phy_bitrate (phy s))
  + (if ack4Gts (par s) then secs (macAckWaitDuration (mpib s) + ifs) (phy_symbolrate (phy s))
     else secs (aTurnaroundTime + ifs) (phy_symbolrate (phy s))).

(** The number of slots of [slot] picoseconds it needs. *)
Definition gts_slots (duration slot : Z) : outcome Z :=
  if duration <? slot then Ok 1
  else
    let n := duration / slot in
    if (0 <=? n) && (n <? 256) then Ok (if 0 <? Z.rem duration slot then u8 (n + 1) else n)
    else Fault (Undefined "conversion to UINT_8 out of range").

(** The device asks the coordinator for a GTS. *)
Definition requestGts : M World unit :=
  len ← own (
    s ← self;
    let duration := gts_duration s in
    upd_gts (fun g => g<| gtsTransDuration := duration |>);;
    n ← lift (gts_slots duration (secs (rxSfSlotDuration (bcn s)) (phy_symbolrate (phy s))));
    upd_gts (fun g => g<| gtsLength := n |>);;
    mret n);
  s ← own self;
  start ← remote (panCoorName (par s)) (gts_request_cmd (macShortAddress (mpib s)) len (isRecvGTS (par s)));
  own (upd_gts (fun g => g<| gtsStartSlot := start |>));;
  if (start : Z) =? 0 then fail (Thrown "[GTS]: request for GTS failed!") else mret tt.

(** The first beacon: association with its sender. *)
Definition associate (f : Frame) : M World unit :=
  s ← own self;
  own (
    assert_ (macCoordShortAddress (mpib s) =? def_macCoordShortAddress)
      "mpib.macCoordShortAddress == def_macCoordShortAddress";;
    assert_ (macPANId (mpib s) =? def_macPANId) "mpib.macPANId == def_macPANId";;
    upd_bcn (fun b => b<| notAssociated := false |>);;
    upd_mpib (fun p => p<| macPANId := srcPanId f |><| macCoordShortAddress := srcAddr f |>
                        <| macCoordExtendedAddress := srcAddr f |>));;
  addr ← remote (panCoorName (par s)) (associate_request_cmd (aExtendedAddress s) (capability s));
  own (upd_mpib (fun p => p<| macShortAddress := addr |>));;
  own startBcnRxTimer;;
  when (dataTransMode (par s) =? 3) requestGts.

(** A later beacon: the timers of the GTS of this superframe. *)
Definition scheduleMyGts : M Mac unit :=
  s ← self;
  let rate := phy_symbolrate (phy s) in
  let w_time := bcnRxTime (bcn s)
                + secs (u32 (gtsStartSlot (gts s) * rxSfSlotDuration (bcn s))) rate - now s in
  startGtsTimer (if isRecvGTS (par s) then w_time - secs aTurnaroundTime rate else w_time);;
  when (negb (gtsStartSlot (gts s) =? finalCap (rxSfSpec (bcn s)) + 1)) (
    assert_ (finalCap (rxSfSpec (bcn s)) <? gtsStartSlot (gts s)) "gtsStartSlot > rxSfSpec.finalCap";;
    startFinalCapTimer (bcnRxTime (bcn s)
      + secs (u32 ((finalCap (rxSfSpec (bcn s)) + 1) * rxSfSlotDuration (bcn s))) rate - now s)).

Definition handleBeacon (frame : ptr) : M World unit :=
  f ← own (deref frame);
  match cls f with
  | BeaconFrame sfSpec =>
      own (readBeacon f sfSpec);;
      s ← own self;
      (if notAssociated (bcn s) then associate f
       else when (negb (gtsStartSlot (gts s) =? 0)) (own scheduleMyGts));;
      own (
        dispatch phy_SUCCESS "handleBeacon";;
        s ← self;
        when (backoffStatus (csma s) =? 99) csmacaTrxBeacon;;
        resetTRX;;
        delete_frame frame;;
        upd_stats (fun t => t<| numRxBcnPkt ::= Z.succ |>))
  | _ => fail (Thrown "check_and_cast: not an Ieee802154BeaconFrame")
  end.

(** The timing checks on a data frame sent in a GTS. *)
Definition checkGtsTiming (f : Frame) : M Mac unit :=
  s ← self;
  when ((frmType (frmCtrl f) ==! Ieee802154_DATA) && isGTS f) (
    if isPANCoor (par s) then
      if indexCurrGts (gts s) =? 99 then
        fail (Thrown "[GTS]: timing error, PAN coordinator is not supposed to receive this DATA pkt at this time!")
      else
        d ← gts_at (indexCurrGts (gts s)) s;
        when (isRecvGTS_ d || negb (devShortAddr d =? srcAddr f))
          (fail (Thrown "[GTS]: timing error, PAN coordinator is not supposed to receive this DATA pkt at this time!"))
    else
      when (negb (index_gtsTimer (tim s) =? 99) || negb (isRecvGTS (par s))
            || negb (srcAddr f =? macCoordShortAddress (mpib s)))
        (fail (Thrown "[GTS]: timing error, the device is not supposed to receive this DATA pkt at this time!"))).

(** The acknowledgement of a data or command frame, if it asks for one. *)
Definition acknowledge (f : Frame) : M Mac unit :=
  s ← self;
  let t := frmType (frmCtrl f) in
  when ((t ==! Ieee802154_DATA) || (t ==! Ieee802154_CMD)) (
    if ackReq (frmCtrl f) then
      let noAck := (t ==! Ieee802154_CMD) && (is_set (rxCmd (buf s)) || is_set (txBcnCmd (buf s))) in
      when (negb noAck) (
        constructACK f;;
        when (backoffStatus (csma s) =? 99)
          (upd_csma (fun c => c<| backoffStatus := 0 |>);; csmacaCancel);;
        PLME_SET_TRX_STATE_request phy_TX_ON)
    else if isGTS f then
      if isPANCoor (par s) then PLME_SET_TRX_STATE_request phy_RX_ON
      else PLME_SET_TRX_STATE_request phy_TRX_OFF
    else resetTRX).

(** The duplicate test; for an ACK the variable is left as it was found. *)
Definition chkDuplicate (f : Frame) : M Mac Z :=
  match frmType (frmCtrl f) with
  | Ieee802154_BEACON =>
      zoom (fun s => hlistB s) (fun l s => s<| hlistB := l |>) (chkAddUpdHListLink (srcAddr f) (bdsn f))
  | Ieee802154_ACK => mret uninit_int
  | _ => zoom (fun s => hlistD s) (fun l s => s<| hlistD := l |>) (chkAddUpdHListLink (srcAddr f) (bdsn f))
  end.

(** The steps before the frame is handed to its handler; [None] if it has been
    dropped. *)
Definition acceptFrame (f : Frame) : M Mac (option ptr) :=
  frame ← new_frame f;
  filtered ← frameFilter f;
  if (filtered : bool) then delete_frame frame;; mret None
  else
    checkGtsTiming f;;
    acknowledge f;;
    s ← self;
    let t := frmType (frmCtrl f) in
    if ((t ==! Ieee802154_CMD) && (is_set (rxCmd (buf s)) || is_set (txBcnCmd (buf s))))
       || ((t ==! Ieee802154_DATA) && is_set (rxData (buf s)))
    then delete_frame frame;; mret None
    else
      i ← chkDuplicate f;
      if (i : Z) =? 2 then delete_frame frame;; mret None
      else mret (Some frame).

Definition handleLowerMsg (f : Frame) : M World unit :=
  r ← own (acceptFrame f);
  match r with
  | None => mret tt
  | Some frame =>
      match frmType (frmCtrl f) with
      | Ieee802154_BEACON => handleBeacon frame
      | Ieee802154_DATA => own (handleData frame)
      | Ieee802154_ACK => own (handleAck frame)
      | Ieee802154_CMD => own (handleCommand frame)
      | Ieee802154_OTHER => fail (Thrown "[MAC]: undefined MAC frame type")
      end
  end.

(** ** Packets from above *)

Definition drop_upper : M Mac unit :=
  upd_stats (fun t => t<| numUpperPktLost ::= Z.succ |>);;
  reqtMsgFromIFq.

(** The control information of a packet: [Ieee802154NetworkCtrlInfo]. *)
Record NetCtrl := mkNetCtrl {
  toParent_ : bool;
  destName : string;
}.

(** The coordinator's address, if the packet may be sent there. *)
Definition parent_address (s : Mac) : M Mac (option Z) :=
  if notAssociated (bcn s) then mret None
  else if dataTransMode (par s) =? 3 then
    assert_ (negb (isPANCoor (par s))) "!isPANCoor";;
    mret (if (gtsStartSlot (gts s) =? 0) || isRecvGTS (par s) then None
          else Some (macCoordShortAddress (mpib s)))
  else mret (Some (macCoordShortAddress (mpib s))).

(** The first [n] entries of the GTS list are searched for a receive GTS of the
    device; the loop stops at the first. *)
Definition find_recv_gts (n : nat) (addr : Z) (l : list GTSDescriptor) : option nat :=
  fst <$> list_find (fun d => devShortAddr d = addr /\ isRecvGTS_ d = true) (take n l).

(** The address of a device by its host name, if the packet may be sent there. *)
Definition device_address (name : string) : M World (option Z) :=
  w ← gets (fun w => w);
  if negb (String.eqb name (self_name w)) && negb (bool_decide (is_Some (others w !! name)))
  then fail (Thrown "[MAC]: address conversion fails, destination host does not exist!")
  else
    destAddr ← remote name getMacAddr;
    own (
      s ← self;
      match deviceList s !! destAddr with
      | None => mret None
      | Some _ =>
          if dataTransMode (par s) =? 3 then
            assert_ (isPANCoor (par s)) "isPANCoor";;
            match find_recv_gts (Z.to_nat (gtsCount (gts s))) destAddr (gtsList (gts s)) with
            | Some i => upd_gts_at (Z.of_nat i) (fun d => d<| isTxPending := true |>);; mret (Some destAddr)
            | None => mret None
            end
          else mret (Some destAddr)
      end).

Definition handleUpperMsg (msg : cPacket) (ctrl : option NetCtrl) : M World unit :=
  own (upd_stats (fun t => t<| numUpperPkt ::= Z.succ |>));;
  busy ← own (get_taskStatus TP_MCPS_DATA_REQUEST);
  if (busy : bool) then own drop_upper
  else if aMaxMACFrameSize <? pktByteLength msg then
    own (MCPS_DATA_confirm mac_INVALID_PARAMETER;; drop_upper)
  else
    match ctrl with
    | None => fail (Thrown "check_and_cast: cannot cast NULL")
    | Some control_info =>
        s ← own self;
        dest ← (if toParent_ control_info then own (parent_address s)
                else device_address (destName control_info));
        match dest with
        | None => own drop_upper
        | Some destAddr =>
            own (s ← self;
                 MCPS_DATA_request defFrmCtrl_AddrMode16 (macPANId (mpib s)) (macShortAddress (mpib s))
                   defFrmCtrl_AddrMode16 (macPANId (mpib s)) destAddr msg
                   (TxOption_of_int (dataTransMode (par s))))
        end
    end.

(** ** All messages *)

(** A message as it arrives: on the lower gate a primitive (whose length is
    zero), a frame or another packet; a timer; or a packet from above. *)
Inductive message :=
  | LowerPrimitive (kind_ : Z) (status : PHYenum)
  | LowerFrame (f : Frame)
  | LowerOther (kind_ bitLength : Z)
  | Timer (t : Ieee802154MacTimerType)
  | Upper (msg : cPacket) (ctrl : option NetCtrl).

Definition handleMessage (m : message) : M World unit :=
  let primitive_expected (k : Z) (handle : M World unit) :=
    if k =? 0 then fail (Thrown "[MAC]: message with length==0 is supposed to be a primitive, but msg kind is also zero")
    else handle in
  match m with
  | LowerPrimitive k status => primitive_expected k (own (handleMacPhyPrimitive k status))
  | LowerFrame f =>
      if getBitLength f =? 0
      then primitive_expected (kind f) (fail (Thrown "check_and_cast: not an Ieee802154MacPhyPrimitives"))
      else handleLowerMsg f
  | LowerOther k bits =>
      if bits =? 0 then primitive_expected k (fail (Thrown "check_and_cast: not an Ieee802154MacPhyPrimitives"))
      else mret tt
  | Timer t => own (handleSelfMsg t)
  | Upper msg ctrl => handleUpperMsg msg ctrl
  end.

End mac.
