(* ===== verification/MacSample.v ===== *)
(** * A small star network, for the witnesses of the MAC theorems

    A coordinator and a device on channel 11 (2.4 GHz), BO = 6 and SO = 4,
    brought up with the constructors and initialisation code of the model. *)

From S2P Require Import Prelude HList MacConst MacTypes MacUtil MacCsma MacTask MacHandlers.

Open Scope string_scope.
Open Scope list_scope.
Open Scope Z_scope.

#[export] Instance sample_env : MacEnv := {|
  mac_rand := fun _ => 5;
  uninit_int := 0;
  uninit_bool := false;
  ev_on := true;
  mac_alloc := fresh;
  mac_alloc_fresh := fun X => is_fresh X;
|}.

Definition no_spec : SuperframeSpec := mkSuperframeSpec 0 0 0 0 0 false false false.

(** Memory before construction. *)
Definition blank : Mac := mkMac
  (mkParams false false false false false 0 0 "" false 0) QNull
  (mkTaskPending false 0 "" DIRECT_TRANS false 0 false 0)
  (mkPhy 0 0 0 0 phy_SUCCESS) 0 MPIB (mkDevCapability false false false false false "")
  (mkBcn 0 0 0 0 0 0 0 0 0 no_spec no_spec (mkPAN_ELE 0 0 0 0) false false false 0)
  (mkCsma 0 0 0 0 0 false false) (mkGts 0 [] 0 0 0 0 0) no_buffers
  (mkTimers (fun _ => None) 0 false false false 0) (mkTxv false false false false false 0 0 0 0)
  empty_hlist empty_hlist ∅ (mkStats 0 0 0 0 0 0 0 0 0 0 0 0 0 0 0) ∅ 0 O [].

(** The state after a computation that returns. *)
Definition after {S A} (m : M S A) (s : S) : S :=
  match m s with Ok (_, s') => s' | Fault _ => s end.

Definition returns {S A} (m : M S A) (s : S) : option A :=
  match m s with Ok (a, _) => Some a | Fault _ => None end.

Lemma after_run {S A} (m : M S A) s a : returns m s = Some a -> m s = Ok (a, after m s).
Proof. unfold returns, after. destruct (m s) as [[??]|]; [|done]. by intros [= ->]. Qed.

(** Construction, the notification of the radio and the three stages. *)
Definition boot (addr : Z) (host : string) (n : Ned) : M Mac unit :=
  modify (fun g => (srwsn802154Mac_ctor addr g).1);;
  initialize 0 host n;;
  receiveChangeNotification true (Some (0, 11));;
  initialize 1 host n;;
  initialize 2 host n.

(** A timer goes off: the kernel takes it from its list and advances the clock. *)
Definition expire (t : Ieee802154MacTimerType) : M Mac unit :=
  s ← self;
  match scheduled (tim s) t with
  | Some time => modify (fun s => s<| now := time |>);; cancelEvent t;; handleSelfMsg t
  | None => mret tt
  end.

Definition ned_coor (mode : Z) : Ned := mkNed true 6 4 mode "coor" false 20 true None.
Definition ned_dev (mode : Z) : Ned := mkNed false 6 4 mode "coor" false 20 true None.

(** The coordinator after it has sent its first beacon, and that beacon. *)
Definition coor0 (mode : Z) : Mac := after (boot 0 "coor" (ned_coor mode);; expire START_PAN_COOR_TIMER) blank.
Definition first_beacon (mode : Z) : Frame :=
  match last (out (coor0 mode)) with
  | Some (ToPhy_frame f) => f
  | _ => mkFrame PlainFrame (mkFrameCtrl Ieee802154_OTHER false false false false 0 0) 0 0 0 0 0 false false 0 0 None
  end.

(** The device, and the network, when the beacon has arrived. *)
Definition dev0 (mode : Z) : Mac :=
  (after (boot 1 "dev" (ned_dev mode)) blank)<| now := calDuration (first_beacon mode) (coor0 mode) |>.
Definition net0 (mode : Z) : World := mkWorld "dev" (dev0 mode) {["coor" := Some (coor0 mode)]}.
Definition net1 (mode : Z) : World := after (handleMessage (LowerFrame (first_beacon mode))) (net0 mode).

(** The kernel delivers a timer: the state in which its handler is called. *)
Definition due (t : Ieee802154MacTimerType) (s : Mac) : Mac :=
  match scheduled (tim s) t with
  | Some time => after (cancelEvent t) (s<| now := time |>)
  | None => s
  end.

(** The coordinator when its second beacon is due. *)
Definition coor1 (mode : Z) : Mac :=
  due MAC_BCN_TX_TIMER
    (after (handle_PD_DATA_confirm phy_SUCCESS;; expire MAC_TX_SD_TIMER;; expire MAC_BCN_TX_TIMER) (coor0 mode)).

(** The device passes a packet to the coordinator: when CSMA/CA has started, and
    when the frame has been sent and its acknowledgement does not come. *)
Definition data_pkt : cPacket := mkPacket 7 20.
Definition to_sink : message := Upper data_pkt (Some (mkNetCtrl true "coor")).
Definition net2 : World := after (handleMessage to_sink) (net1 1).
Definition channel_idle : M Mac unit :=
  handle_PLME_SET_TRX_STATE_confirm phy_RX_ON;; handle_PLME_CCA_confirm phy_IDLE.
Definition net3 : World :=
  after (own (expire MAC_BACKOFF_TIMER;; channel_idle;; channel_idle;;
              handle_PLME_SET_TRX_STATE_confirm phy_TX_ON;; handle_PD_DATA_confirm phy_SUCCESS)) net2.
Definition data_sent : Frame :=
  match frames (me net3) !! 1%positive with Some f => f | None => first_beacon 1 end.
