(* ===== verification/MacGts.v ===== *)
(** * The guaranteed time slots: theorems about [gts_request_cmd] *)

From S2P Require Import Prelude HList MacConst MacTypes MacUtil MacCsma MacTask MacHandlers MacSample.

Open Scope string_scope.
Open Scope list_scope.
Open Scope Z_scope.

(** ** The allocation *)

(** The descriptors in use. *)
Definition allocated (g : Gts) : list GTSDescriptor := take (Z.to_nat (gtsCount g)) (gtsList g).

(** Slots handed out from [top] downwards without a gap. *)
Fixpoint packed (top : Z) (l : list GTSDescriptor) : Prop :=
  match l with
  | [] => True
  | d :: l' => startSlot d + length_ d = top /\ 0 < length_ d /\ packed (startSlot d) l'
  end.

Fixpoint bottom (top : Z) (l : list GTSDescriptor) : Z :=
  match l with [] => top | d :: l' => bottom (startSlot d) l' end.

(** The list of the coordinator, for slots of [slot] symbols: the GTSs fill the
    end of the superframe, the CAP is what is left and not shorter than the
    standard asks. *)
Record gts_ok (slot : Z) (g : Gts) : Prop := {
  ok_count : 0 <= gtsCount g <= 7;
  ok_array : length (gtsList g) = 7%nat;
  ok_packed : packed aNumSuperframeSlots (allocated g);
  ok_bottom : tmp_finalCap g + 1 = bottom aNumSuperframeSlots (allocated g);
  ok_cap : aMinCAPLength <= slot * (tmp_finalCap g + 1);
  ok_range : 0 <= tmp_finalCap g < aNumSuperframeSlots;
}.

Lemma packed_app top l d :
  packed top l -> startSlot d + length_ d = bottom top l -> 0 < length_ d -> packed top (l ++ [d]).
Proof.
  revert top. induction l as [|e l IH]; intros top; cbn; [done|].
  intros (? & ? & ?) ? ?. split_and!; auto.
Qed.

Lemma bottom_app top l d : bottom top (l ++ [d]) = startSlot d.
Proof. revert top. induction l; intros top; cbn; auto. Qed.

Lemma packed_below top l i d : packed top l -> l !! i = Some d -> startSlot d + length_ d <= top.
Proof.
  revert top i. induction l as [|e l IH]; intros top i; [done|].
  intros (He & Hl & Hp) Hi. destruct i as [|i]; [injection Hi as <-; lia|].
  specialize (IH _ _ Hp Hi). lia.
Qed.

Lemma packed_disjoint top l i j d e :
  packed top l -> (i < j)%nat -> l !! i = Some d -> l !! j = Some e ->
  startSlot e + length_ e <= startSlot d.
Proof.
  revert top i j. induction l as [|c l IH]; intros top i j; [done|].
  intros (Hc & Hl & Hp) Hij Hi Hj. destruct j as [|j]; [lia|].
  destruct i as [|i]; [injection Hi as <-; by eapply packed_below|].
  by apply (IH _ i j Hp); [lia| |].
Qed.

Lemma bottom_le top l i d : packed top l -> l !! i = Some d -> bottom top l <= startSlot d.
Proof.
  revert top i. induction l as [|c l IH]; intros top i; [done|].
  intros (Hc & Hl & Hp) Hi. cbn. destruct i as [|i]; [|by eapply IH].
  injection Hi as <-. clear Hc. generalize (startSlot c), Hp. clear.
  induction l as [|e l IH]; intros z; cbn; [lia|]. intros (? & ? & Hp). specialize (IH _ Hp). lia.
Qed.

(** A request that fits below the slots in use. *)
Record request_ok (len : Z) (s : Mac) : Prop := {
  req_coor : isPANCoor (par s) = true;
  req_gts : gts_ok (txSfSlotDuration (bcn s)) (gts s);
  req_slot : 0 < txSfSlotDuration (bcn s) <= aBaseSlotDuration * 2 ^ 14;
  req_len : 0 < len <= tmp_finalCap (gts s) + 1;
}.

(** Why a request is refused. *)
Definition refused (addr len : Z) (s : Mac) : Prop :=
  deviceList s !! addr = None \/ gtsCount (gts s) = 7
  \/ txSfSlotDuration (bcn s) * (tmp_finalCap (gts s) - len + 1) < aMinCAPLength.

Lemma u32_cap len s : request_ok len s ->
  u32 (txSfSlotDuration (bcn s) * (tmp_finalCap (gts s) - len + 1))
  = txSfSlotDuration (bcn s) * (tmp_finalCap (gts s) - len + 1).
Proof.
  intros [_ [_ _ _ _ _ Hr] Hs Hl]. apply u32_small. unfold aNumSuperframeSlots, aBaseSlotDuration in *.
  eval_pow2. nia.
Qed.

(** The descriptor of a granted request, in the entry [old] of the array. *)
Definition granted (addr start len : Z) (rcv : bool) (old : GTSDescriptor) : GTSDescriptor :=
  mkGTSDescriptor addr start len rcv (isTxPending old).

Lemma allocated_snoc g old d :
  0 <= gtsCount g < 7 -> length (gtsList g) = 7%nat -> gtsList g !! Z.to_nat (gtsCount g) = Some old ->
  take (Z.to_nat (gtsCount g + 1)) (<[Z.to_nat (gtsCount g) := d]> (gtsList g)) = allocated g ++ [d].
Proof.
  intros Hc Hl Ho. replace (Z.to_nat (gtsCount g + 1)) with (S (Z.to_nat (gtsCount g))) by lia.
  rewrite (take_S_r _ _ d) by (apply list_lookup_insert_eq; lia).
  by rewrite take_insert_ge by lia.
Qed.

(** A granted request: the state after it. *)
Lemma gts_request_granted addr len rcv s :
  request_ok len s -> ~ refused addr len s ->
  let start := tmp_finalCap (gts s) - len + 1 in
  exists s' old, gts_request_cmd addr len rcv s = Ok (start, s')
    /\ allocated (gts s') = allocated (gts s) ++ [granted addr start len rcv old]
    /\ gtsCount (gts s') = gtsCount (gts s) + 1
    /\ length (gtsList (gts s')) = 7%nat
    /\ tmp_finalCap (gts s') = tmp_finalCap (gts s) - len
    /\ s' = s<| gts := gts s' |>.
Proof.
  intros Hr Hnr start. pose proof (u32_cap _ _ Hr) as Hcap. destruct Hr as [Hc [Hcnt Harr Hpk Hbt Hmin Hrg] Hslot Hlen].
  unfold refused in Hnr. destruct (deviceList s !! addr) as [cap|] eqn:Hdev; [|tauto].
  assert (Hlt : gtsCount (gts s) < 7) by lia.
  assert (Hlow : aMinCAPLength <= txSfSlotDuration (bcn s) * (tmp_finalCap (gts s) - len + 1)) by lia.
  destruct (lookup_lt_is_Some_2 (gtsList (gts s)) (Z.to_nat (gtsCount (gts s)))) as [old Hold]; [lia|].
  assert (0 < start) by (unfold start, aMinCAPLength in *; nia).
  unfold gts_request_cmd, self, mbind, M_bind, gets, assert_. rewrite Hc, Hdev.
  rewrite (proj2 (Z.leb_gt _ _)) by lia. rewrite Hcap, (proj2 (Z.ltb_ge _ _)) by lia.
  unfold upd_gts, modify, upd_gts_at, self, gets, mbind, M_bind, gts_at. msimp.
  rewrite Hold. unfold mret, M_ret, upd_gts, modify. msimp. unfold aNumSuperframeSlots in *.
  rewrite (u8_small (tmp_finalCap (gts s) - len)) by lia.
  rewrite (u8_small (tmp_finalCap (gts s) - len + 1)) by lia.
  eexists _, old. split; [reflexivity|]. unfold allocated at 1. msimp.
  split_and!; try done.
  - by rewrite (u8_small (gtsCount (gts s) + 1)), (allocated_snoc _ old) by (done || lia).
  - by rewrite u8_small by lia.
  - by rewrite length_insert.
Qed.

Lemma gts_request_refused addr len rcv s :
  request_ok len s -> refused addr len s -> gts_request_cmd addr len rcv s = Ok (0, s).
Proof.
  intros Hr Href. pose proof (u32_cap _ _ Hr) as Hcap. destruct Hr as [Hc [Hcnt _ _ _ _ _] Hslot Hlen].
  unfold gts_request_cmd, self, mbind, M_bind, gets, assert_. rewrite Hc.
  destruct (deviceList s !! addr) eqn:Hdev; [|done].
  destruct (Z.leb_spec 7 (gtsCount (gts s))); [done|]. rewrite Hcap.
  destruct (Z.ltb_spec (txSfSlotDuration (bcn s) * (tmp_finalCap (gts s) - len + 1)) aMinCAPLength); [done|].
  exfalso. destruct Href as [Hd|[?|?]]; [by rewrite Hdev in Hd|lia|lia].
Qed.

Lemma gts_request_keeps addr len rcv s :
  request_ok len s -> ~ refused addr len s ->
  forall s' old, gts_request_cmd addr len rcv s = Ok (tmp_finalCap (gts s) - len + 1, s') ->
  allocated (gts s') = allocated (gts s) ++ [granted addr (tmp_finalCap (gts s) - len + 1) len rcv old] ->
  gtsCount (gts s') = gtsCount (gts s) + 1 -> length (gtsList (gts s')) = 7%nat ->
  tmp_finalCap (gts s') = tmp_finalCap (gts s) - len ->
  gts_ok (txSfSlotDuration (bcn s)) (gts s').
Proof.
  intros [Hc [Hcnt Harr Hpk Hbt Hmin Hrg] Hslot Hlen] Hnr s' old Hrun Hal Hcn Har Hfc.
  unfold refused in Hnr.
  assert (aMinCAPLength <= txSfSlotDuration (bcn s) * (tmp_finalCap (gts s) - len + 1)) by lia.
  unfold aMinCAPLength, aNumSuperframeSlots in *.
  split; rewrite ?Hal, ?Hfc.
  - lia.
  - done.
  - apply packed_app; [done| |cbn; lia]. unfold aNumSuperframeSlots. cbn. lia.
  - rewrite bottom_app. cbn. lia.
  - unfold aMinCAPLength. lia.
  - unfold aNumSuperframeSlots. nia.
Qed.

(** A GTS request that fits below the slots in use is answered, and keeps
    the coordinator's list well-formed: at most seven GTSs that fill the end of
    the superframe without gap or overlap, and a CAP of at least
    [aMinCAPLength] symbols.  It is refused (answer 0, nothing changes) exactly
    when the device is not associated, seven GTSs are in use or the CAP would
    become too short; otherwise the answer is the first slot of the new GTS,
    which is appended to the list. *)
Theorem gts_request_cmd_spec addr len rcv s :
  request_ok len s ->
  exists r s', gts_request_cmd addr len rcv s = Ok (r, s')
    /\ gts_ok (txSfSlotDuration (bcn s')) (gts s')
    /\ (refused addr len s -> r = 0 /\ s' = s)
    /\ (~ refused addr len s ->
        r = tmp_finalCap (gts s) - len + 1 /\ 0 < r
        /\ s' = s<| gts := gts s' |>
        /\ exists old, allocated (gts s') = allocated (gts s) ++ [granted addr r len rcv old])
    /\ (forall i j d e, (i < j)%nat -> allocated (gts s') !! i = Some d -> allocated (gts s') !! j = Some e ->
        tmp_finalCap (gts s') < startSlot e /\ startSlot e + length_ e <= startSlot d
        /\ startSlot d + length_ d <= aNumSuperframeSlots).
Proof.
  intros Hr.
  assert (Hslots : forall slot g i j d e, gts_ok slot g -> (i < j)%nat ->
    allocated g !! i = Some d -> allocated g !! j = Some e ->
    tmp_finalCap g < startSlot e /\ startSlot e + length_ e <= startSlot d
    /\ startSlot d + length_ d <= aNumSuperframeSlots).
  { intros slot g i j d e [_ _ Hp Hb _ _] Hij Hi Hj. split_and!.
    - pose proof (bottom_le _ _ _ _ Hp Hj). lia.
    - by eapply packed_disjoint.
    - by eapply packed_below. }
  assert (Hdec : refused addr len s \/ ~ refused addr len s).
  { unfold refused. destruct (deviceList s !! addr); [|by left; left].
    destruct (decide (gtsCount (gts s) = 7)); [by left; right; left|].
    destruct (decide (txSfSlotDuration (bcn s) * (tmp_finalCap (gts s) - len + 1) < aMinCAPLength));
      [by left; right; right|right; naive_solver]. }
  destruct Hdec as [Href|Hnr].
  - exists 0, s. pose proof (req_gts _ _ Hr) as Hok.
    split_and!; [by apply gts_request_refused|done|done|done|intros; by eapply Hslots].
  - destruct (gts_request_granted addr len rcv s Hr Hnr) as (s' & old & Hrun & Hal & Hcn & Har & Hfc & Hs').
    pose proof (gts_request_keeps addr len rcv s Hr Hnr s' old Hrun Hal Hcn Har Hfc) as Hok.
    assert (Hbcn : bcn s' = bcn s) by (by rewrite Hs').
    eexists _, s'. split_and!; [done|by rewrite Hbcn|done| |].
    + intros _. split_and!; [done| |done|by exists old].
      destruct Hok as [_ _ _ _ _ Hrg]. rewrite Hfc in Hrg. lia.
    + intros. by eapply Hslots.
Qed.

(** The device's request for one slot at the coordinator of the sample network. *)
Lemma gts_request_cmd_spec_witness :
  exists s, request_ok 1 s /\
  exists r s', gts_request_cmd 1 1 false s = Ok (r, s') /\ gts_ok (txSfSlotDuration (bcn s')) (gts s').
Proof.
  exists (after (associate_request_cmd 1 (capability (dev0 3))) (coor0 3)).
  assert (Hr : request_ok 1 (after (associate_request_cmd 1 (capability (dev0 3))) (coor0 3))).
  { split; [reflexivity|split; vm_compute; try done; split; congruence|vm_compute; split; congruence|
            vm_compute; split; congruence]. }
  split; [exact Hr|].
  destruct (gts_request_cmd_spec 1 1 false _ Hr) as (r & s' & Hrun & Hok & _).
  exists r, s'. split; assumption.
Defined.

(** A request longer than the CAP is not refused: the length of the CAP is
    computed in unsigned arithmetic and wraps around, the test passes, and the
    GTS granted ends beyond the superframe, and the CAP grows. *)
Theorem gts_request_overlong addr len rcv s :
  isPANCoor (par s) = true -> is_Some (deviceList s !! addr) ->
  gts_ok (txSfSlotDuration (bcn s)) (gts s) -> gtsCount (gts s) < 7 ->
  0 < txSfSlotDuration (bcn s) <= aBaseSlotDuration * 2 ^ 14 ->
  tmp_finalCap (gts s) + 1 < len < 256 ->
  exists s', gts_request_cmd addr len rcv s = Ok (tmp_finalCap (gts s) + 257 - len, s')
    /\ aNumSuperframeSlots < tmp_finalCap (gts s) + 257 - len + len
    /\ tmp_finalCap (gts s) < tmp_finalCap (gts s').
Proof.
  intros Hc [cap Hdev] [Hcnt Harr _ _ _ Hrg] Hlt Hslot Hlen.
  unfold aNumSuperframeSlots, aBaseSlotDuration in *.
  destruct (lookup_lt_is_Some_2 (gtsList (gts s)) (Z.to_nat (gtsCount (gts s)))) as [old Hold]; [lia|].
  unfold gts_request_cmd, self, mbind, M_bind, gets, assert_. rewrite Hc, Hdev.
  rewrite (proj2 (Z.leb_gt _ _)) by lia.
  assert (aMinCAPLength <= u32 (txSfSlotDuration (bcn s) * (tmp_finalCap (gts s) - len + 1))).
  { unfold u32, aMinCAPLength. eval_pow2.
    rewrite <- (Z.mod_unique _ 4294967296 (-1)
      (4294967296 + txSfSlotDuration (bcn s) * (tmp_finalCap (gts s) - len + 1))); [nia|left; nia|lia]. }
  rewrite (proj2 (Z.ltb_ge _ _)) by lia.
  unfold upd_gts, modify, upd_gts_at, self, gets, mbind, M_bind, gts_at. msimp.
  rewrite Hold. unfold mret, M_ret, upd_gts, modify. msimp.
  assert (u8 (tmp_finalCap (gts s) - len) = tmp_finalCap (gts s) - len + 256) as ->
    by (unfold u8; dmlia).
  rewrite u8_small by lia.
  eexists. split; [f_equal; f_equal; lia|]. msimp. lia.
Qed.

Lemma gts_request_overlong_witness :
  exists s s', gts_request_cmd 1 17 false s = Ok (255, s') /\ tmp_finalCap (gts s) < tmp_finalCap (gts s').
Proof.
  exists (after (associate_request_cmd 1 (capability (dev0 3))) (coor0 3)).
  destruct (gts_request_overlong 1 17 false
    (after (associate_request_cmd 1 (capability (dev0 3))) (coor0 3))) as (s' & Hrun & _ & Hlt);
    [reflexivity|by vm_compute; eexists|split; vm_compute; try done; split; congruence|reflexivity
    |vm_compute; split; congruence|vm_compute; split; congruence|].
  exists s'. split; [exact Hrun|exact Hlt].
Defined.
