(* ===== verification/MacProps.v ===== *)
(** * Beacons, time and frames: theorems about the MAC's handlers *)

From S2P Require Import Prelude HList MacConst MacTypes MacUtil MacCsma MacTask MacHandlers MacGts MacSample.

Open Scope string_scope.
Open Scope list_scope.
Open Scope Z_scope.

#[local] Opaque u8 u16 u32.

(** Symbolic execution of the accessors. *)
Ltac mrun :=
  repeat (first [ progress unfold self, upd_par, upd_phy, upd_mpib, upd_bcn, upd_csma, upd_gts, upd_buf,
                    upd_tim, upd_tx, upd_stats, emit, PLME_SET_TRX_STATE_request, get_taskStatus, get_taskStep,
                    get_taskFrFunc, put_taskStatus, put_taskStep, put_taskFrFunc, upd_task,
                    taskStatus, taskStep, taskFrFunc, set_taskStatus, set_taskStep, set_taskFrFunc
                | wpe_step ]; cbv beta).

(** ** Time *)

(** The symbol rates of the three bands. *)
Definition rate_ok (r : Z) : Prop := r = 20000 \/ r = 40000 \/ r = 62500.

Lemma getRate_ok ch : rate_ok (getRate "s" ch).
Proof. unfold getRate, rate_ok. cbn. destruct (ch =? 0), (ch <=? 10); cbn; auto. Qed.

(** At these rates a symbol is a whole number of picoseconds. *)
Lemma secs_exact n r : rate_ok r -> secs n r = n * secs 1 r.
Proof.
  assert (Hd : forall d r, 0 < r -> second = d * r -> secs n r = n * secs 1 r).
  { intros d r' Hr Hs. unfold secs. rewrite Hs, Z.mul_1_l, Z.div_mul by lia.
    rewrite Z.mul_assoc, Z.div_mul by lia. done. }
  intros [->|[->| ->]]; [apply (Hd 50000000)|apply (Hd 25000000)|apply (Hd 16000000)];
    unfold second; lia.
Qed.

Lemma symbol_pos r : rate_ok r -> 0 < secs 1 r.
Proof. intros [->|[->| ->]]; vm_compute; done. Qed.

Lemma secs_add n m r : rate_ok r -> secs (n + m) r = secs n r + secs m r.
Proof. intros Hr. rewrite (secs_exact (n + m)), (secs_exact n), (secs_exact m) by done. lia. Qed.

Lemma secs_mono n m r : rate_ok r -> n <= m -> secs n r <= secs m r.
Proof. intros Hr Hn. rewrite (secs_exact n), (secs_exact m) by done. pose proof (symbol_pos r Hr). nia. Qed.

(** [restartAt]: the timer is set, whether or not it was. *)
Lemma wpe_restartAt E time t s (Q : unit -> Mac -> Prop) :
  now s <= time ->
  (forall f, f t = Some time -> (forall t', t' <> t -> f t' = scheduled (tim s) t') ->
    Q tt (s<| tim ::= fun m => m<| scheduled := f |> |>)) ->
  wpe E (restartAt time t) Q s.
Proof.
  intros Ht HQ. unfold restartAt, scheduleAt, cancelEvent.
  assert (Hs : forall f, (forall t', t' <> t -> f t' = scheduled (tim s) t') ->
    Q tt (s<| tim ::= fun m => m<| scheduled := set_timer t (Some time) f |> |>)).
  { intros f Hf. apply HQ; unfold set_timer; [by rewrite bool_decide_eq_true_2|].
    intros t' Hne. rewrite bool_decide_eq_false_2 by done. by apply Hf. }
  mrun; msimp; rewrite (proj2 (Z.ltb_ge _ _)) by lia; unfold isScheduled in *; msimp.
  - unfold set_timer at 1. rewrite bool_decide_eq_true_2 by done. mrun.
    apply (Hs (set_timer t None (scheduled (tim s)))).
    intros t' Hne. unfold set_timer. by rewrite bool_decide_eq_false_2.
  - destruct (scheduled (tim s) t); [done|]. mrun. by apply (Hs (scheduled (tim s))).
Qed.

(** ** The beacon interval *)

Lemma int_shl_ok a k : 0 <= a <= aBaseSuperframeDuration -> 0 <= k <= 14 -> int_shl a k = Ok (a * 2 ^ k).
Proof.
  intros Ha Hk. unfold int_shl, INT_MAX. change aBaseSuperframeDuration with 960 in Ha.
  assert (0 < 2 ^ k <= 2 ^ 14) by (split; [lia|apply Z.pow_le_mono_r; lia]). eval_pow2.
  by rewrite (proj2 (Z.ltb_lt _ _)), (proj2 (Z.leb_le _ _)) by nia.
Qed.

Section frames.
Context `{MacEnv}.

Lemma wpe_new_frame E f s (Q : ptr -> Mac -> Prop) :
  (forall a, frames s !! a = None -> Q (Some a) (s<| frames ::= fun h => <[a := f]> h |>)) ->
  wpe E (new_frame f) Q s.
Proof.
  intros HQ. unfold new_frame. mrun. apply HQ. apply not_elem_of_dom, mac_alloc_fresh.
Qed.

Lemma wpe_deref E p a f s (Q : Frame -> Mac -> Prop) :
  p = Some a -> frames s !! a = Some f -> Q f s -> wpe E (deref p) Q s.
Proof. intros -> Hf HQ. unfold deref. mrun. rewrite Hf. by mrun. Qed.

Lemma wpe_delete E p a s (Q : unit -> Mac -> Prop) :
  p = Some a -> is_Some (frames s !! a) -> Q tt (s<| frames ::= fun h => delete a h |>) ->
  wpe E (delete_frame p) Q s.
Proof.
  intros -> [f Hf] HQ. unfold delete_frame. mrun. eapply wpe_deref; [done|exact Hf|]. by mrun.
Qed.

Lemma wpe_ev_deref E p a s (Q : unit -> Mac -> Prop) :
  p = Some a -> is_Some (frames s !! a) -> Q tt s -> wpe E (ev_deref p) Q s.
Proof.
  intros -> [f Hf] HQ. unfold ev_deref. destruct ev_on; mrun; [|done].
  eapply wpe_deref; [done|exact Hf|]. by mrun.
Qed.

Lemma beacon_length spec s : exists n, calFrmByteLength (beacon_frame spec s) = Ok n.
Proof.
  unfold beacon_frame, calFrmByteLength. msimp.
  destruct (macShortAddress (mpib s) =? 0xfffe); eexists; reflexivity.
Qed.

(** The coordinator, when the time to send a beacon has come. *)
Record beacon_ready (s : Mac) : Prop := {
  br_coor : isPANCoor (par s) = true;
  br_bo : 0 <= macBeaconOrder (mpib s) <= 14;
  br_so : 0 <= macSuperframeOrder (mpib s) <= 14;
  br_rate : rate_ok (phy_symbolrate (phy s));
  br_now : txNow_bcnTxTimer (tim s) = true;
  br_buf : txBeacon (buf s) = None;
  br_sd : inTxSD_txSDTimer (tim s) = false;
  br_slot : txSfSlotDuration (bcn s) = aBaseSlotDuration * 2 ^ macSuperframeOrder (mpib s);
  br_gts : gts_ok (txSfSlotDuration (bcn s)) (gts s);
}.

(** The superframe the coordinator announces. *)
Definition announced (s : Mac) : SuperframeSpec :=
  mkSuperframeSpec (macBeaconOrder (mpib s)) (aBaseSuperframeDuration * 2 ^ macBeaconOrder (mpib s))
    (macSuperframeOrder (mpib s)) (aBaseSuperframeDuration * 2 ^ macSuperframeOrder (mpib s))
    (tmp_finalCap (gts s)) (macBattLifeExt (mpib s)) (isPANCoor (par s)) (macAssociationPermit (mpib s)).

(** The GTS that comes first in the CFP is the last of the list. *)
Lemma wpe_gtsScheduler E s (Q : unit -> Mac -> Prop) :
  isPANCoor (par s) = true -> rate_ok (phy_symbolrate (phy s)) ->
  0 < gtsCount (gts s) -> gts_ok (txSfSlotDuration (bcn s)) (gts s) ->
  index_gtsTimer (tim s) = gtsCount (gts s) - 1 ->
  aBaseSlotDuration <= txSfSlotDuration (bcn s) <= aBaseSlotDuration * 2 ^ 14 ->
  macBeaconTxTime (mpib s) = now s ->
  (forall f, (forall t', t' <> MAC_GTS_TIMER -> f t' = scheduled (tim s) t') ->
    Q tt (s<| tim ::= fun m => m<| scheduled := f |> |>)) ->
  wpe E gtsScheduler Q s.
Proof.
  intros Hc Hrate Hcnt [Hr Hl Hp Hb _ Hrg] Hi Hslot Hbt HQ.
  unfold gtsScheduler. mrun; [|by rewrite Hc in *].
  destruct (lookup_lt_is_Some_2 (gtsList (gts s)) (Z.to_nat (gtsCount (gts s) - 1))) as [d Hd]; [lia|].
  unfold gts_at. rewrite Hi, Hd. mrun. unfold startGtsTimer. mrun.
  assert (Had : allocated (gts s) !! Z.to_nat (gtsCount (gts s) - 1) = Some d)
    by (unfold allocated; rewrite lookup_take_lt by lia; done).
  pose proof (bottom_le _ _ _ _ Hp Had). pose proof (packed_below _ _ _ _ Hp Had) as Hbelow.
  assert (Hld : 0 < length_ d).
  { clear -Hp Had. generalize dependent (Z.to_nat (gtsCount (gts s) - 1)).
    revert Hp. generalize aNumSuperframeSlots. induction (allocated (gts s)) as [|e l IH]; intros z Hp i Hi; [done|].
    destruct Hp as (_ & ? & Hp). destruct i; [by injection Hi as <-|by eapply IH]. }
  unfold aNumSuperframeSlots, aBaseSlotDuration, aTurnaroundTime in *. eval_pow2.
  rewrite u32_small by (eval_pow2; nia).
  apply wpe_restartAt; [|intros f _ Hf; by apply HQ].
  assert (secs 60 (phy_symbolrate (phy s)) <= secs (startSlot d * txSfSlotDuration (bcn s)) (phy_symbolrate (phy s)))
    by (apply secs_mono; [done|nia]).
  pose proof (secs_mono 0 12 _ Hrate). pose proof (secs_mono 12 60 _ Hrate).
  assert (secs 0 (phy_symbolrate (phy s)) = 0) by (by rewrite secs_exact).
  rewrite Hbt. destruct (isRecvGTS_ d); lia.
Qed.

(** Sending the beacon; [f] is the frame sent. *)
Lemma wpe_sendBeacon E s (Q : unit -> Mac -> Prop) :
  beacon_ready s ->
  (forall s' f, last (out s') = Some (ToPhy_frame f) -> cls f = BeaconFrame (announced s) ->
     txNow_bcnTxTimer (tim s') = true -> now s' = now s -> phy s' = phy s ->
     macBeaconOrder (mpib s') = macBeaconOrder (mpib s) -> macBeaconTxTime (mpib s') = now s ->
     inTransmission (tx s') = true -> inTxSD_txSDTimer (tim s') = true -> Q tt s') ->
  wpe E sendBeacon Q s.
Proof.
  intros [Hc Hbo Hso Hrate Hnow Hb Hsd Hslot Hg] HQ. unfold sendBeacon. mrun; [|by rewrite Hb in *].
  rewrite !int_shl_ok by (change aBaseSuperframeDuration with 960; lia). mrun. msimp.
  destruct (beacon_length (announced s) s) as [n Hn]. unfold announced in Hn at 1. rewrite Hn. mrun.
  apply wpe_new_frame. intros a Ha. mrun. msimp.
  eapply wpe_bind, wpe_deref; [done|msimp; by rewrite lookup_insert_eq|]. unfold sendDown. mrun. msimp.
  unfold startTxSDTimer. mrun; msimp; [|by rewrite Hsd in *].
  assert (Hs14 : aBaseSlotDuration <= txSfSlotDuration (bcn s) <= aBaseSlotDuration * 2 ^ 14).
  { rewrite Hslot. unfold aBaseSlotDuration.
    assert (2 ^ 0 <= 2 ^ macSuperframeOrder (mpib s) <= 2 ^ 14) by (split; apply Z.pow_le_mono_r; lia).
    eval_pow2. lia. }
  apply wpe_bind, wpe_restartAt.
  { msimp. pose proof (secs_mono 0 (u32 (aNumSuperframeSlots * txSfSlotDuration (bcn s))) _ Hrate) as Hm.
    rewrite (secs_exact 0) in Hm by done. pose proof (u32_range (aNumSuperframeSlots * txSfSlotDuration (bcn s))).
    lia. }
  intros f Hf Hfo. msimp. mrun; msimp.
  - apply wpe_gtsScheduler; msimp; try done; [by apply Z.ltb_lt| |].
    { apply u8_small. destruct Hg. lia. }
    intros g Hgo. eapply HQ; msimp; [by rewrite last_snoc|done..].
  - eapply HQ; msimp; [by rewrite last_snoc|done..].
Qed.

Lemma secs_nonneg n r : rate_ok r -> 0 <= n -> 0 <= secs n r.
Proof. intros Hr Hn. rewrite secs_exact by done. pose proof (symbol_pos r Hr). nia. Qed.

Lemma wpe_dropAck E s (Q : unit -> Mac -> Prop) :
  (forall a, txAck (buf s) = Some a -> is_Some (frames s !! a)) ->
  (forall h, Q tt (s<| frames := h |><| buf ::= fun b => b<| txAck := None |> |>)) ->
  Q tt s \/ is_set (txAck (buf s)) = true ->
  wpe E dropAck Q s.
Proof.
  intros Ha HQ Hs. unfold dropAck. mrun.
  - destruct (txAck (buf s)) as [a|] eqn:Hack; [|done].
    eapply wpe_delete; [done|by apply Ha|]. mrun. apply HQ.
  - by destruct Hs as [|Hs]; [|rewrite Hs in *].
Qed.

(** The first step: the beacon goes out. *)
Lemma wpe_beacon_sent E s (Q : unit -> Mac -> Prop) :
  beacon_ready s ->
  (forall s1 f, last (out s1) = Some (ToPhy_frame f) -> cls f = BeaconFrame (announced s) ->
     scheduled (tim s1) MAC_BCN_TX_TIMER
       = Some (now s + secs (BI (announced s) - aTurnaroundTime) (phy_symbolrate (phy s))) ->
     phy s1 = phy s -> macBeaconOrder (mpib s1) = macBeaconOrder (mpib s) ->
     txNow_bcnTxTimer (tim s1) = false -> Q tt s1) ->
  wpe E handleBcnTxTimer Q s.
Proof.
  intros Hbr HQ. pose proof Hbr as [Hc Hbo Hso Hrate Hnow Hb Hsd Hslot Hg].
  assert (H15 : (macBeaconOrder (mpib s) =? 15) = false) by (apply Z.eqb_neq; lia).
  unfold handleBcnTxTimer. mrun; [|by rewrite H15 in *]. rewrite Hnow. cbn [negb].
  apply wpe_sendBeacon; [done|]. intros s1 f Hout Hcls Htx Hn Hphy Hbo1 _ _ _.
  unfold startBcnTxTimer. mrun. rewrite Htx, Hbo1, H15. cbn [negb].
  rewrite int_shl_ok by (change aBaseSuperframeDuration with 960; lia). mrun.
  change (aBaseSuperframeDuration * 2 ^ macBeaconOrder (mpib s)) with (BI (announced s)).
  rewrite Hn, Hphy. apply wpe_restartAt.
  { rewrite Hn. assert (0 <= secs (BI (announced s) - aTurnaroundTime) (phy_symbolrate (phy s))); [|lia].
    apply secs_nonneg; [done|]. unfold announced, aTurnaroundTime. msimp. change aBaseSuperframeDuration with 960.
    assert (2 ^ 0 <= 2 ^ macBeaconOrder (mpib s)) by (apply Z.pow_le_mono_r; lia). cbn in *. lia. }
  intros g Hg1 Hg2. mrun. apply (HQ _ f); msimp; try done. by rewrite Htx.
Qed.

(** The second step: the transmitter is turned on. *)
Lemma wpe_beacon_prepared E s (Q : unit -> Mac -> Prop) :
  macBeaconOrder (mpib s) <> 15 -> rate_ok (phy_symbolrate (phy s)) -> txNow_bcnTxTimer (tim s) = false ->
  (forall a, txAck (buf s) = Some a -> is_Some (frames s !! a)) ->
  (forall s3, scheduled (tim s3) MAC_BCN_TX_TIMER = Some (now s + secs aTurnaroundTime (phy_symbolrate (phy s))) ->
     txNow_bcnTxTimer (tim s3) = true -> txAck (buf s3) = None -> beaconWaitingTx (bcn s3) = true -> Q tt s3) ->
  wpe E handleBcnTxTimer Q s.
Proof.
  intros Hbo Hrate Htx Hack HQ. unfold handleBcnTxTimer. mrun; [|by apply Z.eqb_neq in Hbo; rewrite Hbo in *].
  rewrite Htx. cbn [negb]. mrun.
  assert (Hrest : forall s', tim s' = tim s -> now s' = now s -> phy_symbolrate (phy s') = phy_symbolrate (phy s) ->
    txAck (buf s') = None -> beaconWaitingTx (bcn s') = true -> wpe E startBcnTxTimer Q s').
  { intros s' Et En Ep Ea Ew. unfold startBcnTxTimer. mrun. rewrite Et, Htx. cbn [negb].
    apply wpe_restartAt.
    - pose proof (secs_nonneg aTurnaroundTime (phy_symbolrate (phy s')) ltac:(by rewrite Ep)) as Hn.
      unfold aTurnaroundTime in *. lia.
    - intros g Hg1 _. mrun. apply HQ; msimp; try done; [by rewrite Hg1, En, Ep|by rewrite Et, Htx]. }
  apply wpe_dropAck; msimp.
  - done.
  - intros h. mrun. by apply Hrest.
  - destruct (txAck (buf s)) eqn:Ha; [by right|left]. mrun. by apply Hrest.
Qed.

(** The coordinator's beacons are exactly one beacon interval apart.  At the
    time to send, [handleBcnTxTimer] sends a beacon that announces the
    superframe and sets the timer [aTurnaroundTime] symbols before the end of
    the interval; when it goes off (in any later state of the module) the
    transmitter is turned on and the timer set to the end of the interval, when
    it is the time to send again. *)
Theorem beacon_interval s :
  beacon_ready s ->
  let t := now s + secs (BI (announced s)) (phy_symbolrate (phy s)) in
  exists s1 f,
    handleBcnTxTimer s = Ok (tt, s1)
    /\ last (out s1) = Some (ToPhy_frame f) /\ cls f = BeaconFrame (announced s)
    /\ scheduled (tim s1) MAC_BCN_TX_TIMER = Some (t - secs aTurnaroundTime (phy_symbolrate (phy s)))
    /\ forall s2,
      now s2 = t - secs aTurnaroundTime (phy_symbolrate (phy s)) ->
      phy s2 = phy s1 -> mpib s2 = mpib s1 -> txNow_bcnTxTimer (tim s2) = txNow_bcnTxTimer (tim s1) ->
      (forall a, txAck (buf s2) = Some a -> is_Some (frames s2 !! a)) ->
      exists s3, handleBcnTxTimer s2 = Ok (tt, s3)
        /\ scheduled (tim s3) MAC_BCN_TX_TIMER = Some t
        /\ txNow_bcnTxTimer (tim s3) = true /\ txAck (buf s3) = None
        /\ beaconWaitingTx (bcn s3) = true.
Proof.
  intros Hbr t. pose proof Hbr as [_ Hbo _ Hrate _ _ _ _ _].
  assert (Ht : now s + secs (BI (announced s) - aTurnaroundTime) (phy_symbolrate (phy s))
               = t - secs aTurnaroundTime (phy_symbolrate (phy s))).
  { unfold t. replace (BI (announced s)) with (BI (announced s) - aTurnaroundTime + aTurnaroundTime) at 2 by lia.
    rewrite secs_add by done. lia. }
  destruct (wp_ok handleBcnTxTimer (fun _ s1 => exists f,
      last (out s1) = Some (ToPhy_frame f) /\ cls f = BeaconFrame (announced s)
      /\ scheduled (tim s1) MAC_BCN_TX_TIMER = Some (t - secs aTurnaroundTime (phy_symbolrate (phy s)))
      /\ phy s1 = phy s /\ macBeaconOrder (mpib s1) = macBeaconOrder (mpib s)
      /\ txNow_bcnTxTimer (tim s1) = false) s) as ([] & s1 & Hrun & f & Hout & Hcls & Hsch & Hphy & Hbo1 & Htx).
  { apply wpe_beacon_sent; [done|]. intros s1 f. rewrite Ht. intros. by exists f. }
  exists s1, f. split_and!; try done. intros s2 Hn2 Hphy2 Hmpib2 Htx2 Hack.
  destruct (wp_ok handleBcnTxTimer (fun _ s3 => scheduled (tim s3) MAC_BCN_TX_TIMER = Some t
    /\ txNow_bcnTxTimer (tim s3) = true /\ txAck (buf s3) = None /\ beaconWaitingTx (bcn s3) = true) s2)
    as ([] & s3 & Hrun3 & ?); [|by exists s3].
  apply wpe_beacon_prepared; [rewrite Hmpib2; lia|by rewrite Hphy2, Hphy|by rewrite Htx2|exact Hack|].
  intros s3 Hs3. rewrite Hs3, Hn2, Hphy2, Hphy. intros. split_and!; try done. f_equal. lia.
Qed.

(** ** Data frames *)

(** A data frame with short addresses, as the PHY passes it up intact. *)
Record plain_data (f : Frame) : Prop := {
  pd_type : frmType (frmCtrl f) = Ieee802154_DATA;
  pd_mode : dstAddrMode (frmCtrl f) = defFrmCtrl_AddrMode16;
  pd_kind : kind f = 0;
  pd_length : 0 < getByteLength f;
}.

(** It is for this node, or for everyone. *)
Definition addressed (f : Frame) (s : Mac) : Prop :=
  (dstPanId f = 0xffff \/ dstPanId f = macPANId (mpib s))
  /\ (dstAddr f = 0xffff \/ dstAddr f = macShortAddress (mpib s)).
#[local] Instance addressed_dec f s : Decision (addressed f s).
Proof. unfold addressed. apply _. Defined.

Lemma frameFilter_data f s :
  plain_data f -> macPromiscuousMode (mpib s) = false ->
  frameFilter_of f s = bool_decide (~ addressed f s).
Proof.
  intros [Ht Hm Hk _] Hp. unfold frameFilter_of. rewrite Ht, Hm, Hk, Hp. cbn.
  unfold addressed.
  destruct (Z.eqb_spec (dstPanId f) 0xffff), (Z.eqb_spec (dstPanId f) (macPANId (mpib s))),
    (Z.eqb_spec (dstAddr f) 0xffff), (Z.eqb_spec (dstAddr f) (macShortAddress (mpib s))); cbn;
    symmetry; (apply bool_decide_eq_true_2 || apply bool_decide_eq_false_2); naive_solver.
Qed.

Lemma wpe_handleLower E f w (Q : unit -> World -> Prop) :
  0 < getByteLength f -> wpe E (handleLowerMsg f) Q w -> wpe E (handleMessage (LowerFrame f)) Q w.
Proof.
  intros Hl HQ. unfold handleMessage, getBitLength. by rewrite (proj2 (Z.eqb_neq _ _)) by lia.
Qed.

(** A data frame for another node or another PAN changes nothing: it is not
    acknowledged, not recorded as received, and its memory is released. *)
Theorem foreign_frame_ignored f w :
  plain_data f -> macPromiscuousMode (mpib (me w)) = false -> ~ addressed f (me w) ->
  handleMessage (LowerFrame f) w = Ok (tt, w).
Proof.
  intros Hd Hp Ha.
  destruct (wp_ok (handleMessage (LowerFrame f)) (fun _ w' => w' = w) w) as ([] & w' & Hrun & ->); [|done].
  apply wpe_handleLower; [apply Hd|]. unfold handleLowerMsg, own. mrun.
  unfold acceptFrame. mrun. apply wpe_new_frame. intros a Hf. mrun. unfold frameFilter. mrun.
  { rewrite (pd_kind _ Hd) in *. done. }
  rewrite frameFilter_data by done. msimp. rewrite bool_decide_eq_true_2 by done. mrun.
  eapply wpe_delete; [done|msimp; by rewrite lookup_insert_eq|]. mrun.
  transitivity (w<| me := (me w)<| frames := delete a (<[a := f]> (frames (me w))) |> |>); [done|].
  by rewrite delete_insert_id.
Qed.

(** *** Frames for this node *)

Lemma frameFilter_mine f s : plain_data f -> addressed f s -> frameFilter_of f s = false.
Proof.
  intros Hd Ha. destruct (macPromiscuousMode (mpib s)) eqn:Hp.
  - unfold frameFilter_of. rewrite (pd_kind _ Hd), Hp. reflexivity.
  - rewrite frameFilter_data by done. apply bool_decide_eq_false_2. tauto.
Qed.

(** The acknowledgement of a frame. *)
Definition ack_for (f : Frame) : Frame :=
  mkFrame AckFrame
    (mkFrameCtrl Ieee802154_ACK false false false (intraPan (frmCtrl f)) defFrmCtrl_AddrModeNone defFrmCtrl_AddrModeNone)
    (bdsn f) 0 (srcAddr f) 0 0 false (isGTS f) 0 SIZE_OF_802154_ACK None.

Lemma wpe_constructACK E f s (Q : unit -> Mac -> Prop) :
  txAck (buf s) = None ->
  (forall a, frames s !! a = None ->
    Q tt (s<| frames ::= fun h => <[a := ack_for f]> h |><| buf ::= fun b => b<| txAck := Some a |> |>)) ->
  wpe E (constructACK f) Q s.
Proof.
  intros Ha HQ. unfold constructACK. mrun.
  set (ack := mkFrame _ _ _ _ _ _ _ _ _ _ _ _).
  assert (calFrmByteLength ack = Ok SIZE_OF_802154_ACK) as -> by reflexivity. mrun.
  apply wpe_new_frame. intros a Hf. mrun; msimp; [|by rewrite Ha in *].
  specialize (HQ a Hf). unfold ack_for in HQ. by destruct (isGTS f).
Qed.

(** With an acknowledgement still in [txAck] there is no second one. *)
Lemma wpe_constructACK_busy E f s (Q : unit -> Mac -> Prop) :
  is_set (txAck (buf s)) = true -> E (AssertFailed "!txAck") -> wpe E (constructACK f) Q s.
Proof.
  intros Ha HE. unfold constructACK. mrun. set (ack := mkFrame _ _ _ _ _ _ _ _ _ _ _ _).
  assert (calFrmByteLength ack = Ok SIZE_OF_802154_ACK) as -> by reflexivity. mrun.
  apply wpe_new_frame. intros a Hf. mrun; msimp; [|done]. by rewrite Ha in *.
Qed.

(** The timers and tasks once [csmacaCancel] has run: the backoff timer is
    cancelled, else the timer of a deferred CCA, else the task that awaits the
    result of a CCA is. *)
Definition csma_cancelled (s s' : Mac) : Prop :=
  if isScheduled MAC_BACKOFF_TIMER s then
    tim s' = (tim s)<| scheduled ::= set_timer MAC_BACKOFF_TIMER None |> /\ taskP s' = taskP s
  else if isScheduled MAC_DEFER_CCA_TIMER s then
    tim s' = (tim s)<| scheduled ::= set_timer MAC_DEFER_CCA_TIMER None |> /\ taskP s' = taskP s
  else tim s' = tim s /\ set_taskStatus TP_CCA_CSMACA false (taskP s) = Ok (taskP s').

(** What becomes of CSMA/CA when an acknowledgement has to be sent: if one was
    pending it is stopped and its frame forgotten, else nothing changes. *)
Definition csma_stopped (s s' : Mac) : Prop :=
  if backoffStatus (csma s) =? 99 then
    csma s' = (csma s)<| backoffStatus := 0 |> /\ tmpCsmaca (buf s') = None /\ csma_cancelled s s'
  else (csma s', tim s', taskP s', tmpCsmaca (buf s')) = (csma s, tim s, taskP s, tmpCsmaca (buf s)).

Lemma wpe_cancel E s (Q : unit -> Mac -> Prop) :
  (forall s', buf s' = (buf s)<| tmpCsmaca := None |> -> frames s' = frames s -> out s' = out s ->
     hlistD s' = hlistD s -> mpib s' = mpib s -> csma s' = csma s -> par s' = par s -> csma_cancelled s s' -> Q tt s') ->
  wpe E csmacaCancel Q s.
Proof.
  intros HQ. unfold csmacaCancel, cancelEvent. mrun. unfold csma_cancelled in HQ.
  destruct (isScheduled MAC_BACKOFF_TIMER s); [mrun; by apply HQ|].
  destruct (isScheduled MAC_DEFER_CCA_TIMER s); mrun; by apply HQ.
Qed.

(** An acknowledged data frame up to the duplicate test. *)
Lemma wpe_acknowledge E f s (Q : unit -> Mac -> Prop) :
  plain_data f -> ackReq (frmCtrl f) = true -> txAck (buf s) = None ->
  (forall s' a b, frames s !! a = None ->
     buf s' = (buf s)<| txAck := Some a |><| tmpCsmaca := b |> ->
     frames s' = <[a := ack_for f]> (frames s) ->
     out s' = out s ++ [ToPhy_SET_TRX_STATE phy_TX_ON] -> trx_state_req (phy s') = phy_TX_ON ->
     hlistD s' = hlistD s -> csma_stopped s s' -> Q tt s') ->
  wpe E (acknowledge f) Q s.
Proof.
  intros [Ht _ _ _] Hack Ha HQ. unfold acknowledge. rewrite Ht, Hack. mrun; try done.
  apply wpe_constructACK; [done|]. intros a Hf. unfold csma_stopped in HQ. mrun.
  - match goal with H99 : (backoffStatus _ =? 99) = _ |- _ => rewrite H99 in HQ end. apply wpe_cancel. msimp. intros s' Hb Hfr Ho Hh _ Hcs _ Hc. mrun.
    eapply (HQ _ a None); msimp; rewrite ?Hb, ?Hfr, ?Ho, ?Hh, ?Hcs; done.
  - match goal with H99 : (backoffStatus _ =? 99) = _ |- _ => rewrite H99 in HQ end. by eapply (HQ _ a (tmpCsmaca (buf s))); msimp.
Qed.

(** The duplicate test on the list of data frames. *)
Lemma wpe_chkDuplicate_data E f s l (Q : Z -> Mac -> Prop) :
  frmType (frmCtrl f) = Ieee802154_DATA -> hrepr (hlistD s) l ->
  (forall h l', hrepr h l' -> l'.*2 = (seen (srcAddr f) (bdsn f) l.*2).2 ->
     Q (seen (srcAddr f) (bdsn f) l.*2).1 (s<| hlistD := h |>)) ->
  wpe E (chkDuplicate f) Q s.
Proof.
  intros Ht Hl HQ. unfold chkDuplicate. rewrite Ht. mrun.
  destruct (chk_seen _ _ (srcAddr f) (bdsn f) Hl) as (h & l' & Hrun & Hr & Hl').
  eapply wpe_eq; [exact Hrun|]. by eapply HQ.
Qed.

(** What is left of an acknowledged frame [f] received in state [s] with the
    duplicate list [l]: [kept] is where the frame was put if it was kept.  If an
    earlier frame still waits in [rxData], the duplicate list is not looked at. *)
Record acked (f : Frame) (s : Mac) (l : list cell) (kept : option positive) (s' : Mac) (ack : positive)
    (l' : list cell) : Prop := {
  ak_buf : txAck (buf s') = Some ack;
  ak_ack : frames s' !! ack = Some (ack_for f);
  ak_tx : out s' = out s ++ [ToPhy_SET_TRX_STATE phy_TX_ON];
  ak_csma : csma_stopped s s';
  ak_list : hrepr (hlistD s') l';
  ak_last : if is_set (rxData (buf s)) then hlistD s' = hlistD s
            else last_from (srcAddr f) l'.*2 = Some (bdsn f);
  ak_frames : match kept with
              | None => frames s' = <[ack := ack_for f]> (frames s)
              | Some a => frames s' = <[ack := ack_for f]> (<[a := f]> (frames s)) /\ a <> ack
              end;
}.

(** Nothing is kept of a frame that is dropped. *)
Definition drops (f : Frame) (s : Mac) (l : list cell) : bool :=
  is_set (rxData (buf s)) || bool_decide (last_from (srcAddr f) l.*2 = Some (bdsn f)).

Lemma wpe_acceptFrame_busy E f s (Q : option ptr -> Mac -> Prop) :
  plain_data f -> addressed f s -> ackReq (frmCtrl f) = true -> isGTS f = false ->
  is_set (txAck (buf s)) = true -> E (AssertFailed "!txAck") -> wpe E (acceptFrame f) Q s.
Proof.
  intros Hd Ha Hreq Hg Htx HE. unfold acceptFrame. mrun. apply wpe_new_frame. intros a Hf. mrun.
  unfold frameFilter. mrun; [by rewrite (pd_kind _ Hd) in *|]. rewrite frameFilter_mine by done.
  unfold checkGtsTiming. mrun; msimp; [by rewrite Hg, andb_false_r in *|].
  unfold acknowledge. rewrite (pd_type _ Hd), Hreq. mrun; try done. by apply wpe_constructACK_busy.
Qed.

(** The steps before a data frame is handed on. *)
Lemma wpe_acceptFrame_data E f s l (Q : option ptr -> Mac -> Prop) :
  plain_data f -> addressed f s -> ackReq (frmCtrl f) = true -> isGTS f = false ->
  txAck (buf s) = None -> hrepr (hlistD s) l ->
  (forall kept s' ack l', acked f s l kept s' ack l' -> rxData (buf s') = rxData (buf s) ->
     is_set kept = negb (drops f s l) -> Q (Some <$> kept) s') ->
  wpe E (acceptFrame f) Q s.
Proof.
  intros Hd Ha Hreq Hg Htx Hl HQ. unfold acceptFrame. mrun.
  apply wpe_new_frame. intros a Hf. mrun. unfold frameFilter. mrun; [by rewrite (pd_kind _ Hd) in *|].
  rewrite frameFilter_mine by done. unfold checkGtsTiming. mrun; msimp; [by rewrite Hg, andb_false_r in *|].
  apply wpe_acknowledge; [done|done|by msimp|]. msimp. intros s1 ack tc Hfa Hb Hfr Ho _ Hh Hcs. mrun.
  assert (Hne : a <> ack) by (intros ->; by rewrite lookup_insert_eq in Hfa).
  assert (Hdel : delete a (frames s1) = <[ack := ack_for f]> (frames s)).
  { rewrite Hfr, delete_insert_ne by done. by rewrite delete_insert_id. }
  rewrite Hb. msimp. rewrite (pd_type _ Hd), (bool_decide_eq_false_2 (Ieee802154_DATA = Ieee802154_CMD)) by done.
  rewrite (bool_decide_eq_true_2 (Ieee802154_DATA = Ieee802154_DATA)) by done. unfold drops in HQ. cbn [andb orb].
  destruct (is_set (rxData (buf s))) eqn:Hrx.
  { eapply wpe_bind, wpe_delete; [done|msimp; rewrite Hfr, lookup_insert_ne, lookup_insert_eq by done; by eexists|]. mrun.
    apply (HQ None _ ack l); [|msimp; by rewrite Hb|done].
    split; msimp; rewrite ?Hrx, ?Hdel, ?Ho, ?Hb, ?Hh; try done. by rewrite lookup_insert_eq. }
  mrun. eapply wpe_chkDuplicate_data; [apply Hd|rewrite Hh; exact Hl|]. intros h l' Hr' Hl'.
  destruct (seen_assoc (srcAddr f) (bdsn f) l.*2 (srcAddr f)) as [Hs1 Hs2].
  rewrite Z.eqb_refl in Hs2. rewrite Hs1.
  destruct (decide (last_from (srcAddr f) l.*2 = Some (bdsn f))) as [Hdup|Hnew].
  - rewrite Hdup, Z.eqb_refl. change (2 =? 2) with true. mrun.
    eapply wpe_delete; [done|msimp; rewrite Hfr, lookup_insert_ne, lookup_insert_eq by done; by eexists|]. mrun.
    apply (HQ None _ ack l'); [|msimp; by rewrite Hb|by rewrite bool_decide_eq_true_2].
    split; msimp; rewrite ?Hrx, ?Hdel, ?Ho, ?Hb, ?Hl'; try done. by rewrite lookup_insert_eq.
  - assert ((match last_from (srcAddr f) l.*2 with Some n => if n =? bdsn f then 2 else 1 | None => 0 end =? 2) = false) as ->.
    { destruct (last_from (srcAddr f) l.*2) as [n|]; [|done]. destruct (Z.eqb_spec n (bdsn f)); [by subst|done]. }
    mrun. apply (HQ (Some a) _ ack l'); [|msimp; by rewrite Hb|by rewrite bool_decide_eq_false_2].
    split; msimp; rewrite ?Hrx, ?Hfr, ?Ho, ?Hb, ?Hl'; try done. by rewrite lookup_insert_eq.
Qed.

(** C30: a data frame for this node (or for everyone; short addresses, intact, not
    received in a guaranteed time slot) that asks for an acknowledgement gets one,
    with its sequence number and addressed to its sender: the ACK is in [txAck]
    and the transmitter requested.  A pending CSMA/CA is stopped: its backoff timer
    is cancelled, else the timer of its deferred CCA, else it no longer awaits the
    result of a CCA; without one pending nothing of CSMA/CA changes.  The frame is
    kept for the upper layer, in [rxData], unless an earlier frame still waits
    there, or its number is the one last received from the same source; it is then
    deleted.  Unless an earlier frame waits, the duplicate list then has that
    number; else it is left alone.  If an earlier ACK is still being sent, the run
    ends on the assertion that there is none. *)
Theorem data_frame_acknowledged f w l :
  plain_data f -> addressed f (me w) -> ackReq (frmCtrl f) = true -> isGTS f = false -> hrepr (hlistD (me w)) l ->
  if is_set (txAck (buf (me w))) then handleMessage (LowerFrame f) w = Fault (AssertFailed "!txAck")
  else exists kept s' ack l',
    handleMessage (LowerFrame f) w = Ok (tt, w<| me := s' |>)
    /\ acked f (me w) l kept s' ack l'
    /\ rxData (buf s') = (if is_set (rxData (buf (me w))) then rxData (buf (me w)) else kept)
    /\ (kept = None <-> is_set (rxData (buf (me w))) = true \/ last_from (srcAddr f) l.*2 = Some (bdsn f)).
Proof.
  intros Hd Ha Hreq Hg Hr. destruct (is_set (txAck (buf (me w)))) eqn:Htx.
  { apply wpe_fails, wpe_handleLower; [apply Hd|]. unfold handleLowerMsg, own. mrun. by apply wpe_acceptFrame_busy. }
  destruct (wp_ok (handleMessage (LowerFrame f)) (fun _ w' => exists kept s' ack l', w' = w<| me := s' |>
    /\ acked f (me w) l kept s' ack l' /\ rxData (buf s') = (if is_set (rxData (buf (me w))) then rxData (buf (me w)) else kept)
    /\ is_set kept = negb (drops f (me w) l)) w) as ([] & w' & Hrun & kept & s' & ack & l' & -> & Hk & Hrx & Hset).
  - apply wpe_handleLower; [apply Hd|]. unfold handleLowerMsg, own. mrun.
    eapply wpe_acceptFrame_data; try done; [by destruct (txAck (buf (me w)))|]. intros kept s' ack l' Hk Hrx Hset.
    destruct kept as [a|]; cbn [fmap option_fmap option_map].
    + assert (Hnone : is_set (rxData (buf (me w))) = false) by (unfold drops in Hset; by destruct (is_set (rxData _))).
      rewrite (pd_type _ Hd). mrun. unfold handleData. mrun. destruct (ak_frames _ _ _ _ _ _ _ Hk) as [Hfr Hne].
      eapply wpe_deref; [done|msimp; rewrite Hfr, lookup_insert_ne, lookup_insert_eq by done; reflexivity|].
      mrun; msimp; [by rewrite Hreq in *| |by rewrite Hrx, Hnone in *].
      exists (Some a). eexists _, ack, l'. split; [reflexivity|]. rewrite Hnone. split_and!; try done. destruct Hk. split; msimp; done.
    + mrun. exists None, s', ack, l'. split_and!; try done. rewrite Hrx. by destruct (rxData (buf (me w))).
  - exists kept, s', ack, l'. split_and!; try done. unfold drops in Hset.
    destruct kept; cbn in Hset; destruct (is_set (rxData _)); cbn in Hset; try naive_solver.
    all: case_bool_decide; naive_solver.
Qed.

End frames.

(** ** Witnesses *)

Lemma beacon_interval_witness :
  exists s1 f, handleBcnTxTimer (coor1 3) = Ok (tt, s1) /\ last (out s1) = Some (ToPhy_frame f)
    /\ scheduled (tim s1) MAC_BCN_TX_TIMER = Some (now (coor1 3) + 982848000000).
Proof.
  destruct (beacon_interval (coor1 3)) as (s1 & f & Hrun & Hout & _ & Hsch & _).
  - split; try reflexivity; [vm_compute; split; congruence..|right; right; reflexivity|].
    split; vm_compute; try done; split; congruence.
  - exists s1, f. split; [exact Hrun|]. split; [exact Hout|]. exact Hsch.
Defined.

(** The frame sent by the device, for a coordinator with another address. *)
Lemma foreign_frame_ignored_witness :
  handleMessage (LowerFrame (data_sent<| dstAddr := 9 |>)) (net1 1) = Ok (tt, net1 1).
Proof.
  apply foreign_frame_ignored; [split; reflexivity|reflexivity|].
  vm_compute. intros [_ [|]]; discriminate.
Defined.

Lemma data_frame_acknowledged_witness :
  exists s' a, handleMessage (LowerFrame data_sent) (mkWorld "coor" (coor1 1) ∅) = Ok (tt, mkWorld "coor" s' ∅)
    /\ rxData (buf s') = Some a.
Proof.
  pose proof (data_frame_acknowledged data_sent (mkWorld "coor" (coor1 1) ∅) []
    ltac:(split; reflexivity) ltac:(split; right; reflexivity) eq_refl eq_refl empty_hrepr) as H.
  assert (E1 : is_set (txAck (buf (me (mkWorld "coor" (coor1 1) ∅)))) = false) by (vm_compute; reflexivity).
  assert (E2 : is_set (rxData (buf (me (mkWorld "coor" (coor1 1) ∅)))) = false) by (vm_compute; reflexivity).
  rewrite E1, E2 in H. destruct H as (kept & s' & ack & l' & Hrun & _ & Hrx & Hk).
  destruct kept as [a|]; [exists s', a; split; [exact Hrun|exact Hrx]|].
  destruct (proj1 Hk eq_refl) as [H|H]; discriminate H.
Defined.
