(* ===== verification/MacInv.v ===== *)
(** * What every message preserves: an invariant of the MAC

    The invariant is proved function by function, with one rule per construct
    of the monad; a function's lemma is added to the hint database [keeps]. *)

From S2P Require Import Prelude HList MacConst MacTypes MacUtil MacCsma MacTask MacHandlers MacGts MacSample MacProps.

Open Scope string_scope.
Open Scope list_scope.
Open Scope Z_scope.

#[local] Opaque u8 u16 u32.

(** ** The invariant *)

Definition is_upper (e : mevent) : bool := match e with ToUpper _ => true | _ => false end.

(** The packets passed up so far. *)
Definition passed_up (s : Mac) : list mevent := List.filter is_upper (out s).

(** What a held command frame freezes: the command buffer, and the packets
    passed up. *)
Record held (c : positive) (ups : list mevent) (s : Mac) : Prop := {
  held_cmd : rxCmd (buf s) = Some c;
  held_ups : passed_up s = ups;
}.

(** The command buffers for transmission stay empty, the constants of the PIB
    keep their values, the backoff exponent of a running CSMA/CA is at most
    [aMaxBE], and the GTS list stays within its array.  [h] is the held command,
    if there is one. *)
Record mac_inv (h : option (positive * list mevent)) (s : Mac) : Prop := {
  inv_cmd : txBcnCmd (buf s) = None;
  inv_upper : txBcnCmdUpper (buf s) = None;
  inv_minBE : macMinBE (mpib s) = def_macMinBE;
  inv_backoffs : macMaxCSMABackoffs (mpib s) = def_macMaxCSMABackoffs;
  inv_wait : macAckWaitDuration (mpib s) = def_macAckWaitDuration;
  inv_promiscuous : macPromiscuousMode (mpib s) = false;
  inv_BE : is_set (tmpCsmaca (buf s)) = true -> 0 <= BE (csma s) <= aMaxBE;
  inv_status : backoffStatus (csma s) = 0 \/ backoffStatus (csma s) = 1 \/ backoffStatus (csma s) = 2
    \/ backoffStatus (csma s) = 99;
  inv_gts : 0 <= gtsCount (gts s) <= 7 /\ length (gtsList (gts s)) = 7%nat;
  inv_held : match h with Some (c, ups) => held c ups s | None => True end;
}.

(** A leaf: one update of the state that no clause of the invariant notices, or
    that its clauses allow. *)
Ltac held_close :=
  match goal with
  | H : match ?h with _ => _ end |- match ?h with _ => _ end =>
      destruct h as [[? ?]|]; [destruct H; split; unfold passed_up in *; msimp; auto|done]
  end.
Ltac inv_split :=
  match goal with H : mac_inv _ _ |- _ => destruct H end;
  split; unfold passed_up in *; msimp; auto; try done; try held_close.
Ltac keeps_leaf := apply keeps_modify; intros ? ?; inv_split.

(** The steps of a body; the calls are closed by the lemmas of the callees. *)
Ltac keeps_step :=
  first
  [ solve [auto with keeps]
  | apply keeps_bind; [|intros ?]
  | apply keeps_when
  | progress cbv zeta
  | match goal with
    | |- keeps _ (if ?b then _ else _) => destruct b
    | |- keeps _ (match ?x with _ => _ end) => destruct x
    | |- keeps _ (upd_csma _) => unfold upd_csma; solve [keeps_leaf]
    | |- keeps _ (upd_buf _) => unfold upd_buf; solve [keeps_leaf]
    | |- keeps _ (upd_mpib _) => unfold upd_mpib; solve [keeps_leaf]
    | |- keeps _ (upd_gts _) => unfold upd_gts; solve [keeps_leaf]
    | |- keeps _ (modify _) => solve [keeps_leaf]
    end ].
Ltac keeps_body := repeat keeps_step.

Section inv.
Context `{MacEnv} (h : option (positive * list mevent)).
#[local] Abbreviation K := (keeps (mac_inv h)).

(** ** Accessors and services *)

Lemma k_self : K self.
Proof. apply keeps_gets. Qed.
Lemma k_phy f : K (upd_phy f).
Proof. unfold upd_phy. keeps_leaf. Qed.
Lemma k_par f : K (upd_par f).
Proof. unfold upd_par. keeps_leaf. Qed.
Lemma k_bcn f : K (upd_bcn f).
Proof. unfold upd_bcn. keeps_leaf. Qed.
Lemma k_tim f : K (upd_tim f).
Proof. unfold upd_tim. keeps_leaf. Qed.
Lemma k_tx f : K (upd_tx f).
Proof. unfold upd_tx. keeps_leaf. Qed.
Lemma k_stats f : K (upd_stats f).
Proof. unfold upd_stats. keeps_leaf. Qed.
Lemma k_emit e : is_upper e = false -> K (emit e).
Proof.
  intros He. unfold emit. keeps_leaf. rewrite List.filter_app. cbn. rewrite He, app_nil_r. done.
Qed.
#[local] Hint Resolve k_self k_phy k_par k_bcn k_tim k_tx k_stats : keeps.
#[local] Hint Extern 1 (keeps _ (emit _)) => (apply k_emit; reflexivity) : keeps.

Lemma k_get_taskStatus t : K (get_taskStatus t).
Proof. unfold get_taskStatus. keeps_body. Qed.
Lemma k_get_taskStep t : K (get_taskStep t).
Proof. unfold get_taskStep. keeps_body. Qed.
Lemma k_get_taskFrFunc t : K (get_taskFrFunc t).
Proof. unfold get_taskFrFunc. keeps_body. Qed.
Lemma k_upd_task f : K (upd_task f).
Proof. unfold upd_task. keeps_body. Qed.
#[local] Hint Resolve k_get_taskStatus k_get_taskStep k_get_taskFrFunc k_upd_task : keeps.
Lemma k_put_taskStatus t b : K (put_taskStatus t b).
Proof. unfold put_taskStatus. keeps_body. Qed.
Lemma k_put_taskStep t n : K (put_taskStep t n).
Proof. unfold put_taskStep. keeps_body. Qed.
Lemma k_put_taskFrFunc t f : K (put_taskFrFunc t f).
Proof. unfold put_taskFrFunc. keeps_body. Qed.
Lemma k_deref p : K (deref p).
Proof. unfold deref. keeps_body. Qed.
#[local] Hint Resolve k_put_taskStatus k_put_taskStep k_put_taskFrFunc k_deref : keeps.
Lemma k_cast_deref p : K (cast_deref p).
Proof. unfold cast_deref. keeps_body. Qed.
Lemma k_delete p : K (delete_frame p).
Proof. unfold delete_frame. keeps_body. Qed.
Lemma k_new f : K (new_frame f).
Proof. unfold new_frame. keeps_body. Qed.
Lemma k_intrand n : K (intrand n).
Proof. unfold intrand. keeps_body. Qed.
Lemma k_ev_deref p : K (ev_deref p).
Proof. unfold ev_deref. keeps_body. Qed.
Lemma k_cancelEvent t : K (cancelEvent t).
Proof. unfold cancelEvent. keeps_body. Qed.
Lemma k_scheduleAt n t : K (scheduleAt n t).
Proof. unfold scheduleAt. keeps_body. Qed.
#[local] Hint Resolve k_cast_deref k_delete k_new k_intrand k_ev_deref k_cancelEvent k_scheduleAt : keeps.
Lemma k_restartAt n t : K (restartAt n t).
Proof. unfold restartAt. keeps_body. Qed.
Lemma k_toParent p : K (toParent p).
Proof. unfold toParent. keeps_body. Qed.
#[local] Hint Resolve k_restartAt k_toParent : keeps.

(** ** Utility functions and timers *)

Lemma k_trx x : K (PLME_SET_TRX_STATE_request x).
Proof. unfold PLME_SET_TRX_STATE_request. keeps_body. Qed.
Lemma k_cca : K PLME_CCA_request.
Proof. unfold PLME_CCA_request. keeps_body. Qed.
#[local] Hint Resolve k_trx k_cca : keeps.
Lemma k_resetTRX : K resetTRX.
Proof. unfold resetTRX. keeps_body. Qed.
Lemma k_sendDown f : K (sendDown f).
Proof. unfold sendDown. keeps_body. Qed.
#[local] Hint Resolve k_resetTRX k_sendDown : keeps.
Lemma k_sendDown_dup p : K (sendDown_dup p).
Proof. unfold sendDown_dup. keeps_body. Qed.
Lemma k_reqt : K reqtMsgFromIFq.
Proof. unfold reqtMsgFromIFq. keeps_body. Qed.
Lemma k_startBackoffTimer n : K (startBackoffTimer n).
Proof. unfold startBackoffTimer. keeps_body. Qed.
Lemma k_startDeferCCATimer n : K (startDeferCCATimer n).
Proof. unfold startDeferCCATimer. keeps_body. Qed.
Lemma k_startBcnRxTimer : K startBcnRxTimer.
Proof. unfold startBcnRxTimer. keeps_body. Qed.
Lemma k_startAckTimeoutTimer : K startAckTimeoutTimer.
Proof. unfold startAckTimeoutTimer. keeps_body. Qed.
Lemma k_startTxAckBoundTimer n : K (startTxAckBoundTimer n).
Proof. unfold startTxAckBoundTimer. keeps_body. Qed.
Lemma k_startTxCmdDataBoundTimer n : K (startTxCmdDataBoundTimer n).
Proof. unfold startTxCmdDataBoundTimer. keeps_body. Qed.
Lemma k_startIfsTimer b : K (startIfsTimer b).
Proof. unfold startIfsTimer. keeps_body. Qed.
Lemma k_startTxSDTimer : K startTxSDTimer.
Proof. unfold startTxSDTimer. keeps_body. Qed.
Lemma k_startRxSDTimer : K startRxSDTimer.
Proof. unfold startRxSDTimer. keeps_body. Qed.
Lemma k_startGtsTimer n : K (startGtsTimer n).
Proof. unfold startGtsTimer. keeps_body. Qed.
Lemma k_startFinalCapTimer n : K (startFinalCapTimer n).
Proof. unfold startFinalCapTimer. keeps_body. Qed.
Lemma k_gts_at i s : K (gts_at i s).
Proof. unfold gts_at. keeps_body. Qed.
#[local] Hint Resolve k_sendDown_dup k_reqt k_startBackoffTimer k_startDeferCCATimer k_startBcnRxTimer
  k_startAckTimeoutTimer k_startTxAckBoundTimer k_startTxCmdDataBoundTimer k_startIfsTimer k_startTxSDTimer
  k_startRxSDTimer k_startGtsTimer k_startFinalCapTimer k_gts_at : keeps.
Lemma k_upd_gts_at i f : K (upd_gts_at i f).
Proof.
  unfold upd_gts_at. do 2 (apply keeps_bind; [auto with keeps|intros ?]). unfold upd_gts. keeps_leaf.
  by rewrite length_insert.
Qed.
Lemma k_gtsScheduler : K gtsScheduler.
Proof. unfold gtsScheduler. keeps_body. Qed.
Lemma k_frameFilter f : K (frameFilter f).
Proof. unfold frameFilter. keeps_body. Qed.
Lemma k_constructACK f : K (constructACK f).
Proof. unfold constructACK. keeps_body. Qed.
#[local] Hint Resolve k_upd_gts_at k_gtsScheduler k_frameFilter k_constructACK : keeps.
(** ** CSMA/CA *)

Lemma csmacaReset_BE b s :
  mac_inv h s -> wpe (fun _ => True) (csmacaReset b) (fun _ s' => mac_inv h s' /\ 0 <= BE (csma s') <= aMaxBE) s.
Proof.
  intros Hs. pose proof (inv_minBE _ _ Hs) as Hbe.
  assert (Hset : forall f s', mac_inv h s' -> 0 <= BE (f (csma s')) <= aMaxBE ->
    backoffStatus (f (csma s')) = backoffStatus (csma s') -> mac_inv h (s'<| csma ::= f |>)).
  { intros f s' [] HB Hst. split; unfold passed_up in *; msimp; auto; [by rewrite Hst|].
    destruct h as [[? ?]|]; [|done]. destruct inv_held0. by split. }
  unfold csmacaReset, upd_csma. mrun. destruct b; mrun; msimp; rewrite ?Hbe.
  - split; [|unfold aMaxBE; lia]. apply Hset; msimp; [apply Hset; msimp; [done|unfold def_macMinBE, aMaxBE; lia|done]| |done].
    unfold aMaxBE. lia.
  - split; [|unfold def_macMinBE, aMaxBE; lia]. apply Hset; msimp; [done|unfold def_macMinBE, aMaxBE; lia|done].
  - split; [|unfold def_macMinBE, aMaxBE; lia]. apply Hset; msimp; [done|unfold def_macMinBE, aMaxBE; lia|done].
Qed.

Lemma k_csmacaReset b : K (csmacaReset b).
Proof. intros s Hs. eapply wpe_mono; [by apply csmacaReset_BE|]. by intros _ s' []. Qed.
Lemma k_updateSched : K updateSchedBcnRxTime.
Proof. unfold updateSchedBcnRxTime. keeps_body. Qed.
Lemma k_csmacaAdjustTime n : K (csmacaAdjustTime n).
Proof. unfold csmacaAdjustTime. keeps_body. Qed.
#[local] Hint Resolve k_csmacaReset k_updateSched k_csmacaAdjustTime : keeps.
Lemma k_csmacaLocateBoundary b n : K (csmacaLocateBoundary b n).
Proof. unfold csmacaLocateBoundary. keeps_body. Qed.
Lemma k_getFinalCAP c : K (getFinalCAP c).
Proof. unfold getFinalCAP. keeps_body. Qed.
#[local] Hint Resolve k_csmacaLocateBoundary k_getFinalCAP : keeps.
Lemma k_csmacaTransacTime b : K (csmacaTransacTime b).
Proof. unfold csmacaTransacTime. keeps_body. Qed.
Lemma k_csmacaPostpone : K csmacaPostpone.
Proof. unfold csmacaPostpone. keeps_body. Qed.
#[local] Hint Resolve k_csmacaTransacTime k_csmacaPostpone : keeps.
Lemma k_csmacaFitsCAP n b : K (csmacaFitsCAP n b).
Proof. unfold csmacaFitsCAP. keeps_body. Qed.
#[local] Hint Resolve k_csmacaFitsCAP : keeps.
Lemma k_csmacaCanProceed n b : K (csmacaCanProceed n b).
Proof. unfold csmacaCanProceed. keeps_body. Qed.
#[local] Hint Resolve k_csmacaCanProceed : keeps.

(** CSMA/CA takes a frame only after its variables have been reset. *)
Lemma k_csmaca_take b frame req :
  K (csmacaReset b;;
     s ← self;
     assert_ (negb (is_set (tmpCsmaca (buf s)))) "tmpCsmaca == 0";;
     upd_buf (fun b => b<| tmpCsmaca := frame |>);;
     upd_csma (fun c => c<| csmacaAckReq := req |>)).
Proof.
  intros s Hs. apply wpe_bind. eapply wpe_mono; [by apply csmacaReset_BE|]. intros _ s' [Hs' HBE].
  mrun; [|done]. inv_split.
Qed.

Lemma k_csmacaStart b frame req : K (csmacaStart b frame req).
Proof.
  unfold csmacaStart. apply keeps_bind; [auto with keeps|]. intros s.
  destruct (is_set (txAck (buf s))); [keeps_body|].
  apply keeps_bind; [auto with keeps|]. intros _. apply keeps_bind; [|intros _; keeps_body].
  apply keeps_when. do 2 (apply keeps_bind; [auto with keeps|intros _]). apply k_csmaca_take.
Qed.
Lemma k_csmacaCancel : K csmacaCancel.
Proof. unfold csmacaCancel. keeps_body. Qed.
#[local] Hint Resolve k_csmacaStart k_csmacaCancel : keeps.
Lemma k_csmacaResume : K csmacaResume.
Proof. unfold csmacaResume. keeps_body. Qed.
#[local] Hint Resolve k_csmacaResume : keeps.
Lemma k_csmacaEntry c : K (csmacaEntry c).
Proof. unfold csmacaEntry. keeps_body. Qed.
Lemma k_handleBackoffTimer : K handleBackoffTimer.
Proof. unfold handleBackoffTimer. keeps_body. Qed.
Lemma k_handleDeferCCATimer : K handleDeferCCATimer.
Proof. unfold handleDeferCCATimer. keeps_body. Qed.
#[local] Hint Resolve k_csmacaEntry k_handleBackoffTimer k_handleDeferCCATimer : keeps.
Lemma k_RX_ON_confirm x : K (csmaca_handle_RX_ON_confirm x).
Proof. unfold csmaca_handle_RX_ON_confirm. keeps_body. Qed.
Lemma k_csmacaTrxBeacon : K csmacaTrxBeacon.
Proof. unfold csmacaTrxBeacon. keeps_body. Qed.
#[local] Hint Resolve k_RX_ON_confirm k_csmacaTrxBeacon : keeps.
(** ** Tasks *)

Lemma k_MCPS_DATA_confirm x : K (MCPS_DATA_confirm x).
Proof. unfold MCPS_DATA_confirm. keeps_body. Qed.
Lemma k_reqtIfIdle : K reqtIfIdle.
Proof. unfold reqtIfIdle. keeps_body. Qed.
Lemma k_clearTxPending : K clearTxPending.
Proof. unfold clearTxPending. keeps_body. Qed.
Lemma k_taskSuccess_beacon b : K (taskSuccess_beacon b).
Proof. unfold taskSuccess_beacon. keeps_body. Qed.
#[local] Hint Resolve k_MCPS_DATA_confirm k_reqtIfIdle k_clearTxPending k_taskSuccess_beacon : keeps.
Lemma k_taskSuccess c b : K (taskSuccess c b).
Proof. unfold taskSuccess. keeps_body. Qed.
Lemma k_taskFailed c x b : K (taskFailed c x b).
Proof. unfold taskFailed. keeps_body. Qed.
Lemma k_checkTaskOverflow t : K (checkTaskOverflow t).
Proof. unfold checkTaskOverflow. keeps_body. Qed.
Lemma k_task_next f : K (task_next f).
Proof. unfold task_next. keeps_body. Qed.
#[local] Hint Resolve k_taskSuccess k_taskFailed k_checkTaskOverflow k_task_next : keeps.
Lemma k_FSM_direct x : K (FSM_direct x).
Proof. unfold FSM_direct. keeps_body. Qed.
Lemma k_FSM_gts x : K (FSM_gts x).
Proof. unfold FSM_gts. keeps_body. Qed.
#[local] Hint Resolve k_FSM_direct k_FSM_gts : keeps.
Lemma k_FSM x : K (FSM_MCPS_DATA_request x).
Proof. unfold FSM_MCPS_DATA_request. keeps_body. Qed.
Lemma k_task_waits f : K (task_waits f).
Proof. unfold task_waits. keeps_body. Qed.
#[local] Hint Resolve k_FSM k_task_waits : keeps.
Lemma k_assert_task_waits f : K (assert_task_waits f).
Proof. unfold assert_task_waits. keeps_body. Qed.
Lemma k_dispatch_ack_sent : K dispatch_ack_sent.
Proof. unfold dispatch_ack_sent. keeps_body. Qed.
#[local] Hint Resolve k_assert_task_waits k_dispatch_ack_sent : keeps.
Lemma k_dispatch x f : K (dispatch x f).
Proof.
  unfold dispatch, dispatch_PD_DATA_confirm, dispatch_handleAck, dispatch_handleAckTimeoutTimer. keeps_body.
Qed.
#[local] Hint Resolve k_dispatch : keeps.
Lemma k_csmacaCallBack x : K (csmacaCallBack x).
Proof.
  unfold csmacaCallBack. keeps_body. unfold upd_csma. destruct (x ==! phy_IDLE); keeps_leaf.
Qed.
Lemma k_gtsCanProceed : K gtsCanProceed.
Proof. unfold gtsCanProceed. keeps_body. Qed.
#[local] Hint Resolve k_csmacaCallBack k_gtsCanProceed : keeps.
Lemma k_MCPS_DATA_request a b c d e f p o : K (MCPS_DATA_request a b c d e f p o).
Proof. unfold MCPS_DATA_request. keeps_body. Qed.
#[local] Hint Resolve k_MCPS_DATA_request : keeps.

(** ** Handlers *)

Lemma k_startBcnTxTimer : K startBcnTxTimer.
Proof. unfold startBcnTxTimer. keeps_body. Qed.
Lemma k_sendBeacon : K sendBeacon.
Proof. unfold sendBeacon. keeps_body. Qed.
Lemma k_dropAck : K dropAck.
Proof. unfold dropAck. keeps_body. Qed.
#[local] Hint Resolve k_startBcnTxTimer k_sendBeacon k_dropAck : keeps.
Lemma k_handleBcnTxTimer : K handleBcnTxTimer.
Proof. unfold handleBcnTxTimer. keeps_body. Qed.
#[local] Hint Resolve k_handleBcnTxTimer : keeps.
Lemma k_startBcnTxTimer_first n : K (startBcnTxTimer_first n).
Proof. unfold startBcnTxTimer_first. keeps_body. Qed.
#[local] Hint Resolve k_startBcnTxTimer_first : keeps.
Lemma k_startPANCoor : K startPANCoor.
Proof. unfold startPANCoor. keeps_body. Qed.
Lemma k_handleBcnRxTimer : K handleBcnRxTimer.
Proof. unfold handleBcnRxTimer. keeps_body. Qed.
Lemma k_handleAckTimeoutTimer : K handleAckTimeoutTimer.
Proof. unfold handleAckTimeoutTimer. keeps_body. Qed.
Lemma k_handleTxAckBoundTimer : K handleTxAckBoundTimer.
Proof. unfold handleTxAckBoundTimer. keeps_body. Qed.
Lemma k_handleTxCmdDataBoundTimer : K handleTxCmdDataBoundTimer.
Proof. unfold handleTxCmdDataBoundTimer. keeps_body. Qed.
Lemma k_handleSDTimer : K handleSDTimer.
Proof. unfold handleSDTimer. keeps_body. Qed.
Lemma k_handleFinalCapTimer : K handleFinalCapTimer.
Proof. unfold handleFinalCapTimer. keeps_body. Qed.
Lemma k_startGtsTransmission : K startGtsTransmission.
Proof. unfold startGtsTransmission. keeps_body. Qed.
#[local] Hint Resolve k_startPANCoor k_handleBcnRxTimer k_handleAckTimeoutTimer k_handleTxAckBoundTimer
  k_handleTxCmdDataBoundTimer k_handleSDTimer k_handleFinalCapTimer k_startGtsTransmission : keeps.
Lemma k_handleGtsTimer : K handleGtsTimer.
Proof. unfold handleGtsTimer, handleGtsTimer_coordinator, handleGtsTimer_device. keeps_body. Qed.
#[local] Hint Resolve k_handleGtsTimer : keeps.

(** A packet is passed up only while no command is held. *)
Lemma k_handleIfsTimer : K handleIfsTimer.
Proof.
  intros s Hs. unfold handleIfsTimer. mrun; [|done].
  destruct (is_set (rxCmd (buf s))) eqn:Hc; [by mrun|].
  assert (Hh : h = None).
  { pose proof (inv_held _ _ Hs) as Hh. destruct h as [[c ups]|]; [|done]. by rewrite (held_cmd _ _ _ Hh) in Hc. }
  destruct (is_set (rxData (buf s))).
  - mrun. unfold MCPS_DATA_indication. mrun. eapply wpe_mono; [by apply k_deref|]. intros f s1 Hs1. mrun.
    eapply (wpe_mono _ _ (fun _ s2 => mac_inv h s2)); [destruct (isGTS f); by apply k_stats|].
    intros _ s2 Hs2. mrun. eapply wpe_mono; [by apply k_delete|]. intros ? s3 Hs3. rewrite Hh in Hs3 |- *.
    destruct (encapsulated f); [|destruct ev_on; done]. mrun. inv_split.
  - destruct (is_set (txGTS (buf s))); [|by mrun].
    match goal with |- wpe _ ?m _ _ => assert (Hk : K m) by keeps_body end. by apply Hk.
Qed.
#[local] Hint Resolve k_handleIfsTimer : keeps.
Lemma k_handleSelfMsg t : K (handleSelfMsg t).
Proof. unfold handleSelfMsg. keeps_body. Qed.
Lemma k_PD_DATA_confirm x : K (handle_PD_DATA_confirm x).
Proof. unfold handle_PD_DATA_confirm. keeps_body. Qed.
Lemma k_csmacaSucceeds x : K (csmacaSucceeds x).
Proof. unfold csmacaSucceeds. keeps_body. Qed.
#[local] Hint Resolve k_handleSelfMsg k_PD_DATA_confirm k_csmacaSucceeds : keeps.

(** After a busy channel the exponent grows, up to [aMaxBE]. *)
Lemma k_backoff_again :
  K (upd_csma (fun c => c<| BE := u8 (BE c + 1) |>);;
     upd_csma (fun c => c<| BE := if aMaxBE <? BE c then aMaxBE else BE c |>);;
     csmacaStart false None false).
Proof.
  intros s Hs. mrun. apply k_csmacaStart. pose proof (u8_range (BE (csma s) + 1)) as Hr. inv_split.
  intros _. unfold aMaxBE. destruct (Z.ltb_spec 5 (u8 (BE (csma s) + 1))); lia.
Qed.
#[local] Hint Resolve k_backoff_again : keeps.

Lemma k_CCA_confirm x : K (handle_PLME_CCA_confirm x).
Proof. unfold handle_PLME_CCA_confirm. keeps_body. Qed.
Lemma k_transmitOnTxOn : K transmitOnTxOn.
Proof. unfold transmitOnTxOn. keeps_body. Qed.
#[local] Hint Resolve k_CCA_confirm k_transmitOnTxOn : keeps.
Lemma k_TRX_STATE_confirm x : K (handle_PLME_SET_TRX_STATE_confirm x).
Proof. unfold handle_PLME_SET_TRX_STATE_confirm. keeps_body. Qed.
#[local] Hint Resolve k_TRX_STATE_confirm : keeps.
Lemma k_primitive k x : K (handleMacPhyPrimitive k x).
Proof. unfold handleMacPhyPrimitive. keeps_body. Qed.
Lemma k_handleData p : K (handleData p).
Proof. unfold handleData. keeps_body. Qed.
Lemma k_handleAck p : K (handleAck p).
Proof. unfold handleAck. keeps_body. Qed.

(** A command is taken only if none is held. *)
Lemma k_handleCommand p : K (handleCommand p).
Proof.
  unfold handleCommand. apply keeps_bind; [auto with keeps|]. intros f.
  assert (Hkeep : K (s ← self; assert_ (negb (is_set (rxCmd (buf s)))) "rxCmd == NULL";;
                     upd_buf (fun b => b<| rxCmd := p |>))).
  { intros s Hs. mrun; [|done]. inv_split; destruct (rxCmd (buf s)); done. }
  destruct (cls f) as [| | |c|]; try (by apply keeps_fail). cbv zeta.
  destruct c; first [exact Hkeep|auto with keeps].
Qed.
Lemma k_readBeacon f x : K (readBeacon f x).
Proof. unfold readBeacon. keeps_body. Qed.
Lemma k_scheduleMyGts : K scheduleMyGts.
Proof. unfold scheduleMyGts. keeps_body. Qed.
Lemma k_checkGtsTiming f : K (checkGtsTiming f).
Proof. unfold checkGtsTiming. keeps_body. Qed.
Lemma k_acknowledge f : K (acknowledge f).
Proof. unfold acknowledge. keeps_body. Qed.
Lemma k_chkDuplicate f : K (chkDuplicate f).
Proof.
  assert (Hz : forall get put (m : M hlist Z), (forall l s, mac_inv h s -> mac_inv h (put l s)) -> K (zoom get put m)).
  { intros get put m Hp s Hs. apply wpe_zoom. unfold wpe. destruct (m (get s)) as [[??]|]; auto. }
  unfold chkDuplicate. destruct (frmType (frmCtrl f)); first [apply keeps_ret|apply Hz; intros l s Hs]; inv_split.
Qed.
#[local] Hint Resolve k_primitive k_handleData k_handleAck k_handleCommand k_readBeacon k_scheduleMyGts
  k_checkGtsTiming k_acknowledge k_chkDuplicate : keeps.
Lemma k_acceptFrame f : K (acceptFrame f).
Proof. unfold acceptFrame. keeps_body. Qed.
Lemma k_drop_upper : K drop_upper.
Proof. unfold drop_upper. keeps_body. Qed.
Lemma k_parent_address s : K (parent_address s).
Proof. unfold parent_address. keeps_body. Qed.
Lemma k_getMacAddr : K getMacAddr.
Proof. unfold getMacAddr. keeps_body. Qed.
Lemma k_associate_request_cmd a c : K (associate_request_cmd a c).
Proof. unfold associate_request_cmd. keeps_body. Qed.

(** The list of GTSs never outgrows its array. *)
Lemma k_gts_request_cmd a l b : K (gts_request_cmd a l b).
Proof.
  intros s Hs. unfold gts_request_cmd. mrun; [|done].
  destruct (deviceList s !! a); [|by mrun]. destruct (Z.leb_spec 7 (gtsCount (gts s))); [by mrun|].
  match goal with |- context [if ?c then _ else _] => destruct c end; [by mrun|]. mrun.
  unfold upd_gts_at, gts_at. mrun. msimp. destruct (gtsList (gts s) !! _); [|done]. mrun. msimp.
  inv_split. destruct inv_gts0. rewrite length_insert, u8_small by lia. lia.
Qed.
#[local] Hint Resolve k_acceptFrame k_drop_upper k_parent_address k_getMacAddr k_associate_request_cmd
  k_gts_request_cmd : keeps.

(** ** The whole module *)

#[local] Abbreviation WK := (keeps (fun w : World => mac_inv h (me w))).

Lemma wk_own {A} (m : M Mac A) : K m -> WK (own m).
Proof. intros Hm w Hw. unfold own. apply wpe_zoom. by apply Hm. Qed.
Lemma wk_remote {A} name (m : M Mac A) : K m -> WK (remote name m).
Proof.
  intros Hm w Hw. unfold remote. unfold wpe. destruct (String.eqb name (self_name w)); [by apply (wk_own m Hm)|].
  destruct (others w !! name) as [[s|]|]; [|done..]. by destruct (m s) as [[a s']|].
Qed.
#[local] Hint Extern 1 (keeps _ (own _)) => (apply wk_own; keeps_body) : keeps.
#[local] Hint Extern 1 (keeps _ (remote _ _)) => (apply wk_remote; auto with keeps) : keeps.
Lemma wk_requestGts : WK requestGts.
Proof. unfold requestGts. keeps_body. Qed.
#[local] Hint Resolve wk_requestGts : keeps.
Lemma wk_associate f : WK (associate f).
Proof. unfold associate. keeps_body. Qed.
#[local] Hint Resolve wk_associate : keeps.
Lemma wk_handleBeacon p : WK (handleBeacon p).
Proof. unfold handleBeacon. keeps_body. Qed.
#[local] Hint Resolve wk_handleBeacon : keeps.
Lemma wk_handleLowerMsg f : WK (handleLowerMsg f).
Proof. unfold handleLowerMsg. keeps_body. Qed.
Lemma wk_device_address n : WK (device_address n).
Proof. unfold device_address. keeps_body. Qed.
#[local] Hint Resolve wk_handleLowerMsg wk_device_address : keeps.
Lemma wk_handleUpperMsg p c : WK (handleUpperMsg p c).
Proof. unfold handleUpperMsg. keeps_body. Qed.
#[local] Hint Resolve wk_handleUpperMsg : keeps.
Lemma wk_handleMessage m : WK (handleMessage m).
Proof. unfold handleMessage. keeps_body. Qed.
Lemma k_receiveChangeNotification b d : K (receiveChangeNotification b d).
Proof. unfold receiveChangeNotification. keeps_body. Qed.
Lemma k_startDevice : K startDevice.
Proof. unfold startDevice. keeps_body. Qed.
#[local] Hint Resolve k_receiveChangeNotification k_startDevice : keeps.
Lemma k_initialize_late stage host n : stage <> 0 -> K (initialize stage host n).
Proof. intros Hs. unfold initialize. rewrite (proj2 (Z.eqb_neq _ _) Hs). keeps_body. Qed.
End inv.

(** ** Runs *)

Section runs.
Context `{MacEnv}.

(** The kernel advances the clock to [t] and takes a timer that goes off from
    its list. *)
Definition arrive (t : Z) (m : message) (s : Mac) : Mac :=
  let s := s<| now := t |> in
  match m with
  | Timer x => s<| tim ::= fun y => y<| scheduled ::= set_timer x None |> |>
  | _ => s
  end.

(** What happens to a module after stage 0 of its initialisation: the later
    stages, notifications, messages, calls by the MACs of other hosts, and
    whatever the other hosts do. *)
Inductive mac_step (w : World) : World -> Prop :=
  | step_initialize stage host n s' :
      stage <> 0 -> initialize stage host n (me w) = Ok (tt, s') -> mac_step w (w<| me := s' |>)
  | step_notification b d s' :
      receiveChangeNotification b d (me w) = Ok (tt, s') -> mac_step w (w<| me := s' |>)
  | step_message t m w' :
      now (me w) <= t -> handleMessage m (w<| me ::= arrive t m |>) = Ok (tt, w') -> mac_step w w'
  | step_associate a c r s' :
      associate_request_cmd a c (me w) = Ok (r, s') -> mac_step w (w<| me := s' |>)
  | step_gts_request a l b r s' :
      gts_request_cmd a l b (me w) = Ok (r, s') -> mac_step w (w<| me := s' |>)
  | step_others o : mac_step w (w<| others := o |>).

Lemma arrive_inv h t m s : mac_inv h s -> mac_inv h (arrive t m s).
Proof. intros Hs. unfold arrive. destruct m; inv_split. Qed.

Lemma mac_step_inv h w w' : mac_step w w' -> mac_inv h (me w) -> mac_inv h (me w').
Proof.
  intros Hstep Hw. destruct Hstep as [stage host n s' Hst Hrun|b d s' Hrun|t m w' Ht Hrun|a c r s' Hrun|a l b r s' Hrun|o];
    msimp.
  - by apply (keeps_run _ _ _ _ _ (k_initialize_late h stage host n Hst) Hw Hrun).
  - by apply (keeps_run _ _ _ _ _ (k_receiveChangeNotification h b d) Hw Hrun).
  - eapply (keeps_run _ _ _ _ _ (wk_handleMessage h m)); [|exact Hrun]. by apply arrive_inv.
  - by apply (keeps_run _ _ _ _ _ (k_associate_request_cmd h a c) Hw Hrun).
  - by apply (keeps_run _ _ _ _ _ (k_gts_request_cmd h a l b) Hw Hrun).
  - done.
Qed.

Lemma mac_steps_inv h w w' : rtc mac_step w w' -> mac_inv h (me w) -> mac_inv h (me w').
Proof. induction 1; eauto using mac_step_inv. Qed.

(** Stage 0 establishes the invariant on whatever was in memory. *)
Lemma initialize_inv addr g host n s :
  initialize 0 host n (srwsn802154Mac_ctor addr g).1 = Ok (tt, s) -> mac_inv None s.
Proof.
  change (initialize 0 host n) with (initialize_stage0 host n). intros Hrun.
  enough (Hw : wpe (fun _ => True) (initialize_stage0 host n) (fun _ s => mac_inv None s) (srwsn802154Mac_ctor addr g).1)
    by exact (wpe_run _ _ _ _ _ _ Hw Hrun).
  unfold initialize_stage0, initializeQueueModule, intrand, srwsn802154Mac_ctor. msimp.
  destruct (ned_queue n) as [[]|]; mrun; try done;
    (destruct (check_params _ _); [|done]); mrun; unfold initial_members; split; msimp; try done; by left.
Qed.

(** C1: in every state reachable after the initialisation of a module, whatever
    its memory held before: no command waits for transmission, the constants of
    the PIB have their default values, a frame under CSMA/CA has a backoff
    exponent of at most [aMaxBE] (so it backs off for less than 32 periods),
    and the GTS list has at most seven entries. *)
Theorem mac_reachable_invariant addr g host n w w' :
  initialize 0 host n (srwsn802154Mac_ctor addr g).1 = Ok (tt, me w) ->
  rtc mac_step w w' -> mac_inv None (me w').
Proof. intros Hinit Hsteps. eapply mac_steps_inv; [done|]. by eapply initialize_inv. Qed.

(** A command frame that is put aside for later ([rxCmd]) is never released,
    and from then on no data packet is passed to the upper layer, whatever
    happens: [handleIfsTimer], which should process the command, does nothing,
    and data waiting for it stays behind the command. *)
Theorem command_blocks_data addr g host n w0 w w' c :
  initialize 0 host n (srwsn802154Mac_ctor addr g).1 = Ok (tt, me w0) ->
  rtc mac_step w0 w -> rxCmd (buf (me w)) = Some c ->
  rtc mac_step w w' ->
  rxCmd (buf (me w')) = Some c /\ passed_up (me w') = passed_up (me w).
Proof.
  intros Hinit Hr Hc Hsteps.
  assert (Hinv : mac_inv None (me w)) by (eapply mac_steps_inv; [exact Hr|by eapply initialize_inv]).
  assert (Hh : mac_inv (Some (c, passed_up (me w))) (me w)) by (destruct Hinv; split; auto; by split).
  apply (mac_steps_inv _ _ _ Hsteps) in Hh. destruct (inv_held _ _ Hh). done.
Qed.
End runs.

(** ** Witnesses: a device from its first stage on *)

Definition device_started : World :=
  mkWorld "dev" (after (initialize 0 "dev" (ned_dev 1)) (srwsn802154Mac_ctor 1 blank).1) ∅.

Lemma device_started_ok :
  initialize 0 "dev" (ned_dev 1) (srwsn802154Mac_ctor 1 blank).1 = Ok (tt, me device_started).
Proof. apply after_run. vm_compute. reflexivity. Qed.

(** The PHY announces its channel, then an association request comes in. *)
Definition request_frame : Frame :=
  mkFrame (CmdFrame Ieee802154_ASSOCIATION_REQUEST)
    (mkFrameCtrl Ieee802154_CMD false false true true defFrmCtrl_AddrMode16 defFrmCtrl_AddrMode16)
    3 0xffff 0xffff 0xffff 4 false false 0 20 None.
Definition device_tuned : World :=
  device_started<| me ::= after (receiveChangeNotification true (Some (0, 11))) |>.
Definition device_asked : World :=
  after (handleMessage (LowerFrame request_frame)) (device_tuned<| me ::= arrive 0 (LowerFrame request_frame) |>).

Lemma device_tuned_step : mac_step device_started device_tuned.
Proof.
  apply (step_notification device_started true (Some (0, 11))). apply after_run. vm_compute. reflexivity.
Qed.

Lemma device_asked_step : mac_step device_tuned device_asked.
Proof.
  apply (step_message device_tuned 0 (LowerFrame request_frame)); [vm_compute; congruence|].
  apply after_run. vm_compute. reflexivity.
Qed.

Lemma mac_reachable_invariant_witness : mac_inv None (me device_asked).
Proof.
  apply (mac_reachable_invariant 1 blank "dev" (ned_dev 1) device_started device_asked device_started_ok).
  exact (rtc_l _ _ _ _ device_tuned_step (rtc_once _ _ device_asked_step)).
Defined.

(** The request stays, and a frame received later is not passed up. *)
Lemma command_blocks_data_witness :
  exists c w', rtc mac_step device_asked w' /\ w' <> device_asked
    /\ rxCmd (buf (me w')) = Some c /\ passed_up (me w') = [].
Proof.
  set (w' := after (handleMessage (Timer MAC_IFS_TIMER)) (device_asked<| me ::= arrive 5 (Timer MAC_IFS_TIMER) |>)).
  assert (Hstep : rtc mac_step device_asked w').
  { apply rtc_once, (step_message _ 5 (Timer MAC_IFS_TIMER)); [vm_compute; congruence|].
    apply after_run. vm_compute. reflexivity. }
  exists 1%positive, w'. split; [exact Hstep|]. split.
  { intros E. apply (f_equal (fun w => now (me w))) in E. vm_compute in E. discriminate. }
  apply (command_blocks_data 1 blank "dev" (ned_dev 1) device_started device_asked w' 1%positive device_started_ok).
  - exact (rtc_l _ _ _ _ device_tuned_step (rtc_once _ _ device_asked_step)).
  - vm_compute. reflexivity.
  - exact Hstep.
Defined.
