(* ===== verification/MacTiming.v ===== *)
(** * Backoff boundaries and the contention access period: theorems *)

From S2P Require Import Prelude HList MacConst MacTypes MacUtil MacCsma MacTask MacHandlers MacGts MacSample MacProps.

Open Scope string_scope.
Open Scope list_scope.
Open Scope Z_scope.

#[local] Opaque u8 u16 u32.

(** ** The loops that skip missed beacons *)

(** The last of [x], [x + step], ... that [limit] is not more than a step away
    from. *)
Definition latest (x step limit y : Z) : Prop :=
  exists k, 0 <= k /\ y = x + k * step /\ limit <= y + step /\ (k = 0 \/ y < limit).

Lemma advance_loop_spec fuel x step limit :
  0 < step -> (limit - x) / step < Z.of_nat fuel -> (0 < fuel)%nat ->
  exists y, advance_loop fuel x step limit = Ok y /\ latest x step limit y.
Proof.
  intros Hs. revert x. induction fuel as [|fuel IH]; intros x Hf Hpos; [lia|].
    cbn [advance_loop]. destruct (Z.ltb_spec (x + step) limit) as [Hlt|Hge].
    + destruct (IH (x + step)) as (y & Hy & k & Hk & -> & Hl & Hor).
      { replace (limit - (x + step)) with (limit - x + (-1) * step) by lia. rewrite Z.div_add by lia. lia. }
      { assert (1 <= (limit - x) / step) by (apply Z.div_le_lower_bound; lia). lia. }
      exists (x + step + k * step). split; [done|]. exists (k + 1). split_and!; [lia|lia|done|]. right. nia.
    + exists x. split; [done|]. exists 0. split_and!; [lia|lia|lia|by left].
Qed.

(** The loop ends, however many beacons were missed. *)
Lemma advance_spec x step limit :
  0 < step -> exists y, advance x step limit = Ok y /\ latest x step limit y.
Proof.
  intros Hs. apply advance_loop_spec; [done| |lia].
  destruct (Z.le_gt_cases 0 ((limit - x) / step)); [rewrite Nat2Z.inj_succ, Z2Nat.id by lia; lia|].
  rewrite Nat2Z.inj_succ. lia.
Qed.

Lemma catch_up_loop_spec fuel x step limit :
  0 < step -> (limit - x) / step + 1 < Z.of_nat fuel -> (0 < fuel)%nat ->
  exists j, 0 <= j /\ catch_up_loop fuel x step limit = Ok (x + j * step) /\ limit <= x + j * step
    /\ (j = 0 \/ x + j * step - step < limit).
Proof.
  intros Hs. revert x. induction fuel as [|fuel IH]; intros x Hf Hpos; [lia|].
  cbn [catch_up_loop]. destruct (Z.ltb_spec x limit) as [Hlt|Hge].
  - destruct (IH (x + step)) as (j & Hj & Hrun & Hl & Hor).
    { replace (limit - (x + step)) with (limit - x + (-1) * step) by lia. rewrite Z.div_add by lia. lia. }
    { assert (0 <= (limit - x) / step) by (apply Z.div_pos; lia). lia. }
    exists (j + 1). replace (x + (j + 1) * step) with (x + step + j * step) by lia.
    split_and!; [lia|done|done|]. right. destruct Hor as [->|]; lia.
  - exists 0. rewrite Z.mul_0_l, Z.add_0_r. split_and!; [lia|done|lia|by left].
Qed.

Lemma catch_up_spec x step limit :
  0 < step -> exists j, 0 <= j /\ catch_up x step limit = Ok (x + j * step) /\ limit <= x + j * step
    /\ (j = 0 \/ x + j * step - step < limit).
Proof.
  intros Hs. apply catch_up_loop_spec; [done| |lia].
  destruct (Z.le_gt_cases 0 ((limit - x) / step)); rewrite !Nat2Z.inj_succ; [rewrite Z2Nat.id by lia|]; lia.
Qed.

(** ** Backoff boundaries *)

Section timing.
Context `{MacEnv}.

(** The rates announced by the PHY, and a beacon interval that is not empty. *)
Record timing_ok (s : Mac) : Prop := {
  to_rate : rate_ok (phy_symbolrate (phy s));
  to_period : bPeriod (bcn s) = secs aUnitBackoffPeriod (phy_symbolrate (phy s));
  to_interval : rxBO (bcn s) <> 15 -> 0 < BI (rxSfSpec (bcn s));
}.

Definition rxBI (s : Mac) : Z := secs (BI (rxSfSpec (bcn s))) (phy_symbolrate (phy s)).
Definition with_sched (t : Z) (s : Mac) : Mac := s<| bcn ::= fun b => b<| schedBcnRxTime := t |> |>.

(** When the latest beacon should have arrived. *)
Definition sched_ok (s : Mac) (t : Z) : Prop :=
  if rxBO (bcn s) =? 15 then t = schedBcnRxTime (bcn s) else latest (bcnRxTime (bcn s)) (rxBI s) (now s) t.

Lemma rxBI_pos s : timing_ok s -> rxBO (bcn s) <> 15 -> 0 < rxBI s.
Proof.
  intros [Hr _ Hi] Hb. unfold rxBI. rewrite secs_exact by done. pose proof (symbol_pos _ Hr). specialize (Hi Hb). nia.
Qed.

Lemma period_pos s : timing_ok s -> 0 < bPeriod (bcn s).
Proof. intros [Hr Hp _]. rewrite Hp, secs_exact by done. pose proof (symbol_pos _ Hr). unfold aUnitBackoffPeriod. lia. Qed.

Lemma wpe_updateSched E s (Q : unit -> Mac -> Prop) :
  timing_ok s -> (forall t, sched_ok s t -> Q tt (with_sched t s)) -> wpe E updateSchedBcnRxTime Q s.
Proof.
  intros Ht HQ. unfold updateSchedBcnRxTime. mrun.
  - apply negb_true_iff, Z.eqb_neq in H0. fold (rxBI s).
    destruct (advance_spec (bcnRxTime (bcn s)) (rxBI s) (now s)) as (y & -> & Hy); [by apply rxBI_pos|]. mrun.
    apply HQ. unfold sched_ok. by rewrite (proj2 (Z.eqb_neq _ _)).
  - apply (HQ (schedBcnRxTime (bcn s))). unfold sched_ok. apply negb_false_iff in H0. by rewrite H0.
Qed.

(** The beacon the boundaries are counted from: the one sent, or the one received. *)
Definition counts_from_tx (up : bool) (s : Mac) : bool :=
  if up then rxBO (bcn s) =? 15 else negb (macBeaconOrder (mpib s) =? 15).
Definition boundary_ref (up : bool) (t : Z) (s : Mac) : Z :=
  if counts_from_tx up s then macBeaconTxTime (mpib s) else t.

(** [w'] is the least delay from [w] on that ends on a boundary. *)
Definition on_boundary (period start w w' : Z) : Prop :=
  w <= w' < w + period /\ (period | start + w').

Lemma rem_boundary p x w :
  0 < p -> 0 <= x + w -> on_boundary p x w (if 0 <? Z.rem (x + w) p then w + (p - Z.rem (x + w) p) else w).
Proof.
  intros Hp Hx. rewrite Z.rem_mod_nonneg by lia. pose proof (Z.mod_pos_bound (x + w) p Hp).
  pose proof (Z.div_mod (x + w) p ltac:(lia)) as Hdm.
  destruct (Z.ltb_spec 0 ((x + w) mod p)); split; try lia.
  - exists ((x + w) / p + 1). lia.
  - exists ((x + w) / p). lia.
Qed.

Lemma wpe_locate E up w s (Q : Z -> Mac -> Prop) :
  timing_ok s -> beacon_enabled s = true ->
  (forall w' t, sched_ok s t ->
     (boundary_ref up t s <= now s + w -> on_boundary (bPeriod (bcn s)) (now s - boundary_ref up t s) w w') ->
     Q w' (with_sched t s)) ->
  wpe E (csmacaLocateBoundary up w) Q s.
Proof.
  intros Ht Hb HQ. unfold csmacaLocateBoundary. mrun.
  assert ((macBeaconOrder (mpib s) =? 15) && (rxBO (bcn s) =? 15) = false) as ->.
  { unfold beacon_enabled in Hb. by destruct (macBeaconOrder (mpib s) =? 15), (rxBO (bcn s) =? 15). }
  mrun. apply wpe_updateSched; [done|]. intros t Hs. mrun. apply (HQ _ t Hs). intros Href.
  assert (Hal : forall z, (if (if up then if rxBO (bcn s) =? 15 then 1 else 2
                               else if macBeaconOrder (mpib s) =? 15 then 2 else 1) =? 1
                           then macBeaconTxTime (mpib s) else z) = if counts_from_tx up s then macBeaconTxTime (mpib s) else z).
  { intros z. unfold counts_from_tx. by destruct up, (rxBO (bcn s) =? 15), (macBeaconOrder (mpib s) =? 15). }
  unfold with_sched. msimp. rewrite Hal. fold (boundary_ref up t s).
  replace (now s + w - boundary_ref up t s) with (now s - boundary_ref up t s + w) by lia.
  apply rem_boundary; [by apply period_pos|lia].
Qed.

(** C37: with beacons enabled, [csmacaLocateBoundary] always returns, even if
    beacons were missed (the loop that skips them ends), and gives the least
    delay, at least the one asked for, after which a backoff period starts,
    counted from the latest beacon of the superframe concerned.  The only other
    effect is that [schedBcnRxTime] becomes the time that beacon was due. *)
Theorem csmacaLocateBoundary_spec up w s :
  timing_ok s -> beacon_enabled s = true ->
  exists w' t, csmacaLocateBoundary up w s = Ok (w', with_sched t s) /\ sched_ok s t
    /\ (boundary_ref up t s <= now s + w -> on_boundary (bPeriod (bcn s)) (now s - boundary_ref up t s) w w').
Proof.
  intros Ht Hb.
  destruct (wp_ok (csmacaLocateBoundary up w) (fun w' s' => exists t, s' = with_sched t s /\ sched_ok s t
    /\ (boundary_ref up t s <= now s + w -> on_boundary (bPeriod (bcn s)) (now s - boundary_ref up t s) w w')) s)
    as (w' & s' & Hrun & t & -> & ? & ?); [|by exists w', t].
  apply wpe_locate; [done..|]. intros w' t ? ?. by exists t.
Qed.

(** ** Transmissions end before the CAP does *)

(** A device that is about to send [f] to its coordinator, and has missed at
    most [aMaxLostBeacons] beacons. *)
Record device_sends (s : Mac) (a : positive) (f : Frame) : Prop := {
  ds_timing : timing_ok s;
  ds_beacon : rxBO (bcn s) <> 15;
  ds_tmp : tmpCsmaca (buf s) = Some a;
  ds_frame : frames s !! a = Some f;
  ds_up : toParent_of f (mpib s) = true;
  ds_batt : battLifeExt (rxSfSpec (bcn s)) = false;
  ds_final : 0 <= finalCap (rxSfSpec (bcn s)) < aNumSuperframeSlots;
  ds_slot : 0 < rxSfSlotDuration (bcn s) <= aBaseSlotDuration * 2 ^ 14;
  ds_past : bcnRxTime (bcn s) <= now s;
  ds_wait : 0 <= macAckWaitDuration (mpib s);
}.

(** The length of the CAP. *)
Definition cap_length (s : Mac) : Z :=
  secs ((finalCap (rxSfSpec (bcn s)) + 1) * rxSfSlotDuration (bcn s)) (phy_symbolrate (phy s)).

(** The least time a transaction with [f] takes: the waits for a backoff boundary
    before the second CCA and before the transmission are not counted. *)
Definition transac_least (afterCCA : bool) (f : Frame) (s : Mac) : Z :=
  (if afterCCA then 0 else 2 * secs 8 (phy_symbolrate (phy s))) + calDuration f s
  + secs (if csmacaAckReq (csma s) then macAckWaitDuration (mpib s) else aTurnaroundTime) (phy_symbolrate (phy s))
  + secs (ifs_for (getByteLength f)) (phy_symbolrate (phy s)).

Lemma device_beacon s a f : device_sends s a f -> beacon_enabled s = true.
Proof.
  intros Hd. unfold beacon_enabled. rewrite (proj2 (Z.eqb_neq _ _) (ds_beacon _ _ _ Hd)). by rewrite orb_true_r.
Qed.

Lemma device_sched s a f t : device_sends s a f -> device_sends (with_sched t s) a f.
Proof. intros []. split; try done. destruct ds_timing0. by split. Qed.

Lemma device_latest s a f t :
  device_sends s a f -> sched_ok s t -> latest (bcnRxTime (bcn s)) (rxBI s) (now s) t /\ t <= now s.
Proof.
  intros Hd. unfold sched_ok. rewrite (proj2 (Z.eqb_neq _ _) (ds_beacon _ _ _ Hd)). intros Hl. split; [done|].
  destruct Hl as (k & _ & -> & _ & [->|]); [|lia]. pose proof (ds_past _ _ _ Hd). lia.
Qed.

Lemma wpe_toParent_device E s a f (Q : bool -> Mac -> Prop) :
  device_sends s a f -> Q true s -> wpe E (toParent (tmpCsmaca (buf s))) Q s.
Proof.
  intros Hd HQ. unfold toParent. mrun. eapply wpe_deref; [apply Hd|apply Hd|]. mrun. by rewrite (ds_up _ _ _ Hd).
Qed.

(** Locating a boundary from a device: the delay does not shrink. *)
Lemma wpe_locate_device E w s a f (Q : Z -> Mac -> Prop) :
  device_sends s a f -> 0 <= w ->
  (forall w' t, latest (bcnRxTime (bcn s)) (rxBI s) (now s) t -> t <= now s ->
     on_boundary (bPeriod (bcn s)) (now s - t) w w' -> Q w' (with_sched t s)) ->
  wpe E (csmacaLocateBoundary true w) Q s.
Proof.
  intros Hd Hw HQ. apply wpe_locate; [apply Hd|by eapply device_beacon|]. intros w' t Hs Hb.
  destruct (device_latest _ _ _ _ Hd Hs) as [Hl Hn]. apply HQ; [done|done|].
  assert (Href : boundary_ref true t s = t).
  { unfold boundary_ref, counts_from_tx. by rewrite (proj2 (Z.eqb_neq _ _) (ds_beacon _ _ _ Hd)). }
  rewrite Href in Hb. apply Hb. lia.
Qed.

Lemma wpe_transacTime E after_ s a f (Q : Z -> Mac -> Prop) :
  device_sends s a f ->
  (forall T t, transac_least after_ f s <= T -> Q T (with_sched t s)) ->
  wpe E (csmacaTransacTime after_) Q s.
Proof.
  intros Hd HQ. pose proof (to_rate _ (ds_timing _ _ _ Hd)) as Hr.
  assert (H8 : 0 <= secs 8 (phy_symbolrate (phy s))) by (apply secs_nonneg; [done|lia]).
  unfold csmacaTransacTime. mrun. eapply wpe_deref; [apply Hd|apply Hd|]. mrun.
  apply (wpe_mono _ _ (fun x s' => exists t, s' = with_sched t s /\ 0 <= x /\ (if after_ then 0 else 2 * secs 8 (phy_symbolrate (phy s))) <= x)).
  - destruct after_; cbn [negb].
    + mrun. by exists (schedBcnRxTime (bcn s)).
    + mrun. eapply wpe_toParent_device; [done|]. mrun. eapply wpe_locate_device; [done|lia|].
      intros w' t _ _ [Hw' _]. mrun. exists t. split; [done|]. lia.
  - intros x s' (t & -> & Hx & Hlow). mrun. pose proof (device_sched _ _ _ t Hd) as Hd'.
    change (tmpCsmaca (buf s)) with (tmpCsmaca (buf (with_sched t s))).
    eapply wpe_toParent_device; [done|]. mrun. eapply wpe_locate_device; [done|lia|].
    intros w' t' _ _ [Hw' _]. mrun. apply (HQ _ t'). unfold transac_least. destruct (csmacaAckReq (csma s)); lia.
Qed.

(** The end of the CAP, as [getFinalCAP] finds it, is not after that of the
    superframe of the latest beacon. *)
Lemma wpe_getFinalCAP_device E t s a f (Q : Z -> Mac -> Prop) :
  device_sends s a f -> latest (bcnRxTime (bcn s)) (rxBI s) (now s) t ->
  now s < t + cap_length s -> now s <= bcnRxTime (bcn s) + cap_length s + aMaxLostBeacons * rxBI s ->
  (forall e, e <= t + cap_length s -> Q e s) ->
  wpe E (getFinalCAP "r") Q s.
Proof.
  intros Hd (k & Hk & Ht & _ & _) Hin Hlost HQ. unfold getFinalCAP. mrun.
  rewrite (proj2 (Z.eqb_neq _ _) (ds_beacon _ _ _ Hd)), andb_false_r, (ds_batt _ _ _ Hd). cbn [Ascii.eqb Bool.eqb negb].
  mrun. fold (rxBI s).
  assert (Hcap : (finalCap (rxSfSpec (bcn s)) + 1) * secs (rxSfSlotDuration (bcn s)) (phy_symbolrate (phy s)) = cap_length s).
  { unfold cap_length. rewrite (secs_exact (_ * _)), (secs_exact (rxSfSlotDuration (bcn s))) by apply Hd. lia. }
  rewrite Hcap. pose proof (rxBI_pos s (ds_timing _ _ _ Hd) (ds_beacon _ _ _ Hd)) as Hpos.
  destruct (Z.ltb_spec (bcnRxTime (bcn s) + cap_length s) (now s)) as [Hlt|Hge]; cbn [andb].
  - rewrite (proj2 (Z.leb_le _ _)) by lia.
    destruct (catch_up_spec (bcnRxTime (bcn s) + cap_length s) (rxBI s) (now s) Hpos) as (j & Hj & -> & Hl & Hor).
    mrun. rewrite (proj2 (Z.leb_le _ _)) by lia. apply HQ. destruct Hor as [->|Hor]; [nia|].
    assert (j - 1 < k) by (apply (Z.mul_lt_mono_pos_r (rxBI s)); lia). nia.
  - mrun. rewrite (proj2 (Z.leb_le _ _)) by lia. apply HQ. nia.
Qed.

(** What comes before the last step does not matter. *)
Lemma wpe_any {S A B} (m : M S A) (g : A -> M S B) (Q : B -> S -> Prop) s :
  (forall x s', wpe (fun _ => True) (g x) Q s') -> wpe (fun _ => True) (m ≫= g) Q s.
Proof. intros Hg. apply wpe_bind. unfold wpe at 1. destruct (m s) as [[x s']|]; [apply Hg|done]. Qed.
Ltac refuses := repeat (apply wpe_any; intros ? ?); apply wpe_ret; discriminate.

(** C18: when [csmacaCanProceed] lets a device go ahead after a delay [w], the
    backoff ends on a boundary of the current superframe and the whole
    transaction (the CCAs still to come, the frame, the acknowledgement or
    turnaround time and the inter-frame space) ends before the contention
    access period does, also if up to four beacons were missed.  The waits for
    a backoff boundary before the second CCA and before the transmission, which the
    code reserves as well, are not part of that sum, which is a lower bound. *)
Theorem csma_fits_cap w after_ s a f s' :
  device_sends s a f -> 0 <= w ->
  now s <= bcnRxTime (bcn s) + cap_length s + aMaxLostBeacons * rxBI s ->
  csmacaCanProceed w after_ s = Ok (true, s') ->
  exists w' t, latest (bcnRxTime (bcn s)) (rxBI s) (now s) t
    /\ on_boundary (bPeriod (bcn s)) (now s - t) w w'
    /\ now s + w' + transac_least after_ f s <= t + cap_length s.
Proof.
  intros Hd0 Hw Hlost Hrun.
  enough (Hwp : wpe (fun _ => True) (csmacaCanProceed w after_) (fun ok _ => ok = true ->
    exists w' t, latest (bcnRxTime (bcn s)) (rxBI s) (now s) t /\ on_boundary (bPeriod (bcn s)) (now s - t) w w'
      /\ now s + w' + transac_least after_ f s <= t + cap_length s) s)
    by (by apply (wpe_run _ _ _ _ _ _ Hwp Hrun)).
  unfold csmacaCanProceed. mrun.
  set (s1 := s<| csma ::= _ |>). assert (Hd : device_sends s1 a f) by (destruct Hd0 as [[] ? ? ? ? ? ? ? ? ?]; by split).
  eapply wpe_toParent_device; [done|]. mrun. eapply wpe_locate_device; [done|done|].
  intros w' t Hl Hn Hon. mrun. pose proof (device_sched _ _ _ t Hd) as Hd1.
  unfold csmacaPeriodsLeft. cbn [negb]. rewrite (proj2 (Z.eqb_neq _ _) (ds_beacon _ _ _ Hd1)). cbn [negb].
  assert (Hu : u32 ((finalCap (rxSfSpec (bcn (with_sched t s1))) + 1) * rxSfSlotDuration (bcn (with_sched t s1)))
               = (finalCap (rxSfSpec (bcn s)) + 1) * rxSfSlotDuration (bcn s)).
  { destruct (ds_final _ _ _ Hd0), (ds_slot _ _ _ Hd0). unfold aNumSuperframeSlots, aBaseSlotDuration in *.
    apply u32_small. change (bcn (with_sched t s1)) with ((bcn s)<| schedBcnRxTime := t |>). msimp. eval_pow2. nia. }
  rewrite Hu. change (phy (with_sched t s1)) with (phy s). fold (cap_length s).
  change (schedBcnRxTime (bcn (with_sched t s1))) with t. change (now (with_sched t s1)) with (now s).
  destruct (Z.leb_spec (t + cap_length s) (now s)) as [|Hin]; [refuses|].
  destruct (to_u16 _ _ _) as [n|]; cbn [mbind outcome_bind]; [|done]. mrun. cbv zeta.
  match goal with |- wpe _ (if negb ?c then _ else _) _ _ => destruct c; cbn [negb] end.
  - set (s2 := set_ _ (with_sched t s1)). assert (Hd2 : device_sends s2 a f) by (destruct Hd1 as [[] ? ? ? ? ? ? ? ? ?]; by split).
    unfold csmacaFitsCAP. mrun. eapply wpe_transacTime; [exact Hd2|]. intros T t2 HT. mrun.
    pose proof (device_sched _ _ _ t2 Hd2) as Hd3. eapply wpe_toParent_device; [exact Hd3|]. mrun. cbn [negb].
    rewrite (proj2 (Z.eqb_neq _ _) (ds_beacon _ _ _ Hd3)). cbn [negb].
    eapply (wpe_getFinalCAP_device _ t); [exact Hd3|exact Hl|exact Hin|exact Hlost|]. intros e He.
    change (now (with_sched t2 s2)) with (now s). change (transac_least after_ f s2) with (transac_least after_ f s) in HT.
    change (cap_length (with_sched t2 s2)) with (cap_length s) in He.
    destruct (Z.ltb_spec e (now s + w' + T)).
    + refuses.
    + mrun. intros _. exists w', t. split_and!; [done|exact Hon|lia].
  - refuses.
Qed.

(** ** CSMA/CA always goes on *)

Lemma latest_unique x step limit y z : 0 < step -> latest x step limit y -> latest x step limit z -> y = z.
Proof.
  intros Hs (k & Hk & -> & Hl1 & Ho1) (j & Hj & -> & Hl2 & Ho2). f_equal. f_equal.
  destruct (Z.lt_trichotomy k j) as [?|[?|?]]; [|done|].
  - assert ((k + 1) * step <= j * step) by (apply Z.mul_le_mono_nonneg_r; lia). destruct Ho2 as [->|]; lia.
  - assert ((j + 1) * step <= k * step) by (apply Z.mul_le_mono_nonneg_r; lia). destruct Ho1 as [->|]; lia.
Qed.

(** The state with other beacon, CSMA and timer variables. *)
Definition with_csma (b : Bcn) (c : Csma) (m : Timers) (s : Mac) : Mac :=
  s<| bcn := b |><| csma := c |><| tim := m |>.
Definition other_timers (m : Timers) (s : Mac) : Prop :=
  forall x, x <> MAC_BCN_RX_TIMER -> scheduled m x = scheduled (tim s) x.

Lemma wpe_startBcnRxTimer E s (Q : unit -> Mac -> Prop) :
  timing_ok s -> rxBO (bcn s) <> 15 -> aTurnaroundTime <= BI (rxSfSpec (bcn s)) ->
  (forall m time, other_timers m s -> scheduled m MAC_BCN_RX_TIMER = Some time -> now s <= time ->
     Q tt (s<| tim := m |>)) ->
  wpe E startBcnRxTimer Q s.
Proof.
  intros Ht Hb Hbi HQ. unfold startBcnRxTimer. mrun. fold (rxBI s).
  destruct (advance_spec (bcnRxTime (bcn s)) (rxBI s) (now s)) as (t & -> & k & Hk & Ht' & Hl & _); [by apply rxBI_pos|].
  mrun. msimp. pose proof (secs_mono _ _ _ (to_rate _ Ht) Hbi) as Hlen. fold (rxBI s) in Hlen.
  pose proof (secs_nonneg aTurnaroundTime _ (to_rate _ Ht)) as Hturn. unfold aTurnaroundTime in Hturn at 1.
  match goal with |- wpe _ (restartAt ?x _) _ _ => assert (Hx : now s <= x) end.
  { destruct (Z.leb_spec (secs aTurnaroundTime (phy_symbolrate (phy s))) (rxBI s - (now s - t)));
      destruct (_ <? _); lia. }
  apply wpe_restartAt; msimp; [exact Hx|].
  intros g Hg1 Hg2. eapply (HQ (mkTimers g _ _ _ _ _) _); [|exact Hg1|exact Hx]. intros x Hne. by apply Hg2.
Qed.

(** [csmacaPostpone] for a device. *)
Lemma wpe_postpone E s (Q : unit -> Mac -> Prop) :
  timing_ok s -> rxBO (bcn s) <> 15 -> aTurnaroundTime <= BI (rxSfSpec (bcn s)) ->
  (forall m, other_timers m s -> Q tt (s<| tim := m |><| csma ::= fun c => c<| csmacaWaitNextBeacon := true |> |>)) ->
  wpe E csmacaPostpone Q s.
Proof.
  intros Ht Hb Hbi HQ. unfold csmacaPostpone. mrun.
  - apply wpe_startBcnRxTimer; [done..|]. intros m time Hm _ _. mrun. by apply HQ.
  - by apply (HQ (tim s)).
  - by apply (HQ (tim s)).
Qed.

(** What CSMA/CA for a device with a superframe order of at most 10 relies on:
    then the backoff periods of the CAP fit in [UINT_16]. *)
Record device_cap (s : Mac) (a : positive) (f : Frame) : Prop := {
  dc_sends : device_sends s a f;
  dc_slot : rxSfSlotDuration (bcn s) <= aBaseSlotDuration * 2 ^ 10;
  dc_interval : aTurnaroundTime <= BI (rxSfSpec (bcn s));
  dc_duration : 0 <= rxBcnDuration (bcn s) < 256;
}.

Lemma to_u16_ok p x d : 0 < p -> d * p <= x -> x < (65536 + d) * p -> exists n, to_u16 x p d = Ok n.
Proof.
  intros Hp Hl Hu. unfold to_u16. rewrite (proj2 (Z.ltb_lt _ _)), (proj2 (Z.ltb_lt _ _)) by nia. eauto.
Qed.

(** Within the CAP the number of backoff periods is representable. *)
Lemma periods_left_ok w t s a f :
  device_cap s a f -> latest (bcnRxTime (bcn s)) (rxBI s) (now s) t -> t <= now s ->
  schedBcnRxTime (bcn s) = t ->
  rxBcnDuration (bcn s) * bPeriod (bcn s) <= now s + w - t -> 0 <= w <= 300 * bPeriod (bcn s) ->
  exists left_, csmacaPeriodsLeft true w s = Ok left_.
Proof.
  intros [Hd Hslot _ Hdur] Hl Hn Hsch Hlow Hw. unfold csmacaPeriodsLeft. cbn [negb].
  rewrite (proj2 (Z.eqb_neq _ _) (ds_beacon _ _ _ Hd)). cbn [negb]. rewrite Hsch.
  destruct (Z.leb_spec (t + secs (u32 ((finalCap (rxSfSpec (bcn s)) + 1) * rxSfSlotDuration (bcn s)))
              (phy_symbolrate (phy s))) (now s)) as [|Hin]; [by eexists|].
  destruct (to_u16_ok (bPeriod (bcn s)) (now s + w - t) (rxBcnDuration (bcn s))) as [n ->]; [|done| |by eexists].
  { by apply period_pos, (ds_timing _ _ _ Hd). }
  destruct (ds_timing _ _ _ Hd) as [Hr Hp _]. destruct (ds_final _ _ _ Hd), (ds_slot _ _ _ Hd).
  unfold aNumSuperframeSlots, aBaseSlotDuration, aUnitBackoffPeriod in *. eval_pow2.
  rewrite u32_small in Hin by (eval_pow2; nia).
  rewrite secs_exact in Hin by done. rewrite secs_exact in Hp by done. pose proof (symbol_pos _ Hr).
  assert ((finalCap (rxSfSpec (bcn s)) + 1) * rxSfSlotDuration (bcn s) <= 983040) by nia. nia.
Qed.

Lemma device_with_csma b c m s a f :
  device_cap s a f -> b = (bcn s)<| schedBcnRxTime := schedBcnRxTime b |> -> device_cap (with_csma b c m s) a f.
Proof.
  intros [[[] ? ? ? ? ? ? ? ? ?] ? ? ?] ->. split; [split|..]; done.
Qed.

(** The answer of the checks: go ahead, or wait for the next beacon. *)
Definition waits_for_beacon (c : Csma) : Prop := csmacaWaitNextBeacon c = true /\ 0 <= bPeriodsLeft c.

(** Closing a goal with [HQ], whose state is the goal's up to computation. *)
Ltac conclude HQ ok b c m s :=
  let X := fresh in
  match goal with |- ?Q ok _ => enough (X : Q ok (with_csma b c m s)) by exact X end; by apply HQ.

Lemma wpe_fitsCAP w after_ s a f (Q : bool -> Mac -> Prop) :
  device_cap s a f ->
  (forall ok b c m, b = (bcn s)<| schedBcnRxTime := schedBcnRxTime b |> -> other_timers m s ->
     BE c = BE (csma s) -> (ok = false -> waits_for_beacon c) -> Q ok (with_csma b c m s)) ->
  wp (csmacaFitsCAP w after_) Q s.
Proof.
  intros Hc HQ. unfold csmacaFitsCAP. mrun. eapply wpe_transacTime; [apply Hc|]. intros T t _. mrun.
  assert (Hd1 : device_sends (with_sched t s) a f) by (by apply device_sched, Hc).
  eapply wpe_toParent_device; [exact Hd1|]. mrun. cbn [negb].
  rewrite (proj2 (Z.eqb_neq _ _) (ds_beacon _ _ _ Hd1)). cbn [negb].
  apply (wpe_mono _ _ (fun _ s' => s' = with_sched t s)).
  { unfold getFinalCAP. mrun. rewrite (proj2 (Z.eqb_neq _ _) (ds_beacon _ _ _ Hd1)), andb_false_r, (ds_batt _ _ _ Hd1).
    cbn [Ascii.eqb Bool.eqb negb]. mrun. destruct (_ && _); mrun; [|done].
    match goal with |- context [catch_up ?x ?y ?z] => destruct (catch_up_spec x y z) as (j & _ & -> & _) end; [|by mrun].
    apply rxBI_pos; apply Hd1. }
  intros e s' ->. destruct (e <? _).
  - mrun. apply wpe_postpone; [by destruct Hd1 as [[] ? ? ? ? ? ? ? ? ?]|apply Hd1|apply Hc|]. intros m Hm. mrun.
    conclude HQ false ((bcn s)<| schedBcnRxTime := t |>)
      ((csma s)<| bPeriodsLeft := 0 |><| csmacaWaitNextBeacon := true |>) m s.
  - mrun. conclude HQ true ((bcn s)<| schedBcnRxTime := t |>) ((csma s)<| bPeriodsLeft := -1 |>) (tim s) s.
Qed.

Lemma wpe_canProceed w s a f (Q : bool -> Mac -> Prop) :
  device_cap s a f -> 0 <= w <= 299 * bPeriod (bcn s) ->
  (forall t, latest (bcnRxTime (bcn s)) (rxBI s) (now s) t ->
     rxBcnDuration (bcn s) * bPeriod (bcn s) <= now s + w - t) ->
  (forall ok b c m, b = (bcn s)<| schedBcnRxTime := schedBcnRxTime b |> -> other_timers m s ->
     BE c = BE (csma s) -> (ok = false -> waits_for_beacon c) -> Q ok (with_csma b c m s)) ->
  wp (csmacaCanProceed w false) Q s.
Proof.
  intros Hc Hw Hdur HQ. unfold csmacaCanProceed. mrun.
  set (s1 := s<| csma ::= _ |>).
  assert (Hc1 : device_cap s1 a f) by (by apply (device_with_csma (bcn s) ((csma s)<| csmacaWaitNextBeacon := false |>) (tim s))).
  eapply wpe_toParent_device; [apply Hc1|]. mrun. eapply wpe_locate_device; [apply Hc1|lia|].
  intros w' t Hl Hn [Hw' _]. mrun.
  set (s2 := with_sched t s1).
  assert (Hc2 : device_cap s2 a f)
    by exact (device_with_csma ((bcn s)<| schedBcnRxTime := t |>) ((csma s)<| csmacaWaitNextBeacon := false |>) (tim s)
                s a f Hc eq_refl).
  destruct (periods_left_ok w' t s2 a f Hc2) as [left_ ->];
    [exact Hl|exact Hn|done|change (rxBcnDuration (bcn s) * bPeriod (bcn s) <= now s + w' - t); specialize (Hdur t Hl); lia
    |change (0 <= w' <= 300 * bPeriod (bcn s)); change (bPeriod (bcn s1)) with (bPeriod (bcn s)) in Hw'; lia|].
  mrun. destruct left_ as [n|]; mrun.
  - assert (Hc3 : device_cap (with_csma (bcn s2) ((csma s2)<| bPeriodsLeft := n |>) (tim s2) s2) a f)
      by (by apply device_with_csma).
    match goal with |- wpe _ (if negb ?c then _ else _) _ _ => destruct c eqn:Hok; cbn [negb] end.
    + match goal with |- wpe _ _ _ ?st => apply (wpe_fitsCAP _ _ st a f) end; [exact Hc3|].
      intros ok b c m Hb Hm Hbe Hwait. conclude HQ ok b c m s.
    + assert (Hn0 : 0 <= n) by (destruct (Z.ltb_spec 0 n); destruct (Z.eqb_spec n 0); cbn in Hok; try done; lia).
      mrun. apply wpe_postpone; [exact (ds_timing _ _ _ (dc_sends _ _ _ Hc3))|exact (ds_beacon _ _ _ (dc_sends _ _ _ Hc3))
        |exact (dc_interval _ _ _ Hc3)|].
      intros m Hm. mrun. conclude HQ false ((bcn s)<| schedBcnRxTime := t |>)
        ((csma s)<| csmacaWaitNextBeacon := false |><| bPeriodsLeft := n |><| csmacaWaitNextBeacon := true |>) m s.
  - conclude HQ false ((bcn s)<| schedBcnRxTime := t |>)
      ((csma s)<| csmacaWaitNextBeacon := false |><| csmacaWaitNextBeacon := true |><| bPeriodsLeft := 0 |>) (tim s) s.
Qed.

(** CSMA/CA can be started for the frame [f] at [a]: no ACK to send, nothing
    pending, and the device as above. *)
Record csma_ready (s : Mac) (a : positive) (f : Frame) : Prop := {
  cr_ack : txAck (buf s) = None;
  cr_idle : isScheduled MAC_BACKOFF_TIMER s = false;
  cr_tmp : tmpCsmaca (buf s) = None;
  cr_minBE : macMinBE (mpib s) = def_macMinBE;
  cr_cap : device_cap (s<| buf ::= fun b => b<| tmpCsmaca := Some a |> |>) a f;
}.

(** CSMA/CA goes on: the backoff timer is set, or the next beacon is awaited. *)
Definition csma_goes_on (c : Csma) (m : Timers) (t : Z) : Prop :=
  (exists time, scheduled m MAC_BACKOFF_TIMER = Some time /\ t <= time) \/ waits_for_beacon c.

(** The state after the start. *)
Definition csma_started (a : positive) (s s' : Mac) : Prop :=
  s' = s<| buf ::= fun b => b<| tmpCsmaca := Some a |> |><| draws ::= S |>
        <| bcn := bcn s' |><| csma := csma s' |><| tim := tim s' |>
  /\ 0 <= BE (csma s') <= def_macMinBE
  /\ csma_goes_on (csma s') (tim s') (now s).

(** The random delay, moved to the end of the beacon if it would end before. *)
Lemma wpe_adjust E w s a f (Q : Z -> Mac -> Prop) :
  device_sends s a f -> 0 <= rxBcnDuration (bcn s) < 256 -> schedBcnRxTime (bcn s) <= now s ->
  0 <= w <= 31 * bPeriod (bcn s) ->
  (forall w', 0 <= w' <= 255 * bPeriod (bcn s) ->
     rxBcnDuration (bcn s) * bPeriod (bcn s) <= now s + w' - schedBcnRxTime (bcn s) -> Q w' s) ->
  wpe E (csmacaAdjustTime w) Q s.
Proof.
  intros Hd Hdur Hs Hw HQ. pose proof (period_pos s (ds_timing _ _ _ Hd)).
  unfold csmacaAdjustTime. mrun; [|by rewrite (ds_tmp _ _ _ Hd) in *].
  eapply wpe_toParent_device; [done|]. cbn [negb]. rewrite (proj2 (Z.eqb_neq _ _) (ds_beacon _ _ _ Hd)). cbn [negb]. mrun.
  destruct (Z.ltb_spec (now s - rxBcnDuration (bcn s) * bPeriod (bcn s) + w - schedBcnRxTime (bcn s)) 0);
    apply HQ; nia.
Qed.

(** The part after the variables have been set. *)
Lemma wpe_csma_backoff s a f t (Q : unit -> Mac -> Prop) :
  device_cap s a f -> beaconEnabled (bcn s) = true -> schedBcnRxTime (bcn s) = t ->
  latest (bcnRxTime (bcn s)) (rxBI s) (now s) t -> t <= now s ->
  isScheduled MAC_BACKOFF_TIMER s = false -> 0 <= BE (csma s) <= aMaxBE ->
  (forall b c m, BE c = BE (csma s) -> csma_goes_on c m (now s) ->
     Q tt (with_csma b c m (s<| draws ::= S |>))) ->
  wp (range ← lift (int_shl 1 (BE (csma s)));
      r ← intrand range;
      wtime ← csmacaAdjustTime (r * bPeriod (bcn s));
      s ← self;
      if beaconEnabled (bcn s) then
        wtime ← (up ← toParent (tmpCsmaca (buf s)); csmacaLocateBoundary up wtime);
        backoff ← csmacaCanProceed wtime false;
        when backoff (startBackoffTimer wtime)
      else startBackoffTimer wtime) Q s.
Proof.
  intros Hc Hb Ht Hl Hn Hidle Hbe HQ. pose proof Hc as [Hd _ _ Hdur].
  unfold aMaxBE in Hbe. rewrite int_shl_ok by (change aBaseSuperframeDuration with 960; lia).
  mrun. unfold intrand. mrun. set (s1 := s<| draws ::= S |>).
  assert (Hp2 : 1 <= 2 ^ BE (csma s) <= 32).
  { split; [apply (Z.pow_le_mono_r 2 0); lia|apply (Z.pow_le_mono_r 2 _ 5); lia]. }
  pose proof (Z.mod_pos_bound (mac_rand (draws s)) (1 * 2 ^ BE (csma s)) ltac:(lia)) as Hmod.
  pose proof (period_pos s (ds_timing _ _ _ Hd)) as Hpp.
  assert (Hc1 : device_cap s1 a f) by (destruct Hc as [[[] ? ? ? ? ? ? ? ? ?] ? ? ?]; by split).
  eapply wpe_adjust; [apply Hc1|exact Hdur|change (schedBcnRxTime (bcn s) <= now s); lia
    |change (bPeriod (bcn s1)) with (bPeriod (bcn s)); nia|].
  intros w1 Hw1 Hlow. change (bPeriod (bcn s1)) with (bPeriod (bcn s)) in *. change (bcn s1) with (bcn s) in Hlow.
  change (now s1) with (now s) in Hlow. mrun. change (beaconEnabled (bcn s1)) with (beaconEnabled (bcn s)). rewrite Hb.
  mrun. eapply wpe_toParent_device; [apply Hc1|]. mrun. eapply wpe_locate_device; [apply Hc1|lia|].
  intros w2 t2 Hl2 _ [Hw2 _]. mrun.
  assert (Hc2 : device_cap (with_csma ((bcn s1)<| schedBcnRxTime := t2 |>) (csma s1) (tim s1) s1) a f)
    by (by apply device_with_csma).
  match goal with |- wpe _ _ _ ?st => apply (wpe_canProceed _ st a f) end.
  - exact Hc2.
  - change (0 <= w2 <= 299 * bPeriod (bcn s)). change (bPeriod (bcn s1)) with (bPeriod (bcn s)) in Hw2. lia.
  - intros t3 Hl3. assert (t3 = t) as ->.
    { apply (latest_unique _ _ _ _ _ (rxBI_pos s (ds_timing _ _ _ Hd) (ds_beacon _ _ _ Hd)) Hl3 Hl). }
    change (rxBcnDuration (bcn s) * bPeriod (bcn s) <= now s + w2 - t). lia.
  - intros ok b c m _ Hm Hbe' Hwait.
    assert (Hfin : forall m', csma_goes_on c m' (now s) -> Q tt (with_csma b c m' (s<| draws ::= S |>)))
      by (intros m' Hgo; by apply HQ).
    mrun.
    + unfold startBackoffTimer. mrun. eapply wpe_ev_deref; [apply Hd|exists f; apply Hd|]. mrun.
      apply wpe_restartAt; [msimp; lia|]. intros g Hg _. apply (Hfin (m<| scheduled := g |>)).
      left. eexists. split; [exact Hg|]. change (now s <= now s + w2). lia.
    + destruct ok; [done|]. apply (Hfin m). right. by apply Hwait.
Qed.

Lemma wpe_csmacaReset_true s (Q : unit -> Mac -> Prop) :
  macMinBE (mpib s) = def_macMinBE ->
  (forall be, 0 <= be <= def_macMinBE -> Q tt (s<| csma ::= fun c => c<| NB := 0 |><| CW := 2 |><| BE := be |> |>)) ->
  wp (csmacaReset true) Q s.
Proof.
  intros Hm HQ. unfold csmacaReset. mrun; msimp; rewrite ?Hm.
  - exact (HQ 2 ltac:(unfold def_macMinBE; lia)).
  - exact (HQ def_macMinBE ltac:(unfold def_macMinBE; lia)).
Qed.

Lemma wp_csmacaStart a f req s (Q : unit -> Mac -> Prop) :
  csma_ready s a f -> (forall s', csma_started a s s' -> Q tt s') -> wp (csmacaStart true (Some a) req) Q s.
Proof.
  intros [Hack Hidle Htmp Hbe Hc] HQ. pose proof Hc as [Hd _ _ _].
  assert (Hbeacon : beacon_enabled s = true) by exact (device_beacon _ _ _ Hd).
  unfold csmacaStart. mrun. rewrite Hack. cbn [is_set]. mrun; [|done|by rewrite Hidle in *].
  eapply wpe_ev_deref; [done|exists f; exact (ds_frame _ _ _ Hd)|]. mrun. rewrite Hbeacon.
  apply wpe_csmacaReset_true; [done|]. intros be Hbe'. mrun; msimp; [|by rewrite Htmp in *].
  set (s1 := s<| bcn ::= _ |><| csma ::= _ |><| buf ::= _ |><| csma ::= _ |>).
  assert (Hc1 : device_cap s1 a f) by (destruct Hc as [[[] ? ? ? ? ? ? ? ? ?] ? ? ?]; by split).
  apply wpe_updateSched; [apply Hc1|]. intros t Hs.
  destruct (device_latest _ _ _ _ (dc_sends _ _ _ Hc1) Hs) as [Hl Hn].
  apply wpe_bind, wpe_gets. cbv beta.
  set (s2 := with_sched t s1).
  assert (Hc2 : device_cap s2 a f)
    by exact (device_with_csma ((bcn s1)<| schedBcnRxTime := t |>) (csma s1) (tim s1) s1 a f Hc1 eq_refl).
  apply (wpe_csma_backoff s2 a f t); try done.
  - change (0 <= be <= aMaxBE). unfold def_macMinBE, aMaxBE in *. lia.
  - intros b c m Hbec Hgo. apply HQ. split; [done|]. split; [|exact Hgo].
    change (0 <= BE c <= def_macMinBE). rewrite Hbec. exact Hbe'.
Qed.

(** C25: starting CSMA/CA for a frame to the coordinator goes on, for a device in a
    beacon-enabled PAN with a superframe order of at most 10.  When the device has
    received a beacon of its coordinator, without battery life extension and with a
    beacon interval not shorter than the turnaround, has no ACK to send, no CSMA/CA
    pending, no backoff timer running and the default macMinBE, the call does not
    fault: it takes the frame, resets the backoff exponent, draws a delay, and then
    either the backoff timer is set for a time not in the past, or the MAC waits for
    the next beacon with the number of backoff periods left.  For orders 11 to 14 the
    number of backoff periods of the CAP does not fit the UINT_16 it is converted to,
    and nothing is said. *)
Theorem csmacaStart_goes_on a f req s :
  csma_ready s a f -> exists s', csmacaStart true (Some a) req s = Ok (tt, s') /\ csma_started a s s'.
Proof.
  intros Hr. destruct (wp_ok (csmacaStart true (Some a) req) (fun _ s' => csma_started a s s') s)
    as ([] & s' & Hrun & Hst); [|by exists s'].
  eapply wp_csmacaStart; [exact Hr|done].
Qed.

End timing.

(** ** Witnesses: the device of the sample network *)

Ltac sample_device :=
  split; try reflexivity; try (vm_compute; split; congruence); try (vm_compute; congruence);
  split; [right; right; reflexivity|reflexivity|intros _; reflexivity].

Lemma sample_sends : device_sends (me net2) 1%positive data_sent.
Proof. sample_device. Qed.

(** The device just before CSMA/CA starts. *)
Definition starting : Mac :=
  (me net2)<| buf ::= fun b => b<| tmpCsmaca := None |> |><| tim := tim (me (net1 1)) |>.

Lemma sample_ready : csma_ready starting 1%positive data_sent.
Proof.
  split; try reflexivity. split; [|vm_compute; congruence..|vm_compute; split; congruence]. sample_device.
Qed.

Lemma csmacaLocateBoundary_spec_witness :
  exists w' t, csmacaLocateBoundary true 1 (me net2) = Ok (w', with_sched t (me net2)) /\ sched_ok (me net2) t.
Proof.
  destruct (csmacaLocateBoundary_spec true 1 (me net2)) as (w' & t & Hrun & Hs & _).
  - exact (ds_timing _ _ _ sample_sends).
  - exact (device_beacon _ _ _ sample_sends).
  - exists w', t. split; [exact Hrun|exact Hs].
Defined.

Lemma csma_fits_cap_witness :
  exists w' t, latest (bcnRxTime (bcn (me net2))) (rxBI (me net2)) (now (me net2)) t
    /\ now (me net2) + w' + transac_least false data_sent (me net2) <= t + cap_length (me net2).
Proof.
  destruct (csma_fits_cap 1632000000 false (me net2) 1%positive data_sent
      (after (csmacaCanProceed 1632000000 false) (me net2)))
    as (w' & t & Hl & _ & Hle);
    [exact sample_sends|lia|vm_compute; congruence|apply after_run; vm_compute; reflexivity|].
  exists w', t. split; [exact Hl|exact Hle].
Defined.

Lemma csmacaStart_goes_on_witness :
  exists s', csmacaStart true (Some 1%positive) true starting = Ok (tt, s') /\ csma_started 1%positive starting s'.
Proof. exact (csmacaStart_goes_on 1%positive data_sent true starting sample_ready). Defined.
