(* ===== verification/MacData.v ===== *)
(** * Data requests: acknowledgement timeouts, packets from above, association *)

From S2P Require Import Prelude HList MacConst MacTypes MacUtil MacCsma MacTask MacHandlers.
From S2P Require Import MacGts MacSample MacProps MacTiming.

Open Scope string_scope.
Open Scope list_scope.
Open Scope Z_scope.

#[local] Opaque u8 u16 u32.

Section data.
Context `{MacEnv}.

(** ** Acknowledgement timeouts *)

(** A data frame has been sent directly and its acknowledgement is awaited. *)
Record awaiting_ack (s : Mac) (a : positive) (f : Frame) : Prop := {
  aa_task : mcps_data_request (taskP s) = true;
  aa_step : mcps_data_request_STEP (taskP s) = 3;
  aa_func : mcps_data_request_frFunc (taskP s) = "handleAck";
  aa_option : mcps_data_request_TxOption (taskP s) = DIRECT_TRANS;
  aa_pkt : txPkt (buf s) = Some a;
  aa_data : txData (buf s) = Some a;
  aa_frame : frames s !! a = Some f;
  aa_cmd : txBcnCmd (buf s) = None;
  aa_upper : txBcnCmdUpper (buf s) = None;
  aa_queue : queueModule s <> QWild;
  aa_retry : 0 <= numDataRetry (tx s) <= aMaxFrameRetries;
}.

(** The timeout reaches the machine of the data request. *)
Lemma wpe_ack_timeout E s a f (Q : unit -> Mac -> Prop) :
  awaiting_ack s a f ->
  wpe E (upd_tx (fun t => t<| numDataRetry ::= fun n => u8 (n + 1) |>);;
         s ← self;
         if numDataRetry (tx s) <=? aMaxFrameRetries then
           put_taskStep TP_MCPS_DATA_REQUEST 1;;
           put_taskFrFunc TP_MCPS_DATA_REQUEST "csmacaCallBack";;
           upd_tx (fun t => t<| waitDataAck := false |>);;
           csmacaResume
         else
           put_taskStatus TP_MCPS_DATA_REQUEST false;;
           upd_tx (fun t => t<| waitDataAck := false |>);;
           resetTRX;;
           taskFailed "d" mac_NO_ACK true) Q s ->
  wpe E handleAckTimeoutTimer Q s.
Proof.
  intros Ha HQ. unfold handleAckTimeoutTimer. apply wpe_bind, wpe_gets. cbv beta zeta.
  rewrite (aa_data _ _ _ Ha). cbn [is_set]. rewrite !orb_true_r. cbn [orb].
  change (dispatch phy_BUSY "handleAckTimeoutTimer") with (s ← self; dispatch_handleAckTimeoutTimer).
  apply wpe_bind, wpe_gets. unfold dispatch_handleAckTimeoutTimer. apply wpe_bind, wpe_gets. cbv beta zeta.
  rewrite (aa_pkt _ _ _ Ha), (aa_data _ _ _ Ha), bool_decide_eq_true_2 by done.
  apply wpe_bind. unfold task_waits. mrun. rewrite (aa_task _ _ _ Ha). cbv iota.
  mrun; [|by rewrite (aa_func _ _ _ Ha) in *].
  unfold FSM_MCPS_DATA_request. apply wpe_bind, wpe_gets. rewrite (aa_option _ _ _ Ha).
  unfold FSM_direct. apply wpe_bind. mrun. rewrite (aa_step _ _ _ Ha).
  change (3 =? 1) with false. change (3 =? 2) with false. change (3 =? 3) with true. cbv iota.
  apply wpe_bind, wpe_gets. apply wpe_bind. eapply wpe_ev_deref; [apply Ha|exists f; apply Ha|].
  rewrite bool_decide_eq_false_2 by done. exact HQ.
Qed.

(** The frame goes back to CSMA/CA. *)
Record retried (a : positive) (s s' : Mac) : Prop := {
  rt_count : numDataRetry (tx s') = numDataRetry (tx s) + 1;
  rt_wait : waitDataAck (tx s') = false;
  rt_task : mcps_data_request (taskP s') = true;
  rt_step : mcps_data_request_STEP (taskP s') = 1;
  rt_func : mcps_data_request_frFunc (taskP s') = "csmacaCallBack";
  rt_data : txData (buf s') = Some a;
  rt_csma : tmpCsmaca (buf s') = Some a /\ txCsmaca (buf s') = Some a;
  rt_frames : frames s' = frames s;
  rt_on : csma_goes_on (csma s') (tim s') (now s);
}.

(** The task ends: the frame is released and the next one asked for. *)
Record given_up (a : positive) (s s' : Mac) : Prop := {
  gu_task : mcps_data_request (taskP s') = false;
  gu_wait : waitDataAck (tx s') = false;
  gu_data : txData (buf s') = None;
  gu_frames : frames s' = delete a (frames s);
  gu_count : numTxDataFail (stats s') = numTxDataFail (stats s) + 1;
  gu_csma : csma s' = csma s;
  gu_out : out s' = out s ++ ToPhy_SET_TRX_STATE (resetTRX_state s)
                     :: (match queueModule s with QModule => [QueueRequest] | _ => [] end);
}.

Lemma wp_retry s a f :
  awaiting_ack s a f -> numDataRetry (tx s) < aMaxFrameRetries ->
  backoffStatus (csma s) <> 99 -> inTransmission (tx s) = false -> csma_ready s a f ->
  wp handleAckTimeoutTimer (fun _ s' => retried a s s') s.
Proof.
  intros Ha Hlt Hbs Htr Hr. pose proof Ha as [Htask _ _ _ Hpkt Hdata Hfr Hcmd Hup _ Hrt].
  eapply wpe_ack_timeout; [exact Ha|]. mrun. msimp. unfold aMaxFrameRetries in *. rewrite u8_small by lia.
  rewrite (proj2 (Z.leb_le _ _)) by lia. mrun. unfold csmacaResume. mrun. msimp.
  rewrite Hcmd, Hup, Hdata, Htr, (proj2 (Z.eqb_neq _ _) Hbs). cbn [negb andb is_set]. mrun.
  eapply wpe_deref; [done|exact Hfr|]. mrun. msimp.
  eapply (wp_csmacaStart a f).
  - destruct Hr as [? ? ? ? [[[] ? ? ? ? ? ? ? ? ?] ? ? ?]]. by split.
  - intros s' (Hs' & _ & Hgo). rewrite Hs'. split; msimp; try done. by rewrite u8_small by lia.
Qed.

Lemma wp_give_up s a f :
  awaiting_ack s a f -> numDataRetry (tx s) = aMaxFrameRetries ->
  wp handleAckTimeoutTimer (fun _ s' => given_up a s s') s.
Proof.
  intros Ha Heq. pose proof Ha as [Htask _ _ _ Hpkt Hdata Hfr Hcmd Hup Hq Hrt].
  eapply wpe_ack_timeout; [exact Ha|]. mrun. msimp. rewrite Heq. unfold aMaxFrameRetries in *. rewrite u8_small by lia.
  change (3 + 1 <=? 3) with false. cbv iota. mrun. unfold resetTRX. mrun. unfold taskFailed. cbn [Ascii.eqb Bool.eqb orb].
  mrun; msimp; [|by rewrite Hdata in *].
  eapply wpe_ev_deref; [exact Hdata|exists f; exact Hfr|]. mrun.
  eapply wpe_delete; [exact Hdata|exists f; exact Hfr|]. mrun. unfold MCPS_DATA_confirm. mrun; [|done].
  unfold csmacaResume. mrun. msimp. rewrite Hcmd, Hup. cbn [is_set andb].
  match goal with |- wpe _ (if ?c then _ else _) _ _ => destruct c end; mrun;
    unfold reqtIfIdle, reqtMsgFromIFq; mrun; try done; msimp; destruct (queueModule s) eqn:Hqm; try done; mrun;
    split; msimp; try done; try lia; rewrite ?Hqm; try done; by rewrite <- app_assoc.
Qed.

(** An acknowledgement timeout of a data frame.  Up to [aMaxFrameRetries]
    times the frame is sent again: the task goes back to its first step, the
    retry is counted and CSMA/CA starts anew for the same frame.  The next
    timeout ends the task: the frame is released and counted as failed, the
    radio goes to its idle state, CSMA/CA is left alone and the next packet is
    asked for. *)
Theorem ack_timeout s a f :
  awaiting_ack s a f ->
  (numDataRetry (tx s) < aMaxFrameRetries -> backoffStatus (csma s) <> 99 -> inTransmission (tx s) = false ->
     csma_ready s a f -> exists s', handleAckTimeoutTimer s = Ok (tt, s') /\ retried a s s')
  /\ (numDataRetry (tx s) = aMaxFrameRetries -> exists s', handleAckTimeoutTimer s = Ok (tt, s') /\ given_up a s s').
Proof.
  intros Ha. split.
  - intros Hlt Hbs Htr Hr. destruct (wp_ok _ _ _ (wp_retry s a f Ha Hlt Hbs Htr Hr)) as ([] & s' & ? & ?). by exists s'.
  - intros Heq. destruct (wp_ok _ _ _ (wp_give_up s a f Ha Heq)) as ([] & s' & ? & ?). by exists s'.
Qed.

(** ** Acknowledgements received *)

(** [k] acknowledges [f]: an intact ACK frame with its sequence number. *)
Record acknowledges (k f : Frame) : Prop := {
  kf_type : frmType (frmCtrl k) = Ieee802154_ACK;
  kf_kind : kind k = 0;
  kf_length : 0 < getByteLength k;
  kf_number : bdsn k = bdsn f;
}.

(** The data request is done. *)
Record completed (a : positive) (s s' : Mac) : Prop := {
  cp_task : mcps_data_request (taskP s') = false;
  cp_wait : waitDataAck (tx s') = false;
  cp_retry : numDataRetry (tx s') = 0;
  cp_timer : scheduled (tim s') MAC_ACK_TIMEOUT_TIMER = None;
  cp_data : txData (buf s') = None;
  cp_frames : frames s' = delete a (frames s);
  cp_count : numTxDataSucc (stats s') = numTxDataSucc (stats s) + 1;
  cp_acks : numRxAckPkt (stats s') = numRxAckPkt (stats s) + 1;
  cp_out : out s' = out s ++ ToPhy_SET_TRX_STATE (resetTRX_state s)
                     :: (match queueModule s with QModule => [QueueRequest] | _ => [] end);
}.

Lemma wpe_task_waits E g s (Q : bool -> Mac -> Prop) :
  mcps_data_request (taskP s) = true -> mcps_data_request_frFunc (taskP s) = g -> Q true s -> wpe E (task_waits g) Q s.
Proof. intros Ht Hf HQ. unfold task_waits. mrun. rewrite Ht. mrun. by rewrite Hf, String.eqb_refl. Qed.

Lemma wpe_resume_idle E s (Q : unit -> Mac -> Prop) :
  txBcnCmd (buf s) = None -> txBcnCmdUpper (buf s) = None -> txData (buf s) = None -> Q tt s ->
  wpe E csmacaResume Q s.
Proof.
  intros Hc Hu Hd HQ. unfold csmacaResume. mrun. rewrite Hc, Hu, Hd. cbn [is_set andb].
  match goal with |- wpe _ (if ?c then _ else _) _ _ => destruct c end; by mrun.
Qed.

(** The next packet is asked for when no request is pending. *)
Definition asked (s : Mac) : Mac :=
  s<| out ::= fun o => o ++ match queueModule s with QModule => [QueueRequest] | _ => [] end |>.

Lemma wpe_reqtIfIdle E s (Q : unit -> Mac -> Prop) :
  mcps_data_request (taskP s) = false -> queueModule s <> QWild -> Q tt (asked s) -> wpe E reqtIfIdle Q s.
Proof.
  intros Ht Hq HQ. unfold reqtIfIdle, reqtMsgFromIFq. mrun; [|by rewrite Ht in *].
  destruct (queueModule s) eqn:Hqm; [|mrun; unfold asked in HQ; by rewrite Hqm in HQ|done]. mrun.
  enough (asked s = s) as <- by done. unfold asked. rewrite Hqm. destruct s. unfold set_. msimp. by rewrite app_nil_r.
Qed.

Lemma wpe_ack_accepted E k f s (Q : option ptr -> Mac -> Prop) :
  acknowledges k f -> frameFilter_of k s = false -> uninit_int <> 2 ->
  (forall b, frames s !! b = None -> Q (Some (Some b)) (s<| frames ::= fun h => <[b := k]> h |>)) ->
  wpe E (acceptFrame k) Q s.
Proof.
  intros [Ht Hk _ _] Hf Hi%Z.eqb_neq HQ. unfold acceptFrame. mrun. apply wpe_new_frame. intros b Hb. mrun.
  unfold frameFilter. mrun; [by rewrite Hk in *|].
  match goal with |- context [frameFilter_of k ?x] => change (frameFilter_of k x) with (frameFilter_of k s) end.
  rewrite Hf. mrun. unfold checkGtsTiming, acknowledge, chkDuplicate. rewrite Ht. mrun; try done.
  change (Ieee802154_ACK ==! Ieee802154_CMD) with false. change (Ieee802154_ACK ==! Ieee802154_DATA) with false.
  cbn [andb orb]. mrun. rewrite Hi. mrun. by apply HQ.
Qed.

Lemma wp_ack_received s a f k b :
  awaiting_ack s a f -> acknowledges k f -> isScheduled MAC_ACK_TIMEOUT_TIMER s = true -> frames s !! b = None ->
  wp (handleAck (Some b)) (fun _ s' => completed a s s') (s<| frames ::= fun h => <[b := k]> h |>).
Proof.
  intros [Htask Hstep Hfunc Hopt Hpkt Hdata Hfr Hcmd Hup Hq Hrt] [_ _ _ Hn] Hsch Hb.
  assert (Hne : a <> b) by (intros ->; congruence).
  unfold handleAck. mrun. msimp. rewrite Hpkt, Hdata, Hcmd, Hup. cbn [is_set negb andb].
  rewrite (bool_decide_eq_true_2 (Some a = Some a)) by done. cbn [negb andb]. rewrite andb_false_r.
  apply wpe_bind. eapply wpe_deref; [done|msimp; by rewrite lookup_insert_eq|]. mrun. unfold cast_deref.
  eapply wpe_deref; [done|msimp; rewrite lookup_insert_ne by done; exact Hfr|]. rewrite Hn, Z.eqb_refl. cbn [negb].
  change (isScheduled MAC_ACK_TIMEOUT_TIMER _) with (isScheduled MAC_ACK_TIMEOUT_TIMER s). rewrite Hsch.
  unfold cancelEvent. mrun. msimp.
  change (dispatch phy_SUCCESS "handleAck") with (s ← self; dispatch_handleAck phy_SUCCESS).
  mrun. unfold dispatch_handleAck. mrun. eapply wpe_task_waits; [exact Htask|exact Hfunc|]. msimp.
  rewrite Hpkt, Hdata, (bool_decide_eq_true_2 (Some a = Some a)) by done.
  unfold FSM_MCPS_DATA_request. mrun. msimp. rewrite Hopt.
  unfold FSM_direct. mrun. msimp. rewrite Hstep.
  change (3 =? 1) with false. change (3 =? 2) with false. change (3 =? 3) with true. cbv iota. mrun. msimp.
  eapply wpe_ev_deref; [exact Hdata|exists f; msimp; by rewrite lookup_insert_ne|].
  mrun. rewrite (bool_decide_eq_true_2 (phy_SUCCESS = phy_SUCCESS)) by done. mrun. unfold resetTRX. mrun. unfold taskSuccess. cbn [Ascii.eqb Bool.eqb]. mrun; msimp; [|by rewrite Hdata in *].
  assert (Hfr' : <[b:=k]> (frames s) !! a = Some f) by (by rewrite lookup_insert_ne).
  eapply wpe_ev_deref; [exact Hdata|exists f; exact Hfr'|]. mrun.
  eapply wpe_delete; [exact Hdata|exists f; exact Hfr'|]. mrun. unfold MCPS_DATA_confirm.
  mrun; try done. apply wpe_reqtIfIdle; [done|done|]. mrun; [|done].
  apply wpe_resume_idle; [exact Hcmd|exact Hup|done|].
  eapply wpe_delete; [done|exists k; change (delete a (<[b:=k]> (frames s)) !! b = Some k)|].
  { by rewrite lookup_delete_ne, lookup_insert_eq. }
  assert (Hfin : delete b (delete a (<[b:=k]> (frames s))) = delete a (frames s)).
  { rewrite (delete_insert_ne _ a b) by done. rewrite delete_insert_id; [done|]. by rewrite lookup_delete_ne. }
  split; unfold asked; msimp; try done.
  - unfold resetRetry. msimp. rewrite Hpkt, Hdata, Hcmd, Hup. by rewrite (bool_decide_eq_true_2 (Some a = Some a)).
  - by rewrite <- app_assoc.
Qed.

(** C33: the acknowledgement of the data frame that was sent ends the data
    request: the timeout is cancelled, the retry counter reset, the frame
    released and counted as sent, the radio goes to its idle state and the next
    packet is asked for.  The acknowledgement itself leaves nothing behind.
    (The code tests an uninitialised variable for this frame; the acknowledgement
    is lost if it happens to be 2.) *)
Theorem ack_completes_task w a f k :
  awaiting_ack (me w) a f -> acknowledges k f -> isScheduled MAC_ACK_TIMEOUT_TIMER (me w) = true ->
  frameFilter_of k (me w) = false -> uninit_int <> 2 ->
  exists s', handleMessage (LowerFrame k) w = Ok (tt, w<| me := s' |>) /\ completed a (me w) s'.
Proof.
  intros Ha Hk Hsch Hf Hi.
  destruct (wp_ok (handleMessage (LowerFrame k)) (fun _ w' => exists s', w' = w<| me := s' |> /\ completed a (me w) s') w)
    as ([] & w' & Hrun & s' & -> & Hc); [|by exists s'].
  apply wpe_handleLower; [apply Hk|]. unfold handleLowerMsg, own. mrun.
  eapply wpe_ack_accepted; [exact Hk|exact Hf|exact Hi|]. intros b Hb. rewrite (kf_type _ _ Hk). mrun.
  eapply wpe_mono; [eapply wp_ack_received; eassumption|]. intros [] s' Hc. by exists s'.
Qed.

(** ** Packets from above *)

(** The MAC handles one data request at a time: a packet that comes while
    one is pending is dropped, counted, and another one asked for; nothing else
    changes.  A packet that is too long for a frame is dropped the same way. *)
Theorem upper_packet_dropped msg ctrl w :
  mcps_data_request (taskP (me w)) = true \/ aMaxMACFrameSize < pktByteLength msg ->
  queueModule (me w) <> QWild ->
  handleMessage (Upper msg ctrl) w
  = Ok (tt, w<| me ::= fun s =>
      s<| stats ::= fun t => t<| numUpperPkt ::= Z.succ |><| numUpperPktLost ::= Z.succ |> |>
       <| out ::= fun o => o ++ (match queueModule s with QModule => [QueueRequest] | _ => [] end) |> |>).
Proof.
  intros Hor Hq.
  match goal with |- _ = Ok (tt, ?w1) =>
    destruct (wp_ok (handleMessage (Upper msg ctrl)) (fun _ w' => w' = w1) w) as ([] & w' & Hrun & ->); [|exact Hrun] end.
  assert (Hdrop : forall s', queueModule s' <> QWild ->
    wp drop_upper (fun _ s2 => s2 = s'<| stats ::= fun t => t<| numUpperPktLost ::= Z.succ |> |>
       <| out ::= fun o => o ++ (match queueModule s' with QModule => [QueueRequest] | _ => [] end) |>) s').
  { intros s' Hs'. unfold drop_upper, reqtMsgFromIFq. mrun. msimp. destruct (queueModule s'); mrun; try done.
    destruct s'. msimp. unfold set_. msimp. by rewrite app_nil_r. }
  unfold handleMessage, handleUpperMsg, own. mrun. msimp.
  destruct (mcps_data_request (taskP (me w))).
  - mrun. eapply wpe_mono; [by apply Hdrop|]. by intros [] s2 ->.
  - destruct Hor as [?|Hlen]; [done|]. rewrite (proj2 (Z.ltb_lt _ _) Hlen). mrun. unfold MCPS_DATA_confirm. mrun.
    eapply wpe_mono; [by apply Hdrop|]. by intros [] s2 ->.
Qed.

End data.

(** ** Witnesses *)

(** The sample device when its acknowledgement is overdue, after [n] retries. *)
Definition overdue (n : Z) : Mac :=
  (due MAC_ACK_TIMEOUT_TIMER (me net3))<| tx ::= fun t => t<| numDataRetry := n |> |>.

Lemma overdue_awaits n : 0 <= n <= aMaxFrameRetries -> awaiting_ack (overdue n) 1%positive data_sent.
Proof. intros Hn. split; [reflexivity..|vm_compute; congruence|exact Hn]. Qed.

Lemma ack_timeout_witness :
  (exists s', handleAckTimeoutTimer (overdue 0) = Ok (tt, s') /\ retried 1%positive (overdue 0) s')
  /\ (exists s', handleAckTimeoutTimer (overdue 3) = Ok (tt, s') /\ given_up 1%positive (overdue 3) s').
Proof.
  split.
  - apply (proj1 (ack_timeout (overdue 0) 1%positive data_sent (overdue_awaits 0 ltac:(vm_compute; split; congruence)))).
    + reflexivity.
    + vm_compute. congruence.
    + reflexivity.
    + split; try reflexivity. split; [|vm_compute; congruence..|vm_compute; split; congruence]. sample_device.
  - apply (proj2 (ack_timeout (overdue 3) 1%positive data_sent (overdue_awaits 3 ltac:(vm_compute; split; congruence)))).
    reflexivity.
Defined.

(** The acknowledgement the coordinator would send. *)
Lemma ack_completes_task_witness :
  exists s', handleMessage (LowerFrame (ack_for data_sent)) net3 = Ok (tt, net3<| me := s' |>)
    /\ completed 1%positive (me net3) s'.
Proof.
  apply (ack_completes_task net3 1%positive data_sent (ack_for data_sent)).
  - split; [reflexivity..|vm_compute; congruence|vm_compute; split; congruence].
  - split; reflexivity.
  - vm_compute. reflexivity.
  - vm_compute. reflexivity.
  - vm_compute. congruence.
Defined.

Lemma upper_packet_dropped_witness :
  exists w', handleMessage to_sink net2 = Ok (tt, w') /\ numUpperPktLost (stats (me w')) = 1.
Proof.
  eexists. split.
  - apply upper_packet_dropped; [left; reflexivity|vm_compute; congruence].
  - reflexivity.
Defined.
