(* ===== verification/MacToken.v ===== *)
(** * One packet at a time: the MAC and its requests to the queue

    Every packet the MAC takes from the queue is answered by one request for the next,
    when the MAC has done with it: the packet was dropped, sent, or given up.  The
    counters the module reports agree with that.  Most functions leave the part of the
    state concerned alone ([Quiet]); what is left are the ends of tasks, the machine of
    a data request and the handler of packets from above. *)

From S2P Require Import Prelude HList MacConst MacTypes MacUtil MacCsma MacTask MacHandlers MacGts MacSample MacProps MacInv.

Open Scope string_scope.
Open Scope list_scope.
Open Scope Z_scope.

#[local] Opaque u8 u16 u32.

(** ** The part of the state concerned *)

Definition is_request (e : mevent) : bool := match e with QueueRequest => true | _ => false end.
(** The requests sent so far. *)
Definition requested (s : Mac) : Z := Z.of_nat (length (List.filter is_request (out s))).
(** Whether a data request is pending. *)
Definition busy (s : Mac) : bool := mcps_data_request (taskP s).
(** The packets done with: dropped, sent, or given up. *)
Definition done_with (s : Mac) : Z :=
  numUpperPktLost (stats s) + numTxDataSucc (stats s) + numTxDataFail (stats s)
  + numTxGTSSucc (stats s) + numTxGTSFail (stats s).

Record view := mkView {
  v_busy : bool;
  v_data : bool;
  v_gts : bool;
  v_queue : queue_ptr;
  v_requested : Z;
  v_done : Z;
  v_taken : Z;
}.
Definition view_of (s : Mac) : view :=
  mkView (busy s) (is_set (txData (buf s))) (is_set (txGTS (buf s))) (queueModule s) (requested s) (done_with s)
    (numUpperPkt (stats s)).
Definition at_view (v : view) (s : Mac) : Prop := view_of s = v.

(** A computation that leaves it alone. *)
Abbreviation Quiet m := (forall v, keeps (at_view v) m).

(** ** Quiet functions *)

Lemma requested_app s e : requested (s<| out ::= fun o => o ++ [e] |>) = requested s + Z.b2z (is_request e).
Proof. unfold requested. msimp. rewrite List.filter_app, length_app. cbn. destruct (is_request e); cbn; lia. Qed.

Ltac head_of t := lazymatch t with ?f _ => head_of f | _ => t end.

Create HintDb quiet.
Create HintDb moves.
(** A body is followed into its callees, down to those with a lemma of their own. *)
Ltac quiet_step :=
  first
  [ solve [auto 2 with quiet keeps nocore]
  | apply keeps_bind; [|intros ?]
  | apply keeps_when
  | progress cbv zeta
  | match goal with
    | |- keeps _ (if ?b then _ else _) => destruct b
    | |- keeps _ (match ?x with _ => _ end) => destruct x
    | |- keeps _ (modify _) => apply keeps_modify; intros ? Hv; exact Hv
    | |- keeps _ ?m => let h := head_of m in unfold h
    end ].
Ltac quiet_body := intros v; repeat quiet_step.
Ltac quiet := intros; repeat quiet_step.

Section quiet.
Context `{MacEnv}.

Lemma q_emit e v : is_request e = false -> keeps (at_view v) (emit e).
Proof.
  intros He. apply keeps_modify. intros s <-. unfold at_view, view_of. rewrite requested_app, He. cbn.
  by rewrite Z.add_0_r.
Qed.
#[local] Hint Extern 1 (keeps _ (emit _)) => (apply q_emit; reflexivity) : quiet.
Lemma q_deref p : Quiet (deref p).
Proof. quiet_body. Qed.
#[local] Hint Resolve q_deref : quiet.
Lemma q_delete p : Quiet (delete_frame p).
Proof. quiet_body. Qed.
Lemma q_ev_deref p : Quiet (ev_deref p).
Proof. quiet_body. Qed.
Lemma q_restartAt n t : Quiet (restartAt n t).
Proof. quiet_body. Qed.
Lemma q_resetTRX : Quiet resetTRX.
Proof. quiet_body. Qed.
#[local] Hint Resolve q_delete q_ev_deref q_restartAt q_resetTRX : quiet.

(** The pending task: all but the flag of the data request. *)
Lemma q_upd_task f v :
  (forall t t', f t = Ok t' -> mcps_data_request t' = mcps_data_request t) -> keeps (at_view v) (upd_task f).
Proof.
  intros Hf s <-. unfold upd_task. mrun. destruct (f (taskP s)) eqn:E; [|done]. mrun.
  unfold at_view, view_of, busy. msimp. by rewrite (Hf _ _ E).
Qed.
Lemma q_put_taskStep t n : Quiet (put_taskStep t n).
Proof. intros v. apply q_upd_task. intros x y. destruct t; cbn; intros [=]; by subst. Qed.
Lemma q_put_taskFrFunc t n : Quiet (put_taskFrFunc t n).
Proof. intros v. apply q_upd_task. intros x y. destruct t; cbn; intros [=]; by subst. Qed.
Lemma q_put_taskStatus t b : t <> TP_MCPS_DATA_REQUEST -> Quiet (put_taskStatus t b).
Proof. intros Ht v. apply q_upd_task. intros x y. destruct t; cbn; intros [=]; by subst. Qed.
#[local] Hint Resolve q_put_taskStep q_put_taskFrFunc : quiet.
#[local] Hint Extern 1 (keeps _ (put_taskStatus _ _)) => (apply q_put_taskStatus; discriminate) : quiet.

(** CSMA/CA *)
Lemma q_locate b n : Quiet (csmacaLocateBoundary b n).
Proof. quiet_body. Qed.
#[local] Hint Resolve q_locate : quiet.
Lemma q_canProceed n b : Quiet (csmacaCanProceed n b).
Proof. quiet_body. Qed.
#[local] Hint Resolve q_canProceed : quiet.
Lemma q_csmacaStart b p r : Quiet (csmacaStart b p r).
Proof. quiet_body. Qed.
Lemma q_csmacaCancel : Quiet csmacaCancel.
Proof. quiet_body. Qed.
#[local] Hint Resolve q_csmacaStart q_csmacaCancel : quiet.
Lemma q_csmacaResume : Quiet csmacaResume.
Proof. quiet_body. Qed.
Lemma q_csmacaEntry c : Quiet (csmacaEntry c).
Proof. quiet_body. Qed.
Lemma q_handleBackoffTimer : Quiet handleBackoffTimer.
Proof. quiet_body. Qed.
Lemma q_csmacaTrxBeacon : Quiet csmacaTrxBeacon.
Proof. quiet_body. Qed.
#[local] Hint Resolve q_csmacaResume q_csmacaEntry q_handleBackoffTimer q_csmacaTrxBeacon : quiet.

(** Tasks *)
Lemma q_task_next f : Quiet (task_next f).
Proof. quiet_body. Qed.
Lemma q_task_waits f : Quiet (task_waits f).
Proof. quiet_body. Qed.
Lemma q_upd_gts_at i f : Quiet (upd_gts_at i f).
Proof. quiet_body. Qed.
#[local] Hint Resolve q_task_next q_task_waits q_upd_gts_at : quiet.
Lemma q_clearTxPending : Quiet clearTxPending.
Proof. quiet_body. Qed.
Lemma q_ack_sent : Quiet dispatch_ack_sent.
Proof.
  unfold dispatch_ack_sent. assert (Ha : Quiet (taskSuccess "a" true)); [|quiet_body].
  unfold taskSuccess. cbn [Ascii.eqb Bool.eqb]. quiet_body.
Qed.
Lemma q_taskSuccess_b b : Quiet (taskSuccess "b" b).
Proof. unfold taskSuccess. cbn [Ascii.eqb Bool.eqb]. quiet_body. Qed.
#[local] Hint Resolve q_clearTxPending q_ack_sent q_taskSuccess_b : quiet.

(** Handlers *)
Lemma q_sendBeacon : Quiet sendBeacon.
Proof. quiet_body. Qed.
#[local] Hint Resolve q_sendBeacon : quiet.
Lemma q_handleBcnTxTimer : Quiet handleBcnTxTimer.
Proof. quiet_body. Qed.
#[local] Hint Resolve q_handleBcnTxTimer : quiet.
Lemma q_startPANCoor : Quiet startPANCoor.
Proof. quiet_body. Qed.
Lemma q_handleBcnRxTimer : Quiet handleBcnRxTimer.
Proof. quiet_body. Qed.
Lemma q_transmitOnTxOn : Quiet transmitOnTxOn.
Proof. quiet_body. Qed.
#[local] Hint Resolve q_transmitOnTxOn : quiet.
Lemma q_TRX_STATE_confirm x : Quiet (handle_PLME_SET_TRX_STATE_confirm x).
Proof. quiet_body. Qed.
Lemma q_MCPS_DATA_indication p : Quiet (MCPS_DATA_indication p).
Proof. quiet_body. Qed.
Lemma q_chkDuplicate f : Quiet (chkDuplicate f).
Proof.
  intros v s Hs. unfold chkDuplicate. destruct (frmType (frmCtrl f)); try (by apply wpe_ret);
    apply wpe_zoom; unfold wpe; by destruct (chkAddUpdHListLink _ _ _) as [[??]|].
Qed.
#[local] Hint Resolve q_chkDuplicate : quiet.
Lemma q_acceptFrame f : Quiet (acceptFrame f).
Proof. quiet_body. Qed.
Lemma q_handleData p : Quiet (handleData p).
Proof. quiet_body. Qed.
Lemma q_handleCommand p : Quiet (handleCommand p).
Proof. quiet_body. Qed.
Lemma q_gts_request_cmd a l b : Quiet (gts_request_cmd a l b).
Proof. quiet_body. Qed.
Lemma q_associate_request_cmd a c : Quiet (associate_request_cmd a c).
Proof. quiet_body. Qed.
#[local] Hint Resolve q_startPANCoor q_handleBcnRxTimer q_TRX_STATE_confirm q_MCPS_DATA_indication q_acceptFrame
  q_handleData q_handleCommand q_gts_request_cmd q_associate_request_cmd : quiet.

(** ** The books of the MAC *)

(** [base] requests more have been sent than packets were done with; [n] packets have
    been taken, and the one that is not done with is the pending request.  A frame waits
    for transmission only while it is pending, and there is only one. *)
Record tok (base n : Z) (v : view) : Prop := {
  tk_queue : v_queue v = QModule;
  tk_requests : v_requested v = base + v_done v;
  tk_taken : v_taken v = n;
  tk_done : n = v_done v + Z.b2z (v_busy v);
  tk_data : v_data v = true -> v_busy v = true;
  tk_gts : v_gts v = true -> v_busy v = true;
  tk_one : v_data v && v_gts v = false;
}.
(** While the request is pending. *)
Definition active (base n : Z) (v : view) : Prop := tok base n v /\ v_busy v = true.
(** The request has been closed, and its packet is not accounted for yet. *)
Record owed (base n : Z) (v : view) : Prop := {
  ow_queue : v_queue v = QModule;
  ow_requests : v_requested v = base + v_done v;
  ow_taken : v_taken v = n;
  ow_done : n = v_done v + 1;
  ow_busy : v_busy v = false;
  ow_one : v_data v && v_gts v = false;
}.

(** From states where [I] holds a computation leads to states where [J] holds, if it
    returns. *)
Definition moves {A} (I J : view -> Prop) (m : M Mac A) : Prop :=
  forall s, I (view_of s) -> wpe (fun _ => True) m (fun _ s' => J (view_of s')) s.

Section rules.
Implicit Types I J K : view -> Prop.

Lemma quiet_moves {A} I J (m : M Mac A) : Quiet m -> (forall v, I v -> J v) -> moves I J m.
Proof.
  intros Hm HIJ s Hs. eapply wpe_mono; [by apply (Hm (view_of s))|]. intros a s' Hv. rewrite Hv. by apply HIJ.
Qed.
Lemma moves_bind {A B} I J K (m : M Mac A) (k : A -> M Mac B) :
  moves I J m -> (forall a, moves J K (k a)) -> moves I K (m ≫= k).
Proof. intros Hm Hk s Hs. apply wpe_bind. eapply wpe_mono; [by apply Hm|]. intros a s'. apply Hk. Qed.
Lemma moves_quiet_bind {A B} I K (m : M Mac A) (k : A -> M Mac B) :
  Quiet m -> (forall a, moves I K (k a)) -> moves I K (m ≫= k).
Proof. intros Hm. by apply moves_bind, quiet_moves. Qed.
Lemma moves_pre {A} I I' J (m : M Mac A) : (forall v, I v -> I' v) -> moves I' J m -> moves I J m.
Proof. intros HI Hm s Hs. by apply Hm, HI. Qed.
(** An assertion about the state at hand is known afterwards. *)
Lemma moves_check {A} I J K (b : Mac -> bool) c (k : Mac -> M Mac A) :
  (forall s, I (view_of s) -> b s = true -> J (view_of s)) -> (forall s, moves J K (k s)) ->
  moves I K (s ← self; assert_ (b s) c;; k s).
Proof. intros Hb Hk s Hs. mrun; [|done]. apply Hk. by apply Hb. Qed.
Lemma moves_when I J b (m : M Mac unit) : moves I J m -> (forall v, I v -> J v) -> moves I J (when b m).
Proof. intros Hm HI s Hs. destruct b; [by apply Hm|by apply HI]. Qed.
Lemma moves_modify I J (f : Mac -> Mac) : (forall s, I (view_of s) -> J (view_of (f s))) -> moves I J (modify f).
Proof. intros Hf s Hs. by apply wpe_modify, Hf. Qed.
End rules.

Section token.
Context (base n : Z).
#[local] Abbreviation T := (tok base n).

Lemma active_tok v : active base n v -> T v.
Proof. by intros []. Qed.

(** The packet is accounted for and the next one requested. *)
Definition accounted (v : view) : Prop :=
  v_queue v = QModule /\ v_requested v + 1 = base + v_done v /\ v_taken v = n /\ n = v_done v /\ v_busy v = false
  /\ v_data v = false /\ v_gts v = false.

Lemma m_reqtIfIdle : moves accounted T reqtIfIdle.
Proof.
  intros s (H1 & H2 & H3 & H4 & H5 & H6 & H7). unfold reqtIfIdle. mrun; cbn in *; unfold busy in H5. 2: (by rewrite H5 in H0).
  unfold reqtMsgFromIFq. mrun. rewrite H1. mrun. split; cbn; rewrite ?requested_app, ?H5, ?H6, ?H7; cbn in *; try done; try lia.
  unfold busy, done_with in *. msimp. rewrite H5. cbn. lia.
Qed.

(** The data request is closed. *)
Lemma m_close : moves (active base n) (owed base n) (put_taskStatus TP_MCPS_DATA_REQUEST false).
Proof.
  intros s [[H1 H2 H3 H4 H5 H6 H7] H8]. mrun. cbn. mrun. rewrite H8 in H4. by split.
Qed.

(** A request closed, or none pending: the frame waiting, if there is one, is the one
    of the packet not accounted for. *)
Definition closed (v : view) : Prop := owed base n v \/ (T v /\ v_busy v = false).

Definition ending (v : view) : Prop := owed base n v /\ v_data v = false /\ v_gts v = false.
Lemma m_count (f : Stats -> Stats) :
  (forall s, done_with (s<| stats ::= f |>) = done_with s + 1 /\ numUpperPkt (f (stats s)) = numUpperPkt (stats s)) ->
  moves ending accounted (upd_stats f).
Proof.
  intros Hf. apply moves_modify. intros s [[H1 H2 H3 H4 H5 H6] [H7 H8]]. destruct (Hf s) as [Hd Hn].
  unfold accounted. cbn in *. rewrite Hd, Hn.
  change (requested (s<| stats ::= f |>)) with (requested s). repeat split; try done; lia.
Qed.
Definition with_data (v : view) : Prop := owed base n v /\ v_data v = true /\ v_gts v = false.
Definition with_gts (v : view) : Prop := owed base n v /\ v_data v = false /\ v_gts v = true.
Lemma closed_data s : closed (view_of s) -> is_set (txData (buf s)) = true ->
  with_data (view_of s).
Proof.
  intros [Hs|[Hs Hb]] Hd; [|rewrite (tk_data _ _ _ Hs Hd) in Hb; done].
  pose proof (ow_one _ _ _ Hs) as Ho. unfold with_data. cbn in *. by rewrite Hd in Ho.
Qed.
Lemma closed_gts s : closed (view_of s) -> is_set (txGTS (buf s)) = true ->
  with_gts (view_of s).
Proof.
  intros [Hs|[Hs Hb]] Hd; [|rewrite (tk_gts _ _ _ Hs Hd) in Hb; done].
  pose proof (ow_one _ _ _ Hs) as Ho. unfold with_gts. cbn in *. rewrite Hd, andb_true_r in Ho. done.
Qed.

(** The frame is released. *)
Lemma m_release_data :
  moves with_data ending (upd_buf (fun b => b<| txData := None |>)).
Proof. apply moves_modify. intros s [[] [Hd Hg]]. split; [|done]. by split. Qed.
Lemma m_release_gts :
  moves with_gts ending (upd_buf (fun b => b<| txGTS := None |>)).
Proof. apply moves_modify. intros s [[] [Hd Hg]]. cbn in *. split; [|done]. split; try done. cbn. by rewrite Hd. Qed.

(** Follows a body: quiet steps keep what is known, the others have a lemma. *)
Ltac moves_step :=
  first
  [ solve [eauto 2 with moves nocore]
  | refine (moves_check closed with_data _ (fun s => is_set (txData (buf s))) _ _ closed_data _); intros ?
  | refine (moves_check closed with_gts _ (fun s => is_set (txGTS (buf s))) _ _ closed_gts _); intros ?
  | eapply moves_bind; [solve [eauto 2 with moves nocore]|intros ?]
  | apply moves_quiet_bind; [solve [quiet]|intros ?]
  | apply moves_when; [|intros ?; solve [auto using active_tok]]
  | progress cbv zeta
  | match goal with
    | |- moves _ _ (if ?b then _ else _) => destruct b
    | |- moves _ _ (match ?x with _ => _ end) => destruct x
    end
  | apply quiet_moves; [solve [quiet]|intros ?; solve [auto using active_tok]] ].
Ltac moves_body := intros; repeat moves_step.

#[local] Hint Resolve m_reqtIfIdle m_release_data m_release_gts m_close : moves.
#[local] Hint Extern 1 (moves ending _ (upd_stats _)) =>
  (apply m_count; intros ?; unfold done_with; msimp; lia) : moves.

Lemma m_taskSuccess_d b : moves closed T (taskSuccess "d" b).
Proof. unfold taskSuccess. cbn [Ascii.eqb Bool.eqb]. apply moves_bind with (J := T); moves_body. Qed.
Lemma m_taskSuccess_g b : moves closed T (taskSuccess "g" b).
Proof. unfold taskSuccess. cbn [Ascii.eqb Bool.eqb]. apply moves_bind with (J := T); moves_body. Qed.
Lemma m_taskFailed_d x b : moves closed T (taskFailed "d" x b).
Proof. unfold taskFailed. cbn [Ascii.eqb Bool.eqb orb]. moves_body. Qed.
Lemma m_taskFailed_g x b : moves closed T (taskFailed "g" x b).
Proof. unfold taskFailed. cbn [Ascii.eqb Bool.eqb orb]. moves_body. Qed.

Lemma owed_closed v : owed base n v -> closed v.
Proof. by left. Qed.
#[local] Hint Extern 1 (moves (owed _ _) _ (taskSuccess "d" _)) => (apply (moves_pre _ _ _ _ owed_closed), m_taskSuccess_d) : moves.
#[local] Hint Extern 1 (moves (owed _ _) _ (taskSuccess "g" _)) => (apply (moves_pre _ _ _ _ owed_closed), m_taskSuccess_g) : moves.
#[local] Hint Extern 1 (moves (owed _ _) _ (taskFailed "d" _ _)) => (apply (moves_pre _ _ _ _ owed_closed), m_taskFailed_d) : moves.
#[local] Hint Extern 1 (moves (owed _ _) _ (taskFailed "g" _ _)) => (apply (moves_pre _ _ _ _ owed_closed), m_taskFailed_g) : moves.
#[local] Hint Resolve m_taskSuccess_d : moves.

(** The machine of a data request runs while the request is pending. *)
Lemma m_FSM_direct x : moves (active base n) T (FSM_direct x).
Proof. unfold FSM_direct. moves_body. Qed.
Lemma m_FSM_gts x : moves (active base n) T (FSM_gts x).
Proof. unfold FSM_gts. moves_body. Qed.
#[local] Hint Resolve m_FSM_direct m_FSM_gts : moves.
Lemma m_FSM x : moves (active base n) T (FSM_MCPS_DATA_request x).
Proof. unfold FSM_MCPS_DATA_request. moves_body. Qed.
#[local] Hint Resolve m_FSM : moves.
#[local] Opaque FSM_MCPS_DATA_request.

(** ** Who a status is for *)

Lemma m_status {A} K (k : bool -> M Mac A) :
  moves (active base n) K (k true) -> moves (fun v => T v /\ v_busy v = false) K (k false) ->
  moves T K (get_taskStatus TP_MCPS_DATA_REQUEST ≫= k).
Proof. intros H1 H2 s Hs. mrun. cbn. destruct (mcps_data_request (taskP s)) eqn:E; [by apply H1|by apply H2]. Qed.
Lemma m_task_waits {A} K f (k : bool -> M Mac A) :
  moves (active base n) K (k true) -> moves T K (k false) -> moves T K (task_waits f ≫= k).
Proof.
  intros H1 H2 s Hs. unfold task_waits. mrun. cbn. destruct (mcps_data_request (taskP s)) eqn:E; mrun; cbn.
  - mrun. destruct (String.eqb _ _); [by apply H1|by apply H2].
  - by apply H2.
Qed.
Lemma m_assert_waits f : moves T (active base n) (assert_task_waits f).
Proof. unfold assert_task_waits. apply m_task_waits; [apply quiet_moves; [quiet|done]|by intros s Hs]. Qed.
#[local] Hint Resolve m_assert_waits : moves.
#[local] Opaque assert_task_waits.

Lemma m_dispatch_PD_DATA_confirm x : moves T T (dispatch_PD_DATA_confirm x).
Proof. unfold dispatch_PD_DATA_confirm. moves_body. Qed.
Lemma m_dispatch_handleAckTimeoutTimer : moves T T dispatch_handleAckTimeoutTimer.
Proof.
  unfold dispatch_handleAckTimeoutTimer. apply moves_quiet_bind; [quiet|intros s]. cbv zeta.
  case_match; [apply m_task_waits; cbn [when]|]; moves_body.
Qed.
(** An acknowledgement that no machine waits for closes the request of the data frame. *)
Lemma m_dispatch_handleAck x : moves T T (dispatch_handleAck x).
Proof.
  unfold dispatch_handleAck. apply moves_quiet_bind; [quiet|intros s]. cbv zeta. apply m_task_waits; cbn [when].
  - moves_body.
  - case_match; [|moves_body]. apply m_status; cbn [when].
    + moves_body.
    + apply moves_quiet_bind; [quiet|intros _]. apply moves_quiet_bind; [quiet|intros _].
      apply (moves_pre _ closed); [by right|apply m_taskSuccess_d].
Qed.
#[local] Hint Resolve m_dispatch_PD_DATA_confirm m_dispatch_handleAckTimeoutTimer m_dispatch_handleAck : moves.
Lemma m_dispatch x f : moves T T (dispatch x f).
Proof. unfold dispatch. moves_body. Qed.
#[local] Hint Resolve m_dispatch : moves.
#[local] Opaque dispatch.
Lemma m_csmacaCallBack x : moves T T (csmacaCallBack x).
Proof. unfold csmacaCallBack. moves_body. Qed.
#[local] Hint Resolve m_csmacaCallBack : moves.
#[local] Opaque csmacaCallBack.

(** ** Handlers that may end a request *)

(** The assertion before the machine of a transmission in a GTS. *)
Lemma m_gts_machine (c : string) (k : Z) x :
  moves T T (b ← get_taskStatus TP_MCPS_DATA_REQUEST; step ← get_taskStep TP_MCPS_DATA_REQUEST;
             assert_ (b && ((step : Z) =? k)) c;; FSM_MCPS_DATA_request x).
Proof. apply m_status; [moves_body|]. intros s Hs. by mrun. Qed.
#[local] Hint Resolve m_gts_machine : moves.
Lemma m_startGtsTransmission : moves T T startGtsTransmission.
Proof. exact (m_gts_machine _ 1 phy_SUCCESS). Qed.
#[local] Hint Resolve m_startGtsTransmission : moves.
#[local] Opaque startGtsTransmission.
Lemma m_handleGtsTimer : moves T T handleGtsTimer.
Proof.
  unfold handleGtsTimer, handleGtsTimer_coordinator, handleGtsTimer_device.
  apply moves_quiet_bind; [quiet|intros s]. case_match; (apply moves_quiet_bind; [quiet|intros s']).
  - cbv zeta. do 2 (apply moves_quiet_bind; [quiet|intros ?]). apply moves_bind with (J := T); moves_body.
  - case_match; [|moves_body]. apply moves_bind with (J := T); moves_body.
Qed.
Lemma m_handleIfsTimer : moves T T handleIfsTimer.
Proof. unfold handleIfsTimer. moves_body. Qed.
Lemma m_handleAckTimeoutTimer : moves T T handleAckTimeoutTimer.
Proof. unfold handleAckTimeoutTimer. moves_body. Qed.
#[local] Hint Resolve m_handleGtsTimer m_handleIfsTimer m_handleAckTimeoutTimer : moves.
#[local] Opaque handleGtsTimer handleIfsTimer handleAckTimeoutTimer.
Lemma m_handleSelfMsg t : moves T T (handleSelfMsg t).
Proof. unfold handleSelfMsg. moves_body. Qed.
Lemma m_PD_DATA_confirm x : moves T T (handle_PD_DATA_confirm x).
Proof. unfold handle_PD_DATA_confirm. moves_body. Qed.
Lemma m_csmacaSucceeds x : moves T T (csmacaSucceeds x).
Proof. unfold csmacaSucceeds. moves_body. Qed.
#[local] Hint Resolve m_PD_DATA_confirm m_csmacaSucceeds : moves.
#[local] Opaque handle_PD_DATA_confirm csmacaSucceeds.
Lemma m_CCA_confirm x : moves T T (handle_PLME_CCA_confirm x).
Proof. unfold handle_PLME_CCA_confirm. moves_body. Qed.
#[local] Hint Resolve m_CCA_confirm : moves.
Lemma m_primitive k x : moves T T (handleMacPhyPrimitive k x).
Proof. unfold handleMacPhyPrimitive. moves_body. Qed.
Lemma m_handleAck p : moves T T (handleAck p).
Proof. unfold handleAck. moves_body. Qed.
End token.

(** ** Packets from above *)

Section upper.
Context (base n : Z).

(** A packet has been counted and nothing done with it yet. *)
Definition arrived (v : view) : Prop :=
  tok base n (mkView (v_busy v) (v_data v) (v_gts v) (v_queue v) (v_requested v) (v_done v) n) /\ v_taken v = n + 1.
Definition arrived_idle (v : view) : Prop := arrived v /\ v_busy v = false.
(** Its request is pending, and its frame not yet built. *)
Definition opened (v : view) : Prop := active base (n + 1) v /\ v_data v = false /\ v_gts v = false.

Lemma m_arrive : moves (tok base n) arrived (upd_stats (fun t => t<| numUpperPkt ::= Z.succ |>)).
Proof. apply moves_modify. intros s [H1 H2 H3 H4 H5 H6 H7]. split; [by split|]. cbn in *. lia. Qed.

Lemma m_drop_upper : moves arrived (tok base (n + 1)) drop_upper.
Proof.
  intros s [[H1 H2 H3 H4 H5 H6 H7] H8]. cbn in *. unfold drop_upper, reqtMsgFromIFq. mrun. msimp. rewrite H1. mrun.
  assert (Hd : done_with (s<| stats ::= fun t => t<| numUpperPktLost ::= Z.succ |> |>
                           <| out ::= fun o => o ++ [QueueRequest] |>) = done_with s + 1)
    by (unfold done_with; msimp; lia).
  unfold view_of. rewrite requested_app, Hd. split; cbn; try done; unfold requested, busy in *; msimp; lia.
Qed.

Lemma m_open : moves arrived_idle opened (put_taskStatus TP_MCPS_DATA_REQUEST true).
Proof.
  intros s [[[H1 H2 H3 H4 H5 H6 H7] H8] H9]. cbn in *. rewrite H9 in *. mrun. cbn. mrun.
  assert (Hd : is_set (txData (buf s)) = false) by (destruct (is_set (txData (buf s))); auto; by discriminate H5).
  assert (Hg : is_set (txGTS (buf s)) = false) by (destruct (is_set (txGTS (buf s))); auto; by discriminate H6).
  split; [|done]. split; [|done]. split; cbn in *; try done. unfold done_with, busy in *. msimp. cbn. lia.
Qed.

Lemma m_fill_data p : moves opened (active base (n + 1)) (upd_buf (fun b => b<| txData := p |>)).
Proof.
  apply moves_modify. intros s [[[H1 H2 H3 H4 H5 H6 H7] H8] [H9 H10]]. cbn in *. split; [|done]. split; cbn; try done.
  by rewrite H10, andb_false_r.
Qed.
Lemma m_fill_gts p : moves opened (active base (n + 1)) (upd_buf (fun b => b<| txGTS := p |>)).
Proof.
  apply moves_modify. intros s [[[H1 H2 H3 H4 H5 H6 H7] H8] [H9 H10]]. cbn in *. split; [|done]. split; cbn; try done.
  by rewrite H9.
Qed.

Lemma opened_tok v : opened v -> tok base (n + 1) v.
Proof. by intros [[] _]. Qed.

Lemma m_MCPS_DATA_request a b c d e f p o :
  moves arrived_idle (tok base (n + 1)) (MCPS_DATA_request a b c d e f p o).
Proof.
  unfold MCPS_DATA_request. apply moves_quiet_bind; [quiet|intros _]. apply moves_bind with (1 := m_open); intros _.
  apply moves_quiet_bind; [intros; apply q_upd_task; by intros ?? [= <-]|intros _].
  do 4 (apply moves_quiet_bind; [quiet|intros ?]). apply moves_quiet_bind; [quiet|intros s]. destruct o.
  - do 2 (apply moves_quiet_bind; [quiet|intros _]). apply moves_bind with (1 := m_fill_data _); intros _.
    apply quiet_moves; [quiet|apply active_tok].
  - apply quiet_moves; [quiet|apply opened_tok].
  - do 2 (apply moves_quiet_bind; [quiet|intros _]). apply moves_bind with (1 := m_fill_gts _); intros _.
    apply moves_quiet_bind; [quiet|intros _]. apply moves_when; [|apply active_tok].
    do 2 (apply moves_quiet_bind; [quiet|intros ?]). apply moves_when; [apply m_FSM|apply active_tok].
  - by intros s' Hs.
Qed.
End upper.

(** ** The module among the hosts *)

Definition wmoves {A} (I J : view -> Prop) (m : M World A) : Prop :=
  forall w, I (view_of (me w)) -> wpe (fun _ => True) m (fun _ w' => J (view_of (me w'))) w.

Lemma w_own {A} I J (m : M Mac A) : moves I J m -> wmoves I J (own m).
Proof. intros Hm w Hw. unfold own. apply wpe_zoom. by apply Hm. Qed.
Lemma w_bind {A B} I J K (m : M World A) (k : A -> M World B) :
  wmoves I J m -> (forall a, wmoves J K (k a)) -> wmoves I K (m ≫= k).
Proof. intros Hm Hk w Hw. apply wpe_bind. eapply wpe_mono; [by apply Hm|]. intros a w'. apply Hk. Qed.
Lemma w_same {A} I (m : M World A) :
  (forall w, wpe (fun _ => True) m (fun _ w' => me w' = me w) w) -> wmoves I I m.
Proof. intros Hm w Hw. eapply wpe_mono; [apply Hm|]. by intros a w' ->. Qed.
Lemma w_when I b (m : M World unit) : wmoves I I m -> wmoves I I (when b m).
Proof. intros Hm w Hw. destruct b; [by apply Hm|done]. Qed.
(** Another module is called: this one changes only if it is its own. *)
Lemma w_remote {A} I name (m : M Mac A) : Quiet m -> wmoves I I (remote name m).
Proof.
  intros Hm w Hw. unfold remote, wpe. destruct (String.eqb name (self_name w)).
  - exact (w_own I I m (quiet_moves I I m Hm (fun _ Hv => Hv)) w Hw).
  - destruct (others w !! name) as [[s|]|]; [|done..]. by destruct (m s) as [[a s']|].
Qed.

(** Quiet bodies over the hosts. *)
Ltac w_quiet :=
  repeat first
  [ apply w_own, quiet_moves; [solve [quiet]|intros ?; by auto]
  | apply w_remote; solve [quiet]
  | match goal with |- wmoves ?I ?I _ => apply (w_bind I I I); [|intros ?] end
  | apply w_when
  | progress cbv zeta
  | match goal with
    | |- wmoves _ _ (if ?b then _ else _) => destruct b
    | |- wmoves _ _ (match ?x with _ => _ end) => destruct x
    end
  | apply w_same; intros ?; done ].

Lemma w_requestGts I : wmoves I I requestGts.
Proof. unfold requestGts. w_quiet. Qed.
Lemma w_associate I f : wmoves I I (associate f).
Proof.
  unfold associate. do 4 (apply (w_bind I I I); [w_quiet|intros ?]). apply (w_bind I I I); [w_quiet|intros ?].
  apply w_when, w_requestGts.
Qed.
Lemma w_device_address I name : wmoves I I (device_address name).
Proof. unfold device_address. w_quiet. Qed.

Section messages.
Context (base n : Z).
#[local] Abbreviation T := (tok base n).

Lemma w_handleBeacon p : wmoves T T (handleBeacon p).
Proof.
  unfold handleBeacon. apply (w_bind T T T); [w_quiet|intros f]. destruct (cls f); try (by intros w Hw).
  apply (w_bind T T T); [w_quiet|intros _]. apply (w_bind T T T); [w_quiet|intros s].
  apply (w_bind T T T); [case_match; [apply w_associate|w_quiet]|intros _].
  apply w_own. apply moves_bind with (1 := m_dispatch _ _ _ _); intros _. apply quiet_moves; [quiet|done].
Qed.
Lemma w_handleLowerMsg f : wmoves T T (handleLowerMsg f).
Proof.
  unfold handleLowerMsg. apply (w_bind T T T); [w_quiet|intros [p|]]; [|w_quiet].
  destruct (frmType (frmCtrl f)); [apply w_handleBeacon|w_quiet|apply w_own, m_handleAck|w_quiet|by intros w Hw].
Qed.

(** A packet from above is dropped, or its request is opened. *)
Lemma w_handleUpperMsg p c : wmoves T (tok base (n + 1)) (handleUpperMsg p c).
Proof.
  unfold handleUpperMsg. apply w_bind with (1 := w_own _ _ _ (m_arrive base n)); intros _.
  pose proof (m_drop_upper base n) as Hdrop.
  assert (Hidle : moves (arrived_idle base n) (tok base (n + 1)) drop_upper) by (apply (moves_pre _ (arrived base n)); [by intros v []|done]).
  intros w Hw. apply wpe_bind. unfold own at 1. apply wpe_zoom. mrun. cbn.
  destruct (mcps_data_request (taskP (me w))) eqn:Eb; [by apply (w_own _ _ _ Hdrop)|].
  assert (Hi : arrived_idle base n (view_of (me w))) by done. revert w Hw Eb Hi.
  enough (Hg : wmoves (arrived_idle base n) (tok base (n + 1))
    (if aMaxMACFrameSize <? pktByteLength p then own (MCPS_DATA_confirm mac_INVALID_PARAMETER;; drop_upper)
     else match c with
          | None => fail (Thrown "check_and_cast: cannot cast NULL")
          | Some control_info =>
              s ← own self;
              dest ← (if toParent_ control_info then own (parent_address s) else device_address (destName control_info));
              match dest with
              | None => own drop_upper
              | Some destAddr => own (s ← self;
                  MCPS_DATA_request defFrmCtrl_AddrMode16 (macPANId (mpib s)) (macShortAddress (mpib s))
                   defFrmCtrl_AddrMode16 (macPANId (mpib s)) destAddr p (TxOption_of_int (dataTransMode (par s))))
              end
          end)) by (intros w _ _ Hi; by apply Hg).
  destruct (_ <? _); [apply w_own, moves_quiet_bind; [quiet|done]|]. destruct c as [ci|]; [|by intros w Hw].
  apply (w_bind _ (arrived_idle base n)); [w_quiet|intros s].
  apply (w_bind _ (arrived_idle base n)); [case_match; [w_quiet|apply w_device_address]|].
  intros [a|]; apply w_own; [|done]. apply moves_quiet_bind; [quiet|intros s']. apply m_MCPS_DATA_request.
Qed.

(** The packets taken by handling a message. *)
Definition taken_by (m : message) : Z := match m with Upper _ _ => 1 | _ => 0 end.

Lemma w_handleMessage m : wmoves T (tok base (n + taken_by m)) (handleMessage m).
Proof.
  unfold handleMessage. destruct m; cbn [taken_by]; rewrite ?Z.add_0_r; cbv zeta.
  - case_match; [by intros w Hw|apply w_own, m_primitive].
  - case_match; [case_match; by intros w Hw|apply w_handleLowerMsg].
  - case_match; [case_match; by intros w Hw|by intros w Hw].
  - apply w_own, m_handleSelfMsg.
  - apply w_handleUpperMsg.
Qed.
End messages.

(** ** Runs *)

Lemma q_initialize_late stage host nd : stage <> 0 -> Quiet (initialize stage host nd).
Proof. intros Hs. unfold initialize. rewrite (proj2 (Z.eqb_neq _ _) Hs). quiet. Qed.
Lemma q_receiveChangeNotification b d : Quiet (receiveChangeNotification b d).
Proof. quiet. Qed.

(** A quiet step of a run. *)
Lemma quiet_run {A} (m : M Mac A) s a s' : Quiet m -> m s = Ok (a, s') -> view_of s' = view_of s.
Proof. intros Hm Hrun. exact (keeps_run _ _ _ _ _ (Hm (view_of s)) eq_refl Hrun). Qed.

Lemma arrive_view t m s : view_of (arrive t m s) = view_of s.
Proof. by destruct m. Qed.

Lemma handleMessage_tok base n t m w w' :
  tok base n (view_of (me w)) -> handleMessage m (w<| me ::= arrive t m |>) = Ok (tt, w') ->
  tok base (n + taken_by m) (view_of (me w')).
Proof.
  intros Hw Hrun. refine (wpe_run _ _ _ _ _ _ (w_handleMessage base n m _ _) Hrun). msimp. by rewrite arrive_view.
Qed.

Lemma mac_step_tok base n w w' :
  mac_step w w' -> tok base n (view_of (me w)) -> exists n', tok base n' (view_of (me w')).
Proof.
  intros Hstep Hw. destruct Hstep as [stage host nd s' Hst Hrun|b d s' Hrun|t m w' Ht Hrun|a c r s' Hrun|a l b r s' Hrun|o];
    msimp; [exists n..|exists (n + taken_by m)|exists n|exists n|by exists n].
  - by rewrite (quiet_run _ _ _ _ (q_initialize_late _ _ _ Hst) Hrun).
  - by rewrite (quiet_run _ _ _ _ (q_receiveChangeNotification _ _) Hrun).
  - by eapply handleMessage_tok.
  - by rewrite (quiet_run _ _ _ _ (q_associate_request_cmd _ _) Hrun).
  - by rewrite (quiet_run _ _ _ _ (q_gts_request_cmd _ _ _) Hrun).
Qed.

Lemma mac_steps_tok base n w w' :
  rtc mac_step w w' -> tok base n (view_of (me w)) -> exists n', tok base n' (view_of (me w')).
Proof.
  intros Hsteps. revert n. induction Hsteps as [w|w w1 w2 Hstep _ IH]; intros n Hw; [by exists n|].
  destruct (mac_step_tok _ _ _ _ Hstep Hw) as [n' Hn]. by apply (IH n').
Qed.

(** A module with a queue asks it for one packet when it starts. *)
Lemma initialize_tok addr g host nd s :
  ned_queue nd = Some true -> initialize 0 host nd (srwsn802154Mac_ctor addr g).1 = Ok (tt, s) ->
  tok 1 0 (view_of s) /\ out s = [QueueRequest].
Proof.
  change (initialize 0 host nd) with (initialize_stage0 host nd). intros Hq Hrun.
  refine (wpe_run (fun _ => True) _ (fun _ s => tok 1 0 (view_of s) /\ out s = [QueueRequest]) _ _ _ _ Hrun).
  unfold initialize_stage0, initializeQueueModule, intrand, srwsn802154Mac_ctor. rewrite Hq. mrun.
  destruct (check_params _ _); [|done]. mrun. unfold initial_members. split; [|done]. by split.
Qed.

(** C16: In every state reachable after the initialisation of a MAC module with a queue,
    whatever its memory held before: it has asked the queue for one packet more than it
    has done with (dropped, sent, or given up), it has done with every packet taken but
    the one of the pending data request, a frame waits for transmission (in the
    contention period or in a GTS) only while that request is pending, and only one. *)
Theorem one_packet_at_a_time addr g host nd w w' :
  ned_queue nd = Some true ->
  initialize 0 host nd (srwsn802154Mac_ctor addr g).1 = Ok (tt, me w) -> rtc mac_step w w' ->
  let s := me w' in
  requested s = 1 + done_with s /\ numUpperPkt (stats s) = done_with s + Z.b2z (busy s) /\
  (is_set (txData (buf s)) = true \/ is_set (txGTS (buf s)) = true -> busy s = true) /\
  is_set (txData (buf s)) && is_set (txGTS (buf s)) = false.
Proof.
  intros Hq Hinit Hsteps. destruct (initialize_tok _ _ _ _ _ Hq Hinit) as [H0 _].
  destruct (mac_steps_tok _ _ _ _ Hsteps H0) as [n [H1 H2 H3 H4 H5 H6 H7]]. cbn in *.
  repeat split; [done|lia| |done]. intros [?|?]; auto.
Qed.
End quiet.

(** ** A device with a queue *)

Definition ned_queued : Ned := mkNed false 6 4 1 "coor" false 20 true (Some true).
Definition queued : World := mkWorld "dev" (after (initialize 0 "dev" ned_queued) (srwsn802154Mac_ctor 1 blank).1) ∅.
Definition queued_tuned : World := queued<| me ::= after (receiveChangeNotification true (Some (0, 11))) |>.
(** A packet for the coordinator arrives before the device is associated. *)
Definition early_packet : message := Upper (mkPacket 7 10) (Some (mkNetCtrl true "")).
Definition queued_dropped : World :=
  after (handleMessage early_packet) (queued_tuned<| me ::= arrive 0 early_packet |>).

Lemma one_packet_at_a_time_witness :
  requested (me queued_dropped) = 1 + done_with (me queued_dropped)
  /\ numUpperPkt (stats (me queued_dropped)) = done_with (me queued_dropped) + Z.b2z (busy (me queued_dropped))
  /\ numUpperPkt (stats (me queued_dropped)) = 1.
Proof.
  destruct (one_packet_at_a_time 1 blank "dev" ned_queued queued queued_dropped) as (H1 & H2 & _);
    [reflexivity|apply after_run; vm_compute; reflexivity| |].
  - eapply rtc_l; [apply (step_notification queued true (Some (0, 11))); apply after_run; vm_compute; reflexivity|].
    eapply rtc_l; [|apply rtc_refl].
    apply (step_message queued_tuned 0 early_packet); [vm_compute; congruence|apply after_run; vm_compute; reflexivity].
  - split; [exact H1|]. split; [exact H2|]. vm_compute. reflexivity.
Defined.
