(* ===== verification/Queue.v ===== *)
(** * The interface queue: base/PassiveQueueBase.cc, networklayer/queue/{REDQueue,DropTailQueue}.cc

    The module [ifq] of srwsn802154Nic.ned stands above the MAC.  The base class
    matches packets with requests; where it keeps packets is left to virtual
    functions of its subclasses, an interface here ([PassiveQueue]), with the two
    first-in first-out subclasses as instances.  omnetpp.ini selects [REDQueue].

    The queue does not look into packets: their type is a parameter [P].
    The averages of [REDQueue] are rational numbers; the rounding of [double] is
    not modelled.  [pow] and the random numbers are parameters. *)

From Stdlib Require Import QArith.
From S2P Require Import Prelude.

Open Scope string_scope.
Open Scope list_scope.
Open Scope Z_scope.

(** ** Packets and requests: [PassiveQueueBase] *)

(** What a subclass implements: [enqueue] says whether a packet was dropped,
    [dequeue] gives no packet ([NULL]) when there is none.  Both are called at a
    simulation time. *)
Class PassiveQueue (P Q : Type) := {
  enqueue : Z -> P -> Q -> bool * Q;
  dequeue : Z -> Q -> option P * Q;
}.

(** The contract of a bounded first-in first-out queue: a packet is dropped or goes
    behind the others, and the first one leaves. *)
Class Fifo (P Q : Type) `{PassiveQueue P Q} (contents : Q -> list P) : Prop := {
  enqueue_fifo t p q :
    contents (enqueue t p q).2 = if (enqueue t p q).1 then contents q else contents q ++ [p];
  dequeue_fifo t q :
    match contents q with
    | [] => (dequeue t q).1 = None /\ contents (dequeue t q).2 = []
    | p :: l => (dequeue t q).1 = Some p /\ contents (dequeue t q).2 = l
    end;
}.

(** The members of the base class, the part of the subclass, and what went out of
    the gate. *)
#[projections(primitive)]
Record PassiveQueueBase (P Q : Type) := mkPassiveQueueBase {
  packetRequested : Z;
  numQueueReceived : Z;
  numQueueDropped : Z;
  subclass : Q;
  sent : list P;
}.
Arguments mkPassiveQueueBase {P Q}.
Arguments packetRequested {P Q}.
Arguments numQueueReceived {P Q}.
Arguments numQueueDropped {P Q}.
Arguments subclass {P Q}.
Arguments sent {P Q}.
#[export] Instance eta_PassiveQueueBase {P Q} : Eta (PassiveQueueBase P Q) := fun b =>
  mkPassiveQueueBase (packetRequested b) (numQueueReceived b) (numQueueDropped b) (subclass b) (sent b).

Ltac qsimp := cbn [set_ fst snd packetRequested numQueueReceived numQueueDropped subclass sent] in *.

Section base.
Context {P Q : Type} `{PassiveQueue P Q}.

Definition initialize (q : Q) : PassiveQueueBase P Q := mkPassiveQueueBase 0 0 0 q [].

(** [send(msg, outGate)], of both subclasses. *)
Definition sendOut (p : P) (b : PassiveQueueBase P Q) : PassiveQueueBase P Q := b<| sent ::= fun l => l ++ [p] |>.

Definition handleMessage (t : Z) (p : P) (b : PassiveQueueBase P Q) : PassiveQueueBase P Q :=
  let b := b<| numQueueReceived ::= Z.succ |> in
  if 0 <? packetRequested b then sendOut p (b<| packetRequested ::= Z.pred |>)
  else
    let '(dropped, q) := enqueue t p (subclass b) in
    let b := b<| subclass := q |> in
    if dropped then b<| numQueueDropped ::= Z.succ |> else b.

Definition requestPacket (t : Z) (b : PassiveQueueBase P Q) : PassiveQueueBase P Q :=
  let '(msg, q) := dequeue t (subclass b) in
  let b := b<| subclass := q |> in
  match msg with
  | None => b<| packetRequested ::= Z.succ |>
  | Some p => sendOut p b
  end.

(** The scalars recorded. *)
Definition finish (b : PassiveQueueBase P Q) : list (string * Z) :=
  [("packets received by queue", numQueueReceived b); ("packets dropped by queue", numQueueDropped b)].
End base.

(** ** [DropTailQueue] *)

#[projections(primitive)]
Record DropTailQueue (P : Type) := mkDropTailQueue { frameCapacity : Z; dt_queue : list P }.
Arguments mkDropTailQueue {P}.
Arguments frameCapacity {P}.
Arguments dt_queue {P}.
#[export] Instance eta_DropTailQueue {P} : Eta (DropTailQueue P) := fun d => mkDropTailQueue (frameCapacity d) (dt_queue d).

Section droptail.
Context {P : Type}.

Definition DropTail_initialize (capacity : Z) : PassiveQueueBase P (DropTailQueue P) :=
  initialize (mkDropTailQueue capacity []).

Definition DropTail_enqueue (t : Z) (p : P) (d : DropTailQueue P) : bool * DropTailQueue P :=
  if negb (frameCapacity d =? 0) && (frameCapacity d <=? Z.of_nat (length (dt_queue d)))
  then (true, d)
  else (false, d<| dt_queue ::= fun l => l ++ [p] |>).

Definition DropTail_dequeue (t : Z) (d : DropTailQueue P) : option P * DropTailQueue P :=
  match dt_queue d with
  | [] => (None, d)
  | p :: l => (Some p, d<| dt_queue := l |>)
  end.

#[export] Instance DropTail_passive : PassiveQueue P (DropTailQueue P) :=
  {| enqueue := DropTail_enqueue; dequeue := DropTail_dequeue |}.

#[export] Instance DropTail_fifo : Fifo P (DropTailQueue P) dt_queue.
Proof.
  split; intros t.
  - intros p d. cbn. unfold DropTail_enqueue. by case_match.
  - intros [c [|p l]]; done.
Qed.
End droptail.

(** ** [REDQueue] *)

(** What it takes from outside of the sources: [pow] of the mathematical library and
    the generator of random numbers. *)
Class RedEnv := {
  pow : Q -> Q -> Q;
  dblrand : nat -> Q;
}.

(** The configuration and the state. *)
#[projections(primitive)]
Record REDQueue (P : Type) := mkREDQueue {
  wq : Q;
  minth : Q;
  maxth : Q;
  maxp : Q;
  pkrate : Q;
  red_queue : list P;
  avg : Q;
  q_time : Z;
  count : Z;
  numEarlyDrops : Z;
  red_draws : nat;
}.
Arguments mkREDQueue {P}.
Arguments wq {P}.
Arguments minth {P}.
Arguments maxth {P}.
Arguments maxp {P}.
Arguments pkrate {P}.
Arguments red_queue {P}.
Arguments avg {P}.
Arguments q_time {P}.
Arguments count {P}.
Arguments numEarlyDrops {P}.
Arguments red_draws {P}.
#[export] Instance eta_REDQueue {P} : Eta (REDQueue P) := fun r => mkREDQueue (wq r) (minth r) (maxth r)
  (maxp r) (pkrate r) (red_queue r) (avg r) (q_time r) (count r) (numEarlyDrops r) (red_draws r).

Ltac rsimp := cbn [set_ fst snd wq minth maxth maxp pkrate red_queue avg q_time count numEarlyDrops red_draws] in *.

(** [SIMTIME_DBL(t)]: simulation time is a number of picoseconds. *)
Definition simtime_dbl (t : Z) : Q := Qred (t # 1000000000000).

(** [queue.length()], converted to [double]. *)
Definition qlen {A} (l : list A) : Q := inject_Z (Z.of_nat (length l)).

Definition Qlt_bool (x y : Q) : bool := negb (Qle_bool y x).

(** [u < pb / (1 - count * pb)].  Where the divisor is zero the quotient is an
    infinity with the sign of [pb]; [pb] is not zero there. *)
Definition below_pa (u pb : Q) (count : Z) : bool :=
  let d := (1 - inject_Z count * pb)%Q in
  if Qeq_bool d 0 then Qlt_bool 0 pb else Qlt_bool u (pb / d).

Section red.
Context `{RedEnv} {P : Type}.

Definition RED_initialize (wq minth maxth maxp pkrate : Q) : PassiveQueueBase P (REDQueue P) :=
  initialize (mkREDQueue wq minth maxth maxp pkrate [] 0 0 (-1) 0 O).

(** The average queue size when a packet arrives. *)
Definition RED_average (t : Z) (r : REDQueue P) : Q :=
  match red_queue r with
  | _ :: _ => (1 - wq r) * avg r + wq r * qlen (red_queue r)
  | [] => pow (1 - wq r) (simtime_dbl (t - q_time r) * pkrate r) * avg r
  end.

Definition RED_pb (r : REDQueue P) : Q := maxp r * (avg r - minth r) / (maxth r - minth r).

(** Whether the packet is marked for dropping. *)
Definition RED_mark (r : REDQueue P) : bool * REDQueue P :=
  if Qle_bool (minth r) (avg r) && Qlt_bool (avg r) (maxth r) then
    let r := r<| count ::= Z.succ |> in
    let u := dblrand (red_draws r) in
    let r := r<| red_draws ::= S |> in
    if below_pa u (RED_pb r) (count r)
    then (true, r<| count := 0 |><| numEarlyDrops ::= Z.succ |>)
    else (false, r)
  else if Qle_bool (maxth r) (avg r) then (true, r<| count := 0 |>)
  else (false, r<| count := -1 |>).

Definition RED_enqueue (t : Z) (p : P) (r : REDQueue P) : bool * REDQueue P :=
  let r := r<| avg := RED_average t r |> in
  let '(mark, r) := RED_mark r in
  if mark || Qle_bool (maxth r) (qlen (red_queue r)) then (true, r)
  else (false, r<| red_queue ::= fun l => l ++ [p] |>).

Definition RED_dequeue (t : Z) (r : REDQueue P) : option P * REDQueue P :=
  match red_queue r with
  | [] => (None, r)
  | p :: l =>
      let r := r<| red_queue := l |> in
      (Some p, match l with [] => r<| q_time := t |> | _ => r end)
  end.

Definition RED_finish (b : PassiveQueueBase P (REDQueue P)) : list (string * Z) :=
  finish b ++ [("packets dropped early by RED", numEarlyDrops (subclass b))].

#[export] Instance RED_passive : PassiveQueue P (REDQueue P) :=
  {| enqueue := RED_enqueue; dequeue := RED_dequeue |}.

Lemma RED_mark_queue r : red_queue (RED_mark r).2 = red_queue r.
Proof. unfold RED_mark. repeat case_match; done. Qed.

#[export] Instance RED_fifo : Fifo P (REDQueue P) red_queue.
Proof.
  split; intros t.
  - intros p r. cbn. unfold RED_enqueue.
    pose proof (RED_mark_queue (r<| avg := RED_average t r |>)) as Hm.
    destruct (RED_mark _) as [mark r']. rsimp. case_match; [exact Hm|].
    change (red_queue r' ++ [p] = red_queue r ++ [p]). by rewrite Hm.
  - intros [w n x m k [|p [|]] a q c e d]; done.
Qed.
End red.
