(* ===== verification/QueueProps.v ===== *)
(** * Properties of the interface queue

    The exchange of packets and requests, for every first-in first-out subclass;
    the bounds of [REDQueue]. *)

From Stdlib Require Import QArith Lqa.
From S2P Require Import Prelude Queue.

Open Scope string_scope.
Open Scope list_scope.
Open Scope Z_scope.

(** ** Runs *)

(** The two ways into the module, each at its time. *)
Inductive qop (P : Type) := Arrive (t : Z) (p : P) | Request (t : Z).
Arguments Arrive {P}.
Arguments Request {P}.

Definition op_time {P} (o : qop P) : Z := match o with Arrive t _ => t | Request t => t end.
Definition arrivals {P} : list (qop P) -> list P :=
  omap (fun o => match o with Arrive _ p => Some p | Request _ => None end).
Definition requests {P} (l : list (qop P)) : nat :=
  length (omap (fun o => match o with Request t => Some t | Arrive _ _ => None end) l).

Section exchange.
Context {P Q : Type} `{HF : Fifo P Q contents}.
#[local] Set Default Proof Using "All".

Definition queue_op (o : qop P) (b : PassiveQueueBase P Q) : PassiveQueueBase P Q :=
  match o with Arrive t p => handleMessage t p b | Request t => requestPacket t b end.
Fixpoint queue_run (l : list (qop P)) (b : PassiveQueueBase P Q) : PassiveQueueBase P Q :=
  match l with
  | [] => b
  | o :: l' => queue_run l' (queue_op o b)
  end.

Definition held (b : PassiveQueueBase P Q) : list P := contents (subclass b).

(** Requests wait only while no packet does. *)
Definition queue_inv (b : PassiveQueueBase P Q) : Prop :=
  0 <= packetRequested b /\ (packetRequested b = 0 \/ held b = []).

(** What one request does. *)
Lemma requestPacket_spec t b :
  match held b with
  | [] => exists q, requestPacket t b = b<| subclass := q |><| packetRequested ::= Z.succ |> /\ contents q = []
  | p :: l => exists q, requestPacket t b = sendOut p (b<| subclass := q |>) /\ contents q = l
  end.
Proof.
  pose proof (dequeue_fifo t (subclass b)) as Hd. unfold requestPacket, held.
  destruct (contents (subclass b)) as [|p l]; destruct (dequeue t (subclass b)) as [o q]; qsimp;
    destruct Hd as [-> Hc]; by exists q.
Qed.

(** What one arrival does: the packet meets a waiting request, or it is kept, or it is
    dropped. *)
Lemma handleMessage_spec t p b :
  queue_inv b ->
  let b' := handleMessage t p b in
  numQueueReceived b' = Z.succ (numQueueReceived b) /\
  ((held b = [] /\ held b' = [] /\ 0 < packetRequested b /\ packetRequested b' = Z.pred (packetRequested b)
    /\ sent b' = sent b ++ [p] /\ numQueueDropped b' = numQueueDropped b)
   \/ (packetRequested b = 0 /\ packetRequested b' = 0 /\ sent b' = sent b
       /\ ((held b' = held b ++ [p] /\ numQueueDropped b' = numQueueDropped b)
           \/ (held b' = held b /\ numQueueDropped b' = Z.succ (numQueueDropped b))))).
Proof.
  intros [H0 Hr]. unfold handleMessage, held. qsimp. destruct (Z.ltb_spec 0 (packetRequested b)) as [Hp|Hp].
  - split; [done|]. left. destruct Hr as [Hr|Hr]; [lia|]. done.
  - pose proof (enqueue_fifo t p (subclass b)) as He. destruct (enqueue t p (subclass b)) as [d q]. qsimp.
    split; [by destruct d|]. right. destruct d; qsimp; (split; [lia|]); (split; [lia|]); auto.
Qed.

Lemma queue_op_inv o b : queue_inv b -> queue_inv (queue_op o b).
Proof.
  intros Hb. destruct o as [t p|t]; cbn.
  - destruct (handleMessage_spec t p b Hb) as [_ [(H1&H2&H3&H4&_)|(H1&H2&_)]]; destruct Hb; split; try lia; auto.
  - pose proof (requestPacket_spec t b) as Hs. destruct Hb as [H0 Hr].
    destruct (held b) as [|p l]; destruct Hs as [q [-> He]]; (split; [unfold sendOut; qsimp; lia|]); [by right|].
    left. unfold sendOut. qsimp. by destruct Hr.
Qed.

(** The books of a run: [acc] are the packets accepted so far, [arr] all that arrived,
    [req] the number of requests. *)
Record books (acc arr : list P) (req : nat) (b : PassiveQueueBase P Q) : Prop := {
  bk_inv : queue_inv b;
  bk_order : sent b ++ held b = acc;
  bk_sub : acc `sublist_of` arr;
  bk_received : numQueueReceived b = Z.of_nat (length arr);
  bk_dropped : Z.of_nat (length arr) = Z.of_nat (length acc) + numQueueDropped b;
  bk_requests : Z.of_nat (length (sent b)) + packetRequested b = Z.of_nat req;
}.

Lemma books_request acc arr req t b :
  books acc arr req b -> books acc arr (S req) (requestPacket t b).
Proof.
  intros [Hi Ho Hs Hr Hd Hq]. pose proof (queue_op_inv (Request t) b Hi) as Hi'. cbn in Hi'.
  pose proof (requestPacket_spec t b) as Hp. unfold held in *.
  destruct (contents (subclass b)) as [|p l]; destruct Hp as [q [Hb Hl]]; rewrite Hb in *;
    split; auto; unfold held, sendOut in *; qsimp; rewrite ?Hl; try done; [lia|by rewrite <- app_assoc|].
  rewrite length_app. cbn. lia.
Qed.

Lemma books_arrive acc arr req t p b :
  books acc arr req b -> exists acc', books acc' (arr ++ [p]) req (handleMessage t p b).
Proof.
  intros [Hi Ho Hs Hr Hd Hq]. pose proof (queue_op_inv (Arrive t p) b Hi) as Hi'. cbn in Hi'.
  destruct (handleMessage_spec t p b Hi) as [Hn [(H1&H2&H3&H4&H5&H6)|(H1&H2&H5&[[H3 H4]|[H3 H4]])]].
  - exists (acc ++ [p]). split; auto; rewrite ?H2, ?H4, ?H5, ?H6, ?Hn, ?length_app; cbn.
    + rewrite H1, app_nil_r in Ho. by rewrite app_nil_r, Ho.
    + by apply sublist_app.
    + lia.
    + lia.
    + lia.
  - exists (acc ++ [p]). split; auto; rewrite ?H2, ?H3, ?H4, ?H5, ?Hn, ?length_app; cbn; [|by apply sublist_app|lia..].
    by rewrite app_assoc, Ho.
  - exists acc. split; auto; rewrite ?H2, ?H3, ?H4, ?H5, ?Hn, ?length_app; cbn; try lia; [done|by apply sublist_inserts_r].
Qed.

Lemma books_run l : forall acc arr req b,
  books acc arr req b -> exists acc', books acc' (arr ++ arrivals l) (req + requests l) (queue_run l b).
Proof.
  induction l as [|o l IH]; intros acc arr req b Hb; cbn [queue_run].
  - exists acc. cbn. by rewrite app_nil_r, Nat.add_0_r.
  - destruct o as [t p|t]; cbn [queue_op].
    + destruct (books_arrive _ _ _ t p _ Hb) as [acc1 H1]. destruct (IH _ _ _ _ H1) as [acc' H2].
      exists acc'. by rewrite <- app_assoc in H2.
    + destruct (IH _ _ _ _ (books_request _ _ _ t _ Hb)) as [acc' H2].
      exists acc'. unfold requests in *. cbn in *. by rewrite Nat.add_succ_r.
Qed.

(** Over every run of arrivals and requests from an empty queue, the packets that
    went out, followed by those still held, are the accepted packets in the order of
    their arrival (none lost, duplicated or overtaken); every arrival is either
    accepted or counted as dropped; every request was answered by one packet or is
    still counted in packetRequested; and requests wait only while no packet is held. *)
Theorem queue_exchange (q0 : Q) (l : list (qop P)) :
  contents q0 = [] ->
  let b := queue_run l (initialize q0) in
  exists accepted,
    sent b ++ contents (subclass b) = accepted /\ accepted `sublist_of` arrivals l /\
    numQueueReceived b = Z.of_nat (length (arrivals l)) /\
    Z.of_nat (length (arrivals l)) = Z.of_nat (length accepted) + numQueueDropped b /\
    Z.of_nat (length (sent b)) + packetRequested b = Z.of_nat (requests l) /\
    0 <= packetRequested b /\ (packetRequested b = 0 \/ contents (subclass b) = []).
Proof.
  intros H0. destruct (books_run l [] [] 0 (initialize q0)) as [acc [[Hi Hr] Ho Hs Hn Hd Hq]].
  { split; try done. split; [done|by left]. }
  cbn. exists acc. done.
Qed.
End exchange.

(** ** The bounds of [REDQueue] *)

(** [pow] of a number between 0 and 1, with a positive exponent, stays there. *)
Class PowLaws `{RedEnv} : Prop :=
  pow_unit x m : (0 <= x <= 1)%Q -> (0 <= m)%Q -> (0 <= pow x m <= 1)%Q.

Section red.
Context `{HP : PowLaws} {P : Type}.
#[local] Set Default Proof Using "Type*".

(** Parameters in the ranges the NED file documents. *)
Record red_config (r : REDQueue P) : Prop := {
  rc_wq : (0 <= wq r <= 1)%Q;
  rc_minth : (0 <= minth r)%Q;
  rc_maxth : (minth r <= maxth r)%Q;
  rc_pkrate : (0 <= pkrate r)%Q;
}.

(** [t] is a time not before the last event. *)
Record red_inv (t : Z) (r : REDQueue P) : Prop := {
  ri_config : red_config r;
  ri_len : (qlen (red_queue r) < maxth r + 1)%Q;
  ri_avg : (0 <= avg r <= maxth r + 1)%Q;
  ri_count : -1 <= count r;
  ri_early : 0 <= numEarlyDrops r;
  ri_time : q_time r <= t;
}.

Lemma qlen_app {A} (l : list A) x : (qlen (l ++ [x]) == qlen l + 1)%Q.
Proof. unfold qlen. rewrite length_app, Nat2Z.inj_add, inject_Z_plus. reflexivity. Qed.
Lemma qlen_nonneg {A} (l : list A) : (0 <= qlen l)%Q.
Proof. unfold qlen. change 0%Q with (inject_Z 0). rewrite <- Zle_Qle. lia. Qed.

Lemma Qlt_bool_true x y : Qlt_bool x y = true <-> (x < y)%Q.
Proof.
  unfold Qlt_bool. rewrite negb_true_iff, <- not_true_iff_false, Qle_bool_iff. split; [apply Qnot_le_lt|].
  apply Qlt_not_le.
Qed.

(** The average stays between 0 and the greatest length. *)
Lemma RED_average_bounds t r : red_inv t r -> (0 <= RED_average t r <= maxth r + 1)%Q.
Proof.
  intros [[Hw Hm Hx Hk] Hl Ha Hc He Ht]. unfold RED_average. destruct (red_queue r) as [|p l] eqn:E.
  - assert (H0 : (0 <= simtime_dbl (t - q_time r) * pkrate r)%Q).
    { apply Qmult_le_0_compat; [|done]. unfold simtime_dbl. rewrite Qred_correct. unfold Qle. cbn. lia. }
    destruct (pow_unit (1 - wq r) _ ltac:(lra) H0) as [H1 H2]. nra.
  - pose proof (qlen_nonneg (p :: l)). nra.
Qed.

Lemma RED_mark_same (r : REDQueue P) : exists c n k, (RED_mark r).2 = r<| count := c |><| numEarlyDrops := n |><| red_draws := k |>
  /\ (-1 <= count r -> -1 <= c) /\ numEarlyDrops r <= n.
Proof.
  unfold RED_mark. repeat case_match; cbn;
    [exists 0, (Z.succ (numEarlyDrops r)), (S (red_draws r))|exists (Z.succ (count r)), (numEarlyDrops r), (S (red_draws r))
    |exists 0, (numEarlyDrops r), (red_draws r)|exists (-1), (numEarlyDrops r), (red_draws r)]; split; [done|lia|done|lia|done|lia|done|lia].
Qed.

Lemma red_inv_enqueue t p r : red_inv t r -> red_inv t (RED_enqueue t p r).2.
Proof.
  intros Hr. pose proof (RED_average_bounds t r Hr) as Ha. destruct Hr as [[Hw Hm Hx Hk] Hl _ Hc He Ht]. unfold RED_enqueue.
  destruct (RED_mark_same (r<| avg := RED_average t r |>)) as (c & n & k & Hs & H1 & H2).
  destruct (RED_mark _) as [mark r']. rsimp. subst r'. rsimp. specialize (H1 Hc).
  destruct (mark || Qle_bool (maxth r) (qlen (red_queue r))) eqn:E; split; rsimp; try done; try (by split); try lia.
  apply orb_false_iff in E as [_ E]. rewrite qlen_app. apply not_true_iff_false in E. rewrite Qle_bool_iff in E.
  apply Qnot_le_lt in E. lra.
Qed.

Lemma red_inv_dequeue t r : red_inv t r -> red_inv t (RED_dequeue t r).2.
Proof.
  intros [Hg Hl Ha Hc He Ht]. unfold RED_dequeue. destruct (red_queue r) as [|p l] eqn:E; [by split; rsimp; rewrite ?E|].
  assert (H1 : (qlen l < maxth r + 1)%Q).
  { unfold qlen in *. cbn [length] in Hl. rewrite Nat2Z.inj_succ, <- Z.add_1_r, inject_Z_plus in Hl. unfold inject_Z at 2 in Hl. lra. }
  destruct Hg. destruct l; split; rsimp; auto; try (by split); lia.
Qed.

Lemma red_inv_later t t' r : t <= t' -> red_inv t r -> red_inv t' r.
Proof. intros Ht []. split; auto. lia. Qed.

(** ** Runs *)

(** The events of a run come in the order of their times. *)
Fixpoint timely (t : Z) (l : list (qop P)) : Prop :=
  match l with
  | [] => True
  | o :: l' => t <= op_time o /\ timely (op_time o) l'
  end.

Lemma red_inv_op t o (b : PassiveQueueBase P (REDQueue P)) :
  t <= op_time o -> red_inv t (subclass b) -> red_inv (op_time o) (subclass (queue_op o b)).
Proof.
  intros Ht Hb. apply (red_inv_later _ _ _ Ht) in Hb. destruct o as [x p|x]; cbn [op_time queue_op] in *.
  - unfold handleMessage. qsimp. destruct (0 <? packetRequested b); [done|].
    pose proof (red_inv_enqueue x p _ Hb) as He. cbn in *. destruct (RED_enqueue x p (subclass b)) as [[] q]; done.
  - unfold requestPacket. pose proof (red_inv_dequeue x _ Hb) as Hd. cbn in *.
    destruct (RED_dequeue x (subclass b)) as [[] q]; done.
Qed.

Lemma red_inv_run l : forall t (b : PassiveQueueBase P (REDQueue P)),
  timely t l -> red_inv t (subclass b) -> exists t', red_inv t' (subclass (queue_run l b)).
Proof.
  induction l as [|o l IH]; intros t b Hl Hb; cbn [queue_run]; [by exists t|].
  destruct Hl as [Ht Hl]. eapply IH; [done|]. by eapply red_inv_op.
Qed.

(** C17: Over every run of a RED queue configured in the documented ranges the buffer
    never holds maxth + 1 packets or more, the average queue size stays between 0 and
    maxth + 1, and count never falls below -1. *)
Theorem RED_bounded (w lo hi mp rate : Q) (l : list (qop P)) :
  (0 <= w <= 1)%Q -> (0 <= lo <= hi)%Q -> (0 <= rate)%Q -> timely 0 l ->
  let r := subclass (queue_run l (RED_initialize w lo hi mp rate)) in
  (qlen (red_queue r) < maxth r + 1)%Q /\ (0 <= avg r <= maxth r + 1)%Q /\ -1 <= count r.
Proof.
  intros Hw Hl Hr Ht. destruct (red_inv_run l 0 (RED_initialize w lo hi mp rate) Ht) as [t' []]; [|done].
  unfold RED_initialize, initialize. qsimp. split; rsimp; [|change (qlen []) with 0%Q; lra|split; lra|lia..].
  split; cbn [minth maxth wq pkrate]; lra.
Qed.

(** ** Early drops *)

(** Between the thresholds, a packet that finds room is dropped exactly when the random
    number is below [pa]. *)
Lemma RED_enqueue_between t (p : P) (r : REDQueue P) :
  let r' := r<| avg := RED_average t r |><| count ::= Z.succ |> in
  (minth r <= avg r' < maxth r)%Q -> (qlen (red_queue r) < maxth r)%Q ->
  (RED_enqueue t p r).1 = below_pa (dblrand (red_draws r)) (RED_pb r') (count r').
Proof.
  intros r' [H1 H2] H3. unfold RED_enqueue, RED_mark. rsimp. change (avg r') with (RED_average t r) in *.
  rewrite (proj2 (Qle_bool_iff _ _) H1), (proj2 (Qlt_bool_true _ _) H2). cbn [andb].
  assert (H4 : Qle_bool (maxth r) (qlen (red_queue r)) = false).
  { apply not_true_iff_false. rewrite Qle_bool_iff. by apply Qlt_not_le. }
  match goal with |- context [below_pa ?a ?b ?c] => change (below_pa a b c) with (below_pa (dblrand (red_draws r)) (RED_pb r') (count r')) end.
  destruct (below_pa _ _ _); rsimp; [done|]. by rewrite H4.
Qed.

(** The probability is a certainty when [count] packets in a row were kept and the next
    would reach [1 / pb]. *)
Lemma below_pa_certain u pb c :
  (u < 1)%Q -> (0 < pb)%Q -> (inject_Z c * pb <= 1)%Q -> (1 <= inject_Z (c + 1) * pb)%Q -> below_pa u pb c = true.
Proof.
  intros Hu Hp Hc H1. unfold below_pa. rewrite inject_Z_plus in H1. change (inject_Z 1) with 1%Q in H1.
  destruct (Qeq_bool _ _) eqn:E; [by apply Qlt_bool_true|]. apply Qlt_bool_true.
  apply Qeq_bool_neq in E. apply Qlt_le_trans with (1 := Hu). apply Qle_shift_div_l; lra.
Qed.

(** Beyond that point [pa] is negative: no packet is dropped whatever the random number. *)
Lemma below_pa_overshoot u pb c :
  (0 <= u)%Q -> (0 < pb)%Q -> (1 < inject_Z c * pb)%Q -> below_pa u pb c = false.
Proof.
  intros Hu Hp Hc. unfold below_pa. destruct (Qeq_bool _ _) eqn:E.
  { apply Qeq_bool_iff in E. lra. }
  apply not_true_iff_false. rewrite Qlt_bool_true. intros H1.
  assert (Hd : (pb / (1 - inject_Z c * pb) <= 0)%Q); [|lra].
  assert (Hi : (/ (1 - inject_Z c * pb) < 0)%Q); [|unfold Qdiv; nra].
  assert (Hx : (0 < / (inject_Z c * pb - 1))%Q) by (apply Qinv_lt_0_compat; lra).
  assert (Ho : (/ (1 - inject_Z c * pb) == - / (inject_Z c * pb - 1))%Q) by (field; lra).
  rewrite Ho. lra.
Qed.

(** A packet that arrives between the thresholds when [count * pb] has passed 1 is kept. *)
Lemma RED_overshoot_kept t p (r : REDQueue P) :
  let r' := r<| avg := RED_average t r |><| count ::= Z.succ |> in
  (minth r <= avg r' < maxth r)%Q -> (qlen (red_queue r) < maxth r)%Q -> (0 <= dblrand (red_draws r))%Q ->
  (0 < RED_pb r')%Q -> (1 < inject_Z (count r') * RED_pb r')%Q -> (RED_enqueue t p r).1 = false.
Proof. intros r' Ha Hl Hu Hp Hc. rewrite RED_enqueue_between by done. by apply below_pa_overshoot. Qed.
End red.

(** ** A queue at work *)

Module QueueSample.
#[export] Instance sample_red : RedEnv := {| pow := fun _ _ => 1%Q; dblrand := fun _ => (99 # 100)%Q |}.
#[export] Instance sample_pow : PowLaws.
Proof. intros x m _ _. cbn. lra. Qed.

(** One packet per second, and a request before the first. *)
Definition arrive_all (n : Z) : list (qop Z) := (fun k => Arrive (10 ^ 12 * k) k) <$> seqZ 0 n.
Definition red : PassiveQueueBase Z (REDQueue Z) := RED_initialize 1 1 12 (1 # 2) 150.

(** From the seventh packet on [count * pb] is above 1: the random test no
    longer drops, and the queue fills up to [maxth]. *)
Example red_overshoots :
  let b := queue_run (arrive_all 13) red in
  length (red_queue (subclass b)) = 12%nat /\ numEarlyDrops (subclass b) = 0 /\ numQueueDropped b = 1.
Proof. vm_compute. done. Qed.

End QueueSample.
Import QueueSample.

Lemma queue_exchange_witness :
  let b := queue_run (Request 0 :: arrive_all 15) red in
  exists accepted,
    sent b ++ red_queue (subclass b) = accepted /\ accepted `sublist_of` arrivals (Request 0 :: arrive_all 15) /\
    numQueueReceived b = 15 /\ 15 = Z.of_nat (length accepted) + numQueueDropped b /\
    Z.of_nat (length (sent b)) + packetRequested b = 1 /\
    0 <= packetRequested b /\ (packetRequested b = 0 \/ red_queue (subclass b) = []).
Proof. exact (queue_exchange (subclass red) (Request 0 :: arrive_all 15) eq_refl). Defined.

Lemma RED_bounded_witness :
  let r := subclass (queue_run (arrive_all 20) red) in
  (qlen (red_queue r) < maxth r + 1)%Q /\ (0 <= avg r <= maxth r + 1)%Q /\ -1 <= count r.
Proof.
  apply (RED_bounded 1 1 12 (1 # 2) 150 (arrive_all 20)); [lra|lra|lra|].
  vm_compute. repeat split; discriminate.
Defined.
