(* ===== verification/PingNet.v ===== *)
(** * The network layer of the 802.15.4 hosts: srwsn/networklayer/srwsn802154Net.{h,cc}

    A test module above the interface queue: the first host starts by sending a packet to
    [host[1]]; whoever receives one sends one to [host[2]]. *)

From S2P Require Import Prelude MacConst MacTypes MacHandlers.

Open Scope string_scope.
Open Scope list_scope.
Open Scope Z_scope.

(** [Ieee802154AppPkt]: the fields [sendTo] sets. *)
Record AppPkt := mkAppPkt {
  app_name : string;
  bitLength : Z;
  sourceName : string;
  app_destName : string;
  creationTime : Z;
}.

(** A packet on the way down: its address and length, and its control information. *)
Definition item : Type := cPacket * option NetCtrl.

(** The members the code uses; the packets the module has created, each at its address; the
    time of its timer; the messages it was given and has not deleted. *)
#[projections(primitive)]
Record Net := mkNet {
  m_moduleName : string;
  net_isPANCoor : bool;
  numForward : Z;
  stop : Z;
  created : list AppPkt;
  ping_timer : option Z;
  undeleted : Z;
}.
#[export] Instance eta_Net : Eta Net := fun n => mkNet (m_moduleName n) (net_isPANCoor n) (numForward n) (stop n)
  (created n) (ping_timer n) (undeleted n).

Ltac nsimp := cbn [set_ fst snd m_moduleName net_isPANCoor numForward stop created ping_timer undeleted] in *.

(** The only stage is stage 0. *)
Definition net_initialize (now : Z) (host : string) (coor : bool) : Net :=
  let n := mkNet host coor 0 0 [] None 0 in
  if String.eqb "host[0]" host then n<| ping_timer := Some (now + 3 * second) |> else n.

Definition net_finish (n : Net) : list (string * Z) := [("num of pkts forwarded", numForward n)].

(** [while (stop < 10) stop++] *)
Fixpoint stop_loop (fuel : nat) (stop : Z) : Z :=
  match fuel with
  | O => stop
  | S fuel' => if stop <? 10 then stop_loop fuel' (stop + 1) else stop
  end.

Definition sendTo (now : Z) (dest : string) (n : Net) : item * Net :=
  let pkt := mkAppPkt "srwsn802154Net_MSG" (1 * 8) (m_moduleName n) dest now in
  ((mkPacket (Z.of_nat (length (created n))) (bitLength pkt / 8), Some (mkNetCtrl false (app_destName pkt))),
   n<| created ::= fun l => l ++ [pkt] |>).

(** [lower]: whether the message came from the MAC layer. *)
Definition net_handleMessage (now : Z) (lower : bool) (n : Net) : item * Net :=
  let n := n<| stop := stop_loop (Z.to_nat (10 - stop n)) (stop n) |><| undeleted ::= Z.succ |> in
  if lower then sendTo now "host[2]" n else sendTo now "host[1]" n.

(** The loop ends with [stop] at 10 or above. *)
Lemma stop_loop_max s : stop_loop (Z.to_nat (10 - s)) s = Z.max 10 s.
Proof.
  remember (Z.to_nat (10 - s)) as k eqn:Hk. revert s Hk. induction k as [|k IH]; intros s Hk; cbn [stop_loop]; [lia|].
  rewrite (proj2 (Z.ltb_lt s 10)) by lia. rewrite IH; lia.
Qed.

(** One packet is sent for every message, and the message is kept. *)
Lemma net_handleMessage_spec now lower n :
  let (p, n') := net_handleMessage now lower n in
  p = (mkPacket (Z.of_nat (length (created n))) 1, Some (mkNetCtrl false (if lower then "host[2]" else "host[1]"))) /\
  created n' = created n ++ [mkAppPkt "srwsn802154Net_MSG" 8 (m_moduleName n) (if lower then "host[2]" else "host[1]") now] /\
  undeleted n' = undeleted n + 1 /\ stop n' = Z.max 10 (stop n) /\ ping_timer n' = ping_timer n /\ m_moduleName n' = m_moduleName n.
Proof. unfold net_handleMessage. rewrite stop_loop_max. destruct lower; done. Qed.
