(* ===== verification/Node.v ===== *)
(** * A host: network layer, interface queue and MAC

    The wiring of srwsn802154Host.ned and srwsn802154Nic.ned.  A packet the network
    layer sends goes to the queue, a packet of the queue to the MAC, a packet the MAC
    passes up to the network layer; each link delivers in order.  A request of the MAC is
    a call of the queue ([requestPacket]) while the MAC handles a message; it touches
    nothing of the MAC, and is carried out when the handler is done.  Below the MAC
    anything may happen: primitives, frames and timers arrive in any order.

    The queue is any first-in first-out one ([Fifo]). *)

From S2P Require Import Prelude HList MacConst MacTypes MacUtil MacCsma MacTask MacHandlers MacGts MacSample MacProps MacInv MacToken Queue QueueProps PingNet.

Open Scope string_scope.
Open Scope list_scope.
Open Scope Z_scope.

(** [hosts] has the MAC of the host, and those of the others.  The last two members
    record what happened: the packets the queue was given, and the packets the MAC
    was given. *)
#[projections(primitive)]
Record Node (Q : Type) := mkNode {
  net : Net;
  ifq : PassiveQueueBase item Q;
  hosts : World;
  toQueue : list item;
  toMac : list item;
  toNet : list cPacket;
  queued_log : list item;
  handed_log : list item;
}.
Arguments mkNode {Q}.
Arguments net {Q}.
Arguments ifq {Q}.
Arguments hosts {Q}.
Arguments toQueue {Q}.
Arguments toMac {Q}.
Arguments toNet {Q}.
Arguments queued_log {Q}.
Arguments handed_log {Q}.
#[export] Instance eta_Node {Q} : Eta (Node Q) := fun n => mkNode (net n) (ifq n) (hosts n) (toQueue n) (toMac n)
  (toNet n) (queued_log n) (handed_log n).

Ltac dsimp := cbn [set_ fst snd net ifq hosts toQueue toMac toNet queued_log handed_log] in *.

Section node.
Context `{MacEnv} {Q : Type} `{PassiveQueue item Q}.

(** ** The links *)

(** The queue works; what it sends out is on its way to the MAC. *)
Definition on_queue (f : PassiveQueueBase item Q -> PassiveQueueBase item Q) (n : Node Q) : Node Q :=
  let q := f (ifq n) in
  n<| ifq := q |><| toMac ::= fun l => l ++ drop (length (sent (ifq n))) (sent q) |>.

(** What the MAC said: requests are calls of the queue, packets go up, and the rest goes
    to the PHY. *)
Definition absorb (t : Z) (e : mevent) (n : Node Q) : Node Q :=
  match e with
  | QueueRequest => on_queue (requestPacket t) n
  | ToUpper p => n<| toNet ::= fun l => l ++ [p] |>
  | _ => n
  end.
Fixpoint absorb_all (t : Z) (l : list mevent) (n : Node Q) : Node Q :=
  match l with
  | [] => n
  | e :: l' => absorb_all t l' (absorb t e n)
  end.

(** The MAC works. *)
Definition on_mac (t : Z) (m : M World unit) (n : Node Q) : outcome (Node Q) :=
  match m ((hosts n)<| me ::= fun s => s<| out := [] |> |>) with
  | Ok (_, w) => Ok (absorb_all t (out (me w)) (n<| hosts := w |>))
  | Fault f => Fault f
  end.

Definition mac_message (t : Z) (m : message) (n : Node Q) : outcome (Node Q) :=
  on_mac t (MacHandlers.handleMessage m) (n<| hosts ::= fun w => w<| me ::= arrive t m |> |>).

(** The network layer works. *)
Definition on_net (t : Z) (lower : bool) (n : Node Q) : Node Q :=
  let (p, x) := net_handleMessage t lower (net n) in
  n<| net := x |><| toQueue ::= fun l => l ++ [p] |>.

(** ** Start *)

(** The modules start in the order of the NED files: network layer, queue, MAC. *)
Definition node_initialize (host : string) (nd : Ned) (q : Q) (w : World) : outcome (Node Q) :=
  on_mac 0 (own (MacHandlers.initialize 0 host nd))
    (mkNode (net_initialize 0 host (ned_isPANCoor nd)) (Queue.initialize q) w [] [] [] [] []).

(** ** Events *)

(** Calls of the MAC other than messages: its later stages, notifications, the methods
    the MACs of other hosts call. *)
Inductive mac_call : M Mac unit -> Prop :=
  | call_initialize stage host nd : stage <> 0 -> mac_call (MacHandlers.initialize stage host nd)
  | call_notification b d : mac_call (receiveChangeNotification b d)
  | call_associate a c : mac_call (_ ← associate_request_cmd a c; mret tt)
  | call_gts_request a l b : mac_call (_ ← gts_request_cmd a l b; mret tt).

Inductive node_step (n : Node Q) : Node Q -> Prop :=
  | ns_ping t :
      ping_timer (net n) = Some t -> node_step n (on_net t false (n<| net ::= fun x => x<| ping_timer := None |> |>))
  | ns_net t p l :
      toNet n = p :: l -> node_step n (on_net t true (n<| toNet := l |>))
  | ns_queue t p l :
      toQueue n = p :: l ->
      node_step n (on_queue (Queue.handleMessage t p) (n<| toQueue := l |><| queued_log ::= fun x => x ++ [p] |>))
  | ns_upper t p c l n' :
      toMac n = (p, c) :: l ->
      mac_message t (Upper p c) (n<| toMac := l |><| handed_log ::= fun x => x ++ [(p, c)] |>) = Ok n' -> node_step n n'
  | ns_below t m n' :
      taken_by m = 0 -> mac_message t m n = Ok n' -> node_step n n'
  | ns_call t m n' :
      mac_call m -> on_mac t (own m) n = Ok n' -> node_step n n'
  | ns_others o : node_step n (n<| hosts ::= fun w => w<| others := o |> |>).
End node.
