(* ===== verification/NodeProps.v ===== *)
(** * Properties of a host

    The queue and the MAC exchange packets for requests: together with
    [one_packet_at_a_time] this shows that a packet reaches the MAC only when the MAC is
    free to take it, in the order the network layer sent it. *)

From Stdlib Require Import QArith.
From S2P Require Import Prelude HList MacConst MacTypes MacUtil MacCsma MacTask MacHandlers MacGts MacSample MacProps MacInv MacToken Queue QueueProps PingNet Node.

Open Scope string_scope.
Open Scope list_scope.
Open Scope Z_scope.

#[local] Opaque u8 u16 u32.

(** The packet the network layer created at address [i]. *)
Definition item_of (i : nat) (a : AppPkt) : item :=
  (mkPacket (Z.of_nat i) 1, Some (mkNetCtrl false (app_destName a))).

Section node.
Context `{MacEnv} {Q : Type} `{HF : Fifo item Q contents}.
#[local] Set Default Proof Using "Type*".
Implicit Types n : Node Q.

(** ** Links *)

(** The queue keeps its books, and what it sent is with the MAC or on its way. *)
Record links (acc : list item) (req : nat) (n : Node Q) : Prop := {
  lk_books : books (contents := contents) acc (queued_log n) req (ifq n);
  lk_sent : sent (ifq n) = handed_log n ++ toMac n;
}.

(** Requests the queue has not answered, and packets on their way. *)
Definition credit n : Z := packetRequested (ifq n) + Z.of_nat (length (toMac n)).

Lemma on_queue_sent f n l :
  sent (f (ifq n)) = sent (ifq n) ++ l -> on_queue f n = n<| ifq := f (ifq n) |><| toMac ::= fun x => x ++ l |>.
Proof. intros Hf. unfold on_queue. rewrite Hf, drop_app_length. done. Qed.

Lemma links_request acc req t n :
  links acc req n ->
  let n' := on_queue (requestPacket t) n in
  links acc (S req) n' /\ credit n' = credit n + 1 /\
  hosts n' = hosts n /\ net n' = net n /\ toQueue n' = toQueue n /\ queued_log n' = queued_log n /\ handed_log n' = handed_log n.
Proof.
  intros [Hb Hs]. pose proof (books_request _ _ _ t _ Hb) as Hb'.
  pose proof (requestPacket_spec (contents := contents) t (ifq n)) as Hr.
  destruct (held (contents := contents) (ifq n)) as [|p l]; destruct Hr as [q [Hq _]].
  - rewrite (on_queue_sent _ _ []) by (rewrite Hq; qsimp; by rewrite app_nil_r). dsimp. rewrite Hq in Hb' |- *.
    split; [split; dsimp; [done|by rewrite app_nil_r]|]. unfold credit. dsimp. rewrite app_nil_r. qsimp. split; [lia|done].
  - rewrite (on_queue_sent _ _ [p]) by (by rewrite Hq). dsimp. rewrite Hq in Hb' |- *.
    split; [split; dsimp; [done|unfold sendOut; qsimp; by rewrite Hs, app_assoc]|].
    unfold credit, sendOut. dsimp. qsimp. rewrite length_app. cbn. split; [lia|done].
Qed.

(** A packet reaches the queue: waiting requests and packets on their way stay as many. *)
Lemma links_arrive acc req t p n :
  links acc req n ->
  let n' := on_queue (Queue.handleMessage t p) (n<| queued_log ::= fun x => x ++ [p] |>) in
  (exists acc', links acc' req n') /\ credit n' = credit n /\
  hosts n' = hosts n /\ net n' = net n /\ toQueue n' = toQueue n /\ queued_log n' = queued_log n ++ [p]
  /\ handed_log n' = handed_log n.
Proof.
  intros [Hb Hs]. destruct (books_arrive _ _ _ t p _ Hb) as [acc' Hb'].
  destruct (handleMessage_spec t p _ (bk_inv _ _ _ _ Hb)) as [_ [(_ & _ & H1 & H2 & H3 & _)|(H1 & H2 & H3 & _)]].
  - rewrite (on_queue_sent _ _ [p]) by done. dsimp.
    split; [exists acc'; split; dsimp; [done|by rewrite H3, Hs, app_assoc]|].
    unfold credit. dsimp. rewrite length_app. cbn. split; [lia|done].
  - rewrite (on_queue_sent _ _ []) by (by rewrite app_nil_r). dsimp.
    split; [exists acc'; split; dsimp; [done|by rewrite H3, Hs, app_nil_r]|].
    unfold credit. dsimp. rewrite app_nil_r. split; [lia|done].
Qed.

(** The requests among what the MAC said. *)
Lemma links_absorb t l : forall acc req n,
  links acc req n ->
  let n' := absorb_all t l n in
  (exists req', links acc req' n') /\ credit n' = credit n + Z.of_nat (length (List.filter is_request l)) /\
  hosts n' = hosts n /\ net n' = net n /\ toQueue n' = toQueue n /\ queued_log n' = queued_log n /\ handed_log n' = handed_log n.
Proof.
  induction l as [|e l IH]; intros acc req n Hn; cbn [absorb_all List.filter].
  - cbn. rewrite Z.add_0_r. eauto 10.
  - assert (He : exists req1, links acc req1 (absorb t e n) /\ credit (absorb t e n) = credit n + Z.b2z (is_request e)
      /\ hosts (absorb t e n) = hosts n /\ net (absorb t e n) = net n /\ toQueue (absorb t e n) = toQueue n
      /\ queued_log (absorb t e n) = queued_log n /\ handed_log (absorb t e n) = handed_log n).
    { destruct e; cbn [absorb is_request Z.b2z]; rewrite ?Z.add_0_r; try (exists req; done).
      - exists req. split; [by destruct Hn|done].
      - exists (S req). apply (links_request acc req t n Hn). }
    destruct He as (req1 & H1 & H2 & H3 & H4 & H5 & H6 & H7).
    destruct (IH acc req1 _ H1) as (G1 & G2 & G3 & G4 & G5 & G6 & G7).
    cbn zeta. rewrite G2, G3, G4, G5, G6, G7, H2, H3, H4, H5, H6, H7. split; [done|]. split; [|done].
    destruct (is_request e); cbn; lia.
Qed.

(** ** The MAC at work *)

(** The MAC of the host has taken [k] packets. *)
Definition mac_taken (k : Z) n : Prop := exists base, tok base k (view_of (me (hosts n))).

Lemma clear_tok base k s : tok base k (view_of s) -> tok (- done_with s) k (view_of (s<| out := [] |>)).
Proof. intros [H1 H2 H3 H4 H5 H6 H7]. split; cbn in *; try done. unfold requested, done_with. msimp. cbn. lia. Qed.

(** The requests of a handler are as many as the packets it was done with. *)
Lemma on_mac_spec acc req k j t (m : M World unit) n n' :
  links acc req n -> mac_taken k n -> (forall base, wmoves (tok base k) (tok base (k + j)) m) ->
  on_mac t m n = Ok n' ->
  (exists req', links acc req' n') /\ mac_taken (k + j) n' /\
  credit n' + Z.b2z (busy (me (hosts n'))) = credit n + Z.b2z (busy (me (hosts n))) + j /\
  net n' = net n /\ toQueue n' = toQueue n /\ queued_log n' = queued_log n /\ handed_log n' = handed_log n.
Proof.
  intros Hl [base Hk] Hm. unfold on_mac. pose proof (clear_tok _ _ _ Hk) as Hc.
  destruct (m _) as [[[] w]|] eqn:E; [|done]. intros [= <-].
  pose proof (wpe_run (fun _ => True) _ _ _ _ _ (Hm _ ((hosts n)<| me ::= fun s => s<| out := [] |> |>) Hc) E) as Hw.
  destruct (links_absorb t (out (me w)) acc req (n<| hosts := w |>)) as (G1 & G2 & G3 & G4 & G5 & G6 & G7); [by destruct Hl|].
  rewrite G2, G3, G4, G5, G6, G7. dsimp. split; [done|]. split; [eexists; rewrite G3; exact Hw|]. split; [|done].
  change (credit (n<| hosts := w |>)) with (credit n).
  destruct Hk as [_ _ _ Hk1 _ _ _], Hw as [_ Hw1 _ Hw2 _ _ _]. cbn in *. unfold requested in Hw1. lia.
Qed.

(** ** The invariant *)

Record node_inv (n : Node Q) : Prop := {
  ni_links : exists acc req, links acc req n;
  ni_taken : mac_taken (Z.of_nat (length (handed_log n))) n;
  ni_credit : credit n + Z.b2z (busy (me (hosts n))) = 1;
  ni_net : imap item_of (created (net n)) = queued_log n ++ toQueue n;
}.

Lemma node_mac n n' t m j :
  node_inv n -> (forall base k, wmoves (tok base k) (tok base (k + j)) m) -> j = 0 -> on_mac t m n = Ok n' -> node_inv n'.
Proof.
  intros [[acc [req Hl]] Hk Hc Hn] Hm -> Hrun.
  destruct (on_mac_spec acc req _ 0 t m n n' Hl Hk (fun b => Hm b _) Hrun) as (G1 & G2 & G3 & G4 & G5 & G6 & G7).
  rewrite Z.add_0_r in G2. split; [by exists acc|by rewrite G7|lia|by rewrite G4, G5, G6].
Qed.

Lemma mac_call_quiet m base k : mac_call m -> wmoves (tok base k) (tok base (k + 0)) (own m).
Proof.
  rewrite Z.add_0_r. intros Hm. apply w_own.
  destruct Hm as [stage host nd Hs|b d|a c|a l b]; [apply quiet_moves; [|done]..|
    apply moves_quiet_bind; [|intros ?; by intros s Hs]|apply moves_quiet_bind; [|intros ?; by intros s Hs]].
  - intros v. by apply q_initialize_late.
  - apply q_receiveChangeNotification.
  - apply q_associate_request_cmd.
  - apply q_gts_request_cmd.
Qed.

Lemma on_net_inv t lower n : node_inv n -> node_inv (on_net t lower n).
Proof.
  intros [Hl Hk Hc Hn]. unfold on_net. pose proof (net_handleMessage_spec t lower (net n)) as Hs.
  destruct (net_handleMessage t lower (net n)) as [p x]. destruct Hs as (Hp & Hx & _).
  split; dsimp; [|done|done|].
  - destruct Hl as (acc & req & [Hb Hs]). exists acc, req. by split.
  - rewrite Hx, imap_app, Hn, <- app_assoc. do 2 f_equal. cbn. rewrite Hp, Nat.add_0_r. by destruct lower.
Qed.

(** The packet at the head of the link to the MAC is taken by it. *)
Lemma node_upper t p c l n n' :
  node_inv n -> toMac n = (p, c) :: l ->
  mac_message t (Upper p c) (n<| toMac := l |><| handed_log ::= fun x => x ++ [(p, c)] |>) = Ok n' -> node_inv n'.
Proof.
  intros [[acc [req [Hb Hs]]] [base Hk] Hc Hn] Hl Hrun. unfold mac_message in Hrun.
  set (n1 := (n<| toMac := l |><| handed_log ::= fun x => x ++ [(p, c)] |>)<| hosts ::= fun w => w<| me ::= arrive t (Upper p c) |> |>) in *.
  assert (Hl1 : links acc req n1). { split; [done|]. subst n1. dsimp. by rewrite Hs, Hl, <- app_assoc. }
  assert (Hk1 : mac_taken (Z.of_nat (length (handed_log n))) n1) by (by exists base).
  destruct (on_mac_spec acc req _ 1 t _ n1 n' Hl1 Hk1 (fun b => w_handleMessage b _ (Upper p c)) Hrun)
    as (G1 & G2 & G3 & G4 & G5 & G6 & G7).
  split; [by exists acc| | |].
  - rewrite G7. subst n1. dsimp. rewrite length_app. cbn. by rewrite Nat2Z.inj_add.
  - rewrite G3. unfold credit in *. subst n1. dsimp. rewrite Hl in Hc. cbn [length] in Hc. msimp.
    change (busy (arrive t (Upper p c) (me (hosts n)))) with (busy (me (hosts n))). lia.
  - rewrite G4, G5, G6. done.
Qed.

Lemma node_step_inv n n' : node_step n n' -> node_inv n -> node_inv n'.
Proof.
  intros Hstep Hn.
  destruct Hstep as [t Hp|t p l Hp|t p l Hp|t p c l n' Hp Hrun|t m n' Hm Hrun|t m n' Hm Hrun|o].
  - apply on_net_inv. destruct Hn as [(acc & req & []) Hk Hc Hn]. split; try done. by exists acc, req.
  - apply on_net_inv. destruct Hn as [(acc & req & []) Hk Hc Hn]. split; try done. by exists acc, req.
  - destruct Hn as [(acc & req & [Hb Hs]) [base Hk] Hc Hn].
    destruct (links_arrive acc req t p (n<| toQueue := l |>)) as ((acc' & G1) & G2 & G3 & G4 & G5 & G6 & G7); [by split|].
    dsimp. split; [by exists acc', req|exists base|rewrite G2|]; rewrite ?G3, ?G4, ?G5, ?G6, ?G7; dsimp; try done.
    by rewrite Hn, Hp, <- app_assoc.
  - by eapply node_upper.
  - eapply (node_mac _ n'  t _ (taken_by m)); [|intros base k; apply w_handleMessage|done|exact Hrun].
    destruct Hn as [(acc & req & []) [base Hk] Hc Hn]. split; try done; [by exists acc, req|exists base| ]; dsimp; msimp.
    + by rewrite arrive_view.
    + unfold credit in *. dsimp. by destruct m.
  - by eapply (node_mac n n' t (own m) 0); [|intros base k; apply mac_call_quiet| |].
  - destruct Hn as [(acc & req & []) Hk Hc Hn]. split; try done. by exists acc, req.
Qed.

(** ** Runs *)

(** The request of the MAC's first stage reaches the queue, which has started before. *)
Lemma node_initialize_inv addr g host nd q w n :
  contents q = [] -> ned_queue nd = Some true -> me w = (srwsn802154Mac_ctor addr g).1 ->
  node_initialize host nd q w = Ok n -> node_inv n.
Proof.
  intros Hq Hnd Hw. unfold node_initialize, on_mac, own, zoom. msimp. dsimp. rewrite Hw.
  change ((srwsn802154Mac_ctor addr g).1<| out := [] |>) with (srwsn802154Mac_ctor addr g).1.
  destruct (MacHandlers.initialize 0 host nd _) as [[[] s]|] eqn:E; [|done]. intros [= <-]. msimp.
  destruct (initialize_tok _ _ _ _ _ Hnd E) as [Ht Ho]. rewrite Ho. cbn [absorb_all absorb].
  match goal with |- node_inv (on_queue _ ?x) => set (n0 := x) end.
  destruct (links_request [] 0 0 n0) as (G1 & G2 & G3 & G4 & G5 & G6 & G7).
  { split; [|done]. subst n0. split; cbn; try done. split; [done|by left]. }
  split; [by exists [], 1%nat|exists 1; by rewrite G3, G7|rewrite G2, G3|rewrite G4, G5, G6].
  - pose proof (tk_done _ _ _ Ht) as Hd. pose proof (tk_requests _ _ _ Ht) as Hr. unfold credit. subst n0. cbn in *.
    unfold requested in Hr. rewrite Ho in Hr. cbn in Hr. msimp. lia.
  - subst n0. dsimp. unfold net_initialize. by case_match.
Qed.

Lemma node_reachable_inv addr g host nd q w n0 n :
  contents q = [] -> ned_queue nd = Some true -> me w = (srwsn802154Mac_ctor addr g).1 ->
  node_initialize host nd q w = Ok n0 -> rtc node_step n0 n -> node_inv n.
Proof.
  intros Hq Hnd Hw Hinit Hsteps. assert (H1 : node_inv n0) by (by eapply node_initialize_inv).
  clear Hinit. induction Hsteps; eauto using node_step_inv.
Qed.

(** What the invariant says of requests and packets on their way. *)
Definition paced n : Prop :=
  packetRequested (ifq n) + Z.of_nat (length (toMac n)) + Z.b2z (busy (me (hosts n))) = 1 /\
  (toMac n <> [] -> busy (me (hosts n)) = false /\ length (toMac n) = 1%nat) /\
  (busy (me (hosts n)) = false -> toMac n = [] -> contents (subclass (ifq n)) = []).
(** And of the packets themselves. *)
Definition in_order n : Prop :=
  (handed_log n ++ toMac n ++ contents (subclass (ifq n))) ++ toQueue n `sublist_of` imap item_of (created (net n)) /\
  Z.of_nat (length (created (net n))) =
    Z.of_nat (length (toQueue n)) + numQueueDropped (ifq n) + Z.of_nat (length (contents (subclass (ifq n))))
    + Z.of_nat (length (toMac n)) + Z.b2z (busy (me (hosts n))) + done_with (me (hosts n)).

Lemma node_inv_paced n : node_inv n -> paced n.
Proof.
  intros [(acc & req & [Hb _]) _ Hc _].
  destruct (bk_inv _ _ _ _ Hb) as [Hp Hh]. unfold credit in Hc. split; [lia|]. split.
  - intros Hne. destruct (toMac n) as [|x [|y l]]; [done| |]; cbn [length] in *; destruct (busy _); cbn in *; lia.
  - intros Hbusy He. rewrite Hbusy, He in Hc. cbn in Hc. destruct Hh as [Hh|Hh]; [lia|done].
Qed.
Lemma node_inv_in_order n : node_inv n -> in_order n.
Proof.
  intros [(acc & req & [Hb Hs]) [base Ht] _ Hn].
  destruct Hb as [_ Ho Hsub _ Hd _]. unfold held in Ho. rewrite Hs, <- app_assoc in Ho. split.
  - rewrite Hn, Ho. by apply sublist_app.
  - rewrite <- (length_imap item_of), Hn, length_app, Nat2Z.inj_add, Hd, <- Ho, !length_app.
    pose proof (tk_done _ _ _ Ht) as Hk. cbn in Hk. lia.
Qed.

(** C15: In every reachable state of a host, for any first-in first-out queue: the requests
    the queue has yet to answer, the packets between queue and MAC and the packet the MAC
    is busy with are exactly one together.  So a packet that reaches the MAC never finds
    it busy (the branch that drops it and the overflow of the data request are never
    taken), at most one packet is on its way, and an idle MAC with none on its way means
    that the queue is empty: no packet is left waiting. *)
Theorem node_paced addr g host nd q w n0 n :
  contents q = [] -> ned_queue nd = Some true -> me w = (srwsn802154Mac_ctor addr g).1 ->
  node_initialize host nd q w = Ok n0 -> rtc node_step n0 n ->
  packetRequested (ifq n) + Z.of_nat (length (toMac n)) + Z.b2z (busy (me (hosts n))) = 1 /\
  (toMac n <> [] -> busy (me (hosts n)) = false /\ length (toMac n) = 1%nat) /\
  (busy (me (hosts n)) = false -> toMac n = [] -> contents (subclass (ifq n)) = []).
Proof. intros Hq Hnd Hw Hinit Hsteps. by apply node_inv_paced; eapply node_reachable_inv. Qed.

(** In every reachable state of a host, for any first-in first-out queue: the packets
    handed to the MAC, then the one on its way, then those in the queue are the packets
    the queue accepted, in the order the network layer sent them; and every packet the
    network layer sent is accounted for: on its way to the queue, dropped there, held
    there, on its way to the MAC, the MAC's pending request, or done with (lost, sent, or
    given up, as the MAC's statistics say). *)
Theorem node_in_order addr g host nd q w n0 n :
  contents q = [] -> ned_queue nd = Some true -> me w = (srwsn802154Mac_ctor addr g).1 ->
  node_initialize host nd q w = Ok n0 -> rtc node_step n0 n ->
  (handed_log n ++ toMac n ++ contents (subclass (ifq n))) ++ toQueue n `sublist_of` imap item_of (created (net n)) /\
  Z.of_nat (length (created (net n))) =
    Z.of_nat (length (toQueue n)) + numQueueDropped (ifq n) + Z.of_nat (length (contents (subclass (ifq n))))
    + Z.of_nat (length (toMac n)) + Z.b2z (busy (me (hosts n))) + done_with (me (hosts n)).
Proof. intros Hq Hnd Hw Hinit Hsteps. by apply node_inv_in_order; eapply node_reachable_inv. Qed.
End node.

(** ** A host at work *)

Module NodeSample.
Import QueueSample.

Definition ned_host : Ned := mkNed true 6 4 1 "host[0]" false 20 true (Some true).
Definition red_host : REDQueue item := mkREDQueue (1 # 500) 5 50 (1 # 50) 150 [] 0 0 (-1) 0 O.
(** The second host has its MAC at address 1. *)
Definition world0 : World :=
  mkWorld "host[0]" (srwsn802154Mac_ctor 0 blank).1 {["host[1]" := Some (srwsn802154Mac_ctor 1 blank).1]}.

Definition get {A} (d : A) (o : outcome A) : A := match o with Ok a => a | Fault _ => d end.
Definition n_dummy : Node (REDQueue item) :=
  mkNode (net_initialize 0 "" false) (Queue.initialize red_host) world0 [] [] [] [] [].
Definition n0 := get n_dummy (node_initialize "host[0]" ned_host red_host world0).
Definition n1 := get n_dummy (on_mac 0 (own (receiveChangeNotification true (Some (0, 11)))) n0).
Definition n2 := get n_dummy (on_mac 0 (own (MacHandlers.initialize 2 "host[0]" ned_host)) n1).
Definition n3 := get n_dummy (mac_message 0 (Timer START_PAN_COOR_TIMER) n2).
Definition n4 := get n_dummy (on_mac 0 (own (_ ← associate_request_cmd 1 (capability (me world0)); mret tt)) n3).
Definition n5 := on_net (3 * second) false (n4<| net ::= fun x => x<| ping_timer := None |> |>).
Definition ping : cPacket := mkPacket 0 1.
Definition ping_ctrl : option NetCtrl := Some (mkNetCtrl false "host[1]").
Definition n6 := on_queue (Queue.handleMessage (3 * second) (ping, ping_ctrl))
  (n5<| toQueue := [] |><| queued_log ::= fun x => x ++ [(ping, ping_ctrl)] |>).
Definition n7 := get n_dummy (mac_message (3 * second) (Upper ping ping_ctrl)
  (n6<| toMac := [] |><| handed_log ::= fun x => x ++ [(ping, ping_ctrl)] |>)).

Lemma get_ok {A} (d : A) o : is_ok o = true -> o = Ok (get d o).
Proof. by destruct o. Qed.
Lemma started : node_initialize "host[0]" ned_host red_host world0 = Ok n0.
Proof. apply get_ok. vm_compute. reflexivity. Qed.

(** The first packet, on its way to the MAC; then the MAC is busy with it. *)
Lemma run6 : rtc node_step n0 n6.
Proof.
  eapply rtc_l; [apply (ns_call n0 0 _ n1 (call_notification true (Some (0, 11)))); apply get_ok; vm_compute; reflexivity|].
  eapply rtc_l; [apply (ns_call n1 0 _ n2 (call_initialize 2 "host[0]" ned_host ltac:(discriminate)));
                 apply get_ok; vm_compute; reflexivity|].
  eapply rtc_l; [apply (ns_below n2 0 (Timer START_PAN_COOR_TIMER) n3 eq_refl); apply get_ok; vm_compute; reflexivity|].
  eapply rtc_l; [apply (ns_call n3 0 _ n4 (call_associate 1 (capability (me world0)))); apply get_ok; vm_compute; reflexivity|].
  eapply rtc_l; [apply (ns_ping n4 (3 * second)); vm_compute; reflexivity|].
  apply rtc_once. apply (ns_queue n5 (3 * second) (ping, ping_ctrl) []). vm_compute. reflexivity.
Qed.
Lemma run7 : rtc node_step n0 n7.
Proof.
  eapply rtc_r; [exact run6|]. apply (ns_upper n6 (3 * second) ping ping_ctrl []); [vm_compute; reflexivity|].
  apply get_ok. vm_compute. reflexivity.
Qed.

End NodeSample.
Import QueueSample NodeSample.

Lemma node_paced_witness :
  packetRequested (ifq n6) + Z.of_nat (length (toMac n6)) + Z.b2z (busy (me (hosts n6))) = 1 /\
  busy (me (hosts n6)) = false /\ length (toMac n6) = 1%nat.
Proof.
  destruct (node_paced 0 blank "host[0]" ned_host red_host world0 n0 n6) as (H1 & H2 & _);
    [reflexivity|reflexivity|reflexivity|exact started|exact run6|].
  split; [exact H1|]. apply H2. vm_compute. discriminate.
Defined.

Lemma node_in_order_witness :
  handed_log n7 = [(ping, ping_ctrl)] /\ busy (me (hosts n7)) = true /\ Z.of_nat (length (created (net n7))) = 1.
Proof.
  destruct (node_in_order 0 blank "host[0]" ned_host red_host world0 n0 n7) as [_ H2];
    [reflexivity|reflexivity|reflexivity|exact started|exact run7|].
  split; [vm_compute; reflexivity|]. split; [vm_compute; reflexivity|]. rewrite H2. vm_compute. reflexivity.
Defined.
