(* ===== verification/Radio.v ===== *)
(** * The PHY: underTest2/.../ieee802154/phyLayer/Ieee802154Phy.{h,cc}, Ieee802154RadioModel.cc

    The module below the MAC in srwsn802154Nic.ned: the state of the radio, the
    frames in the air, the noise, and the primitives of the MAC.

    Powers are integers: every finite [double] is a whole number of units of
    2^-1074 (here of milliwatts), and sums are exact; the rounding of floating
    point addition is not modelled.  Quotients (signal to noise ratios, the
    deviation of a frequency) are rational numbers.  Received power is a
    parameter: PathLossReceptionModel.cc computes it with [pow] and [M_PI].
    An [AirFrame] is an object with an address, because [recvBuff], [snrInfo] and
    the timer of its end refer to it by pointer. *)

From Stdlib Require Import QArith Qabs.
From S2P Require Import Prelude MacConst MacTypes.

Open Scope string_scope.
Open Scope list_scope.
Open Scope Z_scope.

(** ** Data *)

(** [RadioState::State] and the members of [RadioState] in use. *)
Inductive RadioStateEnum := IDLE | RECV | TRANSMIT | SLEEP.
#[export] Instance RadioStateEnum_eq_dec : EqDecision RadioStateEnum.
Proof. solve_decision. Defined.
#[export] Instance PHYenum_eq_dec : EqDecision PHYenum.
Proof. solve_decision. Defined.

#[projections(primitive)]
Record RadioState := mkRadioState { getState : RadioStateEnum; getChannel : Z; getBitrate : Z }.
#[export] Instance eta_RadioState : Eta RadioState := fun r => mkRadioState (getState r) (getChannel r) (getBitrate r).

(** [AirFrame]; the carrier frequency is that of an [AirFrameExtended]. *)
#[projections(primitive)]
Record AirFrame := mkAirFrame {
  pSend : Z;
  afChannel : Z;
  afDuration : Z;
  afBitrate : Z;
  senderPos : Z * Z;
  afFrequency : option Z;
  afKind : Z;
  payload : Frame;
  arrivalTime : Z;
  timestamp : Z;
}.
#[export] Instance eta_AirFrame : Eta AirFrame := fun a => mkAirFrame
  (pSend a) (afChannel a) (afDuration a) (afBitrate a) (senderPos a) (afFrequency a) (afKind a) (payload a)
  (arrivalTime a) (timestamp a).

(** What the module sends to the MAC, to the channel, to itself, and what it
    announces on the notification board and to [ChannelControl]. *)
Inductive pevent :=
  | ToMac_primitive (kind : Ieee802154MacPhyPrimitiveType) (status : PHYenum)
  | ToMac_energy (status : PHYenum) (energyLevel : Z)
  | ToMac_set (status : PHYenum) (attribute : PHYPIBenum)
  | ToMac_frame (f : Frame)
  | ToChannel (a : AirFrame)
  | NF_RADIOSTATE_CHANGED (r : RadioState)
  | NF_RADIO_CHANNEL_CHANGED (r : RadioState)
  | UpdateHostChannel (channel : Z)
  | ToSelf (a : AirFrame) (delay : Z).

(** The four timers of the module, and the dynamic one of each frame received. *)
Inductive phy_timer := PHY_CCA_TIMER | PHY_ED_TIMER | PHY_TRX_TIMER | PHY_TX_OVER_TIMER | PHY_RX_OVER_TIMER (p : positive).

#[projections(primitive)]
Record Radio := mkRadio {
  (** parameters *)
  transmitterPower : Z;
  carrierFrequency : Z;
  sensitivity : Z;
  thermalNoise : Z;
  snirThreshold : Q;
  myPosition : Z * Z;
  (** [ccExt]: the tolerance of an extended channel control, if that is in use *)
  ccExt : option Q;
  (** the radio *)
  rs : RadioState;
  phyRadioState : PHYenum;
  newState : PHYenum;
  newState_turnaround : PHYenum;
  isCCAStartIdle : bool;
  (** reception: [snrInfo] and what is in the air *)
  noiseLevel : Z;
  snr_ptr : option positive;
  snr_rcvdPower : Z;
  snr_sList : list (Z * Q);
  recvBuff : gmap positive Z;
  airframes : gmap positive AirFrame;
  rxPower : list Z;
  rxPeakPower : Z;
  txPktCopy : option AirFrame;
  (** timers *)
  CCA_timer : option Z;
  ED_timer : option Z;
  TRX_timer : option Z;
  TxOver_timer : option Z;
  endRx_timers : gmap positive Z;
  (** the kernel *)
  simTime : Z;
  out : list pevent;
}.
#[export] Instance eta_Radio : Eta Radio := fun s => mkRadio
  (transmitterPower s) (carrierFrequency s) (sensitivity s) (thermalNoise s) (snirThreshold s) (myPosition s)
  (ccExt s) (rs s) (phyRadioState s) (newState s) (newState_turnaround s) (isCCAStartIdle s) (noiseLevel s)
  (snr_ptr s) (snr_rcvdPower s) (snr_sList s) (recvBuff s) (airframes s) (rxPower s) (rxPeakPower s)
  (txPktCopy s) (CCA_timer s) (ED_timer s) (TRX_timer s) (TxOver_timer s) (endRx_timers s) (simTime s) (out s).

(** Reduces the field accesses of updated records, and nothing else. *)
Ltac psimp :=
  cbn [set_ fst snd getState getChannel getBitrate
       pSend afChannel afDuration afBitrate senderPos afFrequency afKind payload arrivalTime timestamp
       transmitterPower carrierFrequency sensitivity thermalNoise snirThreshold myPosition ccExt
       rs phyRadioState newState newState_turnaround isCCAStartIdle noiseLevel snr_ptr snr_rcvdPower snr_sList
       recvBuff airframes rxPower rxPeakPower txPktCopy CCA_timer ED_timer TRX_timer TxOver_timer endRx_timers
       simTime out] in *.

(** ** The environment of the module *)

Class Propagation := {
  (** [calculateReceivedPower(pSend, frequency, distance)] *)
  calculateReceivedPower : Z -> Z -> Z -> Z;
  distance : Z * Z -> Z * Z -> Z;
  (** the time a signal takes for a distance *)
  propagationDelay : Z -> Z;
  (** whether [EV << ...] evaluates its operands *)
  ev_on : bool;
}.

(** A message that arrives: a primitive or a frame from the MAC, a timer of the
    module's own, or a frame from the channel, an object at address [p]. *)
Inductive phy_msg :=
  | UpperPrimitive (kind : Z) (status : PHYenum) (attribute : PHYPIBenum) (channel : Z)
      (ongoing : list (positive * AirFrame))
  | UpperFrame (f : Frame)
  | SelfTimer (t : phy_timer)
  | LowerAirFrame (p : positive) (a : AirFrame).

Definition self : M Radio Radio := gets id.
Definition pupd (f : Radio -> Radio) : M Radio unit := modify f.
Definition emit (e : pevent) : M Radio unit := pupd (fun s => s<| out ::= fun l => l ++ [e] |>).

(** ** Timers *)

Definition timer_at (t : phy_timer) (s : Radio) : option Z :=
  match t with
  | PHY_CCA_TIMER => CCA_timer s
  | PHY_ED_TIMER => ED_timer s
  | PHY_TRX_TIMER => TRX_timer s
  | PHY_TX_OVER_TIMER => TxOver_timer s
  | PHY_RX_OVER_TIMER p => endRx_timers s !! p
  end.
Definition set_timer (t : phy_timer) (v : option Z) (s : Radio) : Radio :=
  match t with
  | PHY_CCA_TIMER => s<| CCA_timer := v |>
  | PHY_ED_TIMER => s<| ED_timer := v |>
  | PHY_TRX_TIMER => s<| TRX_timer := v |>
  | PHY_TX_OVER_TIMER => s<| TxOver_timer := v |>
  | PHY_RX_OVER_TIMER p => s<| endRx_timers ::= partial_alter (fun _ => v) p |>
  end.
Definition isScheduled (t : phy_timer) (s : Radio) : bool := bool_decide (is_Some (timer_at t s)).

(** The kernel refuses a time in the past and a message already scheduled. *)
Definition scheduleAt (at_ : Z) (t : phy_timer) : M Radio unit :=
  s ← self;
  if at_ <? simTime s then fail (Thrown "scheduleAt(): cannot schedule message in the past")
  else if isScheduled t s then fail (Thrown "scheduleAt(): message is currently scheduled")
  else pupd (set_timer t (Some at_)).
Definition cancelEvent (t : phy_timer) : M Radio unit := pupd (set_timer t None).

(** ** The radio model *)

Definition calculateDuration (f : Frame) (rate : Z) : Z := secs (def_phyHeaderLength * 8 + getBitLength f) rate.

(** The smallest of the ratios, starting with the first; [begin()] of an empty
    list is not dereferenced in a defined program. *)
Definition snirMin (l : list (Z * Q)) : outcome Q :=
  match l with
  | [] => Fault (Undefined "begin() of an empty list")
  | e :: _ => Ok (foldl (fun m e => if negb (Qle_bool m e.2) then e.2 else m) e.2 l)
  end.
Definition isReceivedCorrectly (threshold : Q) (l : list (Z * Q)) : outcome bool :=
  m ← snirMin l; mret (negb (Qle_bool m threshold)).

(** ** Rates and states *)

Definition getChannelNumber (s : Radio) : Z := getChannel (rs s).

Definition getRate (bitOrSymbol : ascii) (channel : Z) : outcome Z :=
  let b := Ascii.eqb bitOrSymbol "b" in
  if channel =? 0 then Ok ((if b then BR_868M else SR_868M) * 100)
  else if channel <=? 10 then Ok ((if b then BR_915M else SR_915M) * 100)
  else if channel <=? 26 then Ok ((if b then BR_2_4G else SR_2_4G) * 100)
  else Fault (Thrown "[PHY]: channel number is not supported").

(** [n/getRate('s')] *)
Definition symbols (n : Z) : M Radio Z :=
  s ← self;
  r ← lift (getRate "s" (getChannelNumber s));
  mret (secs n r).

Definition setRadioState (st : RadioStateEnum) : M Radio unit :=
  pupd (fun s => s<| rs ::= fun r => r<| getState := st |> |>);;
  s ← self;
  emit (NF_RADIOSTATE_CHANGED (rs s)).

Definition addNewSnr : M Radio unit :=
  pupd (fun s => s<| snr_sList ::= fun l =>
    l ++ [(simTime s, (inject_Z (snr_rcvdPower s) / inject_Z (noiseLevel s))%Q)] |>).

(** [rxPower[channel]]: the array has 27 elements. *)
Definition rxPower_at (s : Radio) : outcome Z :=
  let ch := getChannelNumber s in
  if (0 <=? ch) && (ch <? 27)
  then match rxPower s !! Z.to_nat ch with Some v => Ok v | None => Fault (Undefined "rxPower") end
  else Fault (Undefined "index out of range").
Definition set_rxPower (ch v : Z) (s : Radio) : Radio := s<| rxPower ::= <[Z.to_nat ch := v]> |>.

Definition channelSupported (channel : Z) : bool := negb (Z.land 0x07ffffff (Z.shiftl 1 channel) =? 0).

(** [(int)(rxPeakPower/sensitivity * 128)], cut at 255; a value no [int] holds is
    undefined. *)
Definition calculateEnergyLevel (s : Radio) : outcome Z :=
  let energy := Z.quot (rxPeakPower s * 128) (sensitivity s) in
  if in_int energy then Ok (u8 (if 255 <? energy then 255 else energy)) else Fault (Undefined "conversion to int").

(** ** Primitives to the MAC *)

Definition PD_DATA_confirm (status : PHYenum) : M Radio unit := emit (ToMac_primitive PD_DATA_CONFIRM status).
Definition PLME_CCA_confirm (status : PHYenum) : M Radio unit := emit (ToMac_primitive PLME_CCA_CONFIRM status).
Definition PLME_ED_confirm (status : PHYenum) (energyLevel : Z) : M Radio unit := emit (ToMac_energy status energyLevel).
Definition PLME_SET_TRX_STATE_confirm (status : PHYenum) : M Radio unit :=
  emit (ToMac_primitive PLME_SET_TRX_STATE_CONFIRM status).
Definition PLME_SET_confirm (status : PHYenum) (attribute : PHYPIBenum) : M Radio unit := emit (ToMac_set status attribute).

(** [initialize(0)], [initialize(1)] and [initialize(2)]: parameters are read,
    everything else is set; [pMax] is the parameter of the channel control. *)
Definition phy_initialize (power frequency sens noise : Z) (snir : Q) (pos : Z * Z) (ext : option Q)
    (channel pMax junk_power : Z) : outcome Radio :=
  _ ← check (negb (pMax <? power)) (Thrown "[PHY]: transmitterPower cannot be bigger than pMax in ChannelControl!");
  rate ← getRate "b" channel;
  let r := mkRadioState IDLE channel rate in
  mret (mkRadio power frequency sens noise snir pos ext r phy_RX_ON phy_IDLE phy_IDLE false noise None junk_power []
    ∅ ∅ (replicate 27 0) 0 None None None None None ∅ 0
    [NF_RADIOSTATE_CHANGED r; NF_RADIO_CHANNEL_CHANGED r; UpdateHostChannel channel]).

Section phy.
Context `{Propagation}.

(** ** Frames of the MAC *)

Definition encapsulatePacket (f : Frame) : M Radio AirFrame :=
  s ← self;
  mret (mkAirFrame (transmitterPower s) (getChannelNumber s) (calculateDuration f (getBitrate (rs s)))
    (getBitrate (rs s)) (myPosition s) (Some (carrierFrequency s)) 0 f 0 0).

Definition handleUpperMsg (airframe : AirFrame) : M Radio unit :=
  s ← self;
  if bool_decide (phyRadioState s = phy_TX_ON) then
    assert_ (bool_decide (getState (rs s) <> TRANSMIT)) "rs.getState() != RadioState::TRANSMIT";;
    setRadioState TRANSMIT;;
    assert_ (bool_decide (txPktCopy s = None)) "txPktCopy == NULL";;
    pupd (fun s => s<| txPktCopy := Some airframe |>);;
    (if isScheduled PHY_TX_OVER_TIMER s then fail (Thrown "[PHY]: try to transmit a pkt whihe radio is Txing")
     else scheduleAt (simTime s + afDuration airframe) PHY_TX_OVER_TIMER);;
    emit (ToChannel airframe)
  else fail (Thrown "[PHY]: transmitter is not ON while trying to send a msg to channel").

(** ** Frames of the channel *)

(** A channel match, and with an extended channel control a frequency that
    deviates by no more than its tolerance. *)
Definition processAirFrame (a : AirFrame) (s : Radio) : bool :=
  let same := afChannel a =? getChannelNumber s in
  match ccExt s, afFrequency a with
  | Some perc, Some fq =>
      if (0 <? fq) && (0 <? carrierFrequency s) then
        same && Qle_bool (Qabs (inject_Z (fq - carrierFrequency s) / inject_Z (carrierFrequency s))%Q) perc
      else same
  | _, _ => same
  end.

Definition deref_frame (p : positive) : M Radio AirFrame :=
  s ← self;
  match airframes s !! p with
  | Some a => mret a
  | None => fail (Undefined "use of a deleted AirFrame")
  end.

(** A frame reaches the receiver; it is the object at [p]. *)
Definition handleLowerMsgStart (p : positive) : M Radio unit :=
  airframe ← deref_frame p;
  s ← self;
  let frequency := match afFrequency airframe with
                   | Some f => if 0 <? f then f else carrierFrequency s
                   | None => carrierFrequency s
                   end in
  let rcvdPower := calculateReceivedPower (pSend airframe) frequency (distance (myPosition s) (senderPos airframe)) in
  total ← lift (rxPower_at s);
  pupd (fun s => set_rxPower (getChannelNumber s) (total + rcvdPower) s);;
  pupd (fun s => s<| recvBuff ::= <[p := rcvdPower]> |>);;
  when (isScheduled PHY_ED_TIMER s)
    (when (rxPeakPower s <? total + rcvdPower) (pupd (fun s => s<| rxPeakPower := total + rcvdPower |>)));;
  if (arrivalTime airframe =? simTime s) && (sensitivity s <=? rcvdPower) && bool_decide (snr_ptr s = None) then
    pupd (fun s => s<| snr_ptr := Some p |><| snr_rcvdPower := rcvdPower |><| snr_sList := [] |>);;
    addNewSnr;;
    setRadioState RECV
  else
    pupd (fun s => s<| noiseLevel ::= Z.add rcvdPower |>);;
    when (bool_decide (snr_ptr s <> None)) addNewSnr;;
    s ← self;
    when ((sensitivity s <=? noiseLevel s) && bool_decide (getState (rs s) = IDLE)) (setRadioState RECV).

Definition bufferMsg (p : positive) : M Radio unit :=
  a ← deref_frame p;
  scheduleAt (arrivalTime a + afDuration a) (PHY_RX_OVER_TIMER p).

(** The pending request, once the radio is free: [confirm] of TRX_OFF at once, of
    another state after the turnaround. *)
Definition switch_when_free : M Radio unit :=
  s ← self;
  when (bool_decide (newState s <> phy_IDLE))
    (pupd (fun s => s<| newState_turnaround := newState s |><| newState := phy_IDLE |>);;
     if bool_decide (newState s = phy_TRX_OFF) then
       pupd (fun s => s<| phyRadioState := phy_TRX_OFF |>);;
       setRadioState SLEEP;;
       PLME_SET_TRX_STATE_confirm phy_TRX_OFF
     else
       pupd (fun s => s<| phyRadioState := phy_TRX_OFF |>);;
       setRadioState SLEEP;;
       when (isScheduled PHY_TRX_TIMER s) (cancelEvent PHY_TRX_TIMER);;
       d ← symbols aTurnaroundTime;
       scheduleAt (simTime s + d) PHY_TRX_TIMER).

(** [recvBuff[airframe]] of a frame that is not there reads 0. *)
Definition power_of (p : positive) (s : Radio) : Z := default 0 (recvBuff s !! p).
Definition delete_frame (p : positive) : M Radio unit := pupd (fun s => s<| airframes ::= delete p |>).

(** The frame being received is over: kind of the frame handed up. *)
Definition received_kind (collision : bool) (s : Radio) (f : Frame) : Frame :=
  if collision then f<| kind := COLLISION |>
  else if isScheduled PHY_CCA_TIMER s then f<| kind := RX_DURING_CCA |> else f.

Definition handleLowerMsgEnd (p : positive) : M Radio unit :=
  s ← self;
  total ← lift (rxPower_at s);
  pupd (fun s => set_rxPower (getChannelNumber s) (total - power_of p s) s);;
  (if bool_decide (snr_ptr s = Some p) then
     airframe ← deref_frame p;
     (if afKind airframe =? BITERROR_FORCE_TRX_OFF then
        pupd (fun s => s<| noiseLevel ::= fun n => n - power_of p s |>)
      else if kind (payload airframe) =? BITERROR_FORCE_TRX_OFF then mret tt
      else
        ok ← lift (isReceivedCorrectly (snirThreshold s) (snr_sList s));
        emit (ToMac_frame (received_kind (negb ok) s (payload airframe))));;
     pupd (fun s => s<| snr_ptr := None |><| snr_sList := [] |>);;
     pupd (fun s => s<| recvBuff ::= delete p |>);;
     delete_frame p
   else
     pupd (fun s => s<| noiseLevel ::= fun n => n - power_of p s |>);;
     pupd (fun s => s<| recvBuff ::= delete p |>);;
     when (bool_decide (snr_ptr s <> None)) addNewSnr;;
     delete_frame p);;
  s ← self;
  when ((noiseLevel s <? sensitivity s) && bool_decide (phyRadioState s = phy_RX_ON) &&
        bool_decide (getState (rs s) = RECV) && bool_decide (snr_ptr s = None))
    (setRadioState IDLE;; switch_when_free).

(** ** Timers *)

Definition handleSelfMsg (t : phy_timer) : M Radio unit :=
  match t with
  | PHY_RX_OVER_TIMER p => handleLowerMsgEnd p
  | PHY_TX_OVER_TIMER =>
      (* the log line reads the name of the copy *)
      s ← self;
      when ev_on (match txPktCopy s with Some _ => mret tt | None => fail (Undefined "txPktCopy is NULL") end);;
      setRadioState IDLE;;
      pupd (fun s => s<| txPktCopy := None |>);;
      PD_DATA_confirm phy_SUCCESS;;
      switch_when_free
  | PHY_CCA_TIMER =>
      s ← self;
      PLME_CCA_confirm
        (if bool_decide (getState (rs s) = IDLE) && isCCAStartIdle s then phy_IDLE else phy_BUSY)
  | PHY_ED_TIMER =>
      s ← self;
      e ← lift (calculateEnergyLevel s);
      PLME_ED_confirm phy_SUCCESS e
  | PHY_TRX_TIMER =>
      pupd (fun s => s<| phyRadioState := newState_turnaround s |>);;
      setRadioState IDLE;;
      s ← self;
      PLME_SET_TRX_STATE_confirm (phyRadioState s)
  end.

(** ** Primitives of the MAC *)

Definition handle_PLME_SET_TRX_STATE_request (setState : PHYenum) : M Radio unit :=
  s ← self;
  let curr_state := phyRadioState s in
  (if bool_decide (newState s <> phy_IDLE) then pupd (fun s => s<| newState := phy_IDLE |>)
   else when (isScheduled PHY_TRX_TIMER s) (cancelEvent PHY_TRX_TIMER));;
  let st := getState (rs s) in
  if bool_decide (setState = curr_state) then PLME_SET_TRX_STATE_confirm curr_state
  else if (bool_decide (setState = phy_RX_ON) || bool_decide (setState = phy_TRX_OFF)) && bool_decide (st = TRANSMIT) then
    pupd (fun s => s<| newState := setState |>);;
    PLME_SET_TRX_STATE_confirm phy_BUSY_TX
  else if (bool_decide (setState = phy_TX_ON) || bool_decide (setState = phy_TRX_OFF)) && bool_decide (st = RECV) then
    pupd (fun s => s<| newState := setState |>);;
    PLME_SET_TRX_STATE_confirm phy_BUSY_RX
  else if bool_decide (setState = phy_FORCE_TRX_OFF) then
    pupd (fun s => s<| phyRadioState := phy_TRX_OFF |>);;
    setRadioState SLEEP;;
    (match snr_ptr s with
     | Some p =>
         a ← deref_frame p;
         pupd (fun s => s<| airframes ::= <[p := a<| afKind := BITERROR_FORCE_TRX_OFF |>]> |>
                         <| noiseLevel ::= Z.add (snr_rcvdPower s) |>)
     | None => mret tt
     end);;
    s ← self;
    when (bool_decide (getState (rs s) = TRANSMIT) && isScheduled PHY_TX_OVER_TIMER s)
      (assert_ (bool_decide (txPktCopy s <> None)) "txPktCopy";;
       cancelEvent PHY_TX_OVER_TIMER;;
       pupd (fun s => s<| txPktCopy := None |>);;
       PD_DATA_confirm phy_TRX_OFF)
  else if (bool_decide (setState = phy_RX_ON) && bool_decide (curr_state = phy_TX_ON)) ||
          (bool_decide (setState = phy_TX_ON) && bool_decide (curr_state = phy_RX_ON)) then
    pupd (fun s => s<| newState_turnaround := setState |>);;
    pupd (fun s => s<| phyRadioState := phy_TRX_OFF |>);;
    setRadioState SLEEP;;
    d ← symbols aTurnaroundTime;
    scheduleAt (simTime s + d) PHY_TRX_TIMER
  else
    pupd (fun s => s<| phyRadioState := setState |>);;
    setRadioState (if bool_decide (setState = phy_TRX_OFF) then SLEEP else IDLE);;
    PLME_SET_TRX_STATE_confirm phy_SUCCESS.

(** The transmissions under way on the new channel: a copy of each, at a fresh
    address. *)
Fixpoint pick_up (newChannel : Z) (tl : list (positive * AirFrame)) : M Radio unit :=
  match tl with
  | [] => mret tt
  | (p, airframe) :: tl' =>
      s ← self;
      let arrival := timestamp airframe + propagationDelay (distance (myPosition s) (senderPos airframe)) in
      when (newChannel =? afChannel airframe)
        (if simTime s <=? arrival then emit (ToSelf airframe (arrival - simTime s))
         else when (simTime s <? arrival + afDuration airframe)
           (pupd (fun s => s<| airframes ::= <[p := airframe<| arrivalTime := arrival |>]> |>);;
            handleLowerMsgStart p;;
            bufferMsg p));;
      pick_up newChannel tl'
  end.

(** Deleting every frame in [recvBuff] with its timer. *)
Definition clear_recvBuff (s : Radio) : Radio :=
  s<| airframes ::= filter (fun x => recvBuff s !! x.1 = None) |>
   <| endRx_timers ::= filter (fun x => recvBuff s !! x.1 = None) |>
   <| recvBuff := ∅ |>.

(** Forgetting the reception under way. *)
Definition drop_reception (s : Radio) : Radio :=
  match snr_ptr s with Some _ => s<| snr_ptr := None |><| snr_sList := [] |> | None => s end.

(** The switch itself. *)
Definition retune (newChannel : Z) (tl : list (positive * AirFrame)) : M Radio unit :=
  s ← self;
  (if bool_decide (getState (rs s) = TRANSMIT) then fail (Thrown "[PHY]: changing channel while txing is not supported")
   else mret tt);;
  setRadioState IDLE;;
  _ ← lift (rxPower_at s);
  pupd (fun s => set_rxPower newChannel 0 (set_rxPower (getChannelNumber s) 0 s));;
  pupd (fun s => s<| noiseLevel := thermalNoise s |>);;
  rate ← lift (getRate "b" newChannel);
  pupd (fun s => s<| rs ::= fun r => r<| getChannel := newChannel |><| getBitrate := rate |> |>);;
  emit (UpdateHostChannel newChannel);;
  pick_up newChannel tl.

Definition changeChannel (newChannel : Z) (tl : list (positive * AirFrame)) : M Radio unit :=
  pupd clear_recvBuff;;
  pupd drop_reception;;
  retune newChannel tl.

Definition handle_PLME_SET_request (attribute : PHYPIBenum) (channel : Z) (tl : list (positive * AirFrame)) : M Radio unit :=
  status ← match attribute with
           | PHY_CURRENT_CHANNEL =>
               if (channel <? 0) || (26 <? channel) then fail (Thrown "[PHY]: channel not supported by IEEE802.15.4")
               else if negb (channelSupported channel) then mret phy_INVALID_PARAMETER
               else
                 s ← self;
                 when (negb (channel =? getChannelNumber s))
                   (changeChannel channel tl;;
                    s ← self;
                    emit (NF_RADIO_CHANNEL_CHANGED (rs s)));;
                 mret phy_SUCCESS
           | _ => mret phy_UNSUPPORT_ATTRIBUTE
           end;
  PLME_SET_confirm status attribute.

Definition handlePrimitive (kind : Z) (status : PHYenum) (attribute : PHYPIBenum) (channel : Z)
    (tl : list (positive * AirFrame)) : M Radio unit :=
  s ← self;
  if kind =? 2 then (* PLME_CCA_REQUEST *)
    if bool_decide (phyRadioState s = phy_RX_ON) then
      (if isScheduled PHY_CCA_TIMER s
       then fail (Thrown "[CCA]: received a PLME_CCA_REQUEST from MAC layer while CCA is running") else mret tt);;
      pupd (fun s => s<| isCCAStartIdle := bool_decide (getState (rs s) = IDLE) |>);;
      d ← symbols 8;
      scheduleAt (simTime s + d) PHY_CCA_TIMER
    else PLME_CCA_confirm (phyRadioState s)
  else if kind =? 4 then (* PLME_ED_REQUEST *)
    if bool_decide (phyRadioState s = phy_RX_ON) then
      peak ← lift (rxPower_at s);
      pupd (fun s => s<| rxPeakPower := peak |>);;
      assert_ (negb (isScheduled PHY_ED_TIMER s)) "!ED_timer->isScheduled()";;
      d ← symbols 8;
      scheduleAt (simTime s + d) PHY_ED_TIMER
    else PLME_ED_confirm (phyRadioState s) 0
  else if kind =? 6 then handle_PLME_SET_TRX_STATE_request status
  else if kind =? 8 then handle_PLME_SET_request attribute channel tl
  else fail (Thrown "[PHY]: unknown primitive received").

(** ** All messages *)

Definition handleMessage (m : phy_msg) : M Radio unit :=
  match m with
  | UpperPrimitive kind status attribute channel tl =>
      if kind =? 0 then fail (Thrown "[PHY]: Message with length==0 is supposed to be a primitive, but msg kind is also zero")
      else handlePrimitive kind status attribute channel tl
  | UpperFrame f =>
      if getBitLength f =? 0 then
        if kind f =? 0 then fail (Thrown "[PHY]: Message with length==0 is supposed to be a primitive, but msg kind is also zero")
        else fail (Thrown "check_and_cast: not an Ieee802154MacPhyPrimitives")
      else a ← encapsulatePacket f; handleUpperMsg a
  | SelfTimer t => handleSelfMsg t
  | LowerAirFrame p a =>
      s ← self;
      if processAirFrame a s then
        if bool_decide (phyRadioState s = phy_RX_ON) then
          pupd (fun s => s<| airframes ::= <[p := a]> |>);;
          handleLowerMsgStart p;;
          bufferMsg p
        else mret tt
      else mret tt
  end.
End phy.
