(* ===== verification/RadioInv.v ===== *)
(** * The state of the PHY over time: invariants of Ieee802154Phy.cc

    The messages a radio handles as a step relation, the invariant of its state,
    and what follows: no handler reads a deleted frame or an empty list, and the
    noise is the sum of the powers in the air. *)

From Stdlib Require Import QArith Qabs.
From S2P Require Import Prelude MacConst MacTypes Radio.

Open Scope string_scope.
Open Scope list_scope.
Open Scope Z_scope.

#[local] Opaque secs.

(** Symbolic execution of the accessors. *)
Ltac prs :=
  repeat (first [ progress unfold self, pupd, emit, setRadioState, cancelEvent, addNewSnr, delete_frame, PD_DATA_confirm,
                    PLME_CCA_confirm, PLME_ED_confirm, PLME_SET_TRX_STATE_confirm, PLME_SET_confirm
                | wpe_step ]; cbv beta; unfold id).

(** The faults a handler may end in: a failed assertion or a thrown error, but no
    undefined behaviour. *)
Definition sound (f : fault) : Prop :=
  match f with Undefined _ | OutOfFuel => False | _ => True end.
#[local] Hint Extern 0 (sound _) => exact I : core.

(** The energy level of [calculateEnergyLevel] is more than an [int] holds. *)
Definition energy_overflow (s : Radio) : Prop := in_int (Z.quot (rxPeakPower s * 128) (sensitivity s)) = false.

(** What a radio [s] may end in while it handles [m]: at the end of an energy
    detection, and only there, the conversion of the energy level may be undefined. *)
Definition sound_for (m : phy_msg) (s : Radio) (f : fault) : Prop :=
  sound f \/ (m = SelfTimer PHY_ED_TIMER /\ energy_overflow s /\ f = Undefined "conversion to int").
Lemma sound_for_sound m s f : sound f -> sound_for m s f.
Proof. by left. Qed.
Lemma sound_for_strict m s f : sound_for m s f -> m <> SelfTimer PHY_ED_TIMER -> sound f.
Proof. intros [?|(-> & _)] Hne; done. Qed.

(** ** Sums of received powers *)

Definition total (m : gmap positive Z) : Z := map_fold (fun _ v z => v + z) 0 m.

Lemma total_empty : total ∅ = 0.
Proof. apply map_fold_empty. Qed.
Lemma total_insert m p v : m !! p = None -> total (<[p := v]> m) = total m + v.
Proof.
  intros Hp. unfold total. rewrite map_fold_insert_L; [lia| |done]. intros. lia.
Qed.
Lemma total_delete m p v : m !! p = Some v -> total (delete p m) = total m - v.
Proof.
  intros Hp. rewrite <- (insert_delete_id m p v Hp) at 2. rewrite total_insert by apply lookup_delete_eq. lia.
Qed.
Lemma total_nonneg m : map_Forall (fun _ v => 0 <= v) m -> 0 <= total m.
Proof.
  induction m as [|p v m Hp IH] using map_ind; [by rewrite total_empty|].
  intros Hm. rewrite total_insert by done. apply map_Forall_insert in Hm as [Hv Hm]; [|done].
  specialize (IH Hm). lia.
Qed.
Lemma total_ge m p v : map_Forall (fun _ v => 0 <= v) m -> m !! p = Some v -> v <= total m.
Proof.
  intros Hm Hp. pose proof (total_delete m p v Hp). pose proof (total_nonneg _ (map_Forall_delete _ _ p Hm)). lia.
Qed.

Section invariant.
Context `{Propagation}.

(** ** The invariant *)

(** A state of the specification's three-state model. *)
Definition trx_state (st : PHYenum) : Prop := st = phy_RX_ON \/ st = phy_TX_ON \/ st = phy_TRX_OFF.

(** The power of the frame that is being received as such: the only one that is
    not noise. *)
Definition marked (p : positive) (s : Radio) : bool :=
  match airframes s !! p with Some a => afKind a =? BITERROR_FORCE_TRX_OFF | None => false end.
Definition signal (s : Radio) : Z :=
  match snr_ptr s with
  | Some p => if marked p s then 0 else snr_rcvdPower s
  | None => 0
  end.

(** The states of the radio, the pending request and the transmission. *)
Record trx_inv (s : Radio) : Prop := {
  ti_three : trx_state (phyRadioState s);
  ti_new : newState s = phy_IDLE \/ trx_state (newState s);
  ti_turn : TRX_timer s <> None ->
    phyRadioState s = phy_TRX_OFF /\ trx_state (newState_turnaround s) /\ newState s = phy_IDLE;
  ti_tx : TxOver_timer s = None <-> txPktCopy s = None;
  ti_transmit : getState (rs s) = TRANSMIT -> phyRadioState s = phy_TX_ON /\ TxOver_timer s <> None;
}.

(** What is in the air; [leak] is what was added to the noise and will not be
    taken off. *)
Record air_inv (leak : Z) (s : Radio) : Prop := {
  ai_channel : 0 <= getChannelNumber s <= 26;
  ai_length : length (rxPower s) = 27%nat;
  ai_rx : rxPower s !! Z.to_nat (getChannelNumber s) = Some (total (recvBuff s));
  ai_noise : noiseLevel s = thermalNoise s + total (recvBuff s) - signal s + leak;
  ai_ptr : forall p, snr_ptr s = Some p -> recvBuff s !! p = Some (snr_rcvdPower s) /\ snr_sList s <> [];
  ai_frames : forall p, is_Some (airframes s !! p) <-> is_Some (recvBuff s !! p);
  ai_ends : forall p, is_Some (endRx_timers s !! p) <-> is_Some (recvBuff s !! p);
  ai_powers : map_Forall (fun _ v => 0 <= v) (recvBuff s);
}.

Record phy_inv (leak : Z) (s : Radio) : Prop := { pi_trx : trx_inv s; pi_air : air_inv leak s }.

(** The fields that are about the air. *)
Definition air (s : Radio) :=
  (getChannelNumber s, rxPower s, noiseLevel s, thermalNoise s, snr_ptr s, snr_rcvdPower s, snr_sList s, recvBuff s,
   airframes s, endRx_timers s).

Lemma air_same leak s s' : air_inv leak s -> air s' = air s -> air_inv leak s'.
Proof.
  intros [I1 I2 I3 I4 I5 I6 I7 I8] [= E1 E2 E3 E4 E5 E6 E7 E8 E9 E10].
  split; unfold signal, marked; rewrite ?E1, ?E2, ?E3, ?E4, ?E5, ?E6, ?E7, ?E8, ?E9, ?E10; done.
Qed.

(** The part of the states, from the invariant [I] of an earlier state. *)
Ltac keep_trx I :=
  let Ti1 := fresh "Ti" in let Ti2 := fresh "Ti" in let Ti3 := fresh "Ti" in let Ti4 := fresh "Ti" in let Ti5 := fresh "Ti" in
  pose proof (pi_trx _ _ I) as [Ti1 Ti2 Ti3 Ti4 Ti5]; split; psimp;
  try (first [by auto | by left | by right; right | by right; left | by intros ? | by right]).
Ltac keep_air I := split; [keep_trx I|eapply air_same; [exact (pi_air _ _ I)|done]].

Lemma inv_time leak s t : phy_inv leak s -> phy_inv leak (s<| simTime := t |>).
Proof. intros I. keep_air I. Qed.

(** Symbolic execution of a handler that leaves the air alone, up to the goals
    about its final state. *)
Lemma wpe_scheduleAt at_ t s (Q : unit -> Radio -> Prop) :
  (timer_at t s = None -> Q tt (set_timer t (Some at_) s)) -> wpe sound (scheduleAt at_ t) Q s.
Proof.
  intros HQ. unfold scheduleAt. prs. destruct (_ <? _); [done|]. unfold isScheduled.
  destruct (timer_at t s); [done|]. prs. by apply HQ.
Qed.

Lemma wpe_symbols n s (Q : Z -> Radio -> Prop) : (forall d, Q d s) -> wpe sound (symbols n) Q s.
Proof.
  intros HQ. unfold symbols. prs. destruct (getRate _ _) eqn:E; [prs; apply HQ|].
  unfold getRate in E. repeat (destruct (_ : bool); [done|]). by injection E as <-.
Qed.

Lemma inv_switch_when_free leak s :
  phy_inv leak s -> getState (rs s) <> TRANSMIT ->
  wpe sound switch_when_free (fun _ s' => phy_inv leak s' /\ simTime s' = simTime s) s.
Proof.
  intros I Hst. unfold switch_when_free. prs; psimp; [|by split].
  apply bool_decide_eq_true_1 in H0. destruct (ti_new _ (pi_trx _ _ I)) as [|Hn]; [done|].
  assert (HT : TRX_timer s = None) by (destruct (TRX_timer s) eqn:E; [|done]; destruct (ti_turn _ (pi_trx _ _ I)); [by rewrite E|]; naive_solver).
  case_bool_decide; prs.
  - split; [|done]. keep_air I.
  - all: apply wpe_symbols; intros d; apply wpe_scheduleAt; intros _; (split; [|done]); cbn [set_timer]; keep_air I.
  - all: apply wpe_symbols; intros d; apply wpe_scheduleAt; intros _; (split; [|done]); cbn [set_timer]; keep_air I.
Qed.

(** A request of the MAC for one of the states of the specification. *)
Definition legal_request (st : PHYenum) : Prop := trx_state st \/ st = phy_FORCE_TRX_OFF.

(** A new request takes the place of an earlier one. *)
Definition cleared (s : Radio) : Radio := s<| newState := phy_IDLE |><| TRX_timer := None |>.

Lemma cleared_same s : newState s = phy_IDLE -> TRX_timer s = None -> cleared s = s.
Proof. intros E1 E2. unfold cleared, set_. cbn. by rewrite <- E1, <- E2. Qed.

Lemma run_clear leak s :
  phy_inv leak s ->
  (if bool_decide (newState s <> phy_IDLE) then pupd (fun s => s<| newState := phy_IDLE |>)
   else when (isScheduled PHY_TRX_TIMER s) (cancelEvent PHY_TRX_TIMER)) s = Ok (tt, cleared s).
Proof.
  intros I. case_bool_decide as Hn.
  - assert (HT : TRX_timer s = None).
    { destruct (TRX_timer s) eqn:E; [|done]. destruct (ti_turn _ (pi_trx _ _ I)) as (_ & _ & ?); [by rewrite E|done]. }
    unfold pupd, modify, cleared, set_. cbn. by rewrite HT.
  - unfold when, isScheduled, cancelEvent, pupd, modify. case_bool_decide as HT; cbn in HT.
    + unfold set_timer, cleared, set_. cbn. by rewrite Hn.
    + rewrite cleared_same; [done|done|]. destruct (TRX_timer s); [by destruct HT|done].
Qed.

Lemma inv_cleared leak s : phy_inv leak s -> phy_inv leak (cleared s).
Proof. intros I. unfold cleared. keep_air I. Qed.

(** Up to the case distinction, in the cleared state. *)
Ltac enter_request I :=
  unfold handle_PLME_SET_TRX_STATE_request; prs;
  match type of I with phy_inv _ ?s =>
    apply (wpe_eq _ _ _ _ tt (cleared s)); [by eapply run_clear|]; apply inv_cleared in I;
    change (getState (rs s)) with (getState (rs (cleared s))); change (phyRadioState s) with (phyRadioState (cleared s));
    change (snr_ptr s) with (snr_ptr (cleared s)); change (simTime s) with (simTime (cleared s));
    assert (newState (cleared s) = phy_IDLE) by done; assert (TRX_timer (cleared s) = None) by done;
    generalize dependent (cleared s); intros c I ??
  end.

Lemma inv_trx_request leak st s :
  phy_inv leak s -> trx_state st ->
  wpe sound (handle_PLME_SET_TRX_STATE_request st) (fun _ s' => phy_inv leak s') s.
Proof.
  intros I Hst. enter_request I.
  assert (bool_decide (st = phy_FORCE_TRX_OFF) = false) as -> by (apply bool_decide_eq_false_2; by destruct Hst as [->|[->| ->]]).
  repeat match goal with |- wpe _ (if ?b then _ else _) _ _ => destruct b eqn:? end; prs.
  all: try (apply wpe_symbols; intros d; apply wpe_scheduleAt; intros _; cbn [set_timer]).
  all: keep_air I. by destruct (bool_decide (st = phy_TRX_OFF)).
Qed.

(** Receiving a frame that was marked already, when the radio is forced off. *)
Definition again (s : Radio) : bool := match snr_ptr s with Some p => marked p s | None => false end.

Lemma air_mark leak s s' p a :
  air_inv leak s -> snr_ptr s = Some p -> airframes s !! p = Some a ->
  air s' = (getChannelNumber s, rxPower s, snr_rcvdPower s + noiseLevel s, thermalNoise s, snr_ptr s, snr_rcvdPower s,
            snr_sList s, recvBuff s, <[p := a<| afKind := BITERROR_FORCE_TRX_OFF |>]> (airframes s), endRx_timers s) ->
  air_inv (leak + if again s then snr_rcvdPower s else 0) s'.
Proof.
  intros [I1 I2 I3 I4 I5 I6 I7 I8] Hp Ha [= E1 E2 E3 E4 E5 E6 E7 E8 E9 E10].
  split; rewrite ?E1, ?E2, ?E4, ?E5, ?E6, ?E7, ?E8, ?E10; try done.
  - rewrite E3, I4. unfold again, signal, marked. rewrite E5, E6, E9, Hp, lookup_insert_eq, Ha. cbn.
    destruct (afKind a =? _); lia.
  - intros q. rewrite E9, <- I6. destruct (decide (p = q)) as [<-|]; [rewrite lookup_insert_eq, Ha; naive_solver|].
    by rewrite lookup_insert_ne.
Qed.

Lemma inv_force leak s :
  phy_inv leak s ->
  wpe sound (handle_PLME_SET_TRX_STATE_request phy_FORCE_TRX_OFF)
    (fun _ s' => phy_inv (leak + if again s then snr_rcvdPower s else 0) s') s.
Proof.
  intros I. change (again s) with (again (cleared s)). change (snr_rcvdPower s) with (snr_rcvdPower (cleared s)).
  enter_request I.
  rewrite (bool_decide_false (phy_FORCE_TRX_OFF = phyRadioState c)) by (by destruct (ti_three _ (pi_trx _ _ I)) as [->|[->| ->]]).
  rewrite (bool_decide_false (phy_FORCE_TRX_OFF = phy_RX_ON)), (bool_decide_false (phy_FORCE_TRX_OFF = phy_TX_ON)),
    (bool_decide_false (phy_FORCE_TRX_OFF = phy_TRX_OFF)), (bool_decide_true (phy_FORCE_TRX_OFF = phy_FORCE_TRX_OFF)) by done.
  cbn [orb andb]. prs. psimp. destruct (snr_ptr c) as [p|] eqn:Hp.
  - destruct (ai_ptr _ _ (pi_air _ _ I) p Hp) as [Hr _]. unfold deref_frame. prs. psimp.
    destruct (proj2 (ai_frames _ _ (pi_air _ _ I) p) ltac:(by eauto)) as [a Ha]. rewrite Ha. prs; psimp; try done.
    split; [keep_trx I|]. by eapply air_mark; [exact (pi_air _ _ I)|..].
  - prs; psimp; try done. unfold again. rewrite Hp, Z.add_0_r. keep_air I.
Qed.

(** ** A frame arrives *)

Lemma rx_slot leak s : air_inv leak s -> rxPower_at s = Ok (total (recvBuff s)).
Proof.
  intros I. unfold rxPower_at. pose proof (ai_channel _ _ I) as Hc. rewrite (proj2 (Z.leb_le 0 _)), (proj2 (Z.ltb_lt _ 27)) by lia.
  cbn [andb]. by rewrite (ai_rx _ _ I).
Qed.

Lemma rx_set leak s v :
  air_inv leak s -> <[Z.to_nat (getChannelNumber s) := v]> (rxPower s) !! Z.to_nat (getChannelNumber s) = Some v.
Proof.
  intros I. apply list_lookup_insert_eq. rewrite (ai_length _ _ I). pose proof (ai_channel _ _ I). lia.
Qed.

Lemma absent leak s p : air_inv leak s -> airframes s !! p = None -> recvBuff s !! p = None.
Proof.
  intros I Hp. apply eq_None_not_Some. intros Hr. apply (ai_frames _ _ I) in Hr. rewrite Hp in Hr. by destruct Hr.
Qed.

Lemma insert_dom {A B} (m : gmap positive A) (m' : gmap positive B) p x y :
  (forall q, is_Some (m !! q) <-> is_Some (m' !! q)) ->
  forall q, is_Some (<[p := x]> m !! q) <-> is_Some (<[p := y]> m' !! q).
Proof.
  intros Hm q. destruct (decide (p = q)) as [<-|Hne]; [rewrite !lookup_insert_eq; naive_solver|].
  by rewrite !lookup_insert_ne.
Qed.
Lemma delete_dom {A B} (m : gmap positive A) (m' : gmap positive B) p :
  (forall q, is_Some (m !! q) <-> is_Some (m' !! q)) ->
  forall q, is_Some (delete p m !! q) <-> is_Some (delete p m' !! q).
Proof.
  intros Hm q. destruct (decide (p = q)) as [<-|Hne].
  - rewrite !lookup_delete_eq. by split; intros [? ?].
  - by rewrite !lookup_delete_ne.
Qed.

(** The frame becomes the signal, or adds to the noise. *)
Lemma air_signal leak s s' p a v t l :
  air_inv leak s -> airframes s !! p = None -> snr_ptr s = None -> (afKind a =? BITERROR_FORCE_TRX_OFF) = false ->
  0 <= v -> l <> [] ->
  air s' = (getChannelNumber s, <[Z.to_nat (getChannelNumber s) := total (recvBuff s) + v]> (rxPower s), noiseLevel s, thermalNoise s,
            Some p, v, l, <[p := v]> (recvBuff s), <[p := a]> (airframes s), <[p := t]> (endRx_timers s)) ->
  air_inv leak s'.
Proof.
  intros I Hp Hn Ha Hv Hl [= E1 E2 E3 E4 E5 E6 E7 E8 E9 E10]. pose proof (absent _ _ _ I Hp) as Hb.
  split; rewrite ?E1, ?E2, ?E4, ?E5, ?E6, ?E7, ?E8, ?E9, ?E10.
  - apply I.
  - rewrite length_insert. apply I.
  - rewrite total_insert by done. by eapply rx_set.
  - rewrite E3, (ai_noise _ _ I), total_insert by done. unfold signal, marked.
    rewrite E5, E6, E9, Hn, lookup_insert_eq, Ha. lia.
  - intros q [= <-]. by rewrite lookup_insert_eq.
  - apply insert_dom, I.
  - apply insert_dom, I.
  - apply map_Forall_insert_2; [done|apply I].
Qed.

Lemma air_noise leak s s' p a v t l :
  air_inv leak s -> airframes s !! p = None -> 0 <= v -> (snr_ptr s <> None -> l <> []) ->
  air s' = (getChannelNumber s, <[Z.to_nat (getChannelNumber s) := total (recvBuff s) + v]> (rxPower s), v + noiseLevel s, thermalNoise s,
            snr_ptr s, snr_rcvdPower s, l, <[p := v]> (recvBuff s), <[p := a]> (airframes s), <[p := t]> (endRx_timers s)) ->
  air_inv leak s'.
Proof.
  intros I Hp Hv Hl [= E1 E2 E3 E4 E5 E6 E7 E8 E9 E10]. pose proof (absent _ _ _ I Hp) as Hb.
  assert (Hq : forall q, snr_ptr s = Some q -> p <> q).
  { intros q Hq ->. destruct (ai_ptr _ _ I q Hq). congruence. }
  split; rewrite ?E1, ?E2, ?E4, ?E5, ?E6, ?E7, ?E8, ?E9, ?E10.
  - apply I.
  - rewrite length_insert. apply I.
  - rewrite total_insert by done. by eapply rx_set.
  - rewrite E3, (ai_noise _ _ I), total_insert by done. unfold signal, marked. rewrite E5, E6, E9.
    destruct (snr_ptr s) as [q|] eqn:Eq; [|lia]. rewrite lookup_insert_ne by (by apply Hq). lia.
  - intros q Eq. rewrite lookup_insert_ne by (by apply Hq). split; [by apply I|]. apply Hl. by rewrite Eq.
  - apply insert_dom, I.
  - apply insert_dom, I.
  - apply map_Forall_insert_2; [done|apply I].
Qed.

Lemma wpe_peak E b c v s (Q : unit -> Radio -> Prop) :
  (forall x, Q tt (s<| rxPeakPower := x |>)) -> wpe E (when b (when c (pupd (fun s => s<| rxPeakPower := v |>)))) Q s.
Proof. intros HQ. prs; [apply HQ|exact (HQ (rxPeakPower s))..]. Qed.

Lemma wpe_bufferMsg p a s (Q : unit -> Radio -> Prop) :
  airframes s !! p = Some a ->
  (forall t, Q tt (s<| endRx_timers ::= <[p := t]> |>)) -> wpe sound (bufferMsg p) Q s.
Proof.
  intros Ha HQ. unfold bufferMsg, deref_frame. prs. rewrite Ha. prs. apply wpe_scheduleAt. intros _. apply HQ.
Qed.

Lemma snoc_ne {A} (l : list A) x : l ++ [x] <> [].
Proof. by destruct l. Qed.

Context (Hpower : forall p f d, 0 <= calculateReceivedPower p f d).
#[local] Set Default Proof Using "All".

Lemma inv_arrives leak p a s :
  phy_inv leak s -> airframes s !! p = None -> (afKind a =? BITERROR_FORCE_TRX_OFF) = false ->
  wpe sound (handleLowerMsgStart p;; bufferMsg p)
    (fun _ s' => phy_inv leak s' /\ airframes s' = <[p := a]> (airframes s))
    (s<| airframes ::= <[p := a]> |>).
Proof.
  intros I Hp Ha. pose proof (pi_air _ _ I) as IA. unfold handleLowerMsgStart.
  apply wpe_bind, wpe_bind. unfold deref_frame. prs. psimp. rewrite lookup_insert_eq. prs.
  set (v := calculateReceivedPower _ _ _). assert (0 <= v) as Hv by apply Hpower. clearbody v.
  change (rxPower_at _) with (rxPower_at s). rewrite (rx_slot _ _ IA). do 2 apply wpe_bind, wpe_modify.
  apply wpe_bind, wpe_peak. intros x. unfold set_rxPower. psimp. change (getChannelNumber _) with (getChannelNumber s).
  destruct (_ && _) eqn:E; [apply andb_prop in E as [_ E%bool_decide_eq_true_1]|]; prs;
    try (eapply wpe_bufferMsg; [psimp; apply lookup_insert_eq|]); intros t; (split; [split; [keep_trx I|]|done]).
  - eapply air_signal; [exact IA|exact Hp|exact E|exact Ha|exact Hv| |reflexivity]. done.
  - eapply air_noise; [exact IA|exact Hp|exact Hv| |reflexivity]. intros _. apply snoc_ne.
  - eapply air_noise; [exact IA|exact Hp|exact Hv| |reflexivity]. intros _. apply snoc_ne.
  - eapply air_noise; [exact IA|exact Hp|exact Hv| |reflexivity]. intros Hx. by apply bool_decide_eq_false_1 in H0.
  - eapply air_noise; [exact IA|exact Hp|exact Hv| |reflexivity]. intros Hx. by apply bool_decide_eq_false_1 in H0.
Qed.

(** ** A frame is over *)

Lemma total_deleted m p v : m !! p = Some v -> total m - v = total (delete p m).
Proof. intros Hm. by rewrite (total_delete m p v). Qed.

Lemma air_over_signal leak s s' p v n :
  air_inv leak s -> recvBuff s !! p = Some v -> snr_ptr s = Some p ->
  n = (if marked p s then noiseLevel s - v else noiseLevel s) ->
  air s' = (getChannelNumber s, <[Z.to_nat (getChannelNumber s) := total (recvBuff s) - v]> (rxPower s), n, thermalNoise s,
            None, snr_rcvdPower s, [], delete p (recvBuff s), delete p (airframes s), delete p (endRx_timers s)) ->
  air_inv leak s'.
Proof.
  intros I Hv Hp -> [= E1 E2 E3 E4 E5 E6 E7 E8 E9 E10]. destruct (ai_ptr _ _ I p Hp) as [Hr _].
  assert (v = snr_rcvdPower s) as -> by congruence.
  split; rewrite ?E1, ?E2, ?E4, ?E5, ?E6, ?E7, ?E8, ?E9, ?E10; try done.
  - apply I.
  - rewrite length_insert. apply I.
  - rewrite (total_deleted _ _ _ Hr). by eapply rx_set.
  - rewrite E3, (ai_noise _ _ I), <- (total_deleted _ _ _ Hr). unfold signal. rewrite E5, Hp. destruct (marked p s); lia.
  - apply delete_dom, I.
  - apply delete_dom, I.
  - apply map_Forall_delete, I.
Qed.

Lemma air_over_noise leak s s' p v l :
  air_inv leak s -> recvBuff s !! p = Some v -> snr_ptr s <> Some p -> (snr_ptr s <> None -> l <> []) ->
  air s' = (getChannelNumber s, <[Z.to_nat (getChannelNumber s) := total (recvBuff s) - v]> (rxPower s), noiseLevel s - v, thermalNoise s,
            snr_ptr s, snr_rcvdPower s, l, delete p (recvBuff s), delete p (airframes s), delete p (endRx_timers s)) ->
  air_inv leak s'.
Proof.
  intros I Hv Hp Hl [= E1 E2 E3 E4 E5 E6 E7 E8 E9 E10].
  assert (Hq : forall q, snr_ptr s = Some q -> p <> q) by (intros q Hq ->; by rewrite Hq in Hp).
  split; rewrite ?E1, ?E2, ?E4, ?E5, ?E6, ?E7, ?E8, ?E9, ?E10.
  - apply I.
  - rewrite length_insert. apply I.
  - rewrite (total_deleted _ _ _ Hv). by eapply rx_set.
  - rewrite E3, (ai_noise _ _ I), <- (total_deleted _ _ _ Hv). unfold signal, marked. rewrite E5, E6, E9.
    destruct (snr_ptr s) as [q|] eqn:Eq; [|lia]. rewrite lookup_delete_ne by (by apply Hq). lia.
  - intros q Eq. rewrite lookup_delete_ne by (by apply Hq). split; [by apply I|]. apply Hl. by rewrite Eq.
  - apply delete_dom, I.
  - apply delete_dom, I.
  - apply map_Forall_delete, I.
Qed.

Lemma received_ok l th : l <> [] -> exists b, isReceivedCorrectly th l = Ok b.
Proof. destruct l; [done|]. unfold isReceivedCorrectly. cbn. eauto. Qed.

Lemma inv_over leak p t s :
  phy_inv leak s -> endRx_timers s !! p = Some t ->
  wpe sound (handleLowerMsgEnd p) (fun _ s' => phy_inv leak s') (set_timer (PHY_RX_OVER_TIMER p) None s).
Proof.
  intros I Ht. pose proof (pi_air _ _ I) as IA.
  destruct (proj1 (ai_ends _ _ IA p) ltac:(by eauto)) as [v Hv].
  destruct (proj2 (ai_frames _ _ IA p) ltac:(by eauto)) as [a Ha].
  unfold handleLowerMsgEnd. apply wpe_bind, wpe_gets, wpe_bind, wpe_lift.
  change (rxPower_at _) with (rxPower_at s). rewrite (rx_slot _ _ IA). apply wpe_bind, wpe_modify. apply wpe_bind.
  eapply (wpe_mono _ _ (fun _ s' => phy_inv leak s')).
  2:{ intros [] s1 I1. apply wpe_bind, wpe_gets. apply wpe_when; [|done]. intros _. apply wpe_bind. prs.
      eapply wpe_mono; [apply inv_switch_when_free|by intros ? ? []]; [|done]. keep_air I1. }
  unfold set_rxPower, power_of. cbn [set_timer]. psimp. change (getChannelNumber _) with (getChannelNumber s).
  rewrite Hv. cbn [default].
  destruct (bool_decide _) eqn:E; [apply bool_decide_eq_true_1 in E|apply bool_decide_eq_false_1 in E].
  - destruct (ai_ptr _ _ IA p E) as [Hr Hl]. unfold deref_frame. prs. psimp. rewrite Ha. prs.
    assert (Hm : marked p s = (afKind a =? BITERROR_FORCE_TRX_OFF)) by (unfold marked; by rewrite Ha).
    destruct (afKind a =? BITERROR_FORCE_TRX_OFF); [|destruct (kind (payload a) =? BITERROR_FORCE_TRX_OFF)]; prs; psimp.
    3: destruct (received_ok (snr_sList s) (snirThreshold s) Hl) as [b ->]; prs; psimp.
    all: split; [keep_trx I|eapply (air_over_signal leak s _ p v); [exact IA|exact Hv|exact E| |]]; [rewrite Hm|]; try reflexivity.
    unfold air. psimp. by rewrite Hv.
  - prs; psimp.
    all: split; [keep_trx I|eapply (air_over_noise leak s _ p v); [exact IA|exact Hv|exact E| |unfold air; psimp; by rewrite Hv]].
    + intros _. apply snoc_ne.
    + intros Hx. by apply bool_decide_eq_false_1 in H0.
Qed.

(** ** The other timers and the frames of the MAC *)

(** A timer that expires is no longer scheduled. *)
Definition expired (t : phy_timer) (at_ : Z) (s : Radio) : Radio := set_timer t None (s<| simTime := at_ |>).

Lemma inv_timer leak t at_ s :
  phy_inv leak s -> timer_at t s = Some at_ ->
  wpe (sound_for (SelfTimer t) s) (handleSelfMsg t) (fun _ s' => phy_inv leak s') (expired t at_ s).
Proof.
  intros I Ht. unfold expired. destruct t; cbn [set_timer handleSelfMsg].
  2:{ prs. unfold calculateEnergyLevel. destruct (in_int _) eqn:Ei; [|right; done]. prs. keep_air I. }
  all: eapply wpe_weaken; [|intros f Hf; exact (sound_for_sound _ _ f Hf)].
  - prs. keep_air I.
  - prs. cbn in Ht. destruct (ti_turn _ (pi_trx _ _ I)) as (H1 & H2 & H3); [by rewrite Ht|]. keep_air I.
  - cbn in Ht. prs; psimp.
    + destruct (txPktCopy s) eqn:Ec; [|exfalso; destruct (ti_tx _ (pi_trx _ _ I)) as [_ Hx]; rewrite Hx in Ht; done]. prs.
      eapply wpe_mono; [apply inv_switch_when_free|by intros ? ? []]; [|done]. keep_air I.
    + eapply wpe_mono; [apply inv_switch_when_free|by intros ? ? []]; [|done]. keep_air I.
  - eapply inv_over; [|exact Ht]. keep_air I.
Qed.

Lemma inv_upper_frame leak f s :
  phy_inv leak s -> wpe sound (a ← encapsulatePacket f; handleUpperMsg a) (fun _ s' => phy_inv leak s') s.
Proof.
  intros I. unfold encapsulatePacket, handleUpperMsg. prs. destruct (bool_decide _) eqn:E; [|done].
  apply bool_decide_eq_true_1 in E. prs; try done. destruct (isScheduled _ _); [done|]. apply wpe_scheduleAt. intros _.
  cbn [set_timer]. prs. keep_air I.
Qed.

(** ** Primitives of the MAC *)

Definition unmarked (a : AirFrame) : Prop := (afKind a =? BITERROR_FORCE_TRX_OFF) = false.

Lemma inv_pick_up leak ch tl : forall s,
  phy_inv leak s -> NoDup tl.*1 -> Forall (fun x => airframes s !! x.1 = None /\ unmarked x.2) tl ->
  wpe sound (pick_up ch tl) (fun _ s' => phy_inv leak s') s.
Proof.
  induction tl as [|[p a] tl IH]; intros s I Hd Hf; cbn [pick_up]; [by apply wpe_ret|].
  apply NoDup_cons in Hd as [Hp Hd]. apply Forall_cons in Hf as [[Hfp Ha] Hf].
  apply wpe_bind, wpe_gets, wpe_bind.
  eapply (wpe_mono _ _ (fun _ s' => phy_inv leak s' /\ forall q, q <> p -> airframes s' !! q = airframes s !! q)).
  - apply wpe_when; [|done]. intros _. destruct (_ <=? _).
    + prs. split; [keep_air I|done].
    + apply wpe_when; [|done]. intros _. apply wpe_bind, wpe_modify. unfold id.
      eapply wpe_mono; [by apply (inv_arrives leak p); [exact I|exact Hfp|exact Ha]|].
      intros [] s' [I' Hf']. split; [done|]. intros q Hq. by rewrite Hf', lookup_insert_ne.
  - intros [] s' [I' Hf']. apply IH; [done|done|]. rewrite Forall_forall in Hf |- *. intros x Hx.
    destruct (Hf x Hx). split; [|done]. rewrite Hf'; [done|]. intros E. apply Hp. rewrite <- E. apply list_elem_of_fmap. by exists x.
Qed.

Lemma cleared_map {A} (m : gmap positive A) (b : gmap positive Z) :
  (forall p, is_Some (m !! p) <-> is_Some (b !! p)) -> filter (fun x => b !! x.1 = None) m = ∅.
Proof.
  intros Hm. apply map_empty. intros p. apply map_lookup_filter_None. destruct (m !! p) eqn:E; [right|by left].
  intros x Hx. cbn. intros Hb. destruct (proj1 (Hm p) ltac:(by eauto)). congruence.
Qed.

Lemma air_reset s s' ch l sl :
  0 <= ch <= 26 -> length l = 27%nat ->
  air s' = (ch, <[Z.to_nat ch := 0]> l, thermalNoise s, thermalNoise s, None, snr_rcvdPower s, sl, ∅, ∅, ∅) -> air_inv 0 s'.
Proof.
  intros Hc Hl [= E1 E2 E3 E4 E5 E6 E7 E8 E9 E10].
  split; rewrite ?E1, ?E2, ?E4, ?E5, ?E6, ?E7, ?E8, ?E9, ?E10; try done.
  - by rewrite length_insert.
  - rewrite total_empty. apply list_lookup_insert_eq. lia.
  - rewrite E3, total_empty. unfold signal. rewrite E5. lia.
  - intros p. rewrite !lookup_empty. by split; intros [].
Qed.

Lemma inv_retune ch tl s :
  trx_inv s -> 0 <= getChannelNumber s <= 26 -> length (rxPower s) = 27%nat ->
  recvBuff s = ∅ -> airframes s = ∅ -> endRx_timers s = ∅ -> snr_ptr s = None ->
  0 <= ch <= 26 -> NoDup tl.*1 -> Forall (fun x => unmarked x.2) tl ->
  wpe sound (retune ch tl) (fun _ s' => phy_inv 0 s') s.
Proof.
  intros Ti Hch Hlen Hb Hfr He Hp Hc Hd Hf. unfold retune. apply wpe_bind, wpe_gets. unfold id. apply wpe_bind.
  destruct (bool_decide (getState (rs s) = TRANSMIT)); [by apply wpe_fail|]. prs.
  unfold rxPower_at. rewrite (proj2 (Z.leb_le 0 _)), (proj2 (Z.ltb_lt _ 27)) by lia. cbn [andb].
  destruct (lookup_lt_is_Some_2 (rxPower s) (Z.to_nat (getChannelNumber s))) as [v Hv]; [lia|]. rewrite Hv. prs.
  destruct (getRate "b" ch) as [rate|] eqn:Er.
  2:{ exfalso. unfold getRate in Er. destruct (ch =? 0), (ch <=? 10); try done. by rewrite (proj2 (Z.leb_le ch 26)) in Er by lia. }
  prs. apply inv_pick_up; [|done|].
  - split; [destruct Ti; by split|]. eapply (air_reset s _ ch _ (snr_sList s)); [exact Hc| |].
    2:{ unfold set_rxPower, air. psimp. rewrite Hb, Hfr, He, Hp. reflexivity. }
    by rewrite length_insert.
  - unfold set_rxPower. psimp. rewrite Hfr. eapply Forall_impl; [exact Hf|]. intros x Hx. by rewrite lookup_empty.
Qed.

Lemma inv_changeChannel leak ch tl s :
  phy_inv leak s -> 0 <= ch <= 26 -> NoDup tl.*1 -> Forall (fun x => unmarked x.2) tl ->
  wpe sound (changeChannel ch tl) (fun _ s' => phy_inv 0 s') s.
Proof.
  intros I Hc Hd Hf. pose proof (pi_air _ _ I) as IA. unfold changeChannel. do 2 apply wpe_bind, wpe_modify.
  pose proof (cleared_map (airframes s) (recvBuff s) (ai_frames _ _ IA)) as E1.
  pose proof (cleared_map (endRx_timers s) (recvBuff s) (ai_ends _ _ IA)) as E2.
  unfold drop_reception. change (snr_ptr (clear_recvBuff s)) with (snr_ptr s).
  destruct (snr_ptr s) eqn:Ep; (apply inv_retune; [destruct (pi_trx _ _ I); by split|apply IA|apply IA|done|..]; done).
Qed.

(** The messages that may arrive: requests for states of the specification,
    frames from the channel at an address of their own and as their sender made
    them. *)
Definition admissible (m : phy_msg) (s : Radio) : Prop :=
  match m with
  | UpperPrimitive k st _ _ tl => (k = 6 -> legal_request st) /\ NoDup tl.*1 /\ Forall (fun x => unmarked x.2) tl
  | UpperFrame _ => True
  | LowerAirFrame p a => airframes s !! p = None /\ unmarked a
  | SelfTimer _ => False
  end.
(** The radio is forced off for the second time while the same frame is in the
    air. *)
Definition forced_again (m : phy_msg) (s : Radio) : bool :=
  match m with
  | UpperPrimitive 6 phy_FORCE_TRX_OFF _ _ _ => again s
  | _ => false
  end.

Lemma inv_primitive leak k st at_ ch tl s :
  phy_inv leak s -> 0 <= leak -> (k = 6 -> legal_request st) -> NoDup tl.*1 -> Forall (fun x => unmarked x.2) tl ->
  wpe sound (handlePrimitive k st at_ ch tl)
    (fun _ s' => exists leak', 0 <= leak' /\ phy_inv leak' s' /\
       (forced_again (UpperPrimitive k st at_ ch tl) s = false -> leak = 0 -> leak' = 0)) s.
Proof.
  intros I Hleak Hst Hd Hf. pose proof (pi_air _ _ I) as IA. unfold handlePrimitive. apply wpe_bind, wpe_gets. unfold id.
  assert (Hkeep : forall s', phy_inv leak s' -> exists leak', 0 <= leak' /\ phy_inv leak' s' /\
    (forced_again (UpperPrimitive k st at_ ch tl) s = false -> leak = 0 -> leak' = 0)) by (intros s' I'; exists leak; auto).
  destruct (k =? 2).
  { destruct (bool_decide _); [|prs; apply Hkeep; keep_air I]. destruct (isScheduled _ _); [by prs|]. prs.
    apply wpe_symbols. intros d. apply wpe_scheduleAt. intros _. apply Hkeep. cbn [set_timer]. keep_air I. }
  destruct (k =? 4).
  { destruct (bool_decide _); [|prs; apply Hkeep; keep_air I]. prs. rewrite (rx_slot _ _ IA). prs; try done.
    apply wpe_symbols. intros d. apply wpe_scheduleAt. intros _. apply Hkeep. cbn [set_timer]. keep_air I. }
  destruct (Z.eqb_spec k 6) as [->|_].
  { destruct (Hst eq_refl) as [Ht| ->]; [eapply wpe_mono; [by apply (inv_trx_request leak)|]; intros [] s' I'; by apply Hkeep|].
    eapply wpe_mono; [by apply (inv_force leak)|]. intros [] s' I'. eexists. split; [|split; [exact I'|]]; cbn.
    - destruct (again s) eqn:Ea; [|lia]. unfold again in Ea. destruct (snr_ptr s) as [p|] eqn:Ep; [|done].
      destruct (ai_ptr _ _ IA p Ep) as [Hr _]. pose proof (ai_powers _ _ IA p _ Hr) as Hx. cbn in Hx. lia.
    - intros -> ->. lia. }
  destruct (k =? 8); [|by prs]. unfold handle_PLME_SET_request. apply wpe_bind.
  eapply (wpe_mono _ _ (fun _ s' => phy_inv leak s' \/ phy_inv 0 s')).
  - destruct at_; try (prs; by left). destruct (_ || _) eqn:Ec; [by apply wpe_fail|]. apply orb_false_elim in Ec as [E1 E2].
    destruct (negb _); [prs; by left|]. apply wpe_bind, wpe_gets, wpe_bind, wpe_when; [|intros _; prs; by left].
    intros _. apply wpe_bind. eapply wpe_mono; [apply (inv_changeChannel leak); [exact I|lia|done|done]|].
    intros [] s1 I1. prs. right. keep_air I1.
  - intros status s1 [I1|I1]; prs; [apply Hkeep; keep_air I1|]. exists 0. split; [done|]. split; [keep_air I1|done].
Qed.

Lemma inv_message leak m s :
  phy_inv leak s -> 0 <= leak -> admissible m s ->
  wpe sound (handleMessage m)
    (fun _ s' => exists leak', 0 <= leak' /\ phy_inv leak' s' /\ (forced_again m s = false -> leak = 0 -> leak' = 0)) s.
Proof.
  intros I Hleak Ha. unfold handleMessage. destruct m as [k st at_ ch tl|f|t|p a]; cbn in Ha.
  - destruct (k =? 0); [by apply wpe_fail|]. destruct Ha as (? & ? & ?). by apply (inv_primitive leak).
  - destruct (getBitLength f =? 0); [destruct (kind f =? 0); by apply wpe_fail|].
    eapply wpe_mono; [by apply (inv_upper_frame leak)|]. intros [] s' I'. exists leak. auto.
  - done.
  - destruct Ha as [Hp Ha]. apply wpe_bind, wpe_gets. unfold id. destruct (processAirFrame a s); [|prs; exists leak; auto].
    destruct (bool_decide _); [|prs; exists leak; auto]. apply wpe_bind, wpe_modify.
    eapply wpe_mono; [by apply (inv_arrives leak p a)|]. intros [] s' [I' _]. exists leak. auto.
Qed.

(** ** Runs *)

(** No timer is due before [t]. *)
Definition earliest (s : Radio) (t : Z) : Prop := simTime s <= t /\ forall k x, timer_at k s = Some x -> t <= x.

(** A timer expires, or a message arrives; in a [clean] run the radio is not
    forced off twice during one frame. *)
Inductive phy_step (clean : bool) (s : Radio) : Radio -> Prop :=
  | pstep_timer k t s' :
      timer_at k s = Some t -> earliest s t -> handleMessage (SelfTimer k) (expired k t s) = Ok (tt, s') -> phy_step clean s s'
  | pstep_message m t s' :
      earliest s t -> admissible m s -> (clean = true -> forced_again m s = false) ->
      handleMessage m (s<| simTime := t |>) = Ok (tt, s') -> phy_step clean s s'.

Lemma step_inv clean leak s s' :
  phy_step clean s s' -> phy_inv leak s -> 0 <= leak ->
  exists leak', 0 <= leak' /\ phy_inv leak' s' /\ (clean = true -> leak = 0 -> leak' = 0).
Proof.
  intros [k t s1 Ht _ Hrun|m t s1 _ Ha Hc Hrun] I Hleak.
  - exists leak. split; [done|]. split; [|done]. exact (wpe_run _ _ _ _ _ _ (inv_timer leak k t s I Ht) Hrun).
  - pose proof (inv_time leak s t I) as I1.
    destruct (wpe_run _ _ _ _ _ _ (inv_message leak m (s<| simTime := t |>) I1 Hleak Ha) Hrun) as (leak' & H1 & H2 & H3).
    exists leak'. split_and!; [done..|]. intros Hcl. apply H3. exact (Hc Hcl).
Qed.

Lemma run_inv clean s s' :
  rtc (phy_step clean) s s' -> forall leak, phy_inv leak s -> 0 <= leak ->
  exists leak', 0 <= leak' /\ phy_inv leak' s' /\ (clean = true -> leak = 0 -> leak' = 0).
Proof.
  induction 1 as [s|s s1 s' Hstep _ IH]; intros leak I Hl; [exists leak; auto|].
  destruct (step_inv _ _ _ _ Hstep I Hl) as (l1 & H1 & I1 & Hc1). destruct (IH l1 I1 H1) as (l2 & H2 & I2 & Hc2).
  exists l2. auto 10.
Qed.

(** A radio that has been initialised on a channel of the standard. *)
Definition phy_started (s : Radio) : Prop :=
  exists power frequency sens noise snir pos ext channel pMax junk,
    phy_initialize power frequency sens noise snir pos ext channel pMax junk = Ok s /\ 0 <= channel.

Lemma started_inv s : phy_started s -> phy_inv 0 s.
Proof.
  intros (power & frequency & sens & noise & snir & pos & ext & channel & pMax & junk & E & Hc).
  unfold phy_initialize in E. unfold check in E. destruct (negb _); [|done]. cbn in E.
  destruct (getRate "b" channel) as [rate|] eqn:Er; [|done]. cbn in E. injection E as <-.
  assert (channel <= 26) as Hc'.
  { unfold getRate in Er. destruct (Z.eqb_spec channel 0), (Z.leb_spec channel 10), (Z.leb_spec channel 26); try lia; done. }
  split; split; cbn -[replicate]; try done; try lia.
  - by left.
  - by left.
  - rewrite total_empty. apply (lookup_replicate_2 27 0 (Z.to_nat channel)). lia.
  - rewrite total_empty. unfold signal. cbn. lia.
  - intros p. rewrite !lookup_empty. by split; intros [].
Qed.

(** C22: the radio's state is consistent.  In every state a radio reaches, the
    three-state model is in one of its three states; the radio transmits only
    while the transmitter is on and the end of the transmission is pending; a
    turnaround has the radio off and ends in a state of the model, with no other
    request pending; a transmission has a copy of its frame exactly as long as
    its end is pending; the power measured on the channel is the sum of the
    powers of the frames in the air, each of which has its end pending; and the
    noise never falls below the thermal noise. *)
Theorem phy_state_consistent (s0 s : Radio) (Hs : phy_started s0) (Hr : rtc (phy_step false) s0 s) :
  trx_state (phyRadioState s) /\
  (getState (rs s) = TRANSMIT -> phyRadioState s = phy_TX_ON /\ TxOver_timer s <> None) /\
  (TRX_timer s <> None -> phyRadioState s = phy_TRX_OFF /\ trx_state (newState_turnaround s) /\ newState s = phy_IDLE) /\
  (TxOver_timer s = None <-> txPktCopy s = None) /\
  rxPower s !! Z.to_nat (getChannelNumber s) = Some (total (recvBuff s)) /\
  (forall p, is_Some (endRx_timers s !! p) <-> is_Some (recvBuff s !! p)) /\
  thermalNoise s <= noiseLevel s.
Proof.
  destruct (run_inv _ _ _ Hr 0 (started_inv _ Hs) ltac:(lia)) as (leak & Hl & [[] IA] & _).
  split_and!; [done..|apply IA|apply IA|]. rewrite (ai_noise _ _ IA). unfold signal.
  destruct (snr_ptr s) as [p|] eqn:Ep; [|pose proof (total_nonneg _ (ai_powers _ _ IA)); lia].
  destruct (ai_ptr _ _ IA p Ep) as [Hp _]. pose proof (total_ge _ _ _ (ai_powers _ _ IA) Hp).
  pose proof (total_nonneg _ (ai_powers _ _ IA)). destruct (marked p s); lia.
Qed.

(** The PHY has no undefined behaviour.  Whatever a radio has been through, a
    timer that expires or a message that arrives is handled, or ends the run with
    a failed assertion or a thrown error: no handler reads a frame that was
    deleted, the begin of an empty list, an array out of range or a null pointer.
    The one exception is the end of an energy detection whose level no [int] holds. *)
Theorem phy_no_undefined (s0 s : Radio) (Hs : phy_started s0) (Hr : rtc (phy_step false) s0 s) :
  (forall k t f, timer_at k s = Some t -> handleMessage (SelfTimer k) (expired k t s) = Fault f ->
     sound_for (SelfTimer k) s f) /\
  (forall m t f, admissible m s -> handleMessage m (s<| simTime := t |>) = Fault f -> sound f).
Proof.
  destruct (run_inv _ _ _ Hr 0 (started_inv _ Hs) ltac:(lia)) as (leak & Hl & I & _). split.
  - intros k t f Ht Hrun. exact (wpe_fault _ _ _ _ _ (inv_timer leak k t s I Ht) Hrun).
  - intros m t f Ha Hrun. pose proof (inv_time leak s t I) as I1.
    exact (wpe_fault _ _ _ _ _ (inv_message leak m (s<| simTime := t |>) I1 Hl Ha) Hrun).
Qed.

(** C23: the noise is what is in the air.  As long as the radio is not forced off
    twice during one frame, the noise level is the thermal noise and the powers
    of all frames in the air but the one being received: interference is taken
    off again when it ends, and with nothing in the air the noise is the thermal
    noise. *)
Theorem noise_exact (s0 s : Radio) (Hs : phy_started s0) (Hr : rtc (phy_step true) s0 s) :
  noiseLevel s = thermalNoise s + total (recvBuff s) - signal s /\
  (recvBuff s = ∅ -> noiseLevel s = thermalNoise s).
Proof.
  destruct (run_inv _ _ _ Hr 0 (started_inv _ Hs) ltac:(lia)) as (leak & _ & [_ IA] & Hz). rewrite Hz in IA by done.
  pose proof (ai_noise _ _ IA) as Hn. split; [lia|]. intros Hb. rewrite Hn, Hb, total_empty. unfold signal.
  destruct (snr_ptr s) as [p|] eqn:Ep; [|lia]. destruct (ai_ptr _ _ IA p Ep) as [Hp _]. by rewrite Hb in Hp.
Qed.
End invariant.

(** ** Witnesses: a radio that hears a frame *)

Definition sample_air : Propagation :=
  {| calculateReceivedPower := fun p _ d => Z.max 0 (p - d); distance := fun a b => Z.abs (fst a - fst b);
     propagationDelay := fun _ => 0; ev_on := true |}.

Lemma sample_power p f d : 0 <= @calculateReceivedPower sample_air p f d.
Proof. cbn. lia. Qed.

(** The state after a message that is handled without a fault. *)
Definition resulting (m : M Radio unit) (s : Radio) : Radio := match m s with Ok (_, s') => s' | Fault _ => s end.
Lemma resulting_run m s : is_ok (m s) = true -> m s = Ok (tt, resulting m s).
Proof. unfold resulting. by destruct (m s) as [[[] ?]|]. Qed.

Definition radio0 : Radio :=
  match phy_initialize 100 2400 10 1 (2 # 1) (0, 0) None 11 1000 0 with
  | Ok s => s
  | Fault _ => mkRadio 0 0 0 0 0%Q (0, 0) None (mkRadioState IDLE 0 0) phy_IDLE phy_IDLE phy_IDLE false 0 None 0 [] ∅ ∅ [] 0 None
      None None None None ∅ 0 []
  end.
Lemma radio0_started : phy_started radio0.
Proof. exists 100, 2400, 10, 1, (2 # 1)%Q, (0, 0), None, 11, 1000, 0. split; [reflexivity|lia]. Qed.

Definition sample_payload : Frame :=
  mkFrame DataFrame (mkFrameCtrl Ieee802154_DATA false false true false defFrmCtrl_AddrMode16 defFrmCtrl_AddrMode16)
    7 0 2 0 3 false false 0 30 None.
Definition sample_airframe : AirFrame := mkAirFrame 60 11 1000 250000 (20, 0) None 0 sample_payload 500 500.
Definition radio1 : Radio := resulting (@handleMessage sample_air (LowerAirFrame 1 sample_airframe)) (radio0<| simTime := 500 |>).

Lemma radio0_earliest t : 0 <= t -> earliest radio0 t.
Proof. intros Ht. split; [done|]. intros k x. destruct k; cbn; try done. Qed.

Lemma radio1_step clean : @phy_step sample_air clean radio0 radio1.
Proof.
  apply (@pstep_message sample_air clean radio0 (LowerAirFrame 1 sample_airframe) 500).
  - by apply radio0_earliest.
  - by vm_compute.
  - done.
  - apply resulting_run. vm_compute. reflexivity.
Qed.

Lemma phy_state_consistent_witness : trx_state (phyRadioState radio1) /\ thermalNoise radio1 <= noiseLevel radio1.
Proof.
  destruct (@phy_state_consistent sample_air sample_power radio0 radio1 radio0_started (rtc_once _ _ (radio1_step false)))
    as (H1 & _ & _ & _ & _ & _ & H2). exact (conj H1 H2).
Defined.

(** The receiver is on: a frame of the MAC is refused with an error. *)
Lemma phy_no_undefined_witness :
  exists f, @handleMessage sample_air (UpperFrame sample_payload) (radio1<| simTime := 600 |>) = Fault f /\ sound f.
Proof.
  assert (E : @handleMessage sample_air (UpperFrame sample_payload) (radio1<| simTime := 600 |>) =
    Fault (Thrown "[PHY]: transmitter is not ON while trying to send a msg to channel")) by (vm_compute; reflexivity).
  eexists. split; [exact E|].
  exact (proj2 (@phy_no_undefined sample_air sample_power radio0 radio1 radio0_started (rtc_once _ _ (radio1_step false)))
    (UpperFrame sample_payload) 600 _ Logic.I E).
Defined.

Lemma noise_exact_witness : noiseLevel radio1 = 1 /\ total (recvBuff radio1) = 40 /\ signal radio1 = 40.
Proof.
  pose proof (proj1 (@noise_exact sample_air sample_power radio0 radio1 radio0_started (rtc_once _ _ (radio1_step true)))) as E.
  assert (H1 : total (recvBuff radio1) = 40) by (vm_compute; reflexivity).
  assert (H2 : signal radio1 = 40) by (vm_compute; reflexivity).
  assert (H3 : thermalNoise radio1 = 1) by (vm_compute; reflexivity).
  rewrite H1, H2, H3 in E. exact (conj E (conj H1 H2)).
Defined.
