(* ===== verification/RadioProps.v ===== *)
(** * What the PHY does: receptions, clear channel assessment, turnarounds *)

From Stdlib Require Import QArith Qabs.
From S2P Require Import Prelude MacConst MacTypes Radio RadioInv.

Open Scope string_scope.
Open Scope list_scope.
Open Scope Z_scope.

#[local] Opaque secs.

(** ** The verdict on a frame *)

Lemma Qmin_fold (th : Q) l : forall m,
  (th < foldl (fun m e => if negb (Qle_bool m e.2) then e.2 else m) m l)%Q <->
  (th < m)%Q /\ Forall (fun e : Z * Q => (th < e.2)%Q) l.
Proof.
  induction l as [|e l IH]; intros m; cbn [foldl]; [split; [by split|by intros []]|].
  rewrite IH, Forall_cons. destruct (Qle_bool m e.2) eqn:E; cbn [negb].
  - apply Qle_bool_iff in E. split; [|tauto]. intros [H1 H2]. split; [done|]. split; [|done]. by eapply Qlt_le_trans.
  - assert (e.2 < m)%Q by (apply Qnot_le_lt; intros Hle; apply Qle_bool_iff in Hle; congruence).
    split; [|tauto]. intros [H1 H2]. split; [|done]. by eapply Qlt_trans.
Qed.

(** A frame is received correctly if the signal was above the threshold all the
    time. *)
Lemma isReceivedCorrectly_spec th l :
  l <> [] -> isReceivedCorrectly th l = Ok (bool_decide (Forall (fun e => Qle_bool e.2 th = false) l)).
Proof.
  intros Hl. destruct l as [|e l]; [done|]. unfold isReceivedCorrectly, snirMin. cbn [mbind outcome_bind].
  apply (f_equal Ok). set (m := foldl _ _ _). destruct (Qle_bool m th) eqn:E; symmetry; cbn [negb].
  - apply bool_decide_eq_false_2. intros HF. apply Qle_bool_iff in E. apply (Qle_not_lt _ _ E). unfold m.
    apply Qmin_fold. split; [apply Forall_cons in HF as [HF _]|eapply Forall_impl; [exact HF|]; intros x];
    [|cbn; intros HF']; apply Qnot_le_lt; rewrite <- Qle_bool_iff; congruence.
  - apply bool_decide_eq_true_2. assert (th < m)%Q as Hm by (apply Qnot_le_lt; rewrite <- Qle_bool_iff; congruence).
    apply Qmin_fold in Hm as [_ HF]. eapply Forall_impl; [exact HF|]. intros x Hx. apply not_true_is_false.
    rewrite Qle_bool_iff. by apply Qlt_not_le.
Qed.

Section handlers.
Context `{Propagation}.

(** ** Receptions *)

(** The frame handed to the MAC when the reception in [s] is over. *)
Definition handed_up (s : Radio) (f : Frame) : Frame :=
  if bool_decide (Forall (fun e => Qle_bool e.2 (snirThreshold s) = false) (snr_sList s)) then
    match CCA_timer s with Some _ => f<| kind := RX_DURING_CCA |> | None => f end
  else f<| kind := COLLISION |>.

Lemma received_kind_up s s1 f :
  CCA_timer s1 = CCA_timer s ->
  received_kind (negb (bool_decide (Forall (fun e => Qle_bool e.2 (snirThreshold s) = false) (snr_sList s)))) s1 f = handed_up s f.
Proof.
  intros E. unfold received_kind, handed_up, isScheduled. cbn [timer_at]. rewrite E.
  destruct (CCA_timer s); (destruct (bool_decide (Forall _ _)); reflexivity).
Qed.

(** A reception that is over, in a radio that is then free. *)
Definition verdict_given (s : Radio) (p : positive) (a : AirFrame) (s' : Radio) : Prop :=
  (exists r, out s' = out s ++ [ToMac_frame (handed_up s (payload a)); NF_RADIOSTATE_CHANGED r]) /\
  getState (rs s') = IDLE /\ snr_ptr s' = None /\ noiseLevel s' = noiseLevel s /\
  recvBuff s' = delete p (recvBuff s) /\ airframes s' = delete p (airframes s) /\ phyRadioState s' = phy_RX_ON.

Lemma reception_over leak s p a t :
  phy_inv leak s -> snr_ptr s = Some p -> endRx_timers s !! p = Some t -> airframes s !! p = Some a -> unmarked a ->
  (kind (payload a) =? BITERROR_FORCE_TRX_OFF) = false -> phyRadioState s = phy_RX_ON -> getState (rs s) = RECV ->
  newState s = phy_IDLE -> noiseLevel s < sensitivity s ->
  exists s', handleMessage (SelfTimer (PHY_RX_OVER_TIMER p)) (expired (PHY_RX_OVER_TIMER p) t s) = Ok (tt, s') /\
    verdict_given s p a s'.
Proof.
  intros I Hp Ht Ha Hk Hpk Hch Hst Hnew Hquiet.
  cut (wp (handleMessage (SelfTimer (PHY_RX_OVER_TIMER p))) (fun _ s' => verdict_given s p a s') (expired (PHY_RX_OVER_TIMER p) t s)).
  { intros ([] & s' & E & HQ)%wp_ok. eauto. }
  pose proof (pi_air _ _ I) as IA. destruct (ai_ptr _ _ IA p Hp) as [Hr Hl].
  cbn [handleMessage handleSelfMsg]. unfold handleLowerMsgEnd. apply wpe_bind, wpe_gets, wpe_bind, wpe_lift.
  change (rxPower_at _) with (rxPower_at s). rewrite (rx_slot _ _ IA). unfold expired. cbn [set_timer].
  unfold id. psimp. rewrite (bool_decide_true (snr_ptr s = Some p)) by done. unfold deref_frame. prs. unfold set_rxPower. psimp. rewrite Ha. prs.
  rewrite Hk, Hpk. prs. rewrite isReceivedCorrectly_spec by done. prs; psimp.
  2:{ rewrite Hch, Hst, (proj2 (Z.ltb_lt _ _) Hquiet) in H0. done. }
  rewrite received_kind_up by done. unfold switch_when_free. prs; psimp; [by rewrite Hnew in H1|].
  unfold verdict_given. psimp. split_and!; [|done..]. eexists. rewrite <- app_assoc. reflexivity.
Qed.

(** A receiver with nothing to receive. *)
Record listening (s : Radio) : Prop := {
  ls_on : phyRadioState s = phy_RX_ON;
  ls_idle : getState (rs s) = IDLE;
  ls_free : snr_ptr s = None;
  ls_still : newState s = phy_IDLE;
  ls_quiet : noiseLevel s < sensitivity s;
}.

Definition power_here (s : Radio) (a : AirFrame) : Z :=
  calculateReceivedPower (pSend a)
    (match afFrequency a with Some f => if 0 <? f then f else carrierFrequency s | None => carrierFrequency s end)
    (distance (myPosition s) (senderPos a)).

(** The state once the reception of [a] has begun. *)
Record receiving (s : Radio) (p : positive) (a : AirFrame) (s' : Radio) : Prop := {
  rv_ptr : snr_ptr s' = Some p;
  rv_list : snr_sList s' = [(simTime s, (inject_Z (power_here s a) / inject_Z (noiseLevel s))%Q)];
  rv_state : getState (rs s') = RECV;
  rv_on : phyRadioState s' = phy_RX_ON;
  rv_new : newState s' = phy_IDLE;
  rv_noise : noiseLevel s' = noiseLevel s;
  rv_param : (snirThreshold s', sensitivity s', CCA_timer s') = (snirThreshold s, sensitivity s, CCA_timer s);
  rv_end : endRx_timers s' !! p = Some (simTime s + afDuration a);
  rv_frame : airframes s' !! p = Some a;
  rv_buff : recvBuff s' = <[p := power_here s a]> (recvBuff s);
  rv_out : exists r, out s' = out s ++ [NF_RADIOSTATE_CHANGED r];
}.

Lemma reception_starts leak s p a :
  phy_inv leak s -> listening s -> airframes s !! p = None -> processAirFrame a s = true ->
  arrivalTime a = simTime s -> 0 <= afDuration a -> sensitivity s <= power_here s a ->
  exists s', handleMessage (LowerAirFrame p a) s = Ok (tt, s') /\ receiving s p a s'.
Proof.
  intros I [Hon Hidle Hfree Hstill Hquiet] Hp Hch Harr Hdur Hpow. pose proof (pi_air _ _ I) as IA.
  cut (wp (handleMessage (LowerAirFrame p a)) (fun _ s' => receiving s p a s') s).
  { intros ([] & s' & E & HQ)%wp_ok. eauto. }
  cbn [handleMessage]. apply wpe_bind, wpe_gets. unfold id. rewrite Hch, (bool_decide_true (phyRadioState s = phy_RX_ON)) by done.
  apply wpe_bind, wpe_modify. unfold handleLowerMsgStart. apply wpe_bind, wpe_bind. unfold deref_frame. prs. psimp.
  rewrite lookup_insert_eq. prs. change (rxPower_at _) with (rxPower_at s). rewrite (rx_slot _ _ IA). psimp.
  change (calculateReceivedPower _ _ _) with (power_here s a).
  rewrite Harr, Z.eqb_refl, (proj2 (Z.leb_le _ _) Hpow), (bool_decide_true (snr_ptr s = None)) by done. cbn [andb].
  do 2 apply wpe_bind, wpe_modify. apply wpe_bind, wpe_peak. intros x. prs. unfold bufferMsg, deref_frame. prs. unfold set_rxPower.
  psimp. rewrite lookup_insert_eq. prs. rewrite Harr. unfold scheduleAt. prs. psimp.
  rewrite (proj2 (Z.ltb_ge _ _)) by lia.
  assert (He : endRx_timers s !! p = None).
  { apply eq_None_not_Some. intros Hx%(ai_ends _ _ IA)%(ai_frames _ _ IA). rewrite Hp in Hx. by destruct Hx. }
  unfold isScheduled. cbn [timer_at]. psimp. rewrite He. cbn. prs.
  split; cbn [set_timer]; psimp; try done; [by rewrite lookup_partial_alter_eq|apply lookup_insert_eq|by eexists].
Qed.

(** A frame is received.  A frame that reaches a receiver with nothing to
    receive, on its channel, at least as strong as its sensitivity and stronger
    than the threshold over the present noise, is handed to the MAC unchanged
    when its duration is over, if nothing else happens and no CCA is running; the
    radio is then listening as before, with the noise and the frames in the air
    as before. *)
Theorem frame_received (leak : Z) (s : Radio) (p : positive) (a : AirFrame)
  (Hpower : forall p f d, 0 <= calculateReceivedPower p f d)
  (I : phy_inv leak s) (Hleak : 0 <= leak) (Hl : listening s) (Hp : airframes s !! p = None) (Hm : processAirFrame a s = true)
  (Harr : arrivalTime a = simTime s) (Hdur : 0 <= afDuration a) (Hpow : sensitivity s <= power_here s a)
  (Hsnr : Qle_bool (inject_Z (power_here s a) / inject_Z (noiseLevel s)) (snirThreshold s) = false)
  (Hk : unmarked a) (Hpk : (kind (payload a) =? BITERROR_FORCE_TRX_OFF) = false) (Hcca : CCA_timer s = None) :
  exists s1 s2, handleMessage (LowerAirFrame p a) s = Ok (tt, s1) /\
    timer_at (PHY_RX_OVER_TIMER p) s1 = Some (simTime s + afDuration a) /\
    handleMessage (SelfTimer (PHY_RX_OVER_TIMER p)) (expired (PHY_RX_OVER_TIMER p) (simTime s + afDuration a) s1) = Ok (tt, s2) /\
    (exists r1 r2, out s2 = out s ++ [NF_RADIOSTATE_CHANGED r1; ToMac_frame (payload a); NF_RADIOSTATE_CHANGED r2]) /\
    getState (rs s2) = IDLE /\ phyRadioState s2 = phy_RX_ON /\ snr_ptr s2 = None /\
    noiseLevel s2 = noiseLevel s /\ recvBuff s2 = recvBuff s.
Proof.
  destruct (reception_starts leak s p a I Hl Hp Hm Harr Hdur Hpow) as (s1 & E1 & [R1 R2 R3 R4 R5 R6 R7 R8 R9 R10 [r1 R11]]).
  injection R7 as P1 P2 P3. pose proof (absent _ _ _ (pi_air _ _ I) Hp) as Hb.
  assert (I1 : exists leak', phy_inv leak' s1).
  { pose proof (inv_message Hpower leak (LowerAirFrame p a) s I Hleak (conj Hp Hk)) as W.
    destruct (wpe_run _ _ _ _ _ _ W E1) as (l & _ & ? & _). by exists l. }
  destruct I1 as [leak' I1].
  destruct (reception_over leak' s1 p a (simTime s + afDuration a)) as (s2 & E2 & [r2 Ho] & V1 & V2 & V3 & V4 & _ & V6); try done.
  { rewrite R6, P2. apply Hl. }
  exists s1, s2. split_and!; try done.
  - exists r1, r2. rewrite Ho, R11, <- app_assoc. unfold handed_up. rewrite R2, P1, P3, Hcca.
    rewrite bool_decide_true; [done|]. by repeat constructor.
  - congruence.
  - rewrite V4, R10. by apply delete_insert_id.
Qed.
End handlers.

(** ** What most code leaves alone *)

(** The events that concern the channel. *)
Definition to_channel (e : pevent) : bool :=
  match e with ToChannel _ | UpdateHostChannel _ | ToSelf _ _ => true | _ => false end.
Definition channel_events (s : Radio) : list pevent := List.filter to_channel (out s).

(** Where and when the radio is, a CCA under way; the channel, and what was said to
    the channel. *)
Definition rest (s : Radio) := (myPosition s, simTime s, isCCAStartIdle s, CCA_timer s).
Definition view (s : Radio) := (rest s, getChannelNumber s, channel_events s).

Section stable.
Context `{Propagation}.
Context (P : Radio -> Prop).

(** A property of the view, kept by a change of channel that is announced, by a
    frame sent on the radio's channel and by one picked up for later. *)
Hypothesis P_view : forall s s', view s' = view s -> P s -> P s'.
Hypothesis P_tune : forall s s' ch,
  view s' = (rest s, ch, channel_events s ++ [UpdateHostChannel ch]) -> P s -> P s'.
Hypothesis P_send : forall s s' a, afChannel a = getChannelNumber s -> unmarked a ->
  view s' = (rest s, getChannelNumber s, channel_events s ++ [ToChannel a]) -> P s -> P s'.

Hypothesis P_self : forall s s' a d, unmarked a ->
  view s' = (rest s, getChannelNumber s, channel_events s ++ [ToSelf a d]) -> P s -> P s'.

#[local] Abbreviation K := (keeps P).

Lemma pk_pupd f : (forall s, view (f s) = view s) -> K (pupd f).
Proof using P_view. intros Hf. apply keeps_modify. intros s. by apply P_view. Qed.
Lemma pk_self : K self.
Proof. apply keeps_gets. Qed.
#[local] Hint Resolve pk_self : keeps.

Lemma view_emit e s : to_channel e = false -> view (s<| out ::= fun l => l ++ [e] |>) = view s.
Proof.
  intros He. unfold view, channel_events. psimp. rewrite List.filter_app. cbn [List.filter]. by rewrite He, app_nil_r.
Qed.
Lemma pk_emit e : to_channel e = false -> K (emit e).
Proof using P_view. intros He. apply pk_pupd. intros s. by apply view_emit. Qed.
#[local] Hint Extern 1 (keeps _ (emit _)) => (apply pk_emit; reflexivity) : keeps.

Lemma pk_scheduleAt at_ t : t <> PHY_CCA_TIMER -> K (scheduleAt at_ t).
Proof using P_view.
  intros Ht. unfold scheduleAt. apply keeps_bind; [auto with keeps|]. intros s. destruct (_ <? _); [auto with keeps|].
  destruct (isScheduled _ _); [auto with keeps|]. apply pk_pupd. by destruct t.
Qed.
#[local] Hint Extern 1 (keeps _ (scheduleAt _ _)) => (apply pk_scheduleAt; discriminate) : keeps.

Ltac view_step :=
  first
  [ solve [auto with keeps]
  | apply keeps_bind; [|intros ?]
  | apply keeps_when
  | progress cbv zeta
  | match goal with
    | |- keeps _ (if ?c then _ else _) => destruct c
    | |- keeps _ (match ?x with _ => _ end) => destruct x
    | |- keeps _ (pupd _) => solve [apply pk_pupd; intros ?; reflexivity]
    end ].
Ltac view_body := repeat view_step.

Lemma pk_setRadioState st : K (setRadioState st).
Proof using P_view. unfold setRadioState. view_body. Qed.
Lemma pk_symbols n : K (symbols n).
Proof using P_view. unfold symbols. view_body. Qed.
Lemma pk_addNewSnr : K addNewSnr.
Proof using P_view. unfold addNewSnr. view_body. Qed.
Lemma pk_deref p : K (deref_frame p).
Proof using P_view. unfold deref_frame. view_body. Qed.
#[local] Hint Resolve pk_setRadioState pk_symbols pk_addNewSnr pk_deref : keeps.
Lemma pk_switch : K switch_when_free.
Proof using P_view. unfold switch_when_free, cancelEvent, PLME_SET_TRX_STATE_confirm. view_body. Qed.
Lemma pk_start p : K (handleLowerMsgStart p).
Proof using P_view. unfold handleLowerMsgStart. view_body. Qed.
Lemma pk_buffer p : K (bufferMsg p).
Proof using P_view. unfold bufferMsg. view_body. Qed.
#[local] Hint Resolve pk_switch pk_start pk_buffer : keeps.
Lemma pk_end p : K (handleLowerMsgEnd p).
Proof using P_view. unfold handleLowerMsgEnd, delete_frame. view_body. Qed.
Lemma pk_later a d : unmarked a -> K (emit (ToSelf a d)).
Proof using P_self.
  intros Ha. apply keeps_modify. intros s. apply (P_self _ _ a d Ha). unfold view, channel_events. psimp. by rewrite List.filter_app.
Qed.
#[local] Hint Resolve pk_end pk_later : keeps.
Lemma pk_pick_up ch tl : Forall (fun x => unmarked x.2) tl -> K (pick_up ch tl).
Proof using P_view P_self. induction 1 as [|[p a] tl Ha _ IH]; cbn [pick_up]; view_body. Qed.
#[local] Hint Resolve pk_pick_up : keeps.

(** The channel changes, and the change is announced at once. *)
Lemma pk_announce ch rate (m : M Radio unit) : K m ->
  K (pupd (fun s => s<| rs ::= fun r => r<| getChannel := ch |><| getBitrate := rate |> |>);; emit (UpdateHostChannel ch);; m).
Proof using P_tune.
  intros Hm s Hs. apply wpe_bind, wpe_modify, wpe_bind, wpe_modify, Hm. apply (P_tune s _ ch); [|done].
  unfold view, channel_events. psimp. by rewrite List.filter_app.
Qed.
#[local] Hint Extern 1 (keeps _ (pupd _ ;; emit (UpdateHostChannel _) ;; _)) => (apply pk_announce) : keeps.

Lemma pk_change ch tl : Forall (fun x => unmarked x.2) tl -> K (changeChannel ch tl).
Proof using P_view P_tune P_self.
  intros Htl. unfold changeChannel, retune. view_body. apply pk_pupd. intros s. unfold drop_reception. by destruct (snr_ptr s).
Qed.
Lemma pk_request st : K (handle_PLME_SET_TRX_STATE_request st).
Proof using P_view. unfold handle_PLME_SET_TRX_STATE_request, cancelEvent, PD_DATA_confirm, PLME_SET_TRX_STATE_confirm. view_body. Qed.
#[local] Hint Resolve pk_change pk_request : keeps.
Lemma pk_set at_ ch tl : Forall (fun x => unmarked x.2) tl -> K (handle_PLME_SET_request at_ ch tl).
Proof using P_view P_tune P_self. intros Htl. unfold handle_PLME_SET_request, PLME_SET_confirm. view_body. Qed.
#[local] Hint Resolve pk_set : keeps.

Lemma pk_upper f : K (a ← encapsulatePacket f; handleUpperMsg a).
Proof using P_view P_send.
  intros s Hs. unfold encapsulatePacket. apply wpe_bind, wpe_bind, wpe_gets, wpe_ret. set (a := mkAirFrame _ _ _ _ _ _ _ _ _ _).
  unfold handleUpperMsg. apply wpe_bind, wpe_gets. unfold id. destruct (bool_decide (phyRadioState s = phy_TX_ON)); [|done].
  unfold scheduleAt. prs; try done. destruct (isScheduled PHY_TX_OVER_TIMER s); [done|]. apply wpe_bind. prs.
  destruct (_ <? _); [done|]. destruct (isScheduled _ _); [done|]. prs.
  apply (P_send s _ a); [done|done| |done]; unfold view, channel_events; cbn [set_timer]; psimp;
    rewrite !List.filter_app; cbn [List.filter to_channel]; by rewrite !app_nil_r.
Qed.

(** A primitive other than a request for a CCA. *)
Lemma pk_primitive k st at_ ch tl : k <> 2 -> Forall (fun x => unmarked x.2) tl -> K (handlePrimitive k st at_ ch tl).
Proof using P_view P_tune P_self.
  intros Hk Htl. unfold handlePrimitive. rewrite (proj2 (Z.eqb_neq _ _) Hk). unfold PLME_ED_confirm. view_body.
Qed.

(** A message that neither starts nor ends a CCA. *)
Definition no_cca (m : phy_msg) : Prop :=
  match m with
  | UpperPrimitive k _ _ _ tl => k <> 2 /\ Forall (fun x => unmarked x.2) tl
  | SelfTimer k => k <> PHY_CCA_TIMER
  | _ => True
  end.

Lemma pk_message m : no_cca m -> K (handleMessage m).
Proof using P_view P_tune P_send P_self.
  intros Hm. destruct m as [k st at_ ch tl|f|k|p a]; cbn [handleMessage no_cca] in *.
  - destruct (k =? 0); [view_body|by apply pk_primitive; destruct Hm].
  - destruct (getBitLength f =? 0); [view_body|apply pk_upper].
  - destruct k; cbn [handleSelfMsg]; [done|..]; unfold PLME_ED_confirm, PLME_SET_TRX_STATE_confirm, PD_DATA_confirm; view_body.
  - view_body.
Qed.
End stable.

(** ** Clear channel assessment *)

Section cca.
Context `{Propagation}.
Context (b : bool) (t0 : Z).

(** A CCA that began with the channel idle ([b]) and ends at [t0]. *)
Definition assessing (s : Radio) : Prop := isCCAStartIdle s = b /\ CCA_timer s = Some t0.

(** A second request is refused while the first is being served. *)
Lemma assessing_message m s0 :
  (forall k, m = SelfTimer k -> k <> PHY_CCA_TIMER) -> match m with SelfTimer _ => True | _ => admissible m s0 end -> keeps assessing (handleMessage m).
Proof.
  assert (Hv : forall s s' x y, view s' = (rest s, x, y) -> assessing s -> assessing s').
  { intros s s' x y [= _ _ E1 E2 _ _] [H1 H2]. unfold assessing. by rewrite E1, E2. }
  intros Hm Ha. assert (Hn : no_cca m \/ exists st at_ ch tl, m = UpperPrimitive 2 st at_ ch tl).
  { destruct m as [k st at_ ch tl| |k|]; cbn; [|by left|left; by apply Hm|by left].
    destruct (decide (k = 2)) as [->|]; [right; eauto|]. left. split; [done|]. apply Ha. }
  destruct Hn as [Hn|(st & at_ & ch & tl & ->)].
  - apply pk_message; [intros s s'|intros s s' c|intros s s' a _ _|intros s s' a d _|done]; apply Hv.
  - intros s [H1 H2]. cbn [handleMessage Z.eqb]. unfold handlePrimitive. apply wpe_bind, wpe_gets. unfold id. cbn [Z.eqb Pos.eqb].
    unfold isScheduled. cbn [timer_at]. rewrite H2. destruct (bool_decide (phyRadioState s = phy_RX_ON)); [done|].
    unfold PLME_CCA_confirm, emit, pupd. by apply wpe_modify.
Qed.
End cca.

Section verdicts.
Context `{Propagation}.

(** A step other than the expiry of the CCA timer. *)
Inductive other_step (s : Radio) : Radio -> Prop :=
  | other_timer k t s' :
      k <> PHY_CCA_TIMER -> timer_at k s = Some t -> earliest s t ->
      handleMessage (SelfTimer k) (expired k t s) = Ok (tt, s') -> other_step s s'
  | other_message m t s' :
      earliest s t -> admissible m s -> handleMessage m (s<| simTime := t |>) = Ok (tt, s') -> other_step s s'.

Lemma other_assessing b t0 s s' : rtc other_step s s' -> assessing b t0 s -> assessing b t0 s'.
Proof.
  induction 1 as [|s s1 s' Hstep _ IH]; [done|]. intros Hs. apply IH. clear IH.
  destruct Hstep as [k t s1 Hk _ _ Hrun|m t s1 _ Ha Hrun].
  - assert (Hm : forall k', SelfTimer k = SelfTimer k' -> k' <> PHY_CCA_TIMER) by (by intros ? [= ->]).
    eapply (keeps_run _ _ _ _ _ (assessing_message b t0 _ s Hm Logic.I)); [|exact Hrun]. destruct Hs. by destruct k.
  - assert (Hm : forall k, m = SelfTimer k -> k <> PHY_CCA_TIMER) by (by intros k ->).
    eapply (keeps_run _ _ _ _ _ (assessing_message b t0 _ s Hm ltac:(by destruct m))); [|exact Hrun]. exact Hs.
Qed.

(** The verdict of a clear channel assessment.  A request reaching a receiver
    that is on is answered 8 symbols later, whatever else happens in between: the
    channel is reported idle exactly if the radio was idle at the time of the
    request and is idle at the time of the answer. *)
Theorem cca_verdict (s0 s1 s2 : Radio) (st : PHYenum) (at_ : PHYPIBenum) (ch : Z) (tl : list (positive * AirFrame))
  (Hon : phyRadioState s0 = phy_RX_ON)
  (Hreq : handleMessage (UpperPrimitive 2 st at_ ch tl) s0 = Ok (tt, s1)) (Hrun : rtc other_step s1 s2) :
  exists rate s3, getRate "s" (getChannelNumber s0) = Ok rate /\
    timer_at PHY_CCA_TIMER s2 = Some (simTime s0 + secs 8 rate) /\
    handleMessage (SelfTimer PHY_CCA_TIMER) (expired PHY_CCA_TIMER (simTime s0 + secs 8 rate) s2) = Ok (tt, s3) /\
    out s3 = out s2 ++ [ToMac_primitive PLME_CCA_CONFIRM
      (if bool_decide (getState (rs s0) = IDLE) && bool_decide (getState (rs s2) = IDLE) then phy_IDLE else phy_BUSY)].
Proof.
  cbn [handleMessage] in Hreq. change (2 =? 0) with false in Hreq.
  unfold handlePrimitive, symbols, scheduleAt, mbind, M_bind, self, gets, id, pupd, modify, lift in Hreq. cbn [Z.eqb Pos.eqb] in Hreq.
  rewrite (bool_decide_true (phyRadioState s0 = phy_RX_ON)) in Hreq by done.
  destruct (isScheduled PHY_CCA_TIMER s0) eqn:Hc; [done|]. unfold mret, M_ret in Hreq. psimp.
  change (getChannelNumber _) with (getChannelNumber s0) in Hreq.
  destruct (getRate "s" (getChannelNumber s0)) as [rate|] eqn:Er; [|done]. psimp.
  destruct (_ <? _); [done|]. unfold isScheduled in Hc, Hreq. cbn [timer_at] in Hc, Hreq. psimp. rewrite Hc in Hreq.
  injection Hreq as <-. cbn [set_timer] in Hrun.
  apply (other_assessing (bool_decide (getState (rs s0) = IDLE)) (simTime s0 + secs 8 rate)) in Hrun as [E1 E2]; [|done].
  exists rate. eexists. split_and!; [done|done|reflexivity|]. cbn. rewrite E1. by rewrite andb_comm.
Qed.

(** ** Requests for a state of the radio *)

(** The confirmations of such requests among what was sent. *)
Definition trx_confirms (l : list pevent) : list PHYenum :=
  omap (fun e => match e with ToMac_primitive PLME_SET_TRX_STATE_CONFIRM c => Some c | _ => None end) l.
Definition confirms (s s' : Radio) (cs : list PHYenum) : Prop := exists l, out s' = out s ++ l /\ trx_confirms l = cs.

(** How a request for [X] is answered: at once, once the radio is free, or after
    the turnaround. *)
Inductive answered (X : PHYenum) (s s' : Radio) : Prop :=
  | at_once c :
      phyRadioState s' = X -> newState s' = phy_IDLE -> TRX_timer s' = None ->
      c = (if bool_decide (phyRadioState s = X) then X else phy_SUCCESS) -> confirms s s' [c] -> answered X s s'
  | when_free c :
      newState s' = X -> TRX_timer s' = None -> (phyRadioState s', getState (rs s')) = (phyRadioState s, getState (rs s)) ->
      (getState (rs s) = TRANSMIT /\ c = phy_BUSY_TX) \/ (getState (rs s) = RECV /\ c = phy_BUSY_RX) ->
      confirms s s' [c] -> answered X s s'
  | after_turnaround rate s'' :
      phyRadioState s <> phy_TRX_OFF -> getRate "s" (getChannelNumber s) = Ok rate ->
      phyRadioState s' = phy_TRX_OFF -> getState (rs s') = SLEEP -> confirms s s' [] ->
      timer_at PHY_TRX_TIMER s' = Some (simTime s + secs aTurnaroundTime rate) ->
      handleMessage (SelfTimer PHY_TRX_TIMER) (expired PHY_TRX_TIMER (simTime s + secs aTurnaroundTime rate) s') = Ok (tt, s'') ->
      phyRadioState s'' = X -> getState (rs s'') = IDLE -> confirms s' s'' [X] -> answered X s s'.

Lemma getRate_some c ch : 0 <= ch <= 26 -> exists r, getRate c ch = Ok r /\ 0 < r.
Proof.
  intros Hc. unfold getRate. rewrite (proj2 (Z.leb_le ch 26)) by lia.
  destruct (ch =? 0), (ch <=? 10), (Ascii.eqb c "b"); eexists; split; reflexivity.
Qed.

Lemma wpe_rate E n s rate (Q : Z -> Radio -> Prop) :
  getRate "s" (getChannelNumber s) = Ok rate -> Q (secs n rate) s -> wpe E (symbols n) Q s.
Proof. intros Er HQ. unfold symbols. prs. rewrite Er. prs. exact HQ. Qed.

(** The next test of the code. *)
Ltac test E := match goal with |- wpe _ (if ?b then _ else _) _ _ => destruct b eqn:E end.
Ltac confirms_tac :=
  unfold confirms, cleared, expired; cbn [set_timer]; psimp; eexists; rewrite <- ?app_assoc; split; reflexivity.

(** C31: every request for a state is answered.  In a consistent state, a request
    for RX_ON, TX_ON or TRX_OFF takes the place of earlier ones and is either
    confirmed at once with the radio in that state; or confirmed as busy and kept
    until the transmission or reception under way is over; or, between RX_ON and
    TX_ON, not confirmed but served: the radio is off for the turnaround time, at
    the end of which it is in the state requested and a confirmation says so. *)
Theorem trx_request_answered (leak : Z) (s : Radio) (X : PHYenum) (at_ : PHYPIBenum) (ch : Z)
  (tl : list (positive * AirFrame)) (I : phy_inv leak s) (HX : trx_state X) :
  exists s', handleMessage (UpperPrimitive 6 X at_ ch tl) s = Ok (tt, s') /\ answered X s s'.
Proof.
  cut (wp (handleMessage (UpperPrimitive 6 X at_ ch tl)) (fun _ s' => answered X s s') s).
  { intros ([] & s' & E & HQ)%wp_ok. eauto. }
  cbn [handleMessage]. change (6 =? 0) with false. unfold handlePrimitive. apply wpe_bind, wpe_gets. cbn [Z.eqb Pos.eqb].
  unfold handle_PLME_SET_TRX_STATE_request. prs.
  apply (wpe_eq _ _ _ _ tt (cleared s)); [by eapply run_clear|].
  assert (bool_decide (X = phy_FORCE_TRX_OFF) = false) as -> by (apply bool_decide_eq_false_2; by destruct HX as [->|[->| ->]]).
  destruct (bool_decide (X = phyRadioState s)) eqn:E1; [apply bool_decide_eq_true_1 in E1|apply bool_decide_eq_false_1 in E1].
  { prs. eapply (at_once X s _ X); psimp; try done; [by rewrite bool_decide_true|subst X; confirms_tac]. }
  test E2.
  { apply andb_prop in E2 as [_ E2%bool_decide_eq_true_1]. prs. eapply when_free; psimp; try done; [by left|confirms_tac]. }
  test E3.
  { apply andb_prop in E3 as [_ E3%bool_decide_eq_true_1]. prs. eapply when_free; psimp; try done; [by right|confirms_tac]. }
  test E4.
  - destruct (getRate_some "s" _ (ai_channel _ _ (pi_air _ _ I))) as (rate & Er & Hr).
    prs. apply (wpe_rate _ _ _ rate); [exact Er|].
    pose proof (secs_pos aTurnaroundTime rate ltac:(by vm_compute) Hr) as Hd. unfold scheduleAt. prs. unfold cleared. psimp.
    rewrite (proj2 (Z.ltb_ge _ _)) by lia. cbn. prs.
    eapply (after_turnaround X s _ rate); [|exact Er|..]; psimp; try reflexivity.
    + intros E. rewrite E in E4. rewrite !(bool_decide_false (phy_TRX_OFF = _)), !andb_false_r in E4 by done. done.
    + confirms_tac.
    + confirms_tac.
  - prs. apply (at_once X s _ phy_SUCCESS); psimp; try done; [by rewrite bool_decide_false|confirms_tac].
Qed.

(** ** The end of a reception *)

(** The reception was cut short: the receiver was forced off, or the sender
    stopped. *)
Definition cut_short (a : AirFrame) : bool :=
  (afKind a =? BITERROR_FORCE_TRX_OFF) || (kind (payload a) =? BITERROR_FORCE_TRX_OFF).
(** The noise without the frame, which is part of it once the receiver was forced
    off. *)
Definition noise_left (s : Radio) (p : positive) (a : AirFrame) : Z :=
  if afKind a =? BITERROR_FORCE_TRX_OFF then noiseLevel s - power_of p s else noiseLevel s.
(** The end of the frame leaves the radio free. *)
Definition frees (s : Radio) (p : positive) (a : AirFrame) : bool :=
  (noise_left s p a <? sensitivity s) && bool_decide (phyRadioState s = phy_RX_ON) && bool_decide (getState (rs s) = RECV).

(** The frames handed to the MAC among what was sent. *)
Definition frames_up (l : list pevent) : list Frame := omap (fun e => match e with ToMac_frame f => Some f | _ => None end) l.

(** A radio that became free at [t]: it is idle, or the pending request is served. *)
Definition set_free (t : Z) (s s' : Radio) : Prop :=
  newState s' = phy_IDLE /\
  if bool_decide (newState s = phy_IDLE) then
    phyRadioState s' = phy_RX_ON /\ getState (rs s') = IDLE /\ confirms s s' []
  else
    phyRadioState s' = phy_TRX_OFF /\ getState (rs s') = SLEEP /\
    if bool_decide (newState s = phy_TRX_OFF) then confirms s s' [phy_TRX_OFF]
    else confirms s s' [] /\ newState_turnaround s' = newState s /\
      exists rate, getRate "s" (getChannelNumber s) = Ok rate /\ TRX_timer s' = Some (t + secs aTurnaroundTime rate).

(** A reception that ended at [t]. *)
Record ended (s : Radio) (p : positive) (a : AirFrame) (t : Z) (s' : Radio) : Prop := {
  en_up : exists l, out s' = out s ++ l /\ frames_up l = (if cut_short a then [] else [handed_up s (payload a)]);
  en_over : snr_ptr s' = None /\ snr_sList s' = [];
  en_gone : recvBuff s' = delete p (recvBuff s) /\ airframes s' = delete p (airframes s);
  en_noise : noiseLevel s' = noise_left s p a;
  en_state :
    if frees s p a then set_free t s s'
    else (phyRadioState s', getState (rs s'), newState s', TRX_timer s') =
         (phyRadioState s, getState (rs s), newState s, TRX_timer s) /\ confirms s s' [];
}.

Lemma wpe_turnaround E at_ s (Q : unit -> Radio -> Prop) :
  simTime s <= at_ -> TRX_timer s = None -> Q tt (s<| TRX_timer := Some at_ |>) -> wpe E (scheduleAt at_ PHY_TRX_TIMER) Q s.
Proof.
  intros Ht Hn HQ. unfold scheduleAt. prs. rewrite (proj2 (Z.ltb_ge _ _)) by lia. unfold isScheduled. cbn [timer_at].
  rewrite Hn. cbn. by prs.
Qed.

(** The verdict is given, with [l] said; whether the radio is free is not yet looked at. *)
Record judged (s : Radio) (p : positive) (a : AirFrame) (t : Z) (l : list pevent) (s1 : Radio) : Prop := {
  jd_out : out s1 = out s ++ l;
  jd_up : frames_up l = (if cut_short a then [] else [handed_up s (payload a)]);
  jd_mute : trx_confirms l = [];
  jd_air : (snr_ptr s1, snr_sList s1, recvBuff s1, airframes s1, noiseLevel s1) =
    (None, [], delete p (recvBuff s), delete p (airframes s), noise_left s p a);
  jd_trx : (simTime s1, sensitivity s1, phyRadioState s1, rs s1, newState s1, TRX_timer s1) =
    (t, sensitivity s, phyRadioState s, rs s, newState s, TRX_timer s);
}.

Lemma judged_says s p a t l s1 l' s' :
  judged s p a t l s1 -> out s' = out s1 ++ l' -> frames_up l' = [] ->
  (exists l, out s' = out s ++ l /\ frames_up l = (if cut_short a then [] else [handed_up s (payload a)])) /\
  confirms s s' (trx_confirms l').
Proof.
  intros [Ho Hup Hm _ _] Ho' Hup'. rewrite Ho, <- app_assoc in Ho'. split; exists (l ++ l'); (split; [done|]).
  - unfold frames_up in *. by rewrite omap_app, Hup, Hup', app_nil_r.
  - unfold trx_confirms in *. by rewrite omap_app, Hm.
Qed.

Lemma judged_ends leak s p a t l s1 :
  phy_inv leak s -> judged s p a t l s1 ->
  wp (s ← self;
      when ((noiseLevel s <? sensitivity s) && bool_decide (phyRadioState s = phy_RX_ON) &&
            bool_decide (getState (rs s) = RECV) && bool_decide (snr_ptr s = None))
        (setRadioState IDLE;; switch_when_free)) (fun _ s' => ended s p a t s') s1.
Proof.
  intros I HJ. pose proof HJ as [Ho Hup Hm [= A1 A2 A3 A4 A5] [= T1 T2 T3 T4 T5 T6]].
  assert (Ech : getChannelNumber s1 = getChannelNumber s) by (unfold getChannelNumber; by rewrite T4).
  apply wpe_bind, wpe_gets. unfold id. rewrite A1, A5, T2, T3, T4, (bool_decide_true (None = None)), andb_true_r by done.
  fold (frees s p a). apply wpe_when; intros Ef.
  2:{ split; try done; [by exists l|rewrite Ef]. split; [congruence|]. by exists l. }
  pose proof Ef as [[_ Hon%bool_decide_eq_true_1]%andb_prop _]%andb_prop.
  unfold setRadioState, switch_when_free. prs; psimp; rewrite T5 in H0.
  2:{ apply bool_decide_eq_false_1, dec_stable in H0.
      match goal with |- ended _ _ _ _ ?s' => destruct (judged_says s p a t l s1 _ s' HJ eq_refl eq_refl) as [J1 J2] end.
      split; try done. rewrite Ef. unfold set_free. psimp. rewrite T5, T3. by rewrite bool_decide_true. }
  apply bool_decide_eq_true_1 in H0.
  assert (HT : TRX_timer s = None).
  { destruct (TRX_timer s) eqn:E; [|done]. by destruct (ti_turn _ (pi_trx _ _ I)) as (_ & _ & ?); [rewrite E|]. }
  rewrite T5. case_bool_decide as Hoff; prs; psimp.
  { match goal with |- ended _ _ _ _ ?s' => eassert (Eo : out s' = out s1 ++ [_; _; _]) by (psimp; rewrite <- !app_assoc; reflexivity) end.
    destruct (judged_says s p a t l s1 _ _ HJ Eo eq_refl) as [J1 J2].
    split; try done. rewrite Ef. unfold set_free. psimp. by rewrite (bool_decide_false (newState s = phy_IDLE)), bool_decide_true. }
  { unfold isScheduled in *. cbn [timer_at] in *. psimp. by rewrite T6, HT in *. }
  destruct (getRate_some "s" _ (ai_channel _ _ (pi_air _ _ I))) as (rate & Er & Hr).
  pose proof (secs_pos aTurnaroundTime rate ltac:(by vm_compute) Hr) as Hd.
  apply (wpe_rate _ _ _ rate); [by rewrite <- Ech in Er|]. apply wpe_turnaround; psimp; [lia|congruence|].
  match goal with |- ended _ _ _ _ ?s' => eassert (Eo : out s' = out s1 ++ [_; _]) by (psimp; rewrite <- !app_assoc; reflexivity) end.
    destruct (judged_says s p a t l s1 _ _ HJ Eo eq_refl) as [J1 J2].
  split; try done. rewrite Ef. unfold set_free. psimp. rewrite !bool_decide_false by done. rewrite T1. eauto 10.
Qed.

(** C32: the verdict on a frame.  When the frame being received is over, it is
    handed to the MAC exactly once: marked as a collision if the signal to noise
    ratio was at or below the threshold at any time of the reception, else marked
    as received during a CCA if one is running, else unchanged.  If the reception
    was cut short, because the receiver was forced off or the sender stopped, it is
    dropped: nothing is handed up.  Either way the frame is gone and nothing is
    being received; if the receiver was forced off, its power is taken off the
    noise.  If the radio was receiving with its receiver on and the noise is now
    below the sensitivity, it becomes idle, and a pending request for a state is
    served: the radio is off, with a confirmation of TRX_OFF at once, or with the
    turnaround to another state under way.  Else its state, the pending request
    and the turnaround timer stay as they are, and no request is confirmed. *)
Theorem reception_verdict (leak : Z) (s : Radio) (p : positive) (a : AirFrame) (t : Z)
  (I : phy_inv leak s) (Hp : snr_ptr s = Some p) (Ht : endRx_timers s !! p = Some t) (Ha : airframes s !! p = Some a) :
  exists s', handleMessage (SelfTimer (PHY_RX_OVER_TIMER p)) (expired (PHY_RX_OVER_TIMER p) t s) = Ok (tt, s') /\
    ended s p a t s'.
Proof.
  cut (wp (handleMessage (SelfTimer (PHY_RX_OVER_TIMER p))) (fun _ s' => ended s p a t s') (expired (PHY_RX_OVER_TIMER p) t s)).
  { intros ([] & s' & E & HQ)%wp_ok. eauto. }
  pose proof (pi_air _ _ I) as IA. destruct (ai_ptr _ _ IA p Hp) as [Hr Hl].
  cbn [handleMessage handleSelfMsg]. unfold handleLowerMsgEnd. apply wpe_bind, wpe_gets, wpe_bind, wpe_lift.
  change (rxPower_at _) with (rxPower_at s). rewrite (rx_slot _ _ IA). apply wpe_bind, wpe_modify, wpe_bind.
  eapply (wpe_mono _ _ (fun _ s1 => exists l, judged s p a t l s1)); [|intros [] s1 (l & HJ); by eapply judged_ends].
  unfold expired. cbn [set_timer]. unfold id. psimp. rewrite (bool_decide_true (snr_ptr s = Some p)) by done.
  unfold deref_frame. prs. unfold set_rxPower. psimp. rewrite Ha. prs.
  destruct (afKind a =? BITERROR_FORCE_TRX_OFF) eqn:Ek; [|destruct (kind (payload a) =? BITERROR_FORCE_TRX_OFF) eqn:Epk].
  3: rewrite isReceivedCorrectly_spec by done.
  all: prs; psimp; rewrite ?received_kind_up by done; exists (if cut_short a then [] else [ToMac_frame (handed_up s (payload a))]);
    unfold cut_short; rewrite Ek, ?Epk; cbn [orb]; split; psimp; rewrite ?app_nil_r; try reflexivity; 
    unfold cut_short, noise_left; by rewrite Ek, ?Epk.
Qed.

(** ** Transmissions *)

(** The frame a radio puts on the channel for [f], and the radio while it does. *)
Definition outgoing (s : Radio) (f : Frame) : AirFrame :=
  mkAirFrame (transmitterPower s) (getChannelNumber s) (calculateDuration f (getBitrate (rs s)))
    (getBitrate (rs s)) (myPosition s) (Some (carrierFrequency s)) 0 f 0 0.
Definition transmitting (s : Radio) (f : Frame) : Radio :=
  s<| rs ::= fun r => r<| getState := TRANSMIT |> |>
   <| out := (out s ++ [NF_RADIOSTATE_CHANGED ((rs s)<| getState := TRANSMIT |>)]) ++ [ToChannel (outgoing s f)] |>
   <| txPktCopy := Some (outgoing s f) |><| TxOver_timer := Some (simTime s + afDuration (outgoing s f)) |>.

Lemma run_upper leak s f :
  phy_inv leak s -> phyRadioState s = phy_TX_ON -> TxOver_timer s = None -> 0 < getByteLength f -> 0 < getBitrate (rs s) ->
  0 <= afDuration (outgoing s f) /\ handleMessage (UpperFrame f) s = Ok (tt, transmitting s f).
Proof.
  intros I Hon Hidle Hlen Hrate. pose proof (pi_trx _ _ I) as Ti. pose proof (proj1 (ti_tx _ Ti) Hidle) as Hcopy.
  assert (Hd0 : 0 <= afDuration (outgoing s f)).
  { change (afDuration (outgoing s f)) with (secs (48 + 8 * getByteLength f) (getBitrate (rs s))). apply secs_pos; lia. }
  split; [done|].
  cut (wp (handleMessage (UpperFrame f)) (fun _ s' => s' = transmitting s f) s); [by intros ([] & s' & E & ->)%wp_ok|].
  cbn [handleMessage]. unfold getBitLength. rewrite (proj2 (Z.eqb_neq _ _)) by lia.
  unfold encapsulatePacket. prs. change (mkAirFrame _ _ _ _ _ _ _ _ _ _) with (outgoing s f). unfold handleUpperMsg.
  apply wpe_bind, wpe_gets. unfold id. rewrite (bool_decide_true (phyRadioState s = phy_TX_ON)) by done.
  assert (Hst : getState (rs s) <> TRANSMIT) by (intros Hst; by destruct (ti_transmit _ Ti Hst)).
  rewrite (bool_decide_true (getState (rs s) <> TRANSMIT)), (bool_decide_true (txPktCopy s = None)) by done.
  unfold isScheduled. cbn [timer_at]. rewrite Hidle. cbn [is_Some_dec bool_decide]. prs; try done.
  unfold scheduleAt. prs. psimp. rewrite (proj2 (Z.ltb_ge _ _)) by lia. unfold isScheduled. cbn [timer_at]. psimp.
  rewrite Hidle. cbn. by prs.
Qed.

(** A transmission completes.  With the transmitter on and no transmission
    under way, a frame of the MAC is put on the channel at once, on the radio's
    channel and with its power; the transmission lasts for the header and the
    frame at the bit rate, and then the MAC is told of its success.  If no other
    state was requested meanwhile the transmitter is still on, ready for the next
    frame. *)
Theorem transmission_completes (leak : Z) (s : Radio) (f : Frame)
  (I : phy_inv leak s) (Hon : phyRadioState s = phy_TX_ON) (Hidle : TxOver_timer s = None)
  (Hlen : 0 < getByteLength f) (Hrate : 0 < getBitrate (rs s)) (Hnew : newState s = phy_IDLE) :
  exists s1 s2 a r1 r2, handleMessage (UpperFrame f) s = Ok (tt, s1) /\
    payload a = f /\ afChannel a = getChannelNumber s /\ pSend a = transmitterPower s /\
    afDuration a = secs (48 + 8 * getByteLength f) (getBitrate (rs s)) /\
    out s1 = out s ++ [NF_RADIOSTATE_CHANGED r1; ToChannel a] /\ getState (rs s1) = TRANSMIT /\
    timer_at PHY_TX_OVER_TIMER s1 = Some (simTime s + afDuration a) /\
    handleMessage (SelfTimer PHY_TX_OVER_TIMER) (expired PHY_TX_OVER_TIMER (simTime s + afDuration a) s1) = Ok (tt, s2) /\
    out s2 = out s1 ++ [NF_RADIOSTATE_CHANGED r2; ToMac_primitive PD_DATA_CONFIRM phy_SUCCESS] /\
    phyRadioState s2 = phy_TX_ON /\ getState (rs s2) = IDLE /\ TxOver_timer s2 = None /\ txPktCopy s2 = None.
Proof.
  destruct (run_upper leak s f I Hon Hidle Hlen Hrate) as [Hd0 E1]. set (a := outgoing s f) in *. set (s1 := transmitting s f) in *.
  cut (wp (handleMessage (SelfTimer PHY_TX_OVER_TIMER)) (fun _ s2 =>
    out s2 = out s1 ++ [NF_RADIOSTATE_CHANGED ((rs s1)<| getState := IDLE |>); ToMac_primitive PD_DATA_CONFIRM phy_SUCCESS] /\
    phyRadioState s2 = phy_TX_ON /\ getState (rs s2) = IDLE /\ TxOver_timer s2 = None /\ txPktCopy s2 = None)
    (expired PHY_TX_OVER_TIMER (simTime s + afDuration a) s1)).
  { intros ([] & s2 & E2 & HQ)%wp_ok. destruct HQ as (Q1 & Q2 & Q3 & Q4 & Q5).
    exists s1, s2, a, ((rs s)<| getState := TRANSMIT |>), ((rs s1)<| getState := IDLE |>).
    split_and!; try done. unfold s1, transmitting. psimp. by rewrite <- app_assoc. }
  cbn [handleMessage handleSelfMsg]. unfold expired. cbn [set_timer]. unfold s1, transmitting. prs; psimp; prs;
    unfold switch_when_free; prs; psimp; try (by rewrite Hnew in *); (split; [by rewrite <- app_assoc|done]).
Qed.

(** ** Forcing the radio off *)

(** What FORCE_TRX_OFF does, from a state without a pending request. *)
Lemma run_force leak s at_ ch tl :
  phy_inv leak s ->
  exists fr n, handleMessage (UpperPrimitive 6 phy_FORCE_TRX_OFF at_ ch tl) s =
    Ok (tt, (cleared s)<| phyRadioState := phy_TRX_OFF |><| rs ::= fun r => r<| getState := SLEEP |> |>
      <| out ::= fun l => l ++ [NF_RADIOSTATE_CHANGED ((rs s)<| getState := SLEEP |>)] |>
      <| airframes := fr |><| noiseLevel := n |>) /\
    match snr_ptr s with
    | Some p => n = snr_rcvdPower s + noiseLevel s /\
        exists a, airframes s !! p = Some a /\ fr = <[p := a<| afKind := BITERROR_FORCE_TRX_OFF |>]> (airframes s)
    | None => n = noiseLevel s /\ fr = airframes s
    end.
Proof.
  intros I. pose proof (pi_air _ _ I) as IA. cbn [handleMessage]. change (6 =? 0) with false.
  unfold handlePrimitive, mbind, M_bind, self, gets. cbn [Z.eqb Pos.eqb]. unfold handle_PLME_SET_TRX_STATE_request.
  unfold mbind, M_bind, self, gets, id. rewrite (run_clear leak s I).
  rewrite (bool_decide_false (phy_FORCE_TRX_OFF = phyRadioState s)) by (by destruct (ti_three _ (pi_trx _ _ I)) as [->|[->| ->]]).
  rewrite (bool_decide_false (phy_FORCE_TRX_OFF = phy_RX_ON)), (bool_decide_false (phy_FORCE_TRX_OFF = phy_TX_ON)),
    (bool_decide_false (phy_FORCE_TRX_OFF = phy_TRX_OFF)), (bool_decide_true (phy_FORCE_TRX_OFF = phy_FORCE_TRX_OFF)) by done.
  cbn [orb andb]. unfold setRadioState, emit, pupd, modify, deref_frame, mbind, M_bind, self, gets, id. psimp.
  destruct (snr_ptr s) as [p|] eqn:Hp.
  - destruct (ai_ptr _ _ IA p Hp) as [Hr _]. destruct (proj2 (ai_frames _ _ IA p) ltac:(by eauto)) as [a Ha].
    unfold cleared. psimp. rewrite Ha. unfold mret, M_ret, when. psimp. cbn [andb].
    eexists _, _. split; [reflexivity|]. split; [reflexivity|]. by exists a.
  - unfold cleared, mret, M_ret, when. psimp. cbn [andb]. eexists _, _. split; [reflexivity|]. by split.
Qed.

(** Turning the transmitter on when the radio is off. *)
Lemma run_on c at_ ch tl :
  newState c = phy_IDLE -> TRX_timer c = None -> phyRadioState c = phy_TRX_OFF -> getState (rs c) = SLEEP ->
  exists r l, handleMessage (UpperPrimitive 6 phy_TX_ON at_ ch tl) c =
    Ok (tt, c<| phyRadioState := phy_TX_ON |><| rs := r |><| out := l |>) /\ getState r = IDLE.
Proof.
  intros H1 H2 H3 H4.
  cut (wp (handleMessage (UpperPrimitive 6 phy_TX_ON at_ ch tl)) (fun _ s' => exists r l,
    s' = c<| phyRadioState := phy_TX_ON |><| rs := r |><| out := l |> /\ getState r = IDLE) c).
  { intros ([] & s' & E & r & l & -> & Hr)%wp_ok. by exists r, l. }
  cbn [handleMessage]. change (6 =? 0) with false. unfold handlePrimitive. apply wpe_bind, wpe_gets. cbn [Z.eqb Pos.eqb].
  unfold handle_PLME_SET_TRX_STATE_request. apply wpe_bind, wpe_gets. unfold id. rewrite H1, H3, H4.
  unfold isScheduled. cbn [timer_at]. rewrite H2. prs. eexists _, _. split; reflexivity.
Qed.

(** C40: FORCE_TRX_OFF does not stop a transmission.  The code that should cancel
    the transmission tests the state of the radio after having set it to SLEEP,
    so it never runs: the end of the transmission stays pending and its frame is
    kept, the MAC is told nothing, and if the MAC turns the transmitter on again
    and sends another frame before that end, the run stops on an assertion. *)
Theorem force_off_keeps_transmitting (leak : Z) (s : Radio) (f : Frame) (at_ : PHYPIBenum) (ch : Z)
  (tl : list (positive * AirFrame)) (I : phy_inv leak s) (Htx : getState (rs s) = TRANSMIT) (Hlen : 0 < getByteLength f) :
  exists s1 s2 r, handleMessage (UpperPrimitive 6 phy_FORCE_TRX_OFF at_ ch tl) s = Ok (tt, s1) /\
    TxOver_timer s1 = TxOver_timer s /\ TxOver_timer s1 <> None /\ out s1 = out s ++ [NF_RADIOSTATE_CHANGED r] /\
    handleMessage (UpperPrimitive 6 phy_TX_ON at_ ch tl) s1 = Ok (tt, s2) /\ phyRadioState s2 = phy_TX_ON /\
    handleMessage (UpperFrame f) s2 = Fault (AssertFailed "txPktCopy == NULL").
Proof.
  destruct (ti_transmit _ (pi_trx _ _ I) Htx) as [_ Hto].
  assert (Hcopy : txPktCopy s <> None) by (intros E; by apply (ti_tx _ (pi_trx _ _ I)) in E).
  destruct (run_force leak s at_ ch tl I) as (fr & n & E1 & _).
  match type of E1 with _ = Ok (_, ?x) => destruct (run_on x at_ ch tl) as (r & l & E2 & Hr); [done..|] end.
  eexists _, _, _. split; [exact E1|]. split; [done|]. split; [done|]. split; [reflexivity|]. split; [exact E2|]. split; [done|].
  cbn [handleMessage]. unfold getBitLength. rewrite (proj2 (Z.eqb_neq _ _)) by lia. unfold encapsulatePacket, handleUpperMsg.
  unfold setRadioState, emit, pupd, modify, mbind, M_bind, mret, M_ret, self, gets, id, assert_. psimp. rewrite Hr.
  cbn -[calculateDuration]. by destruct (txPktCopy s).
Qed.

(** Forcing the radio off twice during one frame spoils the noise level.  With
    a single frame in the air whose reception was already cut short, another
    FORCE_TRX_OFF adds the power of the frame to the noise a second time, and only
    one of the two is taken off when the frame ends: with nothing in the air, the
    noise exceeds the thermal noise by the power of the frame. *)
Theorem forced_twice_leaks (s : Radio) (p : positive) (v t : Z) (at_ : PHYPIBenum) (ch : Z)
  (tl : list (positive * AirFrame)) (I : phy_inv 0 s) (Hp : snr_ptr s = Some p) (Hag : again s = true)
  (Hb : recvBuff s = {[p := v]}) :
  exists s1 s2, handleMessage (UpperPrimitive 6 phy_FORCE_TRX_OFF at_ ch tl) s = Ok (tt, s1) /\
    handleMessage (SelfTimer (PHY_RX_OVER_TIMER p)) (expired (PHY_RX_OVER_TIMER p) t s1) = Ok (tt, s2) /\
    recvBuff s2 = ∅ /\ noiseLevel s2 = thermalNoise s + v.
Proof.
  pose proof (pi_air _ _ I) as IA. destruct (run_force 0 s at_ ch tl I) as (fr & n & E1 & Hn). rewrite Hp in Hn.
  destruct Hn as (-> & a & Ha & ->). destruct (ai_ptr _ _ IA p Hp) as [Hr _].
  assert (Hv : snr_rcvdPower s = v) by (rewrite Hb, lookup_singleton_eq in Hr; congruence).
  eexists. match type of E1 with _ = Ok (_, ?x) => set (s1 := x) in * end.
  cut (wp (handleMessage (SelfTimer (PHY_RX_OVER_TIMER p))) (fun _ s2 => recvBuff s2 = ∅ /\ noiseLevel s2 = thermalNoise s + v)
    (expired (PHY_RX_OVER_TIMER p) t s1)).
  { intros ([] & s2 & E2 & HQ)%wp_ok. exists s2. split; [exact E1|]. split; [exact E2|exact HQ]. }
  cbn [handleMessage handleSelfMsg]. unfold handleLowerMsgEnd. apply wpe_bind, wpe_gets, wpe_bind, wpe_lift.
  change (rxPower_at _) with (rxPower_at s). rewrite (rx_slot _ _ IA). unfold expired, s1, cleared. cbn [set_timer]. unfold id. psimp.
  rewrite (bool_decide_true (snr_ptr s = Some p)) by done. unfold deref_frame. prs; unfold set_rxPower; psimp.
  rewrite lookup_insert_eq. prs. psimp. rewrite Z.eqb_refl. prs; psimp; [by rewrite !andb_false_r in H0|].
  unfold power_of. psimp. rewrite Hb, lookup_singleton_eq, delete_singleton_eq. split; [done|].
  rewrite (ai_noise _ _ IA), Hb. unfold signal, again in *. rewrite Hp in *. rewrite Hag.
  unfold total. rewrite map_fold_singleton. cbn. lia.
Qed.
End verdicts.

(** ** Witnesses *)

(** The invariant along a concrete run. *)
Lemma inv_after m t s :
  phy_inv 0 s -> admissible m s -> forced_again m s = false ->
  is_ok (@handleMessage sample_air m (s<| simTime := t |>)) = true ->
  phy_inv 0 (resulting (@handleMessage sample_air m) (s<| simTime := t |>)).
Proof.
  intros I Ha Hf Hok. pose proof (@inv_message sample_air sample_power 0 m _ (inv_time 0 s t I) ltac:(done) Ha) as W.
  destruct (wpe_run _ _ _ _ _ _ W (resulting_run _ _ Hok)) as (l & _ & I' & Hz). by rewrite (Hz Hf eq_refl) in I'.
Qed.
Lemma inv_after_timer k t s :
  phy_inv 0 s -> timer_at k s = Some t -> is_ok (@handleMessage sample_air (SelfTimer k) (expired k t s)) = true ->
  phy_inv 0 (resulting (@handleMessage sample_air (SelfTimer k)) (expired k t s)).
Proof.
  intros I Ht Hok. exact (wpe_run _ _ _ _ _ _ (@inv_timer sample_air sample_power 0 k t s I Ht) (resulting_run _ _ Hok)).
Qed.

Lemma radio0_inv : phy_inv 0 radio0.
Proof. exact (@started_inv sample_air sample_power radio0 radio0_started). Qed.
Lemma radio1_inv : phy_inv 0 radio1.
Proof. apply (inv_after (LowerAirFrame 1 sample_airframe)); [exact radio0_inv|by vm_compute|reflexivity|vm_compute; reflexivity]. Qed.

Definition ask (st : PHYenum) : phy_msg := UpperPrimitive 6 st PHY_CURRENT_CHANNEL 0 [].

(** The transmitter is turned on, and sends a frame. *)
Definition radio2 : Radio := resulting (@handleMessage sample_air (ask phy_TX_ON)) (radio0<| simTime := 100 |>).
Definition turned : Z := default 0 (TRX_timer radio2).
Definition radio3 : Radio := resulting (@handleMessage sample_air (SelfTimer PHY_TRX_TIMER)) (expired PHY_TRX_TIMER turned radio2).
Definition radio4 : Radio := resulting (@handleMessage sample_air (UpperFrame sample_payload)) (radio3<| simTime := turned |>).

Lemma ask_admissible st s : legal_request st -> admissible (ask st) s.
Proof. intros Hst. split; [done|]. split; constructor. Qed.

Lemma radio2_inv : phy_inv 0 radio2.
Proof. apply inv_after; [exact radio0_inv|apply ask_admissible; left; right; by left|reflexivity|vm_compute; reflexivity]. Qed.
Lemma radio3_inv : phy_inv 0 radio3.
Proof. apply inv_after_timer; [exact radio2_inv|vm_compute; reflexivity|vm_compute; reflexivity]. Qed.
Lemma radio4_inv : phy_inv 0 radio4.
Proof. apply inv_after; [exact radio3_inv|done|reflexivity|vm_compute; reflexivity]. Qed.

(** The radio is forced off while it receives the sample frame. *)
Definition radio5 : Radio := resulting (@handleMessage sample_air (ask phy_FORCE_TRX_OFF)) (radio1<| simTime := 600 |>).
Lemma radio5_inv : phy_inv 0 radio5.
Proof. apply inv_after; [exact radio1_inv|apply ask_admissible; by right|vm_compute; reflexivity|vm_compute; reflexivity]. Qed.

Lemma reception_verdict_witness :
  exists s', @handleMessage sample_air (SelfTimer (PHY_RX_OVER_TIMER 1)) (expired (PHY_RX_OVER_TIMER 1) 1500 radio1) = Ok (tt, s')
    /\ ended radio1 1 sample_airframe 1500 s'.
Proof. apply (@reception_verdict sample_air 0); [exact radio1_inv|vm_compute; reflexivity..]. Defined.

Lemma frame_received_witness :
  exists s1 s2, @handleMessage sample_air (LowerAirFrame 1 sample_airframe) (radio0<| simTime := 500 |>) = Ok (tt, s1) /\
    @handleMessage sample_air (SelfTimer (PHY_RX_OVER_TIMER 1)) (expired (PHY_RX_OVER_TIMER 1) 1500 s1) = Ok (tt, s2).
Proof.
  destruct (@frame_received sample_air 0 (radio0<| simTime := 500 |>) 1 sample_airframe sample_power (inv_time _ _ _ radio0_inv))
    as (s1 & s2 & E1 & _ & E2 & _); try reflexivity; try (vm_compute; discriminate).
  - split; reflexivity.
  - exists s1, s2. split; [exact E1|exact E2].
Defined.

Definition ask_cca : phy_msg := UpperPrimitive 2 phy_IDLE PHY_CURRENT_CHANNEL 0 [].
Definition radio6 : Radio := resulting (@handleMessage sample_air ask_cca) radio0.

Lemma cca_verdict_witness :
  exists s3, out s3 = out radio6 ++ [ToMac_primitive PLME_CCA_CONFIRM phy_IDLE].
Proof.
  destruct (@cca_verdict sample_air radio0 radio6 radio6 phy_IDLE PHY_CURRENT_CHANNEL 0 []) as (rate & s3 & _ & _ & _ & E).
  - reflexivity.
  - apply (resulting_run (@handleMessage sample_air ask_cca)). vm_compute. reflexivity.
  - apply rtc_refl.
  - exists s3. exact E.
Defined.

Lemma trx_request_answered_witness :
  exists s', @handleMessage sample_air (ask phy_TX_ON) radio0 = Ok (tt, s') /\ @answered sample_air phy_TX_ON radio0 s'.
Proof. apply (@trx_request_answered sample_air 0); [exact radio0_inv|right; by left]. Defined.

Lemma transmission_completes_witness :
  exists s1, @handleMessage sample_air (UpperFrame sample_payload) radio3 = Ok (tt, s1) /\ getState (rs s1) = TRANSMIT.
Proof.
  destruct (@transmission_completes sample_air 0 radio3 sample_payload) as (s1 & s2 & a & r1 & r2 & E1 & _ & _ & _ & _ & _ & E2 & _);
    [exact radio3_inv|vm_compute; reflexivity..|].
  exists s1. split; [exact E1|exact E2].
Defined.

Lemma force_off_keeps_transmitting_witness :
  exists s2, @handleMessage sample_air (UpperFrame sample_payload) s2 = Fault (AssertFailed "txPktCopy == NULL").
Proof.
  destruct (@force_off_keeps_transmitting sample_air 0 radio4 sample_payload PHY_CURRENT_CHANNEL 0 [])
    as (s1 & s2 & r & _ & _ & _ & _ & _ & _ & E); [exact radio4_inv|vm_compute; reflexivity|vm_compute; reflexivity|].
  exists s2. exact E.
Defined.

Lemma forced_twice_leaks_witness : exists s2, recvBuff s2 = ∅ /\ noiseLevel s2 = 1 + 40.
Proof.
  destruct (@forced_twice_leaks sample_air radio5 1 40 1500 PHY_CURRENT_CHANNEL 0 []) as (s1 & s2 & _ & _ & E1 & E2);
    [exact radio5_inv|vm_compute; reflexivity..|].
  exists s2. split; [exact E1|exact E2].
Defined.
