(* ===== verification/Channel.v ===== *)
(** * The channel: world/ChannelControl.{h,cc}

    The module that knows the hosts, where they are and which channel they listen
    on.  It caches for each host the set of the hosts in range, hands a frame to
    those that listen on its channel, and remembers the transmissions of the
    recent past for hosts that change their channel.

    A [HostRef] is a pointer to an entry of [std::list<HostEntry>], which stays
    valid until the entry is erased: entries are objects with an address.  A
    [std::set<HostRef>] iterates in the order of addresses.  Coordinates and
    distances are integers; [calcInterfDist] computes the range with [pow] from
    parameters and is a parameter. *)

From stdpp Require Import sorting.
From S2P Require Import Prelude MacConst MacTypes Radio.

Open Scope string_scope.
Open Scope list_scope.
Open Scope Z_scope.

#[projections(primitive)]
Record HostEntry := mkHostEntry {
  host : Z;
  radioInGate : Z;
  hostChannel : Z;
  hpos : Z * Z;
  neighbors : gset positive;
  isNeighborListValid : bool;
  neighborList : list positive;
}.
#[export] Instance eta_HostEntry : Eta HostEntry := fun h => mkHostEntry
  (host h) (radioInGate h) (hostChannel h) (hpos h) (neighbors h) (isNeighborListValid h) (neighborList h).

(** A frame on its way to a gate: [sendDirect(frame, delay, duration, gate)] at
    time [dl_sent]. *)
Record delivery := mkDelivery { dl_gate : Z; dl_frame : AirFrame; dl_sent : Z; dl_delay : Z; dl_duration : Z }.

#[projections(primitive)]
Record ChannelControl := mkCC {
  hosts : list positive;
  entries : gmap positive HostEntry;
  transmissions : list (list AirFrame);
  lastOngoingTransmissionsUpdate : Z;
  maxInterferenceDistance : Z;
  numChannels : Z;
  cc_time : Z;
  sent : list delivery;
}.
#[export] Instance eta_CC : Eta ChannelControl := fun c => mkCC
  (hosts c) (entries c) (transmissions c) (lastOngoingTransmissionsUpdate c) (maxInterferenceDistance c)
  (numChannels c) (cc_time c) (sent c).

(** Reduces the field accesses of updated records, and nothing else. *)
Ltac csimp :=
  cbn [set_ fst snd host radioInGate hostChannel hpos neighbors isNeighborListValid neighborList
       dl_gate dl_frame dl_sent dl_delay dl_duration hosts entries transmissions lastOngoingTransmissionsUpdate
       maxInterferenceDistance numChannels cc_time sent] in *.

Definition TRANSMISSION_PURGE_INTERVAL : Z := second.

Definition cc_self : M ChannelControl ChannelControl := gets id.
Definition cc_upd (f : ChannelControl -> ChannelControl) : M ChannelControl unit := modify f.

(** [*h] *)
Definition deref_host (h : positive) : M ChannelControl HostEntry :=
  s ← cc_self;
  match entries s !! h with
  | Some e => mret e
  | None => fail (Undefined "use of an erased HostEntry")
  end.
Definition upd_host (h : positive) (f : HostEntry -> HostEntry) : M ChannelControl unit :=
  cc_upd (fun s => s<| entries ::= alter f h |>).

(** [Coord::sqrdist] *)
Definition sqrdist (a b : Z * Z) : Z :=
  let dx := a.1 - b.1 in
  let dy := a.2 - b.2 in
  dx * dx + dy * dy.

(** The elements of a set of pointers, from [begin()] to [end()]. *)
Definition in_order (X : gset positive) : list positive := merge_sort Pos.le (elements X).

(** ** Hosts *)

Definition ChannelControl_initialize (channels range : Z) : ChannelControl :=
  mkCC [] ∅ (replicate (Z.to_nat channels) []) 0 range channels 0 [].

Definition lookupHost (m : Z) (s : ChannelControl) : option positive :=
  List.find (fun p => match entries s !! p with Some e => host e =? m | None => false end) (hosts s).

(** [p] is the address of the new entry; [radioIn] the gate of the host with that
    name, if it has one. *)
Definition registerHost (p : positive) (m : Z) (initialPos : Z * Z) (gate radioIn : option Z) : M ChannelControl positive :=
  s ← cc_self;
  (if bool_decide (is_Some (lookupHost m s)) then fail (Thrown "ChannelControl::registerHost(): host already registered")
   else mret tt);;
  g ← match gate, radioIn with
      | Some g, _ => mret g
      | None, Some g => mret g
      | None, None => fail (Thrown "no gate named radioIn")
      end;
  cc_upd (fun s => s<| entries ::= <[p := mkHostEntry m g 0 initialPos ∅ false []]> |><| hosts ::= fun l => l ++ [p] |>);;
  mret p.

(** Erasing [h] from the neighbours of a host. *)
Definition forget (h : positive) (e : HostEntry) : HostEntry :=
  e<| neighbors ::= fun X => X ∖ {[h]} |><| isNeighborListValid := false |>.

Definition unregisterHost (m : Z) : M ChannelControl unit :=
  s ← cc_self;
  match lookupHost m s with
  | Some h => cc_upd (fun s => s<| entries ::= fun es => delete h (forget h <$> es) |>
                              <| hosts ::= fun l => filter (fun q => q <> h) l |>)
  | None => fail (Thrown "unregisterHost failed: no such host")
  end.

Definition getNeighbors (h : positive) : M ChannelControl (list positive) :=
  e ← deref_host h;
  when (negb (isNeighborListValid e))
    (upd_host h (fun e => e<| neighborList := in_order (neighbors e) |><| isNeighborListValid := true |>));;
  e ← deref_host h;
  mret (neighborList e).

(** One host of the loop in [updateConnections]. *)
Definition connect (h hi : positive) : M ChannelControl unit :=
  if bool_decide (hi = h) then mret tt
  else
    s ← cc_self;
    e ← deref_host h;
    ei ← deref_host hi;
    let maxDistSquared := maxInterferenceDistance s * maxInterferenceDistance s in
    if sqrdist (hpos e) (hpos ei) <? maxDistSquared then
      when (bool_decide (hi ∉ neighbors e))
        (upd_host h (fun e => e<| neighbors ::= fun X => {[hi]} ∪ X |><| isNeighborListValid := false |>);;
         upd_host hi (fun e => e<| neighbors ::= fun X => {[h]} ∪ X |><| isNeighborListValid := false |>))
    else
      when (bool_decide (hi ∈ neighbors e))
        (upd_host h (fun e => e<| neighbors ::= fun X => X ∖ {[hi]} |><| isNeighborListValid := false |>);;
         upd_host hi (fun e => e<| neighbors ::= fun X => X ∖ {[h]} |><| isNeighborListValid := false |>)).

Fixpoint connect_all (h : positive) (l : list positive) : M ChannelControl unit :=
  match l with
  | [] => mret tt
  | hi :: l' => connect h hi;; connect_all h l'
  end.

Definition updateConnections (h : positive) : M ChannelControl unit :=
  s ← cc_self;
  connect_all h (hosts s).

Definition checkChannel (channel : Z) : M ChannelControl unit :=
  s ← cc_self;
  if (numChannels s <=? channel) || (channel <? 0) then fail (Thrown "Invalid channel") else mret tt.

Definition updateHostPosition (h : positive) (p : Z * Z) : M ChannelControl unit :=
  _ ← deref_host h;
  upd_host h (fun e => e<| hpos := p |>);;
  updateConnections h.

Definition updateHostChannel (h : positive) (channel : Z) : M ChannelControl unit :=
  checkChannel channel;;
  _ ← deref_host h;
  upd_host h (fun e => e<| hostChannel := channel |>).

(** ** Transmissions *)

(** Whether the purge keeps a transmission. *)
Definition unexpired (now : Z) (a : AirFrame) : bool :=
  negb (timestamp a + afDuration a + TRANSMISSION_PURGE_INTERVAL <? now).

(** The loop over the channels; the vector has [numChannels] elements. *)
Definition purgeOngoingTransmissions : M ChannelControl unit :=
  cc_upd (fun s => s<| transmissions ::= fmap (List.filter (unexpired (cc_time s))) |>).

Definition getOngoingTransmissions (channel : Z) : M ChannelControl (list AirFrame) :=
  checkChannel channel;;
  purgeOngoingTransmissions;;
  s ← cc_self;
  match transmissions s !! Z.to_nat channel with
  | Some l => mret l
  | None => fail (Undefined "transmissions[channel] out of range")
  end.

Definition addOngoingTransmission (frame : AirFrame) : M ChannelControl unit :=
  s ← cc_self;
  if numChannels s =? 1 then mret tt
  else
    when (TRANSMISSION_PURGE_INTERVAL <? cc_time s - lastOngoingTransmissionsUpdate s)
      (purgeOngoingTransmissions;; cc_upd (fun s => s<| lastOngoingTransmissionsUpdate := cc_time s |>));;
    let frame := frame<| timestamp := cc_time s |> in
    if (afChannel frame <? 0) || (Z.of_nat (length (transmissions s)) <=? afChannel frame)
    then fail (Undefined "transmissions[channel] out of range")
    else cc_upd (fun s => s<| transmissions ::= alter (fun l => l ++ [frame]) (Z.to_nat (afChannel frame)) |>).

Section send.
Context `{Propagation}.

Definition sendTo (src : positive) (airFrame : AirFrame) (h : positive) : M ChannelControl unit :=
  e ← deref_host h;
  es ← deref_host src;
  when (hostChannel e =? afChannel airFrame)
    (cc_upd (fun s => s<| sent ::= fun l => l ++
       [mkDelivery (radioInGate e) airFrame (cc_time s) (propagationDelay (distance (hpos es) (hpos e))) (afDuration airFrame)] |>)).

Fixpoint sendTo_all (src : positive) (airFrame : AirFrame) (l : list positive) : M ChannelControl unit :=
  match l with
  | [] => mret tt
  | h :: l' => sendTo src airFrame h;; sendTo_all src airFrame l'
  end.

Definition sendToChannel (src : positive) (airFrame : AirFrame) : M ChannelControl unit :=
  l ← getNeighbors src;
  sendTo_all src airFrame l;;
  addOngoingTransmission airFrame.
End send.
