(* ===== verification/ChannelProps.v ===== *)
(** * What the channel promises: neighbours, deliveries, transmissions

    The cached sets of neighbours agree with the distances, whatever is registered,
    moved and unregistered; a frame is handed to exactly the hosts in range that
    listen on its channel; and a transmission is remembered until it can no longer
    be heard. *)

From stdpp Require Import sorting.
From S2P Require Import Prelude MacConst MacTypes Radio Channel.

Open Scope string_scope.
Open Scope list_scope.
Open Scope Z_scope.

(** Symbolic execution of the accessors. *)
Ltac crs := repeat (first [ progress unfold cc_self, cc_upd, upd_host | wpe_step ]; cbv beta; unfold id).

Lemma elem_of_in_order q X : q ∈ in_order X <-> q ∈ X.
Proof. unfold in_order. by rewrite merge_sort_Permutation, elem_of_elements. Qed.
Lemma NoDup_in_order X : NoDup (in_order X).
Proof. unfold in_order. rewrite merge_sort_Permutation. apply NoDup_elements. Qed.

Lemma sqrdist_sym a b : sqrdist a b = sqrdist b a.
Proof. unfold sqrdist. ring. Qed.

(** ** Neighbours *)

(** [q] is in the cached set of [p]. *)
Definition nbr (s : ChannelControl) (p q : positive) : Prop :=
  exists e, entries s !! p = Some e /\ q ∈ neighbors e.

(** The reference: two hosts nearer than the range. *)
Definition in_range (s : ChannelControl) (p q : positive) : Prop :=
  exists e f, entries s !! p = Some e /\ entries s !! q = Some f /\
    sqrdist (hpos e) (hpos f) < maxInterferenceDistance s * maxInterferenceDistance s.

Lemma in_range_sym s p q : in_range s p q <-> in_range s q p.
Proof. unfold in_range. split; intros (e & f & He & Hf & Hd); exists f, e; by rewrite sqrdist_sym. Qed.

(** Everything but the neighbours. *)
Definition fixed (e : HostEntry) := (host e, radioInGate e, hostChannel e, hpos e).
Definition static (s : ChannelControl) :=
  (hosts s, fixed <$> entries s, transmissions s, lastOngoingTransmissionsUpdate s, maxInterferenceDistance s,
   numChannels s, cc_time s, sent s).

(** What the caches satisfy at any time: references to live entries, symmetric,
    irreflexive, and a valid list has the elements of its set. *)
Record links (s : ChannelControl) : Prop := {
  li_dom : forall p, p ∈ hosts s <-> is_Some (entries s !! p);
  li_sym : forall p q, nbr s p q -> nbr s q p;
  li_irr : forall p, ~ nbr s p p;
  li_cache : forall p e, entries s !! p = Some e -> isNeighborListValid e = true -> neighborList e = in_order (neighbors e);
}.

Lemma fixed_lookup s s' p : fixed <$> entries s' = fixed <$> entries s -> fixed <$> (entries s' !! p) = fixed <$> (entries s !! p).
Proof. intros E. by rewrite <- !lookup_fmap, E. Qed.

Lemma static_entry s s' p e :
  static s' = static s -> entries s !! p = Some e -> exists e', entries s' !! p = Some e' /\ fixed e' = fixed e.
Proof.
  intros [= _ E _ _ _ _ _ _] He. apply (fixed_lookup _ _ p) in E. rewrite He in E.
  destruct (entries s' !! p) as [e'|]; [|done]. injection E as E1 E2 E3 E4. exists e'. split; [done|]. unfold fixed. congruence.
Qed.

Lemma static_in_range s s' p q : static s' = static s -> in_range s p q -> in_range s' p q.
Proof.
  intros E (e & f & He & Hf & Hd). destruct (static_entry _ _ _ _ E He) as (e' & He' & Ee).
  destruct (static_entry _ _ _ _ E Hf) as (f' & Hf' & Ef). exists e', f'. split_and!; [done..|].
  injection E as _ _ _ _ -> _ _ _. injection Ee as _ _ _ ->. injection Ef as _ _ _ ->. done.
Qed.
Lemma static_range_iff s s' p q : static s' = static s -> in_range s' p q <-> in_range s p q.
Proof. intros E. split; by apply static_in_range. Qed.

(** Setting the link between two hosts in both sets. *)
Definition relink (b : bool) (q : positive) (e : HostEntry) : HostEntry :=
  e<| neighbors ::= fun X => if b then {[q]} ∪ X else X ∖ {[q]} |><| isNeighborListValid := false |>.

Definition same_pair (p q h hi : positive) : Prop := (p = h /\ q = hi) \/ (p = hi /\ q = h).

Lemma same_pair_dec p q h hi : same_pair p q h hi \/ ~ same_pair p q h hi.
Proof. unfold same_pair. destruct (decide (p = h)), (decide (q = hi)), (decide (p = hi)), (decide (q = h)); tauto. Qed.

Definition relinks (b : bool) (h hi p : positive) (e : HostEntry) : HostEntry :=
  if decide (p = h) then relink b hi e else if decide (p = hi) then relink b h e else e.

Lemma relinks_lookup b h hi (es : gmap positive HostEntry) p :
  h <> hi -> alter (relink b h) hi (alter (relink b hi) h es) !! p = relinks b h hi p <$> es !! p.
Proof.
  intros Hne. unfold relinks. destruct (decide (p = h)) as [->|Hh].
  - by rewrite lookup_alter_ne, lookup_alter_eq.
  - destruct (decide (p = hi)) as [->|Hi].
    + by rewrite lookup_alter_eq, lookup_alter_ne.
    + rewrite !lookup_alter_ne by done. by destruct (es !! p).
Qed.

Lemma relinks_neighbors b h hi p q e :
  h <> hi ->
  q ∈ neighbors (relinks b h hi p e) <-> (same_pair p q h hi /\ b = true) \/ (~ same_pair p q h hi /\ q ∈ neighbors e).
Proof.
  intros Hne. unfold relinks, same_pair, relink.
  destruct (decide (p = h)) as [->|Hh]; [|destruct (decide (p = hi)) as [->|Hi]]; [..|naive_solver];
    destruct b; csimp; rewrite ?elem_of_union, ?elem_of_difference, !elem_of_singleton;
    destruct (decide (q = hi)), (decide (q = h)); naive_solver.
Qed.

Lemma relinked b h hi s :
  links s -> h <> hi -> is_Some (entries s !! h) -> is_Some (entries s !! hi) ->
  let s' := s<| entries ::= fun es => alter (relink b h) hi (alter (relink b hi) h es) |> in
  links s' /\ static s' = static s /\
  forall p q, nbr s' p q <-> (same_pair p q h hi /\ b = true) \/ (~ same_pair p q h hi /\ nbr s p q).
Proof.
  intros [L1 L2 L3 L4] Hne [eh Hh] [ei Hi] s'.
  assert (He : forall p, entries s' !! p = relinks b h hi p <$> entries s !! p).
  { intros p. unfold s'. csimp. by apply relinks_lookup. }
  assert (Hn : forall p q, nbr s' p q <-> (same_pair p q h hi /\ b = true) \/ (~ same_pair p q h hi /\ nbr s p q)).
  { intros p q. unfold nbr. rewrite He. split.
    - intros (e' & (e & Ee & ->)%fmap_Some & Hq). apply relinks_neighbors in Hq; naive_solver.
    - intros [Hs|(Hs & e & Ee & Hq)].
      + assert (is_Some (entries s !! p)) as [e ->] by (destruct Hs as [[[-> _]|[-> _]] _]; eauto).
        eexists. split; [done|]. apply relinks_neighbors; naive_solver.
      + rewrite Ee. eexists. split; [done|]. apply relinks_neighbors; naive_solver. }
  split; [split|split; [|done]].
  - intros p. rewrite He, fmap_is_Some. apply L1.
  - intros p q Hpq. apply Hn. apply Hn in Hpq. unfold same_pair in *. destruct Hpq as [[Hs ->]|[Hs Hpq]]; [left|right]; (split; [tauto|auto]).
  - intros p Hpp. apply Hn in Hpp. unfold same_pair in Hpp. destruct Hpp as [[[[-> ?]|[-> ?]] _]|[_ Hpp]]; [done..|by apply (L3 p)].
  - intros p e' Ee Hv. rewrite He in Ee. apply fmap_Some in Ee as (e & Ee & ->). unfold relinks in *.
    destruct (decide (p = h)), (decide (p = hi)); [done..|]. by apply (L4 p).
  - unfold static. assert (fixed <$> entries s' = fixed <$> entries s) as ->; [|done].
    apply map_eq. intros p. rewrite !lookup_fmap, He. destruct (entries s !! p) as [e|]; [|done]. cbn. f_equal.
    unfold relinks. by destruct (decide (p = h)), (decide (p = hi)).
Qed.

(** One host of the loop: the link with it becomes what the distance says. *)
Lemma wp_connect h hi s :
  links s -> is_Some (entries s !! h) -> is_Some (entries s !! hi) ->
  wp (connect h hi) (fun _ s' => links s' /\ static s' = static s /\
    forall p q, nbr s' p q <-> (same_pair p q h hi /\ h <> hi /\ in_range s p q) \/ ((~ same_pair p q h hi \/ h = hi) /\ nbr s p q)) s.
Proof.
  intros L [e He] [ei Hi]. unfold connect. destruct (bool_decide_reflect (hi = h)) as [->|Hne].
  { apply wpe_ret. split_and!; [done..|]. intros p q. tauto. }
  assert (Hne' : h <> hi) by done. unfold deref_host. crs. rewrite He. crs. rewrite Hi. crs.
  assert (Hr : forall p q, same_pair p q h hi ->
    (in_range s p q <-> sqrdist (hpos e) (hpos ei) < maxInterferenceDistance s * maxInterferenceDistance s)).
  { intros p q [[-> ->]|[-> ->]]; [|rewrite in_range_sym]; unfold in_range; rewrite He, Hi; naive_solver. }
  assert (Hn : nbr s h hi <-> hi ∈ neighbors e) by (unfold nbr; rewrite He; naive_solver).
  assert (Hsame :
    (hi ∈ neighbors e <-> sqrdist (hpos e) (hpos ei) < maxInterferenceDistance s * maxInterferenceDistance s) ->
    links s /\ static s = static s /\
    forall p q, nbr s p q <-> (same_pair p q h hi /\ h <> hi /\ in_range s p q) \/ ((~ same_pair p q h hi \/ h = hi) /\ nbr s p q)).
  { intros Hb. split_and!; [done..|]. intros p q.
    assert (same_pair p q h hi -> (nbr s p q <-> hi ∈ neighbors e)).
    { intros [[-> ->]|[-> ->]]; [done|]. rewrite <- Hn. split; apply (li_sym _ L). }
    pose proof (same_pair_dec p q h hi). specialize (Hr p q). tauto. }
  assert (Hset : forall b : bool,
    (b = true <-> sqrdist (hpos e) (hpos ei) < maxInterferenceDistance s * maxInterferenceDistance s) ->
    let s' := s<| entries ::= fun es => alter (relink b h) hi (alter (relink b hi) h es) |> in
    links s' /\ static s' = static s /\
    forall p q, nbr s' p q <-> (same_pair p q h hi /\ h <> hi /\ in_range s p q) \/ ((~ same_pair p q h hi \/ h = hi) /\ nbr s p q)).
  { intros b Hb s'. destruct (relinked b h hi s L ltac:(done) ltac:(eauto) ltac:(eauto)) as (L' & St & Hq).
    split_and!; [done..|]. intros p q. etrans; [apply Hq|]. specialize (Hr p q). tauto. }
  destruct (Z.ltb_spec (sqrdist (hpos e) (hpos ei)) (maxInterferenceDistance s * maxInterferenceDistance s)) as [Hlt|Hge].
  - apply wpe_when; intros Hb; [apply bool_decide_eq_true in Hb|apply bool_decide_eq_false in Hb].
    + crs. apply (Hset true). done.
    + apply Hsame. split; [done|]. intros _. by destruct (decide (hi ∈ neighbors e)).
  - apply wpe_when; intros Hb; [apply bool_decide_eq_true in Hb|apply bool_decide_eq_false in Hb].
    + crs. apply (Hset false). split; [done|lia].
    + apply Hsame. split; [done|lia].
Qed.

(** The pairs a pass of [updateConnections] over the hosts [l] decides. *)
Definition touched (h : positive) (l : list positive) (p q : positive) : Prop :=
  (p = h /\ q ∈ l /\ q <> h) \/ (q = h /\ p ∈ l /\ p <> h).

Lemma touched_cons h hi l p q : touched h (hi :: l) p q <-> (same_pair p q h hi /\ h <> hi) \/ touched h l p q.
Proof. unfold touched, same_pair. rewrite !elem_of_cons. naive_solver. Qed.
Lemma touched_dec h l p q : touched h l p q \/ ~ touched h l p q.
Proof. unfold touched. destruct (decide (p = h)), (decide (q = h)), (decide (p ∈ l)), (decide (q ∈ l)); tauto. Qed.

Lemma wp_connect_all h l s :
  links s -> is_Some (entries s !! h) -> (forall hi, hi ∈ l -> is_Some (entries s !! hi)) ->
  wp (connect_all h l) (fun _ s' => links s' /\ static s' = static s /\
    forall p q, nbr s' p q <-> (touched h l p q /\ in_range s p q) \/ (~ touched h l p q /\ nbr s p q)) s.
Proof.
  revert s. induction l as [|hi l IH]; intros s L Hh Hl; cbn [connect_all].
  { apply wpe_ret. split_and!; [done..|]. intros p q. unfold touched. pose proof (not_elem_of_nil p). pose proof (not_elem_of_nil q). tauto. }
  apply wpe_bind. eapply wpe_mono; [apply wp_connect; [done..|by apply Hl; left]|]. intros [] s1 (L1 & St1 & Hn1).
  assert (Hdom : forall p, is_Some (entries s !! p) -> is_Some (entries s1 !! p)).
  { intros p [e He]. destruct (static_entry _ _ _ _ St1 He) as (e' & -> & _). eauto. }
  eapply wpe_mono; [apply IH; [done|by apply Hdom|intros; by apply Hdom, Hl; right]|].
  intros [] s2 (L2 & St2 & Hn2). split_and!; [done|congruence|]. intros p q. rewrite Hn2, Hn1, touched_cons.
  rewrite (static_range_iff _ _ p q St1).
  destruct (touched_dec h l p q), (same_pair_dec p q h hi), (decide (h = hi)); tauto.
Qed.

(** ** The invariant *)

(** [placed] are the hosts whose position was announced since they registered.
    Between two of them a host is a neighbour exactly if it is in range. *)
Record cc_inv (placed : gset positive) (s : ChannelControl) : Prop := {
  ci_links : links s;
  ci_placed : forall p, p ∈ placed -> is_Some (entries s !! p);
  ci_exact : forall p q, p ∈ placed -> q ∈ placed -> p <> q -> (nbr s p q <-> in_range s p q);
  ci_unique : forall p q e f, entries s !! p = Some e -> entries s !! q = Some f -> host e = host f -> p = q;
  ci_channel : forall p e, entries s !! p = Some e -> hostChannel e = 0 \/ 0 <= hostChannel e < numChannels s;
  ci_length : length (transmissions s) = Z.to_nat (numChannels s);
  ci_frames : forall ch l a, transmissions s !! ch = Some l -> a ∈ l -> afChannel a = Z.of_nat ch /\ timestamp a <= cc_time s;
}.

(** What depends on the hosts only through [static] and the neighbours. *)
Lemma inv_static placed placed' s s' :
  cc_inv placed s -> links s' -> static s' = static s -> (forall p, p ∈ placed' -> is_Some (entries s !! p)) ->
  (forall p q, p ∈ placed' -> q ∈ placed' -> p <> q -> (nbr s' p q <-> in_range s p q)) -> cc_inv placed' s'.
Proof.
  intros [I1 _ I3 I4 I5 I6 I7] L St I2 Hn. pose proof St as [= E1 E2 E3 E4 E5 E6 E7 E8].
  assert (Hb : forall p e', entries s' !! p = Some e' -> exists e, entries s !! p = Some e /\ fixed e = fixed e').
  { intros p e'. by apply static_entry. }
  split; [done|..].
  - intros p [e He]%I2. destruct (static_entry _ _ _ _ St He) as (e' & -> & _). eauto.
  - intros p q Hp Hq Hne. rewrite (static_range_iff _ _ p q St). by apply Hn.
  - intros p q e f He Hf Hm. destruct (Hb _ _ He) as (e0 & He0 & [= F1 _ _ _]), (Hb _ _ Hf) as (f0 & Hf0 & [= F2 _ _ _]).
    apply (I4 p q e0 f0); congruence.
  - intros p e He. destruct (Hb _ _ He) as (e0 & He0 & [= _ _ F _]). rewrite <- F, E6. by apply (I5 p).
  - by rewrite E3, E6.
  - intros ch l a. rewrite E3, E7. apply I7.
Qed.

(** The hosts a channel with the same hosts has: transmissions and time may differ. *)
Lemma inv_traffic placed s s' :
  cc_inv placed s -> hosts s' = hosts s -> entries s' = entries s -> maxInterferenceDistance s' = maxInterferenceDistance s ->
  numChannels s' = numChannels s -> length (transmissions s') = length (transmissions s) ->
  (forall ch l a, transmissions s' !! ch = Some l -> a ∈ l -> afChannel a = Z.of_nat ch /\ timestamp a <= cc_time s') ->
  cc_inv placed s'.
Proof.
  intros [[L1 L2 L3 L4] I2 I3 I4 I5 I6 I7] E1 E2 E3 E4 E5 Hf. unfold nbr, in_range in *.
  split; [split|..]; unfold nbr, in_range; rewrite ?E1, ?E2, ?E3, ?E4, ?E5; done.
Qed.

Lemma wp_updateConnections (placed : gset positive) h s :
  links s -> is_Some (entries s !! h) -> (forall p, p ∈ placed -> is_Some (entries s !! p)) ->
  (forall p q, p ∈ placed -> q ∈ placed -> p <> q -> p <> h -> q <> h -> (nbr s p q <-> in_range s p q)) ->
  wp (updateConnections h) (fun _ s' => links s' /\ static s' = static s /\
    forall p q, p ∈ {[h]} ∪ placed -> q ∈ {[h]} ∪ placed -> p <> q -> (nbr s' p q <-> in_range s p q)) s.
Proof.
  intros L Hh Hpl Hex. unfold updateConnections. crs.
  eapply wpe_mono; [apply (wp_connect_all h (hosts s)); [done..|by intros hi ?%(li_dom _ L)]|].
  intros [] s' (L' & St & Hn). split_and!; [done..|]. intros p q Hp Hq Hne. rewrite Hn.
  assert (Hin : forall p : positive, p ∈ ({[h]} ∪ placed : gset positive) -> p ∈ hosts s).
  { intros x [->%elem_of_singleton|Hx]%elem_of_union; apply (li_dom _ L); [done|by apply Hpl]. }
  destruct (decide (p = h)) as [->|Hp0]; [|destruct (decide (q = h)) as [->|Hq0]].
  - assert (touched h (hosts s) h q) by (left; auto). tauto.
  - assert (touched h (hosts s) p h) by (right; auto). tauto.
  - assert (~ touched h (hosts s) p q) by (unfold touched; tauto).
    specialize (Hex p q). set_solver.
Qed.

(** ** Every operation preserves it *)

(** What the operations on hosts leave alone. *)
Definition traffic (s : ChannelControl) := (transmissions s, cc_time s, numChannels s, sent s).

Lemma lookupHost_None s m p e :
  (forall p, p ∈ hosts s <-> is_Some (entries s !! p)) -> lookupHost m s = None -> entries s !! p = Some e -> host e <> m.
Proof.
  intros Hd Hnone He Em. assert (p ∈ hosts s) as Hp by (apply Hd; eauto). apply list_elem_of_In in Hp.
  pose proof (List.find_none _ _ Hnone p Hp) as Hf. cbn in Hf. rewrite He in Hf. apply Z.eqb_neq in Hf. done.
Qed.
Lemma lookupHost_Some s m p : lookupHost m s = Some p -> exists e, entries s !! p = Some e /\ host e = m.
Proof.
  intros [_ Hf]%List.find_some. destruct (entries s !! p) as [e|]; [|done]. apply Z.eqb_eq in Hf. eauto.
Qed.

Lemma inv_add placed s p e :
  cc_inv placed s -> entries s !! p = None -> neighbors e = ∅ -> isNeighborListValid e = false -> hostChannel e = 0 ->
  (forall q f, entries s !! q = Some f -> host f <> host e) ->
  cc_inv placed (s<| entries ::= <[p := e]> |><| hosts ::= fun l => l ++ [p] |>).
Proof.
  intros [[L1 L2 L3 L4] I2 I3 I4 I5 I6 I7] Hp Hn Hv Hc Hm. set (s' := s<| entries ::= _ |><| hosts ::= _ |>).
  assert (Hne : forall q f, q <> p -> entries s' !! q = Some f <-> entries s !! q = Some f).
  { intros q f Hq. unfold s'. csimp. by rewrite lookup_insert_ne. }
  assert (Heq : entries s' !! p = Some e) by apply lookup_insert_eq.
  assert (Hnb : forall a b, nbr s' a b <-> nbr s a b).
  { intros a b. unfold nbr. destruct (decide (a = p)) as [->|Ha]; [rewrite Heq, Hp; set_solver|]. by setoid_rewrite (Hne a _ Ha). }
  assert (Hpl : forall q, q ∈ placed -> q <> p) by (intros q [f Hf]%I2 ->; congruence).
  split; [split|..].
  - intros q. unfold s'. csimp. rewrite elem_of_app, list_elem_of_singleton, L1. destruct (decide (q = p)) as [->|Hq].
    + rewrite lookup_insert_eq. split; eauto.
    + rewrite lookup_insert_ne by done. tauto.
  - intros a b. rewrite !Hnb. apply L2.
  - intros a. rewrite Hnb. apply L3.
  - intros q f. destruct (decide (q = p)) as [->|Hq]; [rewrite Heq; intros [= <-]; congruence|]. rewrite Hne by done. apply L4.
  - intros q Hq. specialize (Hpl q Hq). destruct (I2 q Hq) as [f Hf]. exists f. by apply Hne.
  - intros a b Ha Hb Hab. rewrite Hnb, I3 by done. unfold in_range. setoid_rewrite (Hne a _ (Hpl a Ha)).
    by setoid_rewrite (Hne b _ (Hpl b Hb)).
  - intros a b x y. destruct (decide (a = p)) as [->|Ha], (decide (b = p)) as [->|Hb]; rewrite ?Heq, ?Hne by done; [done|..|apply I4].
    + intros [= <-] Hy Em. by destruct (Hm b y Hy).
    + intros Hx [= <-] Em. by destruct (Hm a x Hx).
  - intros q f. destruct (decide (q = p)) as [->|Hq]; [rewrite Heq; intros [= <-]; by left|]. rewrite Hne by done. apply I5.
  - done.
  - done.
Qed.

Lemma inv_register placed s p m x gate radioIn :
  cc_inv placed s -> entries s !! p = None ->
  wpe (fun _ => True) (registerHost p m x gate radioIn) (fun r s' => r = p /\ cc_inv placed s' /\ traffic s' = traffic s /\
    exists g, (gate = Some g \/ (gate = None /\ radioIn = Some g)) /\
      entries s' = <[p := mkHostEntry m g 0 x ∅ false []]> (entries s)) s.
Proof.
  intros I Hp. unfold registerHost. crs; try done. destruct (bool_decide_reflect (is_Some (lookupHost m s))) as [|Hnone]; crs; [done|].
  apply eq_None_not_Some in Hnone. destruct gate as [g|]; [|destruct radioIn as [g|]]; crs; try done;
    (split_and!; [done| |done|by eauto]; apply inv_add; try done; intros q f Hf; by apply (lookupHost_None s _ q f (li_dom _ (ci_links _ _ I)))).
Qed.

Lemma inv_unregister placed s m :
  cc_inv placed s ->
  wpe (fun _ => True) (unregisterHost m) (fun _ s' => exists h, lookupHost m s = Some h /\
    cc_inv (placed ∖ {[h]}) s' /\ traffic s' = traffic s) s.
Proof.
  intros [[L1 L2 L3 L4] I2 I3 I4 I5 I6 I7]. unfold unregisterHost. crs; try done.
  destruct (lookupHost m s) as [h|] eqn:Eh; crs; [|done]. exists h. split_and!; [done| |done]. set (s' := s<| entries ::= _ |><| hosts ::= _ |>).
  assert (Hl : forall q f, entries s' !! q = Some f <-> q <> h /\ exists e, entries s !! q = Some e /\ f = forget h e).
  { intros q f. unfold s'. csimp. rewrite lookup_delete_Some, lookup_fmap, fmap_Some. naive_solver. }
  assert (Hnb : forall a b, nbr s' a b <-> a <> h /\ b <> h /\ nbr s a b).
  { intros a b. unfold nbr. setoid_rewrite Hl. split.
    - intros (f & (Ha & e & He & ->) & Hb). unfold forget in Hb. csimp. apply elem_of_difference in Hb as [Hb Hb'].
      rewrite elem_of_singleton in Hb'. eauto.
    - intros (Ha & Hb & e & He & Hin). exists (forget h e). split; [eauto|]. unfold forget. csimp. set_solver. }
  split; [split|..].
  - intros q. unfold s'. csimp. rewrite list_elem_of_filter, L1. destruct (decide (q = h)) as [->|Hq].
    + rewrite lookup_delete_eq. split; [tauto|intros []; done].
    + rewrite lookup_delete_ne, lookup_fmap, fmap_is_Some by done. tauto.
  - intros a b. rewrite !Hnb. specialize (L2 a b). tauto.
  - intros a. rewrite Hnb. specialize (L3 a). tauto.
  - intros q f (_ & e & _ & ->)%Hl. done.
  - intros q [Hq Hqh]%elem_of_difference. destruct (I2 q Hq) as [e He]. exists (forget h e). apply Hl. set_solver.
  - intros a b [Ha Ha']%elem_of_difference [Hb Hb']%elem_of_difference Hab. rewrite elem_of_singleton in Ha', Hb'.
    rewrite Hnb, I3 by done. unfold in_range. setoid_rewrite Hl. split; [intros (_ & _ & e & f & He & Hf & Hd)|].
    + exists (forget h e), (forget h f). split_and!; [done|by eauto|done|by eauto|done].
    + intros (e & f & (_ & e0 & He & ->) & (_ & f0 & Hf & ->) & Hd). split_and!; [done..|]. by exists e0, f0.
  - intros a b x y (_ & e & He & ->)%Hl (_ & f & Hf & ->)%Hl Em. by apply (I4 a b e f).
  - intros q f (_ & e & He & ->)%Hl. by apply (I5 q e).
  - done.
  - done.
Qed.

(** A change of the list and its flag in one entry. *)
Lemma recached h e s :
  links s -> entries s !! h = Some e ->
  let s' := s<| entries ::= alter (fun e => e<| neighborList := in_order (neighbors e) |><| isNeighborListValid := true |>) h |> in
  links s' /\ static s' = static s /\ (forall p q, nbr s' p q <-> nbr s p q).
Proof.
  intros [L1 L2 L3 L4] He s'.
  assert (Hl : forall p f', entries s' !! p = Some f' -> exists f, entries s !! p = Some f /\ fixed f' = fixed f /\
    neighbors f' = neighbors f /\ (isNeighborListValid f' = true -> neighborList f' = in_order (neighbors f'))).
  { intros p f'. unfold s'. csimp. destruct (decide (p = h)) as [->|Hp].
    - rewrite lookup_alter_eq, He. intros [= <-]. exists e. done.
    - rewrite lookup_alter_ne by done. intros Hf. exists f'. split_and!; [done..|]. by apply (L4 p). }
  assert (Hs : forall p, is_Some (entries s' !! p) <-> is_Some (entries s !! p)) by (intros p; apply lookup_alter_is_Some).
  assert (Hn : forall p q, nbr s' p q <-> nbr s p q).
  { intros p q. split; intros (f & Hf & Hq).
    - destruct (Hl _ _ Hf) as (f0 & Hf0 & _ & E & _). exists f0. by rewrite <- E.
    - destruct (proj2 (Hs p) ltac:(eauto)) as [f' Hf']. destruct (Hl _ _ Hf') as (f0 & Hf0 & _ & E & _).
      exists f'. rewrite E. by simplify_eq. }
  split; [split|split; [|done]].
  - intros p. rewrite Hs. apply L1.
  - intros p q. rewrite !Hn. apply L2.
  - intros p. rewrite Hn. apply L3.
  - intros p f (? & _ & _ & _ & E)%Hl Hv. by apply E.
  - unfold static. assert (fixed <$> entries s' = fixed <$> entries s) as ->; [|done].
    apply map_eq. intros p. rewrite !lookup_fmap. destruct (entries s' !! p) as [f'|] eqn:Ef'.
    + destruct (Hl _ _ Ef') as (f & -> & E & _). cbn. by rewrite E.
    + assert (entries s !! p = None) as ->; [|done]. apply eq_None_not_Some. rewrite <- Hs, Ef'. by intros [].
Qed.

Lemma wp_getNeighbors h e s :
  links s -> entries s !! h = Some e ->
  wp (getNeighbors h) (fun l s' => l = in_order (neighbors e) /\ links s' /\ static s' = static s /\
    (forall p q, nbr s' p q <-> nbr s p q)) s.
Proof.
  intros L He. unfold getNeighbors, deref_host. crs. rewrite He. crs.
  - csimp. rewrite lookup_alter_eq, He. cbn [fmap option_fmap option_map]. crs. split; [done|]. by apply (recached h e).
  - rewrite He. crs. split_and!; [|done..]. apply (li_cache _ L h e He). by destruct (isNeighborListValid e).
Qed.

(** An entry changes, but not its neighbours. *)
Definition same_links (e e' : HostEntry) : Prop :=
  host e' = host e /\ neighbors e' = neighbors e /\ isNeighborListValid e' = isNeighborListValid e /\
  neighborList e' = neighborList e.

Lemma inv_alter placed placed' s h e f :
  cc_inv placed s -> entries s !! h = Some e -> same_links e (f e) ->
  hostChannel (f e) = 0 \/ 0 <= hostChannel (f e) < numChannels s ->
  placed' ⊆ placed -> h ∉ placed' \/ hpos (f e) = hpos e ->
  cc_inv placed' (s<| entries ::= alter f h |>).
Proof.
  intros [[L1 L2 L3 L4] I2 I3 I4 I5 I6 I7] He Hf Hc Hsub Hpos. set (s' := s<| entries ::= _ |>).
  assert (Hs : forall p, is_Some (entries s' !! p) <-> is_Some (entries s !! p)) by (intros p; apply lookup_alter_is_Some).
  assert (Hl : forall p e', entries s' !! p = Some e' -> exists e0, entries s !! p = Some e0 /\ same_links e0 e' /\
    (hostChannel e' = 0 \/ 0 <= hostChannel e' < numChannels s) /\ (p ∈ placed' -> hpos e' = hpos e0)).
  { intros p e'. unfold s'. csimp. destruct (decide (p = h)) as [->|Hp].
    - rewrite lookup_alter_eq, He. intros [= <-]. exists e. split_and!; [done..|tauto].
    - rewrite lookup_alter_ne by done. intros Hp'. exists e'. split_and!; [done..|by apply (I5 p)|done]. }
  assert (Hn : forall p q, nbr s' p q <-> nbr s p q).
  { intros p q. split; intros (e' & He' & Hq).
    - destruct (Hl _ _ He') as (e0 & He0 & (_ & E & _) & _). exists e0. by rewrite <- E.
    - destruct (proj2 (Hs p) ltac:(eauto)) as [e1 He1]. destruct (Hl _ _ He1) as (e0 & He0 & (_ & E & _) & _).
      exists e1. rewrite E. by simplify_eq. }
  assert (Hr : forall p q, p ∈ placed' -> q ∈ placed' -> in_range s' p q <-> in_range s p q).
  { intros p q Hp Hq. split; intros (e1 & e2 & H1 & H2 & Hd).
    - destruct (Hl _ _ H1) as (? & ? & _ & _ & E1), (Hl _ _ H2) as (? & ? & _ & _ & E2).
      eexists _, _. split_and!; [done..|]. by rewrite <- (E1 Hp), <- (E2 Hq).
    - destruct (proj2 (Hs p) ltac:(eauto)) as [f1 F1], (proj2 (Hs q) ltac:(eauto)) as [f2 F2]. exists f1, f2. split_and!; [done..|].
      destruct (Hl _ _ F1) as (? & ? & _ & _ & E1), (Hl _ _ F2) as (? & ? & _ & _ & E2). simplify_eq. by rewrite (E1 Hp), (E2 Hq). }
  split; [split|..]; try done.
  - intros p. rewrite Hs. apply L1.
  - intros p q. rewrite !Hn. apply L2.
  - intros p. rewrite Hn. apply L3.
  - intros p e' (e0 & He0 & (_ & -> & -> & ->) & _)%Hl. by apply (L4 p).
  - intros p Hp. apply Hs, I2. by apply Hsub.
  - intros p q Hp Hq Hne. rewrite Hn, Hr by done. by apply I3; [apply Hsub..|].
  - intros p q e1 e2 (f1 & F1 & [-> _] & _)%Hl (f2 & F2 & [-> _] & _)%Hl. by apply I4.
  - intros p e' (_ & _ & _ & Hch & _)%Hl. done.
Qed.

Lemma union_difference_in (h p : positive) (X : gset positive) : p ∈ {[h]} ∪ X -> p ∈ {[h]} ∪ (X ∖ {[h]}).
Proof. destruct (decide (p = h)); set_solver. Qed.

Lemma inv_move placed s h x :
  cc_inv placed s -> is_Some (entries s !! h) ->
  wp (updateHostPosition h x) (fun _ s' => cc_inv ({[h]} ∪ placed) s' /\ traffic s' = traffic s /\
    fixed <$> entries s' = fixed <$> alter (fun e => e<| hpos := x |>) h (entries s)) s.
Proof.
  intros I [e He]. unfold updateHostPosition, deref_host. crs. rewrite He. crs.
  set (s1 := s<| entries ::= _ |>).
  assert (cc_inv (placed ∖ {[h]}) s1) as J.
  { apply (inv_alter placed _ s h e); [done|done|done|exact (ci_channel _ _ I h e He)|..].
    - by intros p [Hp _]%elem_of_difference.
    - left. intros [_ []]%elem_of_difference. by apply elem_of_singleton. }
  eapply wpe_mono; [apply (wp_updateConnections (placed ∖ {[h]})); [apply J|apply lookup_alter_is_Some; by eauto|apply J|intros; by apply J]|].
  intros [] s2 (L' & St & Hn). split_and!; [|unfold traffic; injection St as _ _ -> _ _ -> -> ->; done|by injection St].
  apply (inv_static (placed ∖ {[h]}) _ s1); try done.
  - intros p [->%elem_of_singleton|Hp]%elem_of_union; [apply lookup_alter_is_Some; by eauto|].
    apply lookup_alter_is_Some. by apply (ci_placed _ _ I).
  - intros p q Hp%(union_difference_in h) Hq%(union_difference_in h). by apply Hn.
Qed.

Lemma inv_updateHostChannel placed s h ch :
  cc_inv placed s -> is_Some (entries s !! h) ->
  wpe (fun f => f = Thrown "Invalid channel") (updateHostChannel h ch) (fun _ s' => cc_inv placed s' /\
    0 <= ch < numChannels s /\ s' = s<| entries ::= alter (fun e => e<| hostChannel := ch |>) h |>) s.
Proof.
  intros I [e He]. unfold updateHostChannel, checkChannel, deref_host. crs.
  destruct (Z.leb_spec (numChannels s) ch); [by crs|]. destruct (Z.ltb_spec ch 0); [by crs|]. cbn [orb]. crs. rewrite He. crs.
  split_and!; [|lia..|done]. apply (inv_alter placed _ s h e); try done; [by right|by right].
Qed.

Lemma purged_inv placed s : cc_inv placed s -> cc_inv placed (s<| transmissions ::= fmap (List.filter (unexpired (cc_time s))) |>).
Proof.
  intros I. apply (inv_traffic placed s); try done; csimp; [by rewrite length_fmap|].
  intros ch l a (l0 & -> & Hl)%list_lookup_fmap_Some Ha. apply (ci_frames _ _ I ch l0); [done|].
  apply list_elem_of_In, List.filter_In in Ha as [Ha _]. by apply list_elem_of_In.
Qed.

Lemma cc_inv_time placed s t : cc_inv placed s -> cc_time s <= t -> cc_inv placed (s<| cc_time := t |>).
Proof.
  intros I Ht. apply (inv_traffic placed s); try done. csimp. intros ch l a Hl Ha.
  destruct (ci_frames _ _ I ch l a Hl Ha). lia.
Qed.

Lemma inv_getOngoing placed s ch :
  cc_inv placed s ->
  wpe (fun f => f = Thrown "Invalid channel") (getOngoingTransmissions ch) (fun l s' => cc_inv placed s' /\
    0 <= ch < numChannels s /\ s' = s<| transmissions ::= fmap (List.filter (unexpired (cc_time s))) |> /\
    exists l0, transmissions s !! Z.to_nat ch = Some l0 /\ l = List.filter (unexpired (cc_time s)) l0) s.
Proof.
  intros I. unfold getOngoingTransmissions, checkChannel, purgeOngoingTransmissions. crs.
  destruct (Z.leb_spec (numChannels s) ch); [by crs|]. destruct (Z.ltb_spec ch 0); [by crs|]. cbn [orb]. crs. csimp.
  rewrite list_lookup_fmap. destruct (lookup_lt_is_Some_2 (transmissions s) (Z.to_nat ch)) as [l0 Hl0].
  { rewrite (ci_length _ _ I). lia. }
  rewrite Hl0. cbn [fmap option_fmap option_map]. crs. split_and!; [by apply purged_inv|lia..|done|eauto].
Qed.

(** A transmission is added, with the time of its start. *)
Definition started (s : ChannelControl) (a : AirFrame) : AirFrame := a<| timestamp := cc_time s |>.

(** No transmission is lost that may still be heard. *)
Definition keeps_live (s s' : ChannelControl) : Prop :=
  forall ch l x, transmissions s !! ch = Some l -> x ∈ l -> unexpired (cc_time s) x = true ->
    exists l', transmissions s' !! ch = Some l' /\ x ∈ l'.

(** No transmission appears but [a]. *)
Definition adds_only (a : AirFrame) (s s' : ChannelControl) : Prop :=
  forall ch l x, transmissions s' !! ch = Some l -> x ∈ l -> x = a \/ exists l0, transmissions s !! ch = Some l0 /\ x ∈ l0.

Lemma purged_adds a s : adds_only a s (s<| transmissions ::= fmap (List.filter (unexpired (cc_time s))) |>).
Proof.
  intros ch l x. csimp. intros (l0 & -> & Hl0)%list_lookup_fmap_Some Hx. right. exists l0. split; [done|].
  apply list_elem_of_In, List.filter_In in Hx as [Hx _]. by apply list_elem_of_In.
Qed.

Lemma purged_live s : keeps_live s (s<| transmissions ::= fmap (List.filter (unexpired (cc_time s))) |>).
Proof.
  intros ch l x Hl Hx Hu. csimp. rewrite list_lookup_fmap, Hl. eexists. split; [done|].
  apply list_elem_of_In, List.filter_In. by rewrite <- list_elem_of_In.
Qed.

Lemma appended placed s a ch :
  cc_inv placed s -> 0 <= ch < numChannels s -> afChannel a = ch -> timestamp a <= cc_time s ->
  let s' := s<| transmissions ::= alter (fun l => l ++ [a]) (Z.to_nat ch) |> in
  cc_inv placed s' /\ keeps_live s s' /\ adds_only a s s' /\ exists l, transmissions s' !! Z.to_nat ch = Some l /\ a ∈ l.
Proof.
  intros I Hch Ha Ht s'. destruct (lookup_lt_is_Some_2 (transmissions s) (Z.to_nat ch)) as [l0 Hl0].
  { rewrite (ci_length _ _ I). lia. }
  assert (Eeq : transmissions s' !! Z.to_nat ch = Some (l0 ++ [a])) by (unfold s'; csimp; by rewrite list_lookup_alter_eq, Hl0).
  assert (Ene : forall k, k <> Z.to_nat ch -> transmissions s' !! k = transmissions s !! k).
  { intros k Hk. unfold s'. csimp. by rewrite list_lookup_alter_ne. }
  split_and!.
  - apply (inv_traffic placed s); try done; [apply length_alter|]. intros k l x Hl Hx.
    destruct (decide (k = Z.to_nat ch)) as [->|Hk]; [|rewrite Ene in Hl by done; by apply (ci_frames _ _ I k l)].
    rewrite Eeq in Hl. injection Hl as <-. apply elem_of_app in Hx as [Hx| ->%list_elem_of_singleton].
    + by apply (ci_frames _ _ I _ l0).
    + unfold s'. csimp. lia.
  - intros k l x Hl Hx _. destruct (decide (k = Z.to_nat ch)) as [->|Hk]; [|rewrite Ene by done; by eauto].
    rewrite Eeq. simplify_eq. eexists. split; [done|]. apply elem_of_app. by left.
  - intros k l x Hl Hx. destruct (decide (k = Z.to_nat ch)) as [->|Hk]; [|rewrite Ene in Hl by done; eauto].
    rewrite Eeq in Hl. injection Hl as <-. apply elem_of_app in Hx as [Hx| ->%list_elem_of_singleton]; eauto.
  - rewrite Eeq. eexists. split; [done|]. apply elem_of_app. right. by apply list_elem_of_singleton.
Qed.

Lemma inv_addOngoing placed s a :
  cc_inv placed s -> 0 <= afChannel a < numChannels s ->
  wp (addOngoingTransmission a) (fun _ s' => cc_inv placed s' /\ sent s' = sent s /\ entries s' = entries s /\
    cc_time s' = cc_time s /\ numChannels s' = numChannels s /\ keeps_live s s' /\ adds_only (started s a) s s' /\
    (numChannels s <> 1 -> exists l, transmissions s' !! Z.to_nat (afChannel a) = Some l /\ started s a ∈ l)) s.
Proof.
  intros I Ha. unfold addOngoingTransmission. crs. destruct (Z.eqb_spec (numChannels s) 1) as [E1|E1].
  { apply wpe_ret. split_and!; try done; intros ch l x Hl Hx; eauto. }
  assert (Hlen : Z.of_nat (length (transmissions s)) = numChannels s) by (rewrite (ci_length _ _ I); lia).
  change (afChannel (_<| timestamp := _ |>)) with (afChannel a). fold (started s a).
  rewrite (proj2 (Z.ltb_ge _ _)), (proj2 (Z.leb_gt _ _)) by lia. cbn [orb]. unfold purgeOngoingTransmissions. crs.
  - set (s1 := s<| transmissions ::= _ |><| lastOngoingTransmissionsUpdate := _ |>).
    assert (J : cc_inv placed s1).
    { apply (inv_traffic placed s); try done; [apply length_fmap|]. apply (ci_frames _ _ (purged_inv _ _ I)). }
    destruct (appended placed s1 (started s a) (afChannel a) J Ha eq_refl ltac:(reflexivity)) as (J' & K & A & Hin).
    split_and!; try done.
    + intros ch l x Hl Hx Hu. destruct (purged_live s ch l x Hl Hx Hu) as (l1 & Hl1 & Hx1). by apply (K ch l1).
    + intros ch l x Hl Hx. destruct (A ch l x Hl Hx) as [->|(l1 & Hl1 & Hx1)]; [by left|by apply (purged_adds _ s ch l1)].
  - destruct (appended placed s (started s a) (afChannel a) I Ha eq_refl ltac:(reflexivity)) as (J' & K & A & Hin). split_and!; done.
Qed.

(** ** Sending *)

Definition gate_of (s : ChannelControl) (h : positive) : Z := default 0 (radioInGate <$> entries s !! h).
Definition pos_of (s : ChannelControl) (h : positive) : Z * Z := default (0, 0) (hpos <$> entries s !! h).
Definition listens (s : ChannelControl) (h : positive) (ch : Z) : Prop :=
  hostChannel <$> entries s !! h = Some ch.
#[export] Instance listens_dec s h ch : Decision (listens s h ch).
Proof. unfold listens. apply _. Defined.

Lemma static_parts s s' h :
  static s' = static s -> gate_of s' h = gate_of s h /\ pos_of s' h = pos_of s h /\ (forall ch, listens s' h ch <-> listens s h ch).
Proof.
  intros [= _ E _ _ _ _ _ _]. apply (fixed_lookup _ _ h) in E. unfold gate_of, pos_of, listens.
  destruct (entries s' !! h), (entries s !! h); try done. injection E as _ E1 E2 E3. cbn.
  split_and!; [exact E1|exact E3|]. intros ch. split; intros [= <-]; f_equal; [symmetry|]; exact E2.
Qed.

Section send.
Context `{Propagation}.

(** The copy of a frame that a host is sent. *)
Definition copy_for (s : ChannelControl) (src : positive) (a : AirFrame) (h : positive) : delivery :=
  mkDelivery (gate_of s h) a (cc_time s) (propagationDelay (distance (pos_of s src) (pos_of s h))) (afDuration a).

Lemma wp_sendTo_all src a l s :
  is_Some (entries s !! src) -> (forall h, h ∈ l -> is_Some (entries s !! h)) ->
  wp (sendTo_all src a l) (fun _ s' =>
    s' = s<| sent ::= fun x => x ++ (copy_for s src a <$> filter (fun h => listens s h (afChannel a)) l) |>) s.
Proof.
  intros [es Hs]. revert s Hs. induction l as [|h l IH]; intros s Hs Hl; cbn [sendTo_all].
  { apply wpe_ret. unfold set_. cbn. by rewrite app_nil_r. }
  destruct (Hl h ltac:(by left)) as [e He]. apply wpe_bind. unfold sendTo, deref_host. crs. rewrite He. crs. rewrite Hs.
  assert (Ecopy : mkDelivery (radioInGate e) a (cc_time s) (propagationDelay (distance (hpos es) (hpos e))) (afDuration a) =
    copy_for s src a h) by (unfold copy_for, gate_of, pos_of; by rewrite He, Hs).
  assert (Hc : listens s h (afChannel a) <-> hostChannel e = afChannel a).
  { unfold listens. rewrite He. cbn. split; [by intros [= E]|by intros E; f_equal]. }
  crs.
  - apply Z.eqb_eq in H0. eapply wpe_mono; [apply IH; [done|intros x Hx; apply Hl; by right]|]. intros [] s' ->.
    rewrite filter_cons_True by by apply Hc. cbn [fmap list_fmap]. rewrite <- Ecopy.
    set (d := mkDelivery _ _ _ _ _). set (L := copy_for s src a <$> _).
    change (s<| sent := (sent s ++ [d]) ++ L |> = s<| sent := sent s ++ d :: L |>). by rewrite <- app_assoc.
  - apply Z.eqb_neq in H0. rewrite filter_cons_False by by rewrite Hc. apply IH; [done|intros x Hx; apply Hl; by right].
Qed.

Lemma wp_sendToChannel placed src a s :
  cc_inv placed s -> is_Some (entries s !! src) -> 0 <= afChannel a < numChannels s ->
  wp (sendToChannel src a) (fun _ s' => cc_inv placed s' /\ keeps_live s s' /\ cc_time s' = cc_time s /\
    numChannels s' = numChannels s /\ fixed <$> entries s' = fixed <$> entries s /\ adds_only (started s a) s s' /\
    (numChannels s <> 1 -> exists l, transmissions s' !! Z.to_nat (afChannel a) = Some l /\ started s a ∈ l) /\
    exists hs, NoDup hs /\ (forall h, h ∈ hs <-> nbr s src h /\ listens s h (afChannel a)) /\
      sent s' = sent s ++ (copy_for s src a <$> hs)) s.
Proof.
  intros I [e He] Ha. unfold sendToChannel. apply wpe_bind.
  eapply wpe_mono; [by apply (wp_getNeighbors src e); [apply I|]|]. intros l s1 (-> & L & St & Hn). cbn beta.
  assert (J : cc_inv placed s1).
  { apply (inv_static placed _ s); [done..|apply I|]. intros p q Hp Hq Hne. rewrite Hn. by apply I. }
  assert (Hq : forall q, q ∈ in_order (neighbors e) <-> nbr s src q).
  { intros q. rewrite elem_of_in_order. unfold nbr. rewrite He. split; [eauto|by intros (? & [= <-] & ?)]. }
  apply wpe_bind. eapply wpe_mono.
  { apply wp_sendTo_all.
    - destruct (static_entry _ _ _ _ St He) as (e' & -> & _). eauto.
    - intros h Hh%Hq. apply (li_sym _ (ci_links _ _ I)) in Hh as (f & Hf & _).
      destruct (static_entry _ _ _ _ St Hf) as (f' & -> & _). eauto. }
  intros [] s2 ->. cbn beta. set (hs := filter _ (in_order _)). set (s2 := s1<| sent ::= _ |>).
  assert (J2 : cc_inv placed s2) by (apply (inv_traffic placed s1); try done; apply J).
  pose proof St as [= E1 E2 E3 E4 E5 E6 E7 E8].
  eapply wpe_mono; [apply (inv_addOngoing placed s2); [done|unfold s2; csimp; by rewrite E6]|].
  intros [] s' (J' & Es & Ee & Et & En & K & A & Hin). change (cc_time s2) with (cc_time s1) in Et.
  change (numChannels s2) with (numChannels s1) in En, Hin. change (started s2 a) with (started s1 a) in Hin.
  change (started s2 a) with (started s1 a) in A. unfold started in Hin, A. rewrite E7 in Hin, A. rewrite E6 in En, Hin.
  rewrite E7 in Et. split_and!; try done.
  - intros ch l x Hl Hx Hu. apply (K ch l x); [|done|].
    + change (transmissions s2) with (transmissions s1). by rewrite E3.
    + change (cc_time s2) with (cc_time s1). by rewrite E7.
  - by rewrite Ee.
  - intros ch l x Hl Hx. specialize (A ch l x Hl Hx). change (transmissions s2) with (transmissions s1) in A. by rewrite E3 in A.
  - exists hs. split_and!.
    + unfold hs. apply NoDup_filter, NoDup_in_order.
    + intros h. unfold hs. rewrite list_elem_of_filter, Hq. destruct (static_parts _ _ h St) as (_ & _ & Hls). rewrite Hls. tauto.
    + rewrite Es. change (sent s2) with (sent s1 ++ (copy_for s1 src a <$> hs)). rewrite E8. f_equal. apply list_fmap_ext.
      intros _ h _. unfold copy_for. destruct (static_parts _ _ h St) as (-> & -> & _), (static_parts _ _ src St) as (_ & -> & _).
      by rewrite E7.
Qed.

(** ** Histories of the channel *)

(** A call of the module, or time passing.  The set beside the state holds the
    hosts whose position was announced since they registered. *)
Inductive cc_step : gset positive * ChannelControl -> gset positive * ChannelControl -> Prop :=
  | cs_time pl s t : cc_time s <= t -> cc_step (pl, s) (pl, s<| cc_time := t |>)
  | cs_register pl s p m x gate radioIn r s' :
      entries s !! p = None -> registerHost p m x gate radioIn s = Ok (r, s') -> cc_step (pl, s) (pl, s')
  | cs_unregister pl s m h s' :
      lookupHost m s = Some h -> unregisterHost m s = Ok (tt, s') -> cc_step (pl, s) (pl ∖ {[h]}, s')
  | cs_move pl s h x s' :
      is_Some (entries s !! h) -> updateHostPosition h x s = Ok (tt, s') -> cc_step (pl, s) ({[h]} ∪ pl, s')
  | cs_channel pl s h ch s' :
      is_Some (entries s !! h) -> updateHostChannel h ch s = Ok (tt, s') -> cc_step (pl, s) (pl, s')
  | cs_neighbors pl s h l s' :
      is_Some (entries s !! h) -> getNeighbors h s = Ok (l, s') -> cc_step (pl, s) (pl, s')
  | cs_ongoing pl s ch l s' : getOngoingTransmissions ch s = Ok (l, s') -> cc_step (pl, s) (pl, s')
  | cs_send pl s src a s' :
      is_Some (entries s !! src) -> 0 <= afChannel a < numChannels s -> sendToChannel src a s = Ok (tt, s') ->
      cc_step (pl, s) (pl, s').

Lemma traffic_same s s' : traffic s' = traffic s -> cc_time s <= cc_time s' /\ numChannels s' = numChannels s /\ keeps_live s s'.
Proof. intros [= E1 E2 E3 _]. split_and!; [lia|done|]. intros ch l x Hl Hx _. rewrite E1. eauto. Qed.

Lemma cc_step_inv c c' :
  cc_step c c' -> cc_inv c.1 c.2 ->
  cc_inv c'.1 c'.2 /\ cc_time c.2 <= cc_time c'.2 /\ numChannels c'.2 = numChannels c.2 /\ keeps_live c.2 c'.2.
Proof.
  intros [pl s t Ht|pl s p m x gate radioIn r s' Hp E|pl s m h s' Hh E|pl s h x s' Hh E|pl s h ch s' Hh E|
    pl s h l s' [e He] E|pl s ch l s' E|pl s src a s' Hs Ha E] I; cbn [fst snd] in *.
  - split_and!; [by apply cc_inv_time|done..|]. intros ch l x Hl Hx _. eauto.
  - destruct (wpe_run _ _ _ _ _ _ (inv_register _ _ p m x gate radioIn I Hp) E) as (-> & J & T & _). split; [done|by apply traffic_same].
  - destruct (wpe_run _ _ _ _ _ _ (inv_unregister _ _ m I) E) as (h' & E' & J & T). rewrite Hh in E'. injection E' as <-. split; [done|by apply traffic_same].
  - destruct (wpe_run _ _ _ _ _ _ (inv_move _ _ h x I Hh) E) as (J & T & _). split; [done|by apply traffic_same].
  - destruct (wpe_run _ _ _ _ _ _ (inv_updateHostChannel _ _ h ch I Hh) E) as (J & _ & ->). split; [done|]. by apply traffic_same.
  - destruct (wpe_run _ _ _ _ _ _ (wp_getNeighbors h e s (ci_links _ _ I) He) E) as (-> & L & St & Hn). split.
    + apply (inv_static pl _ s); [done..|apply I|]. intros p q Hp Hq Hne. rewrite Hn. by apply I.
    + apply traffic_same. unfold traffic. by injection St as _ _ -> _ _ -> -> ->.
  - destruct (wpe_run _ _ _ _ _ _ (inv_getOngoing _ _ ch I) E) as (J & _ & -> & _). split_and!; [done..|]. apply purged_live.
  - destruct (wpe_run _ _ _ _ _ _ (wp_sendToChannel _ src a s I Hs Ha) E) as (J & K & Et & En & _). split_and!; [done|lia|done|done].
Qed.

Lemma cc_run_inv c c' :
  rtc cc_step c c' -> cc_inv c.1 c.2 -> cc_inv c'.1 c'.2 /\ cc_time c.2 <= cc_time c'.2 /\ numChannels c'.2 = numChannels c.2.
Proof.
  induction 1 as [|c c1 c' Hs _ IH]; intros I; [done|]. destruct (cc_step_inv _ _ Hs I) as (I1 & T1 & N1 & _).
  destruct (IH I1) as (I2 & T2 & N2). split_and!; [done|lia|lia].
Qed.

(** A transmission that can still be heard at the end was never dropped. *)
Lemma cc_run_live c c' ch l x :
  rtc cc_step c c' -> cc_inv c.1 c.2 -> transmissions c.2 !! ch = Some l -> x ∈ l -> unexpired (cc_time c'.2) x = true ->
  exists l', transmissions c'.2 !! ch = Some l' /\ x ∈ l'.
Proof.
  intros Hr. revert l. induction Hr as [|c c1 c' Hs Hr IH]; intros l I Hl Hx Hu; [eauto|].
  destruct (cc_step_inv _ _ Hs I) as (I1 & T1 & N1 & K). destruct (cc_run_inv _ _ Hr I1) as (_ & T2 & _).
  destruct (K ch l x Hl Hx) as (l1 & Hl1 & Hx1); [|by apply (IH l1)].
  unfold unexpired in *. apply negb_true_iff, Z.ltb_ge in Hu. apply negb_true_iff, Z.ltb_ge. lia.
Qed.

Lemma initial_inv channels range : cc_inv ∅ (ChannelControl_initialize channels range).
Proof.
  unfold ChannelControl_initialize. split; csimp; try done; [split|..]; unfold nbr; csimp; try (by setoid_rewrite lookup_empty; naive_solver).
  - intros p. rewrite lookup_empty. split; [by intros ?%not_elem_of_nil|by intros []].
  - by rewrite length_replicate.
  - intros ch l a [-> _]%lookup_replicate ?%not_elem_of_nil. done.
Qed.

(** C21: the cached neighbours are the hosts in range.  Whatever was registered,
    unregistered, moved, tuned and sent before, [getNeighbors] of a host with a
    known position returns a list without repetition, and another host with a
    known position is in it exactly if the distance between the two is below the
    interference distance; the incremental updates of [updateConnections] agree
    with comparing all distances anew. *)
Theorem neighbors_in_range (channels range : Z) (placed : gset positive) (s : ChannelControl) (h : positive)
  (Hr : rtc cc_step (∅, ChannelControl_initialize channels range) (placed, s)) (Hh : h ∈ placed) :
  exists l s', getNeighbors h s = Ok (l, s') /\ NoDup l /\ static s' = static s /\
    forall q, q ∈ placed -> (q ∈ l <-> q <> h /\ in_range s h q).
Proof.
  destruct (cc_run_inv _ _ Hr (initial_inv _ _)) as (I & _). cbn [fst snd] in I.
  destruct (ci_placed _ _ I h Hh) as [e He].
  destruct (wp_ok _ _ _ (wp_getNeighbors h e s (ci_links _ _ I) He)) as (l & s' & E & -> & _ & St & _).
  exists (in_order (neighbors e)), s'. split_and!; [done|apply NoDup_in_order|done|]. intros q Hq. rewrite elem_of_in_order.
  assert (Hn : q ∈ neighbors e <-> nbr s h q) by (unfold nbr; rewrite He; split; [eauto|by intros (? & [= <-] & ?)]).
  rewrite Hn. destruct (decide (q = h)) as [->|Hne].
  - split; [by intros Hl%(li_irr _ (ci_links _ _ I))|by intros []].
  - rewrite (ci_exact _ _ I h q) by done. tauto.
Qed.

(** A frame reaches the hosts in range that listen on its channel, and no
    other.  When every host has announced its position, [sendToChannel] sends
    exactly one copy of the frame to each other host in range that is tuned to
    its channel, to that host's gate, delayed by the time the signal takes for the
    distance between the two. *)
Theorem channel_delivers (channels range : Z) (placed : gset positive) (s : ChannelControl) (src : positive) (a : AirFrame)
  (Hr : rtc cc_step (∅, ChannelControl_initialize channels range) (placed, s))
  (Hall : forall p, p ∈ hosts s -> p ∈ placed) (Hsrc : src ∈ hosts s) (Ha : 0 <= afChannel a < channels) :
  exists s' hs, sendToChannel src a s = Ok (tt, s') /\ NoDup hs /\
    (forall h, h ∈ hs <-> h <> src /\ in_range s src h /\ listens s h (afChannel a)) /\
    sent s' = sent s ++ (copy_for s src a <$> hs).
Proof.
  destruct (cc_run_inv _ _ Hr (initial_inv _ _)) as (I & _ & En). cbn [fst snd] in I, En.
  change (numChannels (ChannelControl_initialize channels range)) with channels in En.
  pose proof (ci_links _ _ I) as L. pose proof (li_dom _ L) as Hd.
  destruct (wp_ok _ _ _ (wp_sendToChannel placed src a s I (proj1 (Hd src) Hsrc) ltac:(lia))) as ([] & s' & E & HQ).
  destruct HQ as (_ & _ & _ & _ & _ & _ & _ & hs & Hnd & Hin & Es). exists s', hs. split_and!; [done..| |done].
  assert (Hdom : forall h, in_range s src h -> h ∈ hosts s) by (intros h (? & f & _ & Hf & _); apply Hd; eauto).
  intros h. rewrite Hin. split.
  - intros [Hn Hl]. assert (h <> src) by (intros ->; by apply (li_irr _ L) in Hn). split_and!; [done| |done].
    apply (ci_exact _ _ I); [by apply Hall| |done|done]. apply Hall, Hd. apply (li_sym _ L) in Hn as (f & Hf & _). eauto.
  - intros (Hne & Hrange & Hl). split; [|done]. apply (ci_exact _ _ I); auto.
Qed.

(** Transmissions are remembered as long as they matter.  A frame sent on a
    channel is among the transmissions that a host tuning to that channel is
    given, with the time its transmission started, until one second after its
    end, whatever else was sent, moved or purged meanwhile; and it is given only
    frames of that channel that ended at most a second ago. *)
Theorem transmission_remembered (channels range : Z) (placed placed' : gset positive) (s s1 s2 : ChannelControl)
  (src : positive) (a : AirFrame)
  (Hr : rtc cc_step (∅, ChannelControl_initialize channels range) (placed, s)) (Hmany : channels <> 1)
  (Hsrc : is_Some (entries s !! src)) (Ha : 0 <= afChannel a < channels) (Hsend : sendToChannel src a s = Ok (tt, s1))
  (Hr' : rtc cc_step (placed, s1) (placed', s2)) (Ht : cc_time s2 <= cc_time s + afDuration a + second) :
  exists l s3, getOngoingTransmissions (afChannel a) s2 = Ok (l, s3) /\ started s a ∈ l /\
    forall x, x ∈ l -> afChannel x = afChannel a /\ cc_time s2 <= timestamp x + afDuration x + second.
Proof.
  destruct (cc_run_inv _ _ Hr (initial_inv _ _)) as (I & _ & En). cbn [fst snd] in I, En.
  change (numChannels (ChannelControl_initialize channels range)) with channels in En.
  destruct (wpe_run _ _ _ _ _ _ (wp_sendToChannel placed src a s I Hsrc ltac:(lia)) Hsend) as (I1 & _ & _ & En1 & _ & _ & Hin & _).
  destruct (Hin ltac:(lia)) as (l & Hl & Hx). destruct (cc_run_inv _ _ Hr' I1) as (I2 & _ & En2). cbn [fst snd] in I2, En2.
  assert (Hu : unexpired (cc_time s2) (started s a) = true).
  { apply negb_true_iff, Z.ltb_ge. unfold started. cbn [timestamp afDuration set_]. exact Ht. }
  destruct (cc_run_live _ _ _ _ _ Hr' I1 Hl Hx Hu) as (l2 & Hl2 & Hx2). cbn [fst snd] in Hl2.
  assert (Hg : wp (getOngoingTransmissions (afChannel a)) (fun r _ => r = List.filter (unexpired (cc_time s2)) l2) s2).
  { unfold getOngoingTransmissions, checkChannel, purgeOngoingTransmissions. crs.
    rewrite (proj2 (Z.leb_gt _ _)), (proj2 (Z.ltb_ge _ _)) by lia. cbn [orb]. crs. csimp.
    rewrite list_lookup_fmap, Hl2. cbn [fmap option_fmap option_map]. by crs. }
  destruct (wp_ok _ _ _ Hg) as (r & s3 & E & ->). eexists _, s3. split_and!; [done|..].
  - apply list_elem_of_In, List.filter_In. by rewrite <- list_elem_of_In.
  - intros x Hx'. apply list_elem_of_In, List.filter_In in Hx' as [Hx' Hux]. apply list_elem_of_In in Hx'.
    destruct (ci_frames _ _ I2 _ l2 x Hl2 Hx') as [Hc _]. apply negb_true_iff, Z.ltb_ge in Hux. split; [lia|exact Hux].
Qed.
End send.

(** ** Witnesses: two hosts in range and one far away *)

Definition cc_after {A} (m : M ChannelControl A) (s : ChannelControl) : ChannelControl :=
  match m s with Ok (_, s') => s' | Fault _ => s end.
Lemma cc_after_run {A} (m : M ChannelControl A) s : is_ok (m s) = true -> exists x, m s = Ok (x, cc_after m s).
Proof. unfold cc_after. destruct (m s) as [[x ?]|]; [by eexists|done]. Qed.
Lemma cc_after_unit (m : M ChannelControl unit) s : is_ok (m s) = true -> m s = Ok (tt, cc_after m s).
Proof. intros ([] & E)%cc_after_run. exact E. Qed.

Definition sample_signal : Propagation :=
  {| calculateReceivedPower := fun p _ _ => p; distance := fun a b => Z.abs (fst a - fst b);
     propagationDelay := fun d => 3 * d; ev_on := true |}.

(** Three hosts, at 0, 30 and 500 with a range of 100, tuned to channel 11. *)
Definition sample_registered : ChannelControl :=
  cc_after (registerHost 6 3 (0, 0) None (Some 102)) (cc_after (registerHost 7 2 (0, 0) None (Some 101))
    (cc_after (registerHost 5 1 (0, 0) None (Some 100)) (ChannelControl_initialize 27 100))).
Definition sample_moved : ChannelControl :=
  cc_after (updateHostPosition 6 (500, 0)) (cc_after (updateHostPosition 7 (30, 0)) (cc_after (updateHostPosition 5 (0, 0)) sample_registered)).
Definition sample_cc : ChannelControl :=
  cc_after (updateHostChannel 6 11) (cc_after (updateHostChannel 7 11) (cc_after (updateHostChannel 5 11) sample_moved)).
Definition sample_placed : gset positive := {[6%positive]} ∪ ({[7%positive]} ∪ ({[5%positive]} ∪ ∅)).

Section sample_steps.
#[local] Existing Instance sample_signal.
Lemma step_register p m x g s pl :
  entries s !! p = None -> is_ok (registerHost p m x None g s) = true -> cc_step (pl, s) (pl, cc_after (registerHost p m x None g) s).
Proof. intros Hp [r E]%cc_after_run. exact (cs_register pl s p m x None g r _ Hp E). Qed.
Lemma step_move h x s pl :
  is_Some (entries s !! h) -> is_ok (updateHostPosition h x s) = true -> cc_step (pl, s) ({[h]} ∪ pl, cc_after (updateHostPosition h x) s).
Proof. intros Hh E%cc_after_unit. by apply (cs_move pl s h x). Qed.
Lemma step_tune h ch s pl :
  is_Some (entries s !! h) -> is_ok (updateHostChannel h ch s) = true -> cc_step (pl, s) (pl, cc_after (updateHostChannel h ch) s).
Proof. intros Hh E%cc_after_unit. by apply (cs_channel pl s h ch). Qed.

Lemma sample_reaches : rtc cc_step (∅, ChannelControl_initialize 27 100) (sample_placed, sample_cc).
Proof.
  do 3 (eapply rtc_r; [|apply step_tune; [vm_compute; by eexists|by vm_compute]]).
  do 3 (eapply rtc_r; [|apply step_move; [vm_compute; by eexists|by vm_compute]]).
  do 3 (eapply rtc_r; [|apply step_register; by vm_compute]).
  apply rtc_refl.
Qed.

Lemma neighbors_in_range_witness :
  exists l s', getNeighbors 5 sample_cc = Ok (l, s') /\ 7%positive ∈ l /\ ~ 6%positive ∈ l.
Proof.
  destruct (neighbors_in_range 27 100 sample_placed sample_cc 5 sample_reaches ltac:(by vm_compute)) as (l & s' & E & _ & _ & Hl).
  exists l, s'. split; [exact E|]. split.
  - apply (Hl 7%positive ltac:(by vm_compute)). split; [done|]. eexists _, _. split_and!; by vm_compute.
  - intros H6. apply (Hl 6%positive ltac:(by vm_compute)) in H6 as [_ (e & f & He & Hf & Hd)]. vm_compute in He, Hf.
    injection He as <-. injection Hf as <-. by vm_compute in Hd.
Defined.

Definition sample_air_frame : AirFrame :=
  mkAirFrame 60 11 1000 250000 (0, 0) None 0
    (mkFrame DataFrame (mkFrameCtrl Ieee802154_DATA false false true false defFrmCtrl_AddrMode16 defFrmCtrl_AddrMode16)
       7 0 2 0 3 false false 0 30 None) 0 0.

(** The host at 30 gets a copy 90 time units later, the one at 500 none. *)
Lemma channel_delivers_witness :
  exists s' hs, sendToChannel 5 sample_air_frame sample_cc = Ok (tt, s') /\ 7%positive ∈ hs /\ ~ 6%positive ∈ hs /\
    sent s' = copy_for sample_cc 5 sample_air_frame <$> hs /\ dl_delay (copy_for sample_cc 5 sample_air_frame 7) = 90.
Proof.
  destruct (channel_delivers 27 100 sample_placed sample_cc 5 sample_air_frame sample_reaches) as (s' & hs & E & _ & Hl & Es).
  - assert (Hb : forallb (fun p => bool_decide (p ∈ sample_placed)) (hosts sample_cc) = true) by (by vm_compute).
    intros p Hp%list_elem_of_In. rewrite List.forallb_forall in Hb. exact (proj1 (bool_decide_eq_true _) (Hb p Hp)).
  - apply (bool_decide_eq_true (5%positive ∈ hosts sample_cc)). by vm_compute.
  - vm_compute. done.
  - exists s', hs. split_and!; [exact E| | |exact Es|by vm_compute].
    + apply Hl. split_and!; [done| |by vm_compute]. eexists _, _. split_and!; by vm_compute.
    + intros (_ & (e & f & He & Hf & Hd) & _)%Hl. vm_compute in He, Hf. injection He as <-. injection Hf as <-. by vm_compute in Hd.
Defined.

(** Half a second later, the frame is still known. *)
Lemma transmission_remembered_witness :
  exists l s3, getOngoingTransmissions 11 ((cc_after (sendToChannel 5 sample_air_frame) sample_cc)<| cc_time := 500000000000 |>) = Ok (l, s3) /\
    started sample_cc sample_air_frame ∈ l.
Proof.
  destruct (transmission_remembered 27 100 sample_placed sample_placed sample_cc (cc_after (sendToChannel 5 sample_air_frame) sample_cc)
    ((cc_after (sendToChannel 5 sample_air_frame) sample_cc)<| cc_time := 500000000000 |>) 5 sample_air_frame sample_reaches)
    as (l & s3 & E & Hin & _).
  - done.
  - vm_compute. by eexists.
  - vm_compute. done.
  - apply cc_after_unit. by vm_compute.
  - apply rtc_once, cs_time. by vm_compute.
  - by vm_compute.
  - exists l, s3. exact (conj E Hin).
Defined.
End sample_steps.
