(* ===== verification/Air.v ===== *)
(** * Radios on a channel

    Many PHY modules (Ieee802154Phy.cc) that share one channel (ChannelControl.cc):
    what a radio says to the channel while it handles a message is carried out by
    the channel, and a frame the channel sends to a gate reaches the radio behind
    that gate when its delay is over.  A step is one event of the simulation, in
    the order of their times: a timer of a radio, a frame that arrives, a message of
    a MAC, a host that moves or joins. *)

From stdpp Require Import sorting.
From Stdlib Require Import QArith.
From S2P Require Import Prelude MacConst MacTypes Radio RadioInv RadioProps Channel ChannelProps.

Open Scope string_scope.
Open Scope list_scope.
Open Scope Z_scope.

(** A frame on its way to the radio of a host. *)
Record flight := mkFlight { fl_to : positive; fl_frame : AirFrame; fl_at : Z }.

#[projections(primitive)]
Record World := mkWorld {
  channel : ChannelControl;
  radios : gmap positive Radio;
  flights : list flight;
  (** what the radios told their MAC modules *)
  told : list (positive * pevent);
}.
#[export] Instance eta_World : Eta World := fun w => mkWorld (channel w) (radios w) (flights w) (told w).

Ltac wsimp := cbn [set_ fst snd channel radios flights told fl_to fl_frame fl_at] in *.

Definition now (w : World) : Z := cc_time (channel w).
Definition advance (t : Z) (w : World) : World := w<| channel ::= fun c => c<| cc_time := t |> |>.

(** The gate of the host at [p] is number [p]. *)
Definition flight_of (d : delivery) : flight := mkFlight (Z.to_pos (dl_gate d)) (dl_frame d) (dl_sent d + dl_delay d).

Section air.
Context `{Propagation}.

Definition on_channel {A} (m : M ChannelControl A) : M World A := zoom channel (fun c w => w<| channel := c |>) m.

(** What was sent is on its way. *)
Definition take_off (w : World) : World :=
  w<| flights ::= fun l => l ++ (flight_of <$> sent (channel w)) |><| channel ::= fun c => c<| sent := [] |> |>.

(** Carrying out what the radio of host [p] said.  A radio that announces its
    channel while running has changed it, and asks for the transmissions there. *)
Definition carry (p : positive) (e : pevent) : M World unit :=
  match e with
  | ToChannel a => on_channel (sendToChannel p a);; modify take_off
  | UpdateHostChannel ch => on_channel (updateHostChannel p ch);; _ ← on_channel (getOngoingTransmissions ch); mret tt
  | ToSelf a delay => modify (fun w => w<| flights ::= fun l => l ++ [mkFlight p a (now w + delay)] |>)
  | _ => modify (fun w => w<| told ::= fun l => l ++ [(p, e)] |>)
  end.
Fixpoint carry_all (p : positive) (l : list pevent) : M World unit :=
  match l with
  | [] => mret tt
  | e :: l' => carry p e;; carry_all p l'
  end.

(** The radio when it starts to handle a message at time [t]. *)
Definition begin (m : phy_msg) (t : Z) (r : Radio) : Radio :=
  match m with SelfTimer k => expired k t r | _ => r<| simTime := t |> end.

Definition handle (p : positive) (m : phy_msg) : M World unit :=
  w ← gets id;
  match radios w !! p with
  | None => fail (Undefined "message to a host without a radio")
  | Some r =>
      match handleMessage m ((begin m (now w) r)<| out := [] |>) with
      | Ok (_, r') => modify (fun w => w<| radios ::= <[p := r'<| out := [] |>]> |>);; carry_all p (out r')
      | Fault f => fail f
      end
  end.

(** A host joins: the mobility module registers it and announces its position, the
    PHY initialises itself and announces its channel. *)
Definition join (p : positive) (m : Z) (x : Z * Z) (power frequency sens noise : Z) (snir : Q)
    (ch pMax junk : Z) : M World unit :=
  _ ← on_channel (registerHost p m (0, 0) None (Some (Z.pos p)));
  on_channel (updateHostPosition p x);;
  r ← lift (phy_initialize power frequency sens noise snir x None ch pMax junk);
  modify (fun w => w<| radios ::= <[p := r<| out := [] |><| simTime := now w |>]> |>);;
  on_channel (updateHostChannel p ch).

Definition move (p : positive) (x : Z * Z) : M World unit :=
  on_channel (updateHostPosition p x);;
  modify (fun w => w<| radios ::= alter (fun r => r<| myPosition := x |>) p |>).

(** The transmissions a radio is given when it changes its channel are those the
    channel knows, as objects at addresses of their own. *)
Definition informed (m : phy_msg) (c : ChannelControl) : Prop :=
  match m with
  | UpperPrimitive _ _ _ ch tl =>
      match getOngoingTransmissions ch c with Ok (l, _) => tl.*2 = l | Fault _ => tl = [] end
  | _ => True
  end.

(** No event lies between now and [t]. *)
Definition none_before (w : World) (t : Z) : Prop :=
  now w <= t /\ (forall p r k x, radios w !! p = Some r -> timer_at k r = Some x -> t <= x) /\
  (forall f, f ∈ flights w -> t <= fl_at f).

Inductive world_step (w : World) : World -> Prop :=
  | ws_timer p r k t w' :
      radios w !! p = Some r -> timer_at k r = Some t -> none_before w t ->
      handle p (SelfTimer k) (advance t w) = Ok (tt, w') -> world_step w w'
  | ws_arrive l1 f l2 r q w' :
      flights w = l1 ++ f :: l2 -> none_before w (fl_at f) -> radios w !! fl_to f = Some r -> airframes r !! q = None ->
      handle (fl_to f) (LowerAirFrame q ((fl_frame f)<| arrivalTime := fl_at f |>))
        ((advance (fl_at f) w)<| flights := l1 ++ l2 |>) = Ok (tt, w') -> world_step w w'
  | ws_mac p r m t w' :
      radios w !! p = Some r -> none_before w t ->
      match m with UpperPrimitive k st _ _ tl => (k = 6 -> legal_request st) /\ NoDup tl.*1 | UpperFrame _ => True | _ => False end ->
      informed m (channel (advance t w)) -> handle p m (advance t w) = Ok (tt, w') -> world_step w w'
  | ws_move p t x w' :
      is_Some (radios w !! p) -> none_before w t -> move p x (advance t w) = Ok (tt, w') -> world_step w w'
  | ws_join p m x power frequency sens noise snir ch pMax junk t w' :
      entries (channel w) !! p = None -> none_before w t -> 0 <= ch ->
      join p m x power frequency sens noise snir ch pMax junk (advance t w) = Ok (tt, w') -> world_step w w'.

Definition empty_world (channels range : Z) : World := mkWorld (ChannelControl_initialize channels range) ∅ [] [].
End air.
