(* ===== verification/AirProps.v ===== *)
(** * Radios on a channel: theorems

    The channel and the radios agree at any time on who listens where, so that a
    frame one radio sends is received by the others in range. *)

From stdpp Require Import sorting.
From Stdlib Require Import QArith.
From S2P Require Import Prelude MacConst MacTypes Radio RadioInv RadioProps Channel ChannelProps Air.

Open Scope string_scope.
Open Scope list_scope.
Open Scope Z_scope.

#[local] Opaque secs.

(** ** What a radio says to the channel *)

Definition unmarkedb (a : AirFrame) : bool := negb (afKind a =? BITERROR_FORCE_TRX_OFF).
Lemma unmarkedb_iff a : unmarkedb a = true <-> unmarked a.
Proof. apply negb_true_iff. Qed.

(** The channel of a radio after what it said, if it was on [c] before: frames are
    sent on the channel announced last, and no frame is marked. *)
Fixpoint follow (c : Z) (l : list pevent) : option Z :=
  match l with
  | [] => Some c
  | ToChannel a :: l' => if (afChannel a =? c) && unmarkedb a then follow c l' else None
  | UpdateHostChannel ch :: l' => follow ch l'
  | ToSelf a _ :: l' => if unmarkedb a then follow c l' else None
  | _ :: l' => follow c l'
  end.

Lemma follow_app c l1 l2 : follow c (l1 ++ l2) = c' ← follow c l1; follow c' l2.
Proof.
  revert c. induction l1 as [|e l1 IH]; intros c; [done|]. destruct e; cbn; auto; destruct (unmarkedb _); rewrite ?andb_false_r; auto;
    destruct (_ =? _); cbn; auto.
Qed.
Lemma follow_filter c l : follow c (List.filter to_channel l) = follow c l.
Proof.
  revert c. induction l as [|e l IH]; intros c; [done|]. destruct e; cbn; auto; destruct (unmarkedb _); rewrite ?andb_false_r; auto;
    destruct (_ =? _); cbn; auto.
Qed.

Section follow.
Context `{Propagation}.

(** A radio at [x] at time [t] that started on channel [c]. *)
Definition truthful (x : Z * Z) (t c : Z) (s : Radio) : Prop :=
  myPosition s = x /\ simTime s = t /\ follow c (channel_events s) = Some (getChannelNumber s).

Context (x : Z * Z) (t c : Z).
#[local] Abbreviation T := (truthful x t c).

Lemma truthful_pupd f :
  (forall s, (myPosition (f s), simTime (f s), getChannelNumber (f s), out (f s)) = (myPosition s, simTime s, getChannelNumber s, out s)) ->
  keeps T (pupd f).
Proof.
  intros Hf. apply keeps_modify. intros s. unfold truthful, channel_events. specialize (Hf s). by injection Hf as -> -> -> ->.
Qed.
Lemma truthful_confirm st : keeps T (PLME_CCA_confirm st).
Proof.
  apply keeps_modify. intros s. unfold truthful, channel_events. psimp. by rewrite List.filter_app, app_nil_r.
Qed.
Lemma truthful_cca st at_ ch tl : keeps T (handlePrimitive 2 st at_ ch tl).
Proof.
  unfold handlePrimitive, symbols, scheduleAt. apply keeps_bind; [apply keeps_gets|]. intros s. cbn [Z.eqb Pos.eqb].
  destruct (bool_decide _); [|apply truthful_confirm]. apply keeps_bind; [destruct (isScheduled _ _); auto with keeps|]. intros _.
  apply keeps_bind; [by apply truthful_pupd|]. intros _.
  apply keeps_bind; [apply keeps_bind; [apply keeps_gets|intros ?; apply keeps_bind; [auto with keeps|auto with keeps]]|]. intros d.
  apply keeps_bind; [apply keeps_gets|]. intros s1. destruct (_ <? _); [auto with keeps|].
  destruct (isScheduled _ _); [auto with keeps|]. by apply truthful_pupd.
Qed.

Lemma truthful_message m :
  match m with UpperPrimitive _ _ _ _ tl => Forall (fun x => unmarked x.2) tl | _ => True end -> keeps T (handleMessage m).
Proof.
  intros Hm.
  assert (Hn : no_cca m \/ (exists st at_ ch tl, m = UpperPrimitive 2 st at_ ch tl) \/ m = SelfTimer PHY_CCA_TIMER).
  { destruct m as [k st at_ ch tl| |k|]; cbn; auto.
    - destruct (decide (k = 2)) as [->|]; [right; left; eauto|by left].
    - destruct k; auto. }
  destruct Hn as [Hn|[(st & at_ & ch & tl & ->)| ->]].
  - apply pk_message; [..|done]; unfold truthful.
    + intros s s' [= E1 E2 _ _ E3 E4]. by rewrite E1, E2, E3, E4.
    + intros s s' ch [= E1 E2 _ _ E3 E4] (Hx & Ht & Hs). by rewrite E1, E2, E3, E4, follow_app, Hs.
    + intros s s' a Ha Hu [= E1 E2 _ _ E3 E4] (Hx & Ht & Hs). rewrite E1, E2, E3, E4, follow_app, Hs. cbn.
      by rewrite Ha, Z.eqb_refl, (proj2 (unmarkedb_iff a) Hu).
    + intros s s' a d Hu [= E1 E2 _ _ E3 E4] (Hx & Ht & Hs). rewrite E1, E2, E3, E4, follow_app, Hs. cbn.
      by rewrite (proj2 (unmarkedb_iff a) Hu).
  - apply truthful_cca.
  - cbn [handleMessage handleSelfMsg]. apply keeps_bind; [apply keeps_gets|]. intros s. apply truthful_confirm.
Qed.
End follow.

(** ** The invariant of the world *)

Section world.
Context `{Propagation}.
Context (Hpower : forall p f d, 0 <= calculateReceivedPower p f d).

(** The channel's entry of a host and the host's radio: [c] is the channel the
    entry has. *)
Record host_ok (w : World) (c : Z) (p : positive) (r : Radio) : Prop := {
  ho_entry : exists e, entries (Air.channel w) !! p = Some e /\ radioInGate e = Z.pos p /\ hostChannel e = c /\ hpos e = myPosition r;
  ho_range : 0 <= c < numChannels (Air.channel w);
  ho_out : out r = [];
  ho_time : simTime r <= now w;
  ho_inv : exists leak, 0 <= leak /\ phy_inv leak r;
}.

Record winv (chan : positive -> Radio -> Z) (w : World) : Prop := {
  wi_cc : cc_inv (dom (radios w)) (Air.channel w);
  wi_hosts : forall p, is_Some (entries (Air.channel w) !! p) <-> is_Some (radios w !! p);
  wi_radio : forall p r, radios w !! p = Some r -> host_ok w (chan p r) p r;
  wi_sent : sent (Air.channel w) = [];
  wi_flights : forall f, f ∈ flights w -> unmarked (fl_frame f) /\ is_Some (radios w !! fl_to f);
  wi_trans : forall ch l a, transmissions (Air.channel w) !! ch = Some l -> a ∈ l -> unmarked a;
}.
Definition world_inv : World -> Prop := winv (fun _ => getChannelNumber).

(** All radios are where their entry says, but that of [p]. *)
Definition chan_at (p : positive) (c : Z) (q : positive) (r : Radio) : Z := if decide (q = p) then c else getChannelNumber r.

Lemma fixed_entry (es es' : gmap positive HostEntry) p e :
  fixed <$> es' = fixed <$> es -> es !! p = Some e -> exists e', es' !! p = Some e' /\ fixed e' = fixed e.
Proof.
  intros E He. assert (Ep : fixed <$> es' !! p = Some (fixed e)) by (by rewrite <- lookup_fmap, E, lookup_fmap, He).
  apply fmap_Some in Ep as (e' & He' & Ee). eauto.
Qed.

(** Nothing about the hosts changes. *)
Lemma winv_channel chan w c1 :
  winv chan w -> cc_inv (dom (radios w)) c1 -> fixed <$> entries c1 = fixed <$> entries (Air.channel w) ->
  numChannels c1 = numChannels (Air.channel w) -> now w <= cc_time c1 -> sent c1 = [] ->
  (forall ch l a, transmissions c1 !! ch = Some l -> a ∈ l -> unmarked a) -> winv chan (w<| channel := c1 |>).
Proof.
  intros [W1 W2 W3 W4 W5 W6] Hc Ef En Ht Hs Hm. split; wsimp; try done.
  - intros p. rewrite <- W2. split; intros [e He].
    + destruct (fixed_entry _ _ _ _ (eq_sym Ef) He) as (? & ? & _). eauto.
    + destruct (fixed_entry _ _ _ _ Ef He) as (? & ? & _). eauto.
  - intros p r Hp. destruct (W3 p r Hp) as [(e & He & E1 & E2 & E3) R2 R3 R4 R5].
    destruct (fixed_entry _ _ _ _ Ef He) as (e' & He' & [= F1 F2 F3 F4]). split; wsimp; try done.
    + exists e'. rewrite F2, F3, F4. done.
    + by rewrite En.
    + unfold now in *. wsimp. lia.
Qed.

Lemma winv_time chan w t : winv chan w -> now w <= t -> winv chan (advance t w).
Proof.
  intros W Ht. unfold advance. apply (winv_channel chan w); [done|by apply cc_inv_time; [apply W|]|done..|apply W|apply W].
Qed.

(** The copies the channel made, as flights. *)
Definition flight_to (w : World) (p : positive) (a : AirFrame) (h : positive) : flight :=
  mkFlight h a (now w + propagationDelay (distance (pos_of (Air.channel w) p) (pos_of (Air.channel w) h))).

Lemma wp_carry_frame chan w p a :
  winv chan w -> is_Some (radios w !! p) -> 0 <= afChannel a < numChannels (Air.channel w) -> unmarked a ->
  wp (carry p (ToChannel a)) (fun _ w' => winv chan w' /\ radios w' = radios w /\ now w' = now w /\ told w' = told w /\
    exists hs, NoDup hs /\ (forall h, h ∈ hs <-> nbr (Air.channel w) p h /\ listens (Air.channel w) h (afChannel a)) /\
      flights w' = flights w ++ (flight_to w p a <$> hs)) w.
Proof.
  intros W Hp Ha Hu. pose proof W as [W1 W2 W3 W4 W5 W6]. cbn [carry]. apply wpe_bind. unfold on_channel. apply wpe_zoom.
  eapply wpe_mono; [apply (wp_sendToChannel (dom (radios w))); [done|by apply W2|done]|].
  intros [] c1 (J & _ & Et & En & Ef & A & _ & hs & Hnd & Hin & Es). cbn beta. apply wpe_modify.
  assert (Es' : sent c1 = copy_for (Air.channel w) p a <$> hs).
  { transitivity (sent (Air.channel w) ++ (copy_for (Air.channel w) p a <$> hs)); [exact Es|by rewrite W4]. }
  assert (Hfl : flight_of <$> sent c1 = flight_to w p a <$> hs).
  { rewrite Es', <- list_fmap_compose. apply list_fmap_ext. intros i h Hi. cbn.
    assert (Hh : h ∈ hs) by (eapply list_elem_of_lookup_2; eauto). apply Hin in Hh as [Hn _].
    apply (li_sym _ (ci_links _ _ W1)) in Hn as (e & He & _). destruct (proj1 (W2 h) ltac:(eauto)) as [r Hr].
    destruct (ho_entry _ _ _ _ (W3 h r Hr)) as (e' & He' & Eg & _). rewrite He in He'. injection He' as <-.
    assert (Eh : Z.to_pos (gate_of (Air.channel w) h) = h).
    { unfold gate_of. rewrite He. change (Z.to_pos (radioInGate e) = h). by rewrite Eg. }
    unfold flight_of, flight_to. f_equal; [exact Eh]. }
  unfold take_off. wsimp. rewrite Hfl. split_and!; try done; [|by exists hs].
  assert (W' : winv chan (w<| channel := c1<| sent := [] |> |>)).
  { apply (winv_channel chan w); try done.
    - apply (inv_traffic _ c1); try done. apply J.
    - unfold now. csimp. lia.
    - csimp. intros ch l x Hl Hx. destruct (A ch l x Hl Hx) as [->|(l0 & Hl0 & Hx0)]; [exact Hu|by apply (W6 ch l0)]. }
  destruct W' as [V1 V2 V3 V4 V5 V6]. split; try done; wsimp; [|].
  - intros q r Hq. destruct (V3 q r Hq). split; done.
  - intros f [Hf|Hf]%elem_of_app; [by apply V5|]. apply list_elem_of_fmap in Hf as (h & -> & [Hn _]%Hin). wsimp. split; [done|].
    apply W2. apply (li_sym _ (ci_links _ _ W1)) in Hn as (e & He & _). eauto.
Qed.

(** A change of the channel of [p]'s entry. *)
Lemma wpe_carry_tune c w p ch :
  winv (chan_at p c) w -> is_Some (radios w !! p) ->
  wpe sound (on_channel (updateHostChannel p ch)) (fun _ w' => winv (chan_at p ch) w' /\ radios w' = radios w /\ now w' = now w) w.
Proof.
  intros [W1 W2 W3 W4 W5 W6] [r Hr]. unfold on_channel. apply wpe_zoom.
  pose proof (inv_updateHostChannel _ _ p ch W1 (proj2 (W2 p) ltac:(eauto))) as Hw. unfold wpe in *.
  destruct (updateHostChannel p ch _) as [[[] c1]|f]; [|by rewrite Hw]. destruct Hw as (J & Hch & ->). wsimp.
  split_and!; [|done..]. split; wsimp; try done.
  - intros q. csimp. rewrite lookup_alter_is_Some. apply W2.
  - intros q r' Hq. destruct (W3 q r' Hq) as [(e & He & E1 & E2 & E3) R2 R3 R4 R5]. unfold chan_at in *.
    split; wsimp; csimp; try done; destruct (decide (q = p)) as [->|Hne]; try done.
    + rewrite lookup_alter_eq, He. eexists. split_and!; [done|by csimp..].
    + rewrite lookup_alter_ne by done. eauto.
Qed.

Lemma wpe_carry c c' w p e :
  winv (chan_at p c) w -> is_Some (radios w !! p) -> follow c [e] = Some c' ->
  wpe sound (carry p e) (fun _ w' => winv (chan_at p c') w' /\ radios w' = radios w /\ now w' = now w) w.
Proof.
  intros W [r Hr] Hf.
  assert (Htold : forall l, winv (chan_at p c) (w<| told := l |>)) by (intros l; destruct W; split; try done; intros q r' Hq; by destruct (wi_radio0 q r' Hq)).
  destruct e as [| | | |a| | |ch|a d]; cbn in Hf; try (injection Hf as <-; cbn [carry]; apply wpe_modify; split_and!; [apply Htold|done..]).
  - destruct ((afChannel a =? c) && unmarkedb a) eqn:Ea; [|done]. injection Hf as <-. apply andb_true_iff in Ea as [Ea%Z.eqb_eq Hu%unmarkedb_iff].
    assert (Hc : 0 <= afChannel a < numChannels (Air.channel w)).
    { pose proof (ho_range _ _ _ _ (wi_radio _ _ W p r Hr)) as Hc. unfold chan_at in Hc. rewrite decide_True in Hc by done. lia. }
    pose proof (wp_carry_frame _ w p a W ltac:(eauto) Hc Hu) as Hw. unfold wpe in *. destruct (carry _ _ w) as [[[] w']|]; [|done].
    destruct Hw as (W' & Er & Et & _). done.
  - injection Hf as <-. cbn [carry]. apply wpe_bind. eapply wpe_mono; [by eapply wpe_carry_tune; eauto|].
    intros [] w1 (W1 & Er1 & Et1). cbn beta. apply wpe_bind. unfold on_channel. apply wpe_zoom.
    pose proof (inv_getOngoing _ _ ch (wi_cc _ _ W1)) as Hw. unfold wpe in *.
    destruct (getOngoingTransmissions ch _) as [[l c1]|f]; [|by rewrite Hw]. destruct Hw as (J & _ & -> & _). wsimp.
    split_and!; [|done..]. apply (winv_channel _ w1); try done; [apply W1|].
    csimp. intros k l0 x (l1 & -> & Hl1)%list_lookup_fmap_Some Hx. apply (wi_trans _ _ W1 k l1); [done|].
    apply list_elem_of_In, List.filter_In in Hx as [Hx _]. by apply list_elem_of_In.
  - destruct (unmarkedb a) eqn:Ea; [|done]. injection Hf as <-. apply unmarkedb_iff in Ea. cbn [carry]. apply wpe_modify.
    split_and!; [|done..]. destruct W as [W1 W2 W3 W4 W5 W6]. split; try done; wsimp.
    + intros q r' Hq. by destruct (W3 q r' Hq).
    + intros f [Hf| ->%list_elem_of_singleton]%elem_of_app; [by apply W5|]. wsimp. eauto.
Qed.

Lemma wpe_carry_all c c' w p l :
  winv (chan_at p c) w -> is_Some (radios w !! p) -> follow c l = Some c' ->
  wpe sound (carry_all p l) (fun _ w' => winv (chan_at p c') w' /\ radios w' = radios w /\ now w' = now w) w.
Proof.
  revert c w. induction l as [|e l IH]; intros c w W Hp Hf; cbn [carry_all].
  { injection Hf as <-. by apply wpe_ret. }
  change (e :: l) with ([e] ++ l) in Hf. rewrite follow_app in Hf. destruct (follow c [e]) as [c1|] eqn:E1; [|done].
  apply wpe_bind. eapply wpe_mono; [by eapply wpe_carry; eauto|]. intros [] w1 (W1 & Er & Et).
  eapply wpe_mono; [by apply (IH c1); [|rewrite Er|]|]. intros [] w2 (W2 & Er2 & Et2). split_and!; congruence.
Qed.

(** ** Every event preserves it *)

(** A message that the radio is due: a timer of its own that expires now, or an
    admissible message. *)
Definition due (m : phy_msg) (t : Z) (r : Radio) : Prop :=
  match m with SelfTimer k => timer_at k r = Some t | _ => admissible m r end.

Lemma begin_out m t r : out r = [] -> (begin m t r)<| out := [] |> = begin m t r.
Proof. intros E. destruct m as [| |k|]; cbn [begin]; [..|destruct k|]; unfold expired; cbn [set_timer]; psimp; by rewrite <- E. Qed.

(** What handling a message leaves behind. *)
Definition handled (t : Z) (r r' : Radio) : Prop :=
  (exists leak, 0 <= leak /\ phy_inv leak r') /\ truthful (myPosition r) t (getChannelNumber r) r'.

Lemma wpe_radio m t r leak :
  out r = [] -> 0 <= leak -> phy_inv leak r -> due m t r ->
  wpe (sound_for m r) (handleMessage m) (fun _ r' => handled t r r') (begin m t r).
Proof using Hpower.
  intros Ho Hl I Hd.
  assert (Ht : truthful (myPosition r) t (getChannelNumber r) (begin m t r)).
  { unfold truthful, channel_events. destruct m as [| |k|]; cbn [begin]; [..|destruct k|]; unfold expired; cbn [set_timer]; psimp; by rewrite Ho. }
  assert (Hu : match m with UpperPrimitive _ _ _ _ tl => Forall (fun x => unmarked x.2) tl | _ => True end) by (destruct m; try done; apply Hd).
  pose proof (truthful_message (myPosition r) t (getChannelNumber r) m Hu _ Ht) as HT.
  assert (HI : wpe (sound_for m r) (handleMessage m) (fun _ r' => exists leak, 0 <= leak /\ phy_inv leak r') (begin m t r)).
  { destruct m as [k st at_ ch tl|f|k|p a]; cbn [begin].
    3:{ cbn [handleMessage]. eapply wpe_mono; [by apply inv_timer|]. eauto. }
    all: eapply wpe_weaken; [|intros f0 Hf0; exact (sound_for_sound _ _ f0 Hf0)]; eapply wpe_mono; [apply inv_message; [done|by apply inv_time|done|exact Hd]|]; intros _ r' (leak' & ? & ? & _); eauto. }
  unfold wpe in *. destruct (handleMessage m (begin m t r)) as [[[] r']|f]; [|done]. by split.
Qed.

Lemma inv_out leak r l : phy_inv leak r -> phy_inv leak (r<| out := l |>).
Proof. intros [T A]. split; [by destruct T|]. by apply (air_same leak r). Qed.

(** The radio of [p] is replaced. *)
Lemma winv_radio w p r r' :
  world_inv w -> radios w !! p = Some r -> handled (now w) r r' ->
  winv (chan_at p (getChannelNumber r)) (w<| radios ::= <[p := r'<| out := [] |>]> |>).
Proof.
  intros [W1 W2 W3 W4 W5 W6] Hr [(leak & Hl & I) (Hx & Ht & _)].
  assert (Hs : forall q, is_Some (<[p := r'<| out := [] |>]> (radios w) !! q) <-> is_Some (radios w !! q)).
  { intros q. rewrite lookup_insert_is_Some. destruct (decide (p = q)) as [->|]; [rewrite Hr|]; naive_solver. }
  split; wsimp; try done.
  - rewrite dom_insert_L, subseteq_union_1_L; [done|]. apply singleton_subseteq_l, elem_of_dom. by rewrite Hr.
  - intros q. by rewrite Hs.
  - intros q rq Hq. unfold chan_at. destruct (decide (q = p)) as [->|Hne].
    + rewrite lookup_insert_eq in Hq. injection Hq as <-. destruct (W3 p r Hr) as [(e & He & E1 & E2 & E3) R2 R3 R4 R5].
      split; wsimp; psimp; try done; [|unfold now in *; wsimp; lia|].
      * exists e. split_and!; try done. congruence.
      * exists leak. split; [done|]. by apply inv_out.
    + rewrite lookup_insert_ne in Hq by done. by destruct (W3 q rq Hq).
  - intros f Hf. rewrite Hs. by apply W5.
Qed.

Lemma wpe_handle w p r m :
  world_inv w -> radios w !! p = Some r -> due m (now w) r -> wpe (sound_for m r) (handle p m) (fun _ w' => world_inv w') w.
Proof using Hpower.
  intros W Hr Hd. unfold handle. apply wpe_bind, wpe_gets. unfold id. rewrite Hr.
  destruct (wi_radio _ _ W p r Hr) as [_ _ Ho _ (leak & Hl & I)]. rewrite begin_out by done.
  pose proof (wpe_radio m (now w) r leak Ho Hl I Hd) as Hw. unfold wpe at 1 in Hw.
  destruct (handleMessage m (begin m (now w) r)) as [[[] r']|f]; [|done]. apply wpe_bind, wpe_modify.
  pose proof (winv_radio w p r r' W Hr Hw) as W1. destruct Hw as [_ (_ & _ & Hf)]. unfold channel_events in Hf. rewrite follow_filter in Hf.
  eapply wpe_weaken; [|intros f0 Hf0; exact (sound_for_sound _ _ f0 Hf0)]. eapply wpe_mono; [eapply wpe_carry_all; [exact W1|wsimp; rewrite lookup_insert_eq; eauto|exact Hf]|].
  intros [] w' (W' & Er & Et). wsimp. destruct W' as [V1 V2 V3 V4 V5 V6]. split; try done.
  intros q rq Hq. specialize (V3 q rq Hq). unfold chan_at in V3. destruct (decide (q = p)) as [->|]; [|done].
  rewrite Er, lookup_insert_eq in Hq. by injection Hq as <-.
Qed.

Lemma inv_position leak r x t l : phy_inv leak r -> phy_inv leak (r<| out := l |><| simTime := t |><| myPosition := x |>).
Proof. intros [T A]. split; [by destruct T|]. by apply (air_same leak r). Qed.

(** What is known of an entry after the position of [p] was set. *)
Lemma moved_entry (es es' : gmap positive HostEntry) p x q e :
  fixed <$> es' = fixed <$> alter (fun e => e<| hpos := x |>) p es -> es !! q = Some e ->
  exists e', es' !! q = Some e' /\ radioInGate e' = radioInGate e /\ hostChannel e' = hostChannel e /\
    hpos e' = (if decide (q = p) then x else hpos e).
Proof.
  intros Ef He. destruct (decide (q = p)) as [->|Hne].
  - assert (Ha : alter (fun e => e<| hpos := x |>) p es !! p = Some (e<| hpos := x |>)) by (by rewrite lookup_alter_eq, He).
    destruct (fixed_entry _ _ _ _ Ef Ha) as (e' & He' & [= _ F2 F3 F4]). eauto 10.
  - assert (Ha : alter (fun e => e<| hpos := x |>) p es !! q = Some e) by (by rewrite lookup_alter_ne, He).
    destruct (fixed_entry _ _ _ _ Ef Ha) as (e' & He' & [= _ F2 F3 F4]). eauto 10.
Qed.
Lemma moved_dom (es es' : gmap positive HostEntry) p x q :
  fixed <$> es' = fixed <$> alter (fun e => e<| hpos := x |>) p es -> is_Some (es' !! q) <-> is_Some (es !! q).
Proof.
  intros Ef. assert (E : is_Some ((fixed <$> es') !! q) <-> is_Some (es !! q)).
  { by rewrite Ef, lookup_fmap, fmap_is_Some, lookup_alter_is_Some. }
  by rewrite lookup_fmap, fmap_is_Some in E.
Qed.

Lemma wpe_move w p x : world_inv w -> is_Some (radios w !! p) -> wpe sound (move p x) (fun _ w' => world_inv w') w.
Proof.
  intros [W1 W2 W3 W4 W5 W6] Hp. unfold move. apply wpe_bind. unfold on_channel. apply wpe_zoom.
  pose proof (inv_move _ _ p x W1 (proj2 (W2 p) Hp)) as Hw. unfold wpe in *.
  destruct (updateHostPosition p x _) as [[[] c1]|f]; [|done]. destruct Hw as (J & [= T1 T2 T3 T4] & Ef). cbn beta. unfold modify.
  set (w' := w<| channel := c1 |><| radios ::= _ |>).
  assert (Hd : dom (radios w') = {[p]} ∪ dom (radios w)).
  { unfold w'. wsimp. rewrite dom_alter_L, subseteq_union_1_L; [done|]. apply singleton_subseteq_l. by apply elem_of_dom. }
  split; try (unfold w'; wsimp; first [by rewrite Hd|done]).
  - by rewrite Hd.
  - intros q. unfold w'. wsimp. rewrite (moved_dom _ _ p x q Ef), lookup_alter_is_Some. apply W2.
  - intros q rq Hq. unfold w' in Hq. wsimp.
    assert (exists r0, radios w !! q = Some r0 /\ rq = (if decide (q = p) then r0<| myPosition := x |> else r0)) as (r0 & Hr0 & ->).
    { destruct (decide (q = p)) as [->|Hne]; [|rewrite lookup_alter_ne in Hq by done; eauto].
      rewrite lookup_alter_eq in Hq. apply fmap_Some in Hq as (r0 & Hr0 & ->). eauto. }
    destruct (W3 q r0 Hr0) as [(e & He & E1 & E2 & E3) R2 R3 R4 (leak & Hl & I)].
    destruct (moved_entry _ _ _ _ _ _ Ef He) as (e' & He' & F1 & F2 & F3). unfold w'.
    split; wsimp.
    + exists e'. rewrite F1, F2, F3. split_and!; try done; by destruct (decide (q = p)).
    + rewrite T3. by destruct (decide (q = p)).
    + by destruct (decide (q = p)).
    + unfold now. wsimp. rewrite T2. by destruct (decide (q = p)).
    + exists leak. split; [done|]. destruct (decide (q = p)); [|done]. by apply (inv_position leak r0 x (simTime r0) (out r0)).
  - by unfold w'; wsimp; rewrite T4.
  - intros f Hf. unfold w'. wsimp. rewrite lookup_alter_is_Some. by apply W5.
  - unfold w'. wsimp. by rewrite T1.
Qed.

Lemma wpe_join w p m x power frequency sens noise snir ch pMax junk :
  world_inv w -> entries (Air.channel w) !! p = None -> 0 <= ch ->
  wpe (fun _ => True) (join p m x power frequency sens noise snir ch pMax junk) (fun _ w' => world_inv w') w.
Proof using Hpower.
  intros [W1 W2 W3 W4 W5 W6] Hp Hch. unfold join. apply wpe_bind. unfold on_channel. apply wpe_zoom.
  pose proof (inv_register _ _ p m (0, 0) None (Some (Z.pos p)) W1 Hp) as Hw. unfold wpe at 1 in Hw. unfold wpe at 1.
  destruct (registerHost _ _ _ _ _ _) as [[r1 c1]|f]; [|done].
  destruct Hw as (-> & J1 & [= T1 T2 T3 T4] & g & Hg & Ee). destruct Hg as [Hg|[_ Hg]]; [done|]. injection Hg as <-.
  apply wpe_bind, wpe_zoom. wsimp.
  assert (He1 : entries c1 !! p = Some (mkHostEntry m (Z.pos p) 0 (0, 0) ∅ false [])) by (rewrite Ee; apply lookup_insert_eq).
  pose proof (inv_move _ _ p x J1 ltac:(eauto)) as Hw. unfold wpe at 1 in Hw. unfold wpe at 1.
  destruct (updateHostPosition p x c1) as [[[] c2]|f]; [|done]. destruct Hw as (J2 & [= U1 U2 U3 U4] & Ef).
  apply wpe_bind, wpe_lift. destruct (phy_initialize _ _ _ _ _ _ _ _ _ _) as [r|] eqn:Er; [|done]. apply wpe_bind, wpe_modify.
  assert (I0 : phy_inv 0 r) by (apply started_inv; [done|]; by exists power, frequency, sens, noise, snir, x, None, ch, pMax, junk).
  assert (Epos : myPosition r = x /\ getChannelNumber r = ch).
  { unfold phy_initialize, check in Er. destruct (negb _); [|done]. cbn in Er. destruct (getRate "b" ch); [|done]. cbn in Er.
    by injection Er as <-. }
  apply wpe_zoom. wsimp. destruct (moved_entry _ _ _ _ _ _ Ef He1) as (e2 & He2 & F1 & F2 & F3). rewrite decide_True in F3 by done.
  pose proof (inv_updateHostChannel _ _ p ch J2 ltac:(eauto)) as Hw. unfold wpe in *.
  destruct (updateHostChannel p ch c2) as [[[] c3]|f]; [|done]. destruct Hw as (J3 & Hc & ->). unfold now. wsimp.
  match goal with |- world_inv ?v => set (w' := v) end.
  assert (Hr0 : radios w !! p = None) by (apply eq_None_not_Some; rewrite <- W2, Hp; by intros []).
  assert (Hd : dom (radios w') = {[p]} ∪ dom (radios w)) by (unfold w'; wsimp; apply dom_insert_L).
  assert (Hother : forall q, q <> p -> forall e, entries (Air.channel w) !! q = Some e ->
    exists e', entries (Air.channel w') !! q = Some e' /\ radioInGate e' = radioInGate e /\ hostChannel e' = hostChannel e /\ hpos e' = hpos e).
  { intros q Hq e He. assert (He' : entries c1 !! q = Some e) by (by rewrite Ee, lookup_insert_ne).
    destruct (moved_entry _ _ _ _ _ _ Ef He') as (e' & Hq' & G1 & G2 & G3). rewrite decide_False in G3 by done. exists e'.
    unfold w'. wsimp. csimp. by rewrite lookup_alter_ne. }
  split.
  - by rewrite Hd.
  - intros q. unfold w'. wsimp. csimp. rewrite lookup_alter_is_Some, (moved_dom _ _ p x q Ef), Ee, !lookup_insert_is_Some, W2. done.
  - intros q rq Hq. unfold w' in Hq. wsimp. destruct (decide (q = p)) as [->|Hne].
    + rewrite lookup_insert_eq in Hq. injection Hq as <-. split; unfold w'; wsimp; csimp; psimp; try done.
      * rewrite lookup_alter_eq, He2. eexists. split_and!; [done|csimp..]; [by rewrite F1|by destruct Epos|by destruct Epos; congruence].
      * destruct Epos as [_ Ech]. unfold getChannelNumber in *. psimp. lia.
      * exists 0. split; [lia|]. exact (inv_position 0 r (myPosition r) (cc_time c2) [] I0).
    + rewrite lookup_insert_ne in Hq by done. destruct (W3 q rq Hq) as [(e & He & E1 & E2 & E3) R2 R3 R4 R5].
      destruct (Hother q Hne e He) as (e' & He' & G1 & G2 & G3). split; try done.
      * exists e'. rewrite G1, G2, G3. done.
      * unfold w'. wsimp. csimp. by rewrite U3, T3.
      * unfold now, w' in *. wsimp. csimp. by rewrite U2, T2.
  - unfold w'. wsimp. csimp. by rewrite U4, T4.
  - intros f Hf. destruct (W5 f Hf) as [Hu Hs]. split; [done|]. unfold w'. wsimp. rewrite lookup_insert_is_Some. destruct (decide (p = fl_to f)); auto.
  - unfold w'. wsimp. csimp. by rewrite U1, T1.
Qed.

(** The transmissions the channel reports carry no mark. *)
Lemma informed_unmarked w st at_ k ch tl :
  world_inv w -> informed (UpperPrimitive k st at_ ch tl) (Air.channel w) -> Forall (fun x => unmarked x.2) tl.
Proof.
  intros W Hi. cbn in Hi. pose proof (inv_getOngoing _ _ ch (wi_cc _ _ W)) as Hw. unfold wpe in Hw.
  destruct (getOngoingTransmissions ch _) as [[l c1]|f]; [|by rewrite Hi]. destruct Hw as (_ & _ & _ & l0 & Hl0 & ->).
  apply Forall_forall. intros [p a] Hx. assert (Ha : a ∈ tl.*2) by (apply list_elem_of_fmap; by exists (p, a)).
  rewrite Hi in Ha. apply list_elem_of_In, List.filter_In in Ha as [Ha _]. apply (wi_trans _ _ W _ l0 a Hl0). by apply list_elem_of_In.
Qed.

Lemma world_step_inv w w' : world_step w w' -> world_inv w -> world_inv w'.
Proof using Hpower.
  intros [p r k t w1 Hr Hk [Ht _] E|l1 f l2 r q w1 Hf [Ht _] Hr Hq E|p r m t w1 Hr [Ht _] Hm Hi E|p t x w1 Hp [Ht _] E|
    p m x power frequency sens noise snir ch pMax junk t w1 Hp [Ht _] Hch E] W; pose proof (winv_time _ _ _ W Ht) as W'.
  - exact (wpe_run _ _ _ _ _ _ (wpe_handle (advance t w) p r (SelfTimer k) W' Hr Hk) E).
  - assert (Hu : unmarked (fl_frame f)) by (apply W; rewrite Hf; apply elem_of_app; right; by left).
    assert (W2 : world_inv ((advance (fl_at f) w)<| flights := l1 ++ l2 |>)).
    { destruct W' as [V1 V2 V3 V4 V5 V6]. split; try done; wsimp.
      - intros x rx Hx. by destruct (V3 x rx Hx).
      - intros g Hg. apply V5. unfold advance. wsimp. rewrite Hf. set_solver. }
    refine (wpe_run _ _ _ _ _ _ (wpe_handle _ (fl_to f) r (LowerAirFrame q _) W2 Hr _) E). by split.
  - refine (wpe_run _ _ _ _ _ _ (wpe_handle (advance t w) p r m W' Hr _) E). destruct m as [k st at_ ch tl| | |]; try done.
    destruct Hm as [Hm1 Hm2]. split_and!; [done..|]. by eapply informed_unmarked.
  - exact (wpe_run _ _ _ _ _ _ (wpe_move (advance t w) p x W' Hp) E).
  - exact (wpe_run _ _ _ _ _ _ (wpe_join (advance t w) p m x power frequency sens noise snir ch pMax junk W' Hp Hch) E).
Qed.

Lemma empty_world_inv channels range : world_inv (empty_world channels range).
Proof.
  split; wsimp; try done.
  - apply initial_inv.
  - intros p. unfold empty_world, ChannelControl_initialize. wsimp. csimp. rewrite !lookup_empty. by split; intros [].
  - intros f ?%not_elem_of_nil. done.
  - unfold empty_world, ChannelControl_initialize. wsimp. csimp. intros ch l a [-> _]%lookup_replicate ?%not_elem_of_nil. done.
Qed.

Lemma world_reachable_inv channels range w : rtc world_step (empty_world channels range) w -> world_inv w.
Proof using Hpower.
  intros Hr. remember (empty_world channels range) as w0 eqn:E. assert (W : world_inv w0) by (subst; apply empty_world_inv). clear E.
  induction Hr; eauto using world_step_inv.
Qed.

(** ** A frame from one MAC to the other *)

(** What the MAC is told needs nothing of the channel. *)
Lemma carry_told p l w :
  List.filter to_channel l = [] -> carry_all p l w = Ok (tt, w<| told ::= fun x => x ++ (pair p <$> l) |>).
Proof.
  revert w. induction l as [|e l IH]; intros w Hl.
  - cbn. unfold mret, M_ret. do 2 f_equal. unfold set_. cbn. by rewrite app_nil_r.
  - cbn in Hl. destruct (to_channel e) eqn:Ee; [done|]. cbn [carry_all].
    assert (Ec : carry p e w = Ok (tt, w<| told ::= fun x => x ++ [(p, e)] |>)) by (by destruct e).
    unfold mbind, M_bind. rewrite Ec, IH by done. do 2 f_equal.
    change (w<| told := (told w ++ [(p, e)]) ++ (pair p <$> l) |> = w<| told := told w ++ ((p, e) :: (pair p <$> l)) |>).
    by rewrite <- app_assoc.
Qed.

Lemma handle_told w p r m r' :
  radios w !! p = Some r -> out r = [] -> handleMessage m (begin m (now w) r) = Ok (tt, r') -> List.filter to_channel (out r') = [] ->
  handle p m w = Ok (tt, w<| radios ::= <[p := r'<| out := [] |>]> |><| told ::= fun x => x ++ (pair p <$> out r') |>).
Proof.
  intros Hr Ho E Hf. unfold handle, mbind at 1, M_bind at 1, gets, id. rewrite Hr, begin_out, E by done.
  unfold mbind, M_bind, modify. by rewrite carry_told.
Qed.

Lemma hostChannel_listens c h e ch : entries c !! h = Some e -> hostChannel e = ch -> listens c h ch.
Proof. intros He <-. unfold listens. by rewrite He. Qed.

(** Handing a frame to the radio of [p]: who gets a copy. *)
Lemma transmits w p r f :
  world_inv w -> radios w !! p = Some r -> phyRadioState r = phy_TX_ON -> TxOver_timer r = None ->
  0 < getByteLength f -> 0 < getBitrate (rs r) ->
  exists w1 hs, handle p (UpperFrame f) w = Ok (tt, w1) /\ NoDup hs /\
    (forall h, h ∈ hs <-> nbr (Air.channel w) p h /\ listens (Air.channel w) h (getChannelNumber r)) /\
    flights w1 = flights w ++ (flight_to w p (outgoing r f) <$> hs) /\ now w1 = now w /\
    radios w1 = <[p := (transmitting (r<| simTime := now w |>) f)<| out := [] |>]> (radios w).
Proof using Hpower.
  intros W Hr Hon Hidle Hlen Hrate. destruct (wi_radio _ _ W p r Hr) as [_ Hrange Ho _ (leak & Hl & I)].
  set (r0 := r<| simTime := now w |>). assert (I0 : phy_inv leak r0) by (by apply inv_time).
  destruct (run_upper leak r0 f I0 Hon Hidle Hlen Hrate) as [_ E].
  pose proof (wpe_radio (UpperFrame f) (now w) r leak Ho Hl I Logic.I) as Hw. cbn [begin] in Hw. fold r0 in Hw. unfold wpe in Hw. rewrite E in Hw.
  pose proof (winv_radio w p r _ W Hr Hw) as W1. set (w0 := w<| radios ::= _ |>) in W1.
  set (e := NF_RADIOSTATE_CHANGED ((rs r)<| getState := TRANSMIT |>)).
  assert (Eh : handle p (UpperFrame f) w = carry_all p [e; ToChannel (outgoing r f)] w0).
  { unfold handle, mbind at 1, M_bind at 1, gets, id. rewrite Hr, begin_out by done. cbn [begin]. fold r0. rewrite E.
    assert (Eo : out (transmitting r0 f) = [e; ToChannel (outgoing r f)]) by (unfold transmitting, r0; psimp; by rewrite Ho).
    by rewrite Eo. }
  set (w2 := w0<| told ::= fun l => l ++ [(p, e)] |>). assert (W2 : winv (chan_at p (getChannelNumber r)) w2).
  { destruct W1 as [V1 V2 V3 V4 V5 V6]. split; try done. intros x rx Hx. by destruct (V3 x rx Hx). }
  assert (Hp2 : is_Some (radios w2 !! p)) by (unfold w2, w0; wsimp; rewrite lookup_insert_eq; eauto).
  destruct (wp_ok _ _ _ (wp_carry_frame _ w2 p (outgoing r f) W2 Hp2 Hrange eq_refl)) as ([] & w3 & E3 & _ & Er & Et & _ & hs & Hnd & Hin & Ef).
  assert (Ec : carry_all p [e; ToChannel (outgoing r f)] w0 = Ok (tt, w3)).
  { cbn [carry_all]. unfold mbind, M_bind. change (carry p e w0) with (@Ok (unit * World) (tt, w2)). cbv beta iota. by rewrite E3. }
  rewrite Eh, Ec.
  exists w3, hs. split_and!; try done.
Qed.

(** A radio that will receive [a]: it listens, with no clear channel assessment
    running, takes frames of that channel and frequency, and the frame is at least
    as strong there as the sensitivity and stronger than the threshold over the
    present noise. *)
Record hears (r : Radio) (a : AirFrame) : Prop := {
  he_listening : listening r;
  he_cca : CCA_timer r = None;
  he_channel : processAirFrame a r = true;
  he_strong : sensitivity r <= power_here r a;
  he_clear : Qle_bool (inject_Z (power_here r a) / inject_Z (noiseLevel r)) (snirThreshold r) = false;
}.

(** A radio that hears a frame hands it up at its end, in any world where the radio
    is as the arrival left it. *)
Lemma arrives w q rq x a f t :
  now w = t -> payload a = f ->
  radios w !! q = Some rq -> out rq = [] -> (exists leak, 0 <= leak /\ phy_inv leak rq) ->
  hears rq a -> unmarked a -> (kind f =? BITERROR_FORCE_TRX_OFF) = false -> 0 <= afDuration a ->
  airframes rq !! x = None ->
  exists w3 r3, handle q (LowerAirFrame x (a<| arrivalTime := t |>)) w = Ok (tt, w3) /\
    radios w3 !! q = Some r3 /\ timer_at (PHY_RX_OVER_TIMER x) r3 = Some (t + afDuration a) /\
    forall w4, radios w4 !! q = Some r3 ->
      exists w5, handle q (SelfTimer (PHY_RX_OVER_TIMER x)) (advance (t + afDuration a) w4) = Ok (tt, w5) /\
        exists n, told w5 = told w4 ++ [(q, ToMac_frame f); (q, NF_RADIOSTATE_CHANGED n)].
Proof using Hpower.
  intros <- <- Hq Ho (leak & Hlk & I) [Hl Hcca Hm Hpow Hsnr] Hu Hk Hd Hx. set (a' := a<| arrivalTime := now w |>).
  set (s := rq<| simTime := now w |>). assert (Is : phy_inv leak s) by (by apply inv_time).
  destruct (reception_starts leak s x a' Is) as (s1 & E1 & [R1 R2 R3 R4 R5 R6 R7 R8 R9 R10 [n R11]]); try done; [by destruct Hl|].
  change (out s) with (out rq) in R11. rewrite Ho in R11. injection R7 as P1 P2 P3.
  pose proof (handle_told w q rq (LowerAirFrame x a') s1 Hq Ho E1) as H1. rewrite R11 in H1. specialize (H1 eq_refl).
  assert (I1 : exists leak', phy_inv leak' (s1<| out := [] |>)).
  { pose proof (inv_message Hpower leak (LowerAirFrame x a') s Is Hlk (conj Hx Hu)) as W.
    destruct (wpe_run _ _ _ _ _ _ W E1) as (l & _ & J & _). exists l. by apply inv_out. }
  destruct I1 as [leak' I1].
  destruct (reception_over leak' (s1<| out := [] |>) x a' (now w + afDuration a) I1) as (s2 & E2 & [n2 O2] & _); try done.
  { psimp. rewrite R6, P2. apply Hl. }
  change (out (s1<| out := [] |>)) with (@nil pevent) in O2. cbn [app] in O2.
  assert (Hh : handed_up (s1<| out := [] |>) (payload a') = payload a).
  { unfold handed_up. psimp. rewrite R2, P1, P3. change (CCA_timer s) with (CCA_timer rq). rewrite Hcca.
    rewrite bool_decide_true; [done|]. by repeat constructor. }
  rewrite Hh in O2. eexists _, (s1<| out := [] |>). split_and!; [exact H1|apply lookup_insert_eq|exact R8|]. intros w4 Hq4.
  pose proof (handle_told (advance (now w + afDuration a) w4) q _ (SelfTimer (PHY_RX_OVER_TIMER x)) s2 Hq4 eq_refl E2) as H2.
  rewrite O2 in H2. eexists. split; [exact (H2 eq_refl)|]. by exists n2.
Qed.

(** The channel and the radios agree.  In every world that can be reached, the
    channel has for each radio the channel it is tuned to and its position; two
    radios are neighbours exactly if they are in range; a radio hears only its own
    past: its state is consistent; and whatever is on its way has a radio to reach. *)
Theorem world_consistent (channels range : Z) (w : World) (Hr : rtc world_step (empty_world channels range) w) :
  (forall p r, radios w !! p = Some r -> (exists leak, 0 <= leak /\ phy_inv leak r) /\
     exists e, entries (Air.channel w) !! p = Some e /\ hostChannel e = getChannelNumber r /\ hpos e = myPosition r) /\
  (forall p q r rq, p <> q -> radios w !! p = Some r -> radios w !! q = Some rq ->
     (nbr (Air.channel w) p q <->
      sqrdist (myPosition r) (myPosition rq) < maxInterferenceDistance (Air.channel w) * maxInterferenceDistance (Air.channel w))) /\
  (forall f, f ∈ flights w -> is_Some (radios w !! fl_to f)).
Proof using Hpower.
  pose proof (world_reachable_inv _ _ _ Hr) as W. split_and!.
  - intros p r Hp. destruct (wi_radio _ _ W p r Hp) as [(e & He & _ & E1 & E2) _ _ _ I]. split; [done|]. eauto.
  - intros p q r rq Hne Hp Hq. rewrite (ci_exact _ _ (wi_cc _ _ W)) by (try done; apply elem_of_dom; eauto).
    destruct (wi_radio _ _ W p r Hp) as [(e & He & _ & _ & <-) _ _ _ _], (wi_radio _ _ W q rq Hq) as [(e' & He' & _ & _ & <-) _ _ _ _].
    unfold in_range. rewrite He, He'. split; [by intros (? & ? & [= <-] & [= <-] & ?)|eauto 10].
  - intros f Hf. by apply (wi_flights _ _ W).
Qed.

(** C20: no event of the world is undefined.  In every world that can be reached,
    an event that is due at a radio (a timer of its own, a message of its MAC, a
    frame that arrives) is carried out by the radio and the channel, or ends the
    run with a failed assertion or a thrown error: no erased host, deleted frame or
    channel out of range is accessed.  There is one exception: at the end of an energy
    detection, the conversion of the energy level to an [int] (calculateEnergyLevel) is
    undefined if the level, 128 times the peak power over the sensitivity, is more than
    an [int] holds.  Received powers are taken to be nonnegative. *)
Theorem world_safe (channels range : Z) (w : World) (p : positive) (r : Radio) (m : phy_msg) (t : Z) (fl : fault)
  (Hr : rtc world_step (empty_world channels range) w) (Ht : now w <= t) (Hp : radios w !! p = Some r) (Hd : due m t r)
  (Hrun : handle p m (advance t w) = Fault fl) :
  sound fl \/ (m = SelfTimer PHY_ED_TIMER /\ energy_overflow r /\ fl = Undefined "conversion to int").
Proof using Hpower.
  pose proof (winv_time _ _ _ (world_reachable_inv _ _ _ Hr) Ht) as W.
  exact (wpe_fault _ _ _ _ _ (wpe_handle (advance t w) p r m W Hp Hd) Hrun).
Qed.

(** C19: a frame travels from one MAC to the other.  In a world that can be reached,
    a frame handed to a radio that is ready to transmit (transmitter on, no
    transmission under way) is put on its way to each other radio in range on the
    same channel, to arrive after the time the signal takes for the distance.  Say
    it arrives in a world that can be reached, at a radio that hears it then: one
    that listens with nothing to receive and no clear channel assessment running,
    takes the frame's channel and frequency, and where the frame is as strong as the
    sensitivity and over the threshold.  Then that radio starts to receive it, its end
    is due when the transmission time is over, and if nothing else happens at that
    radio until then, its MAC is handed the very frame, once (if its kind is not the
    mark of a stopped sender).  The frame has some bytes and the radio a bit rate;
    received powers are taken to be nonnegative. *)
Theorem frame_carried (channels range : Z) (w : World) (p q : positive) (r rq : Radio) (f : Frame)
  (Hr : rtc world_step (empty_world channels range) w)
  (Hp : radios w !! p = Some r) (Hq : radios w !! q = Some rq) (Hne : p <> q)
  (Hon : phyRadioState r = phy_TX_ON) (Hidle : TxOver_timer r = None) (Hlen : 0 < getByteLength f) (Hrate : 0 < getBitrate (rs r))
  (Hrange : sqrdist (myPosition r) (myPosition rq) < maxInterferenceDistance (Air.channel w) * maxInterferenceDistance (Air.channel w))
  (Hchan : getChannelNumber rq = getChannelNumber r) :
  let arrival := now w + propagationDelay (distance (myPosition r) (myPosition rq)) in
  let fl := mkFlight q (outgoing r f) arrival in
  let over := arrival + afDuration (outgoing r f) in
  (exists w1, handle p (UpperFrame f) w = Ok (tt, w1) /\ radios w1 !! q = Some rq /\ fl ∈ flights w1) /\
  (forall w2 r2 l1 l2 x, rtc world_step (empty_world channels range) w2 ->
     flights w2 = l1 ++ fl :: l2 -> radios w2 !! q = Some r2 -> hears r2 (outgoing r f) ->
     (kind f =? BITERROR_FORCE_TRX_OFF) = false -> airframes r2 !! x = None ->
     exists w3 r3, handle q (LowerAirFrame x ((outgoing r f)<| arrivalTime := arrival |>)) ((advance arrival w2)<| flights := l1 ++ l2 |>) = Ok (tt, w3) /\
       radios w3 !! q = Some r3 /\ timer_at (PHY_RX_OVER_TIMER x) r3 = Some over /\
       forall w4, radios w4 !! q = Some r3 ->
         exists w5, handle q (SelfTimer (PHY_RX_OVER_TIMER x)) (advance over w4) = Ok (tt, w5) /\
           exists n, told w5 = told w4 ++ [(q, ToMac_frame f); (q, NF_RADIOSTATE_CHANGED n)]).
Proof using Hpower.
  intros arrival fl over. pose proof (world_reachable_inv _ _ _ Hr) as W.
  destruct (wi_radio _ _ W p r Hp) as [(e & He & _ & _ & Epos) _ _ _ (leak & Hlk & I)]. split.
  - destruct (transmits w p r f W Hp Hon Hidle Hlen Hrate) as (w1 & hs & E & _ & Hin & Ef & _ & Er).
    destruct (wi_radio _ _ W q rq Hq) as [(eq & Heq & _ & Ech & Eposq) _ _ _ _].
    exists w1. split_and!; [done|by rewrite Er, lookup_insert_ne|].
    rewrite Ef. apply elem_of_app. right. apply list_elem_of_fmap. exists q. split.
    + unfold fl, arrival, flight_to, pos_of. rewrite He, Heq. cbn [fmap option_fmap option_map default]. by rewrite <- Epos, <- Eposq.
    + apply Hin. split; [|by apply (hostChannel_listens _ _ eq); [|congruence]].
      apply (ci_exact _ _ (wi_cc _ _ W)); [by apply elem_of_dom; eauto..|done|]. exists e, eq. rewrite Epos, Eposq. done.
  - intros w2 r2 l1 l2 x Hr2 _ Hq2 Hh Hk Hx. pose proof (world_reachable_inv _ _ _ Hr2) as W2.
    destruct (wi_radio _ _ W2 q r2 Hq2) as [_ _ Ho _ Iq].
    pose proof (proj1 (run_upper leak r f I Hon Hidle Hlen Hrate)) as Hd.
    exact (arrives ((advance arrival w2)<| flights := l1 ++ l2 |>) q r2 x (outgoing r f) f arrival eq_refl eq_refl Hq2 Ho Iq Hh eq_refl Hk Hd Hx).
Qed.
End world.

(** ** Witnesses: two radios, one of which has turned its transmitter on *)

Section sample_world.
#[local] Existing Instance sample_air.

Definition wafter (m : M World unit) (w : World) : World := match m w with Ok (_, w') => w' | Fault _ => w end.
Lemma wafter_run m w : is_ok (m w) = true -> m w = Ok (tt, wafter m w).
Proof. unfold wafter. by destruct (m w) as [[[] ?]|]. Qed.

(** A decidable form of [none_before]. *)
Definition timers_after (t : Z) (r : Radio) : bool :=
  forallb (fun o => match o with Some x => t <=? x | None => true end) [CCA_timer r; ED_timer r; TRX_timer r; TxOver_timer r] &&
  forallb (fun x => t <=? x.2) (map_to_list (endRx_timers r)).
Definition none_beforeb (w : World) (t : Z) : bool :=
  (now w <=? t) && forallb (fun x => timers_after t x.2) (map_to_list (radios w)) && forallb (fun f => t <=? fl_at f) (flights w).
Lemma none_beforeb_ok w t : none_beforeb w t = true -> none_before w t.
Proof.
  unfold none_beforeb, none_before. intros [[H1%Z.leb_le H2]%andb_true_iff H3]%andb_true_iff. split_and!; [done|..].
  - intros p r k x Hp Hk. rewrite List.forallb_forall in H2. specialize (H2 (p, r)).
    assert (Hr : timers_after t r = true) by (apply H2, list_elem_of_In; by apply elem_of_map_to_list).
    unfold timers_after in Hr. apply andb_true_iff in Hr as [Ha Hb]. rewrite List.forallb_forall in Ha, Hb.
    destruct k as [| | | |y]; cbn in Hk.
    1-4: apply Z.leb_le; apply (Ha (Some x)); rewrite <- Hk; cbn; tauto.
    apply Z.leb_le, (Hb (y, x)), list_elem_of_In. by apply elem_of_map_to_list.
  - intros f Hf. rewrite List.forallb_forall in H3. apply Z.leb_le, H3. by apply list_elem_of_In.
Qed.

Definition world0 : World := empty_world 27 100.
Definition world1 : World := wafter (join 5 1 (0, 0) 60 2400 10 1 (2 # 1) 11 1000 0) (advance 0 world0).
Definition world2 : World := wafter (join 7 2 (30, 0) 60 2400 10 1 (2 # 1) 11 1000 0) (advance 0 world1).
Definition turn_on : phy_msg := UpperPrimitive 6 phy_TX_ON PHY_CURRENT_CHANNEL 11 [].
Definition world3 : World := wafter (handle 5 turn_on) (advance 0 world2).
Definition turned : Z := secs aTurnaroundTime 62500.
Definition world4 : World := wafter (handle 5 (SelfTimer PHY_TRX_TIMER)) (advance turned world3).

Definition radio_of (w : World) (p : positive) : Radio := default radio0 (radios w !! p).

Lemma step_join p m x power frequency sens noise snir ch pMax junk t w :
  entries (Air.channel w) !! p = None -> none_beforeb w t = true -> 0 <= ch ->
  is_ok (join p m x power frequency sens noise snir ch pMax junk (advance t w)) = true ->
  world_step w (wafter (join p m x power frequency sens noise snir ch pMax junk) (advance t w)).
Proof. intros Hp Ht%none_beforeb_ok Hch E%wafter_run. by apply (ws_join w p m x power frequency sens noise snir ch pMax junk t). Qed.

Lemma world3_reached : rtc world_step world0 world3.
Proof.
  eapply rtc_l; [apply (step_join 5 1 (0, 0) 60 2400 10 1 (2 # 1) 11 1000 0 0 world0); by vm_compute|].
  eapply rtc_l; [apply (step_join 7 2 (30, 0) 60 2400 10 1 (2 # 1) 11 1000 0 0 world1); by vm_compute|].
  apply rtc_once. apply (ws_mac world2 5 (radio_of world2 5) turn_on 0).
  - by vm_compute.
  - apply none_beforeb_ok. by vm_compute.
  - split; [|by apply NoDup_nil]. intros _. vm_compute. tauto.
  - by vm_compute.
  - apply wafter_run. by vm_compute.
Qed.
Lemma world4_reached : rtc world_step world0 world4.
Proof.
  eapply rtc_r; [exact world3_reached|]. apply (ws_timer world3 5 (radio_of world3 5) PHY_TRX_TIMER turned).
  - by vm_compute.
  - by vm_compute.
  - apply none_beforeb_ok. by vm_compute.
  - apply wafter_run. by vm_compute.
Qed.

Lemma world_consistent_witness :
  exists e, entries (Air.channel world4) !! 5%positive = Some e /\ hostChannel e = 11 /\ nbr (Air.channel world4) 5 7.
Proof.
  destruct (world_consistent sample_power 27 100 world4 world4_reached) as (H1 & H2 & _).
  destruct (H1 5%positive (radio_of world4 5) ltac:(by vm_compute)) as (_ & e & He & Ech & _). exists e. split; [exact He|]. split.
  - rewrite Ech. by vm_compute.
  - apply (H2 5%positive 7%positive (radio_of world4 5) (radio_of world4 7)); [done|by vm_compute..].
Defined.

(** The radio of host 7 is receiving: a frame of its MAC is refused with an error. *)
Lemma world_safe_witness :
  exists fl, handle 7 (UpperFrame sample_payload) (advance turned world4) = Fault fl /\ sound fl.
Proof.
  assert (E : handle 7 (UpperFrame sample_payload) (advance turned world4) =
    Fault (Thrown "[PHY]: transmitter is not ON while trying to send a msg to channel")) by (vm_compute; reflexivity).
  eexists. split; [exact E|].
  destruct (world_safe sample_power 27 100 world4 7 (radio_of world4 7) (UpperFrame sample_payload) turned _ world4_reached
    ltac:(by vm_compute) ltac:(by vm_compute) Logic.I E) as [H|[H _]]; [exact H|discriminate H].
Defined.

(** Host 5 transmits the sample frame. *)
Definition world5 : World := wafter (handle 5 (UpperFrame sample_payload)) (advance turned world4).
Lemma world5_reached : rtc world_step world0 world5.
Proof.
  eapply rtc_r; [exact world4_reached|]. apply (ws_mac world4 5 (radio_of world4 5) (UpperFrame sample_payload) turned).
  - by vm_compute.
  - apply none_beforeb_ok. by vm_compute.
  - done.
  - done.
  - apply wafter_run. by vm_compute.
Qed.

(** It arrives at host 7 in the world it leaves behind, and its end is handled there. *)
Lemma frame_carried_witness :
  exists w1 w3 w5 n t, handle 5 (UpperFrame sample_payload) world4 = Ok (tt, w1) /\
    handle 7 (LowerAirFrame 1 ((outgoing (radio_of world4 5) sample_payload)<| arrivalTime := turned |>))
      ((advance turned world5)<| flights := [] |>) = Ok (tt, w3) /\
    handle 7 (SelfTimer (PHY_RX_OVER_TIMER 1)) (advance t w3) = Ok (tt, w5) /\
    told w5 = told w3 ++ [(7%positive, ToMac_frame sample_payload); (7%positive, NF_RADIOSTATE_CHANGED n)].
Proof.
  destruct (frame_carried sample_power 27 100 world4 5 7 (radio_of world4 5) (radio_of world4 7) sample_payload world4_reached
    ltac:(by vm_compute) ltac:(by vm_compute) ltac:(done) ltac:(by vm_compute) ltac:(by vm_compute) ltac:(by vm_compute)
    ltac:(by vm_compute) ltac:(by vm_compute) ltac:(by vm_compute)) as [(w1 & E1 & _) Hw].
  assert (Hh : hears (radio_of world5 7) (outgoing (radio_of world4 5) sample_payload)) by (split; [split|..]; by vm_compute).
  destruct (Hw world5 (radio_of world5 7) [] [] 1%positive world5_reached ltac:(by vm_compute) ltac:(by vm_compute) Hh
    ltac:(by vm_compute) ltac:(by vm_compute)) as (w3 & r3 & E3 & Hr3 & _ & H4).
  destruct (H4 w3 Hr3) as (w5 & E5 & n & Ht).
  eexists w1, w3, w5, n, _. split; [exact E1|]. split; [exact E3|]. split; [exact E5|exact Ht].
Defined.
End sample_world.
