(* ===== verification/MacLegal.v ===== *)
(** * What the MAC says to the PHY

    Every request of the MAC asks for a state the PHY knows, and every frame it sends has a
    length; its calls of other MAC modules leave what those have said alone.  These are
    the promises the PHY and the queues of other hosts rely on. *)

From S2P Require Import Prelude HList MacConst MacTypes MacUtil MacCsma MacTask MacHandlers MacGts MacSample MacProps MacInv MacToken.

Open Scope string_scope.
Open Scope list_scope.
Open Scope Z_scope.

#[local] Opaque u8 u16 u32.

(** ** The promise *)

Definition requested_state (st : PHYenum) : bool :=
  match st with phy_RX_ON | phy_TX_ON | phy_TRX_OFF | phy_FORCE_TRX_OFF => true | _ => false end.

Definition legal_event (e : mevent) : bool :=
  match e with
  | ToPhy_SET_TRX_STATE st => requested_state st
  | ToPhy_SET _ => false
  | ToPhy_frame f => negb (getBitLength f =? 0)
  | _ => true
  end.

Definition legal_parts (fr : gmap positive Frame) (o : list mevent) : Prop :=
  map_Forall (fun _ f => getBitLength f <> 0) fr /\ Forall (fun e => legal_event e = true) o.
(** The frames in memory have a length, and what was said is legal. *)
Definition legal (s : Mac) : Prop := legal_parts (frames s) (out s).

Section legal.
Context `{MacEnv}.
#[local] Abbreviation L m := (keeps legal m).

(** ** Where frames come from and go to *)

Lemma l_emit e : legal_event e = true -> L (emit e).
Proof. intros He. apply keeps_modify. intros s [Hf Ho]. split; [done|]. apply Forall_app. by split; [|constructor]. Qed.
Lemma l_new_frame f : getBitLength f <> 0 -> L (new_frame f).
Proof.
  intros Hf s [Hs Ho]. unfold new_frame. mrun. split; [|done]. msimp. by apply map_Forall_insert_2.
Qed.
Lemma l_delete p : L (delete_frame p).
Proof.
  intros s [Hs Ho]. unfold delete_frame. destruct p as [a|]; mrun; [|done]. unfold deref. mrun.
  destruct (frames s !! a); [|done]. mrun. split; [|done]. msimp. by apply map_Forall_delete.
Qed.
Lemma l_sendDown_dup p : L (sendDown_dup p).
Proof.
  intros s [Hs Ho]. unfold sendDown_dup, deref, sendDown. mrun. destruct p as [a|]; [|done]. mrun.
  destruct (frames s !! a) as [f|] eqn:E; [|done]. mrun. split; [done|]. msimp. apply Forall_app.
  split; [done|]. constructor; [|done]. cbn. apply negb_true_iff, Z.eqb_neq. exact (Hs _ _ E).
Qed.
Lemma l_resetTRX : L resetTRX.
Proof.
  unfold resetTRX. apply keeps_bind; [apply keeps_gets|]. intros s. apply keeps_bind; [|intros _; by apply keeps_modify].
  apply l_emit. cbn. unfold resetTRX_state. repeat case_match; done.
Qed.
#[local] Hint Extern 1 (keeps _ (emit _)) => (apply l_emit; reflexivity) : quiet.
#[local] Hint Resolve l_delete l_sendDown_dup l_resetTRX : quiet.

(** The lengths the MAC computes for its frames. *)
Lemma calFrmByteLength_pos f n : calFrmByteLength f = Ok n -> 0 < n.
Proof.
  unfold calFrmByteLength, calMHRByteLength, cmdByteLength. cbn [mbind outcome_bind].
  set (z := u8 _). clearbody z.
  repeat (case_match; cbn; try discriminate); unfold outcome_bind, mbind; cbn; try discriminate; intros [= <-];
    unfold SIZE_OF_802154_ACK, SIZE_OF_802154_ASSOCIATION_RESPONSE; try lia; done.
Qed.
Lemma l_length {A} f (k : Z -> M Mac A) : (forall n, 0 < n -> L (k n)) -> L (lift (calFrmByteLength f) ≫= k).
Proof. intros Hk s Hs. mrun. destruct (calFrmByteLength f) eqn:E; [|done]. apply Hk; [|done]. by eapply calFrmByteLength_pos. Qed.

Ltac legal_body := repeat quiet_step.

Lemma l_constructACK f : L (constructACK f).
Proof.
  unfold constructACK. apply l_length. intros n Hn. cbv zeta. apply keeps_bind; [|intros ?; legal_body].
  apply l_new_frame. destruct (isGTS f); unfold getBitLength, getByteLength; msimp; cbn; lia.
Qed.
Lemma l_sendBeacon : L sendBeacon.
Proof.
  unfold sendBeacon. do 4 (apply keeps_bind; [legal_body|intros ?]). cbv zeta.
  do 2 (apply keeps_bind; [legal_body|intros ?]). apply l_length. intros n Hn. apply keeps_bind; [|intros ?; legal_body].
  apply l_new_frame. unfold getBitLength, getByteLength. msimp. cbn. lia.
Qed.
#[local] Hint Resolve l_constructACK l_sendBeacon : quiet.

(** ** Everything else *)

Lemma l_restartAt n t : L (restartAt n t).
Proof. legal_body. Qed.
Lemma l_upd_task f : L (upd_task f).
Proof. legal_body. Qed.
Lemma l_put_taskStatus t b : L (put_taskStatus t b).
Proof. legal_body. Qed.
Lemma l_locate b n : L (csmacaLocateBoundary b n).
Proof. legal_body. Qed.
#[local] Hint Resolve l_restartAt l_upd_task l_put_taskStatus l_locate : quiet.
Lemma l_canProceed n b : L (csmacaCanProceed n b).
Proof. legal_body. Qed.
#[local] Hint Resolve l_canProceed : quiet.
Lemma l_csmacaStart b p r : L (csmacaStart b p r).
Proof. legal_body. Qed.
#[local] Hint Resolve l_csmacaStart : quiet.
Lemma l_csmacaResume : L csmacaResume.
Proof. legal_body. Qed.
Lemma l_csmacaTrxBeacon : L csmacaTrxBeacon.
Proof. legal_body. Qed.
Lemma l_upd_gts_at i f : L (upd_gts_at i f).
Proof. legal_body. Qed.
#[local] Hint Resolve l_csmacaResume l_csmacaTrxBeacon l_upd_gts_at : quiet.
Lemma l_taskSuccess c b : L (taskSuccess c b).
Proof. legal_body. Qed.
Lemma l_taskFailed c x b : L (taskFailed c x b).
Proof. legal_body. Qed.
#[local] Hint Resolve l_taskSuccess l_taskFailed : quiet.
Lemma l_FSM x : L (FSM_MCPS_DATA_request x).
Proof. legal_body. Qed.
#[local] Hint Resolve l_FSM : quiet.
Lemma l_task_waits f : L (task_waits f).
Proof. legal_body. Qed.
#[local] Hint Resolve l_task_waits : quiet.
Lemma l_dispatch x f : L (dispatch x f).
Proof. legal_body. Qed.
#[local] Hint Resolve l_dispatch : quiet.
Lemma l_csmacaCallBack x : L (csmacaCallBack x).
Proof. legal_body. Qed.
Lemma l_transmitOnTxOn : L transmitOnTxOn.
Proof. legal_body. Qed.
Lemma l_handleBackoffTimer : L handleBackoffTimer.
Proof. legal_body. Qed.
#[local] Hint Resolve l_csmacaCallBack l_transmitOnTxOn l_handleBackoffTimer : quiet.
Lemma l_handleBcnTxTimer : L handleBcnTxTimer.
Proof. legal_body. Qed.
Lemma l_handleGtsTimer : L handleGtsTimer.
Proof. legal_body. Qed.
#[local] Hint Resolve l_handleBcnTxTimer l_handleGtsTimer : quiet.
Lemma l_handleSelfMsg t : L (handleSelfMsg t).
Proof. legal_body. Qed.
Lemma l_primitive k x : L (handleMacPhyPrimitive k x).
Proof. legal_body. Qed.
Lemma l_acceptFrame f : getBitLength f <> 0 -> L (acceptFrame f).
Proof.
  intros Hf. unfold acceptFrame. apply keeps_bind; [by apply l_new_frame|intros p].
  assert (Hz : L (chkDuplicate f)); [|legal_body].
  intros s Hs. unfold chkDuplicate. destruct (frmType (frmCtrl f)); try (by apply wpe_ret);
    apply wpe_zoom; unfold wpe; by destruct (chkAddUpdHListLink _ _ _) as [[??]|].
Qed.
Lemma l_handleAck p : L (handleAck p).
Proof. legal_body. Qed.
Lemma l_handleData p : L (handleData p).
Proof. legal_body. Qed.
Lemma l_handleCommand p : L (handleCommand p).
Proof. legal_body. Qed.
Lemma l_MCPS_DATA_request a b c d e f p o : 0 <= pktByteLength p -> L (MCPS_DATA_request a b c d e f p o).
Proof.
  intros Hp. unfold MCPS_DATA_request. do 4 (apply keeps_bind; [legal_body|intros ?]). cbv zeta.
  apply keeps_bind; [legal_body|intros ?]. apply l_length. intros n Hn. apply keeps_bind; [|intros ?; legal_body].
  apply l_new_frame. unfold getBitLength, getByteLength. msimp. lia.
Qed.
Lemma l_initialize stage host nd : L (initialize stage host nd).
Proof. legal_body. Qed.
Lemma l_receiveChangeNotification b d : L (receiveChangeNotification b d).
Proof. legal_body. Qed.
#[local] Hint Resolve l_handleAck l_handleData l_handleCommand l_primitive l_handleSelfMsg : quiet.

(** ** Calls of other modules *)

(** A module that was called has said nothing, and its books are as before. *)
Definition undisturbed (s s' : Mac) : Prop :=
  view_of s' = view_of s /\ out s' = out s /\ frames s' = frames s.
#[export] Instance undisturbed_refl : Reflexive undisturbed.
Proof. by intros s. Qed.
#[export] Instance undisturbed_trans : Transitive undisturbed.
Proof. intros s1 s2 s3 (A1 & A2 & A3) (B1 & B2 & B3). split; [by rewrite B1|]. split; [by rewrite B2|by rewrite B3]. Qed.
Lemma undisturbed_legal s s' : undisturbed s s' -> legal s -> legal s'.
Proof. intros (_ & Ho & Hf). unfold legal. by rewrite Ho, Hf. Qed.

(** A method other modules may call. *)
Definition remote_safe {A} (m : M Mac A) : Prop := forall s0, keeps (undisturbed s0) m.
Lemma r_getMacAddr : remote_safe getMacAddr.
Proof. intros s0. legal_body. Qed.
Lemma r_associate a c : remote_safe (associate_request_cmd a c).
Proof. intros s0. unfold associate_request_cmd. apply keeps_bind; [|intros _; apply keeps_ret]. by apply keeps_modify. Qed.
Lemma r_upd_gts s0 f : keeps (undisturbed s0) (upd_gts f).
Proof. by apply keeps_modify. Qed.
Lemma r_gts_request a l b : remote_safe (gts_request_cmd a l b).
Proof. intros s0. legal_body. Qed.

(** The hosts while a module works: it stays legal, the others undisturbed. *)
Definition calm (nm : string) (o : gmap string (option Mac)) (w : World) : Prop :=
  legal (me w) /\ self_name w = nm /\ forall name, option_Forall2 (option_Forall2 undisturbed) (o !! name) (others w !! name).

Section calm.
Context (nm : string) (o : gmap string (option Mac)).
#[local] Abbreviation K m := (keeps (calm nm o) m).

Lemma c_own {A} (m : M Mac A) : L m -> K (own m).
Proof. intros Hm w (Hl & Hn & Ho). unfold own. apply wpe_zoom. eapply wpe_mono; [by apply Hm|]. done. Qed.
Lemma c_remote {A} name (m : M Mac A) : remote_safe m -> K (remote name m).
Proof.
  intros Hm w (Hl & Hn & Ho). unfold remote, wpe. destruct (String.eqb name (self_name w)).
  - unfold own, zoom. pose proof (Hm (me w) (me w) ltac:(reflexivity)) as H1. unfold wpe in H1.
    destruct (m (me w)) as [[a s']|]; [|done]. split; [|done]. by apply (undisturbed_legal (me w)).
  - destruct (others w !! name) as [[s|]|] eqn:E; [|done..].
    pose proof (Hm s s ltac:(reflexivity)) as H1. unfold wpe in H1. destruct (m s) as [[a s']|]; [|done].
    split; [done|]. split; [done|]. intros x. msimp. specialize (Ho x). destruct (decide (x = name)) as [->|Hx].
    + rewrite lookup_insert_eq. rewrite E in Ho. destruct (o !! name) as [[s0|]|]; inversion_clear Ho as [? ? Hx|]; inversion_clear Hx as [? ? Hy|].
      constructor. constructor. by transitivity s.
    + by rewrite lookup_insert_ne.
Qed.
Lemma c_same {A} (m : M World A) : (forall w, wpe (fun _ => True) m (fun _ w' => w' = w) w) -> K m.
Proof. intros Hm w Hw. eapply wpe_mono; [apply Hm|]. by intros a w' ->. Qed.

Ltac calm_step :=
  first
  [ apply c_own; solve [legal_body]
  | apply c_remote; solve [auto using r_getMacAddr, r_associate, r_gts_request]
  | apply keeps_bind; [|intros ?]
  | apply keeps_when
  | progress cbv zeta
  | match goal with
    | |- keeps _ (if ?b then _ else _) => destruct b
    | |- keeps _ (match ?x with _ => _ end) => destruct x
    end
  | solve [auto with keeps] ].
Ltac calm_body := repeat calm_step.

Lemma c_associate f : K (associate f).
Proof. unfold associate, requestGts. calm_body. Qed.
Lemma c_handleBeacon p : K (handleBeacon p).
Proof.
  unfold handleBeacon. apply keeps_bind; [calm_body|intros f]. destruct (cls f); try apply keeps_fail.
  do 2 (apply keeps_bind; [calm_body|intros ?]). apply keeps_bind; [|intros _; calm_body].
  case_match; [apply c_associate|calm_body].
Qed.
Lemma c_handleLowerMsg f : getBitLength f <> 0 -> K (handleLowerMsg f).
Proof.
  intros Hf. unfold handleLowerMsg. apply keeps_bind; [by apply c_own, l_acceptFrame|intros [p|]]; [|calm_body].
  destruct (frmType (frmCtrl f)); [apply c_handleBeacon|calm_body..].
Qed.
Lemma c_handleUpperMsg p c : 0 <= pktByteLength p -> K (handleUpperMsg p c).
Proof.
  intros Hp. unfold handleUpperMsg. do 2 (apply keeps_bind; [calm_body|intros ?]). do 2 (case_match; [calm_body|]).
  destruct c as [ci|]; [|apply keeps_fail]. apply keeps_bind; [calm_body|intros s].
  apply keeps_bind; [unfold device_address; calm_body|intros [d|]]; [|calm_body]. apply c_own.
  apply keeps_bind; [legal_body|intros s']. by apply l_MCPS_DATA_request.
Qed.

(** A packet from above has a length of at least 0. *)
Definition sized (m : message) : Prop := match m with Upper p _ => 0 <= pktByteLength p | _ => True end.

Lemma c_handleMessage m : sized m -> K (handleMessage m).
Proof.
  intros Hm. unfold handleMessage. destruct m; cbn [sized] in Hm; cbv zeta.
  - calm_body.
  - destruct (Z.eqb_spec (getBitLength f) 0); [calm_body|by apply c_handleLowerMsg].
  - calm_body.
  - calm_body.
  - by apply c_handleUpperMsg.
Qed.
End calm.
End legal.
