(* ===== verification/System.v ===== *)
(** * Hosts on a channel

    The whole 802.15.4 simulation: any number of hosts (srwsn802154Host.ned), each with
    its network layer, interface queue and MAC ([Node]), and its radio on the common
    channel ([Air]).  What a MAC says to its PHY and what the PHY says to its MAC arrives
    in order; MACs call each other through the host names.  A step is one event; the
    radios' events come in the order of their times. *)

From stdpp Require Import fin_maps.
From Stdlib Require Import QArith.
From S2P Require Import Prelude Radio RadioInv RadioProps Channel ChannelProps Air AirProps.
From S2P Require Import HList MacConst MacTypes MacUtil MacCsma MacTask MacHandlers MacGts MacSample MacProps MacInv MacToken Queue QueueProps PingNet Node NodeProps MacLegal.

Open Scope string_scope.
Open Scope list_scope.
Open Scope Z_scope.

(** [down] is what the MAC said and the PHY has not handled, [heard] the number of events
    of its PHY the MAC has handled. *)
#[projections(primitive)]
Record Host (Q : Type) := mkHost { node : Node Q; down : list mevent; heard : nat }.
Arguments mkHost {Q}.
Arguments node {Q}.
Arguments down {Q}.
Arguments heard {Q}.
#[export] Instance eta_Host {Q} : Eta (Host Q) := fun h => mkHost (node h) (down h) (heard h).

#[projections(primitive)]
Record System (Q : Type) := mkSystem { air : Air.World; nodes : gmap positive (Host Q) }.
Arguments mkSystem {Q}.
Arguments air {Q}.
Arguments nodes {Q}.
#[export] Instance eta_System {Q} : Eta (System Q) := fun s => mkSystem (air s) (nodes s).

Ltac ssimp := cbn [set_ fst snd node down heard air nodes] in *.

(** The MAC of a host. *)
Definition mac {Q} (h : Host Q) : Mac := me (hosts (node h)).

(** ** Between MAC and PHY *)

(** A message of the MAC as the PHY receives it; only a request for another channel
    comes with the transmissions there. *)
Inductive phy_message : mevent -> phy_msg -> Prop :=
  | pm_state st : phy_message (ToPhy_SET_TRX_STATE st) (UpperPrimitive 6 st PHY_CURRENT_CHANNEL (-1) [])
  | pm_cca : phy_message ToPhy_CCA (UpperPrimitive 2 phy_SUCCESS PHY_CURRENT_CHANNEL (-1) [])
  | pm_frame f : phy_message (ToPhy_frame f) (UpperFrame f)
  | pm_channel ch tl : phy_message (ToPhy_SET ch) (UpperPrimitive 8 phy_SUCCESS PHY_CURRENT_CHANNEL ch tl).

Definition to_phy (e : mevent) : bool :=
  match e with ToPhy_SET_TRX_STATE _ | ToPhy_SET _ | ToPhy_CCA | ToPhy_frame _ => true | _ => false end.

Definition kind_of_primitive (k : Ieee802154MacPhyPrimitiveType) : Z :=
  match k with
  | PD_DATA_CONFIRM => 1 | PLME_CCA_REQUEST => 2 | PLME_CCA_CONFIRM => 3 | PLME_ED_REQUEST => 4
  | PLME_ED_CONFIRM => 5 | PLME_SET_TRX_STATE_REQUEST => 6 | PLME_SET_TRX_STATE_CONFIRM => 7
  | PLME_SET_REQUEST => 8 | PLME_SET_CONFIRM => 9
  end.

(** The events of the radio of [p], oldest first. *)
Definition told_to (p : positive) (w : Air.World) : list pevent := (List.filter (fun x => bool_decide (x.1 = p)) (told w)).*2.

Section system.
Context `{MacEnv} `{Propagation} {Q : Type} `{Fifo item Q contents} (name : positive -> string).

(** An event of the PHY as the MAC receives it. *)
Definition hear (t : Z) (e : pevent) (n : Node Q) : outcome (Node Q) :=
  match e with
  | ToMac_primitive k st => mac_message t (LowerPrimitive (kind_of_primitive k) st) n
  | ToMac_energy st _ => mac_message t (LowerPrimitive 5 st) n
  | ToMac_set st _ => mac_message t (LowerPrimitive 9 st) n
  | ToMac_frame f => mac_message t (LowerFrame f) n
  | NF_RADIO_CHANNEL_CHANGED r => on_mac t (own (receiveChangeNotification true (Some (0, getChannel r)))) n
  | _ => on_mac t (own (receiveChangeNotification false None)) n
  end.

(** ** The MACs of the other hosts *)

Definition others_of (p : positive) (ns : gmap positive (Host Q)) : gmap string (option Mac) :=
  kmap name ((fun h => Some (mac h)) <$> delete p ns).
Definition refresh (p : positive) (ns : gmap positive (Host Q)) (n : Node Q) : Node Q :=
  n<| hosts ::= fun w => w<| others := others_of p ns |> |>.

(** A MAC that was called has the state its caller left it in. *)
Definition called (o : gmap string (option Mac)) (q : positive) (h : Host Q) : Host Q :=
  match o !! name q with
  | Some (Some s) => h<| node ::= fun n => n<| hosts ::= fun w => w<| me := s |> |> |>
  | _ => h
  end.
Definition settle (p : positive) (h : Host Q) (n' : Node Q) (said : bool) (k : nat) (s : System Q) : System Q :=
  let h' := mkHost n' (down h ++ if said then List.filter to_phy (out (me (hosts n'))) else []) k in
  s<| nodes := <[p := h']> (map_imap (fun q h => Some (called (others (hosts n')) q h)) (nodes s)) |>.

(** ** Events *)

(** An event of a host above its radio: its result, whether the MAC was at work, and
    the number of the radio's events heard after it. *)
Inductive node_event (a : Air.World) (p : positive) (k : nat) (t : Z) (n : Node Q) : Node Q -> bool -> nat -> Prop :=
  | ne_ping :
      ping_timer (net n) = Some t ->
      node_event a p k t n (on_net t false (n<| net ::= fun x => x<| ping_timer := None |> |>)) false k
  | ne_net x l : toNet n = x :: l -> node_event a p k t n (on_net t true (n<| toNet := l |>)) false k
  | ne_queue x l :
      toQueue n = x :: l ->
      node_event a p k t n (on_queue (Queue.handleMessage t x) (n<| toQueue := l |><| queued_log ::= fun y => y ++ [x] |>)) false k
  | ne_upper x c l n' :
      toMac n = (x, c) :: l ->
      mac_message t (Upper x c) (n<| toMac := l |><| handed_log ::= fun y => y ++ [(x, c)] |>) = Ok n' ->
      node_event a p k t n n' true k
  | ne_timer x n' :
      scheduled (tim (me (hosts n))) x = Some t -> mac_message t (Timer x) n = Ok n' -> node_event a p k t n n' true k
  | ne_told e n' : told_to p a !! k = Some e -> hear t e n = Ok n' -> node_event a p k t n n' true (S k)
  | ne_call m n' : mac_call m -> on_mac t (own m) n = Ok n' -> node_event a p k t n n' true k.

Inductive sys_step (s : System Q) : System Q -> Prop :=
  | ss_node p h t n' said k :
      nodes s !! p = Some h -> none_before (air s) t ->
      node_event (air s) p (heard h) t (refresh p (nodes s) (node h)) n' said k ->
      sys_step s (settle p h n' said k s)
  | ss_down p h e l m t r w' :
      nodes s !! p = Some h -> down h = e :: l -> phy_message e m ->
      radios (air s) !! p = Some r -> none_before (air s) t -> informed m (channel (Air.advance t (air s))) ->
      NoDup (match m with UpperPrimitive _ _ _ _ tl => tl.*1 | _ => [] end) ->
      handle p m (Air.advance t (air s)) = Ok (tt, w') ->
      sys_step s (s<| air := w' |><| nodes ::= <[p := h<| down := l |>]> |>)
  | ss_timer p r k t w' :
      radios (air s) !! p = Some r -> timer_at k r = Some t -> none_before (air s) t ->
      handle p (SelfTimer k) (Air.advance t (air s)) = Ok (tt, w') -> sys_step s (s<| air := w' |>)
  | ss_arrive l1 f l2 r q w' :
      flights (air s) = l1 ++ f :: l2 -> none_before (air s) (fl_at f) -> radios (air s) !! fl_to f = Some r ->
      airframes r !! q = None ->
      handle (fl_to f) (LowerAirFrame q ((fl_frame f)<| arrivalTime := fl_at f |>))
        ((Air.advance (fl_at f) (air s))<| flights := l1 ++ l2 |>) = Ok (tt, w') -> sys_step s (s<| air := w' |>)
  | ss_move p t x w' :
      is_Some (radios (air s) !! p) -> none_before (air s) t -> move p x (Air.advance t (air s)) = Ok (tt, w') ->
      sys_step s (s<| air := w' |>)
  | ss_join p m x power frequency sens noise snir ch pMax junk t w' addr g nd q n :
      nodes s !! p = None -> entries (channel (air s)) !! p = None -> none_before (air s) t -> 0 <= ch ->
      join p m x power frequency sens noise snir ch pMax junk (Air.advance t (air s)) = Ok (tt, w') ->
      ned_queue nd = Some true -> contents q = [] ->
      node_initialize (name p) nd q (MacTypes.mkWorld (name p) (srwsn802154Mac_ctor addr g).1 (others_of p (nodes s))) = Ok n ->
      sys_step s (s<| air := w' |><| nodes ::= <[p := mkHost n [] 0]> |>).

Definition empty_system (channels range : Z) : System Q := mkSystem (empty_world channels range) ∅.
End system.
