(* ===== verification/SystemProps.v ===== *)
(** * Properties of the whole 802.15.4 simulation

    What a MAC promises ([legal]) is what the radios ask of whoever drives them: with it,
    every run of the hosts is a run of the radios on their channel, and all that was
    shown of those holds.  Each host keeps its books whatever the others do. *)

From stdpp Require Import fin_maps.
From Stdlib Require Import QArith.
From S2P Require Import Prelude Radio RadioInv RadioProps Channel ChannelProps Air AirProps.
From S2P Require Import HList MacConst MacTypes MacUtil MacCsma MacTask MacHandlers MacGts MacSample MacProps MacInv MacToken Queue QueueProps PingNet Node NodeProps MacLegal System.

Open Scope string_scope.
Open Scope list_scope.
Open Scope Z_scope.

#[local] Opaque u8 u16 u32.

Lemma legal_requested st : requested_state st = true -> legal_request st.
Proof. unfold legal_request, trx_state. destruct st; try discriminate; auto 6. Qed.

Lemma undisturbed_others (o : gmap string (option Mac)) name :
  option_Forall2 (option_Forall2 undisturbed) (o !! name) (o !! name).
Proof. destruct (o !! name) as [[s|]|]; repeat constructor. Qed.

Section system.
Context `{MacEnv} `{Propagation} {Q : Type} `{HF : Fifo item Q contents} (name : positive -> string) `{!Inj (=) (=) name}.
#[local] Set Default Proof Using "Type*".
Implicit Types n : Node Q.

(** ** Events of a host *)

Lemma node_event_step a p k t n n' said k' : node_event a p k t n n' said k' -> node_step n n'.
Proof.
  intros [Hp|x l Hl|x l Hl|x c l n1 Hl Hr|x n1 Hs Hr|e n1 He Hr|m n1 Hm Hr].
  - by apply ns_ping.
  - by eapply ns_net.
  - by eapply ns_queue.
  - by eapply ns_upper.
  - by eapply (ns_below _ _ (Timer x)).
  - destruct e; cbn [hear] in Hr;
      first [eapply ns_below; [|exact Hr]; done|eapply ns_call; [|exact Hr]; constructor].
  - by eapply ns_call.
Qed.

Lemma absorb_hosts t l : forall n, hosts (absorb_all t l n) = hosts n.
Proof. induction l as [|e l IH]; intros n; [done|]. cbn [absorb_all]. rewrite IH. by destruct e. Qed.

(** The MAC at work keeps its promise and leaves the others as they are. *)
Definition well_behaved n n' : Prop :=
  legal (me (hosts n')) /\ self_name (hosts n') = self_name (hosts n) /\
  forall x, option_Forall2 (option_Forall2 undisturbed) (others (hosts n) !! x) (others (hosts n') !! x).

Lemma on_mac_behaved t m n n' :
  (forall nm o, keeps (calm nm o) m) -> legal (me (hosts n)) -> on_mac t m n = Ok n' -> well_behaved n n'.
Proof.
  intros Hm [Hf _]. unfold on_mac.
  assert (Hc : calm (self_name (hosts n)) (others (hosts n)) ((hosts n)<| me ::= fun s => s<| out := [] |> |>)).
  { split; [by split|]. split; [done|]. intros x. apply undisturbed_others. }
  destruct (m _) as [[[] w]|] eqn:E; [|done]. intros [= <-].
  destruct (keeps_run _ _ _ _ _ (Hm _ _) Hc E) as (? & ? & ?). unfold well_behaved. by rewrite absorb_hosts.
Qed.

Lemma mac_message_behaved t m n n' :
  sized m -> legal (me (hosts n)) -> mac_message t m n = Ok n' -> well_behaved n n'.
Proof.
  intros Hm Hl Hrun. change (well_behaved (n<| hosts ::= fun w => w<| me ::= arrive t m |> |>) n').
  apply (on_mac_behaved t (MacHandlers.handleMessage m)); [|by destruct m|done].
  intros nm o. by apply c_handleMessage.
Qed.

Lemma mac_call_behaved t m n n' : mac_call m -> legal (me (hosts n)) -> on_mac t (own m) n = Ok n' -> well_behaved n n'.
Proof.
  intros Hm. apply on_mac_behaved. intros nm o. apply c_own.
  assert (Hr : forall (A : Type) (r : M Mac A), remote_safe r -> keeps legal (_ ← r; mret tt)).
  { intros A r Hr s Hs. apply wpe_bind. eapply wpe_mono; [apply (Hr s s); reflexivity|]. intros a s' Hu. by apply (undisturbed_legal s). }
  destruct Hm; [apply l_initialize|apply l_receiveChangeNotification|apply Hr, r_associate|apply Hr, r_gts_request].
Qed.

(** Packets on their way to the MAC were made by the network layer. *)
Lemma toMac_sized n x c l : node_inv (contents := contents) n -> toMac n = (x, c) :: l -> sized (Upper x c).
Proof.
  intros Hn Hl. destruct (node_inv_in_order n Hn) as [Hs _]. rewrite Hl in Hs.
  assert (Hin : (x, c) ∈ imap item_of (created (net n))).
  { eapply elem_of_sublist; [|exact Hs]. rewrite !elem_of_app. left. right. left. by left. }
  apply elem_of_lookup_imap in Hin as (i & a & [= -> ->] & _). done.
Qed.

Lemma node_event_behaved a p k t n n' said k' :
  node_event a p k t n n' said k' -> node_inv (contents := contents) n -> legal (me (hosts n)) -> well_behaved n n'.
Proof.
  assert (Hsame : forall n1 : Node Q, hosts n1 = hosts n -> legal (me (hosts n)) -> well_behaved n n1).
  { intros n1 E Hl. unfold well_behaved. rewrite E. split; [done|]. split; [done|]. intros x. apply undisturbed_others. }
  intros [Hp|x l Hl|x l Hl|x c l n1 Hl Hr|x n1 Hs Hr|e n1 He Hr|m n1 Hm Hr] Hn HL.
  - apply Hsame; [|done]. unfold on_net. by destruct (net_handleMessage _ _ _).
  - apply Hsame; [|done]. unfold on_net. by destruct (net_handleMessage _ _ _).
  - by apply Hsame.
  - change (well_behaved (n<| toMac := l |><| handed_log ::= fun y => y ++ [(x, c)] |>) n1).
    apply (mac_message_behaved t (Upper x c)); [|done|exact Hr]. by eapply toMac_sized.
  - by eapply (mac_message_behaved t (Timer x)).
  - destruct e; cbn [hear] in Hr; first [by eapply mac_message_behaved; [| |exact Hr]|eapply mac_call_behaved; [|done|exact Hr]; constructor].
  - by eapply mac_call_behaved.
Qed.

(** ** The invariant *)

Record host_ok (p : positive) (h : Host Q) : Prop := {
  ho_node : node_inv (contents := contents) (node h);
  ho_legal : legal (mac h);
  ho_down : Forall (fun e => legal_event e = true) (down h);
  ho_name : self_name (hosts (node h)) = name p;
}.
Definition hosts_ok (s : System Q) : Prop := map_Forall host_ok (nodes s).

(** Only the view of the MAC counts for the books of a host. *)
Lemma node_inv_view n s :
  view_of s = view_of (me (hosts n)) -> node_inv (contents := contents) n ->
  node_inv (contents := contents) (n<| hosts ::= fun w => w<| me := s |> |>).
Proof.
  intros Hv [(acc & req & []) [base Hk] Hc Hn]. split; [by exists acc, req|exists base; dsimp; msimp; by rewrite Hv| |done].
  unfold credit in *. dsimp. msimp. by rewrite (f_equal v_busy Hv : busy s = busy (me (hosts n))).
Qed.

Lemma called_ok o q h :
  host_ok q h -> option_Forall2 (option_Forall2 undisturbed) (Some (Some (mac h))) (o !! name q) ->
  host_ok q (called name o q h).
Proof.
  intros [Hn Hl Hd Hm] Ho. unfold called. destruct (o !! name q) as [[s|]|]; [|done..].
  inversion_clear Ho as [? ? Ho'|]. inversion_clear Ho' as [? ? Hu|].
  split; ssimp; [|by eapply undisturbed_legal|done|done]. destruct Hu as [Hv _]. by apply node_inv_view.
Qed.

Lemma refresh_ok p s h : host_ok p h -> node_inv (contents := contents) (refresh name p (nodes s) (node h)).
Proof. intros [Hn _ _ _]. destruct Hn as [(acc & req & []) Hk Hc Hn]. split; try done. by exists acc, req. Qed.

(** The other hosts are found under their names. *)
Lemma others_of_lookup p q h (ns : gmap positive (Host Q)) :
  p <> q -> ns !! q = Some h -> others_of name p ns !! name q = Some (Some (mac h)).
Proof. intros Hne Hq. unfold others_of. rewrite lookup_kmap by done. by rewrite lookup_fmap, lookup_delete_ne, Hq. Qed.

Lemma settle_ok p h t n' said k s :
  hosts_ok s -> nodes s !! p = Some h ->
  node_event (air s) p (heard h) t (refresh name p (nodes s) (node h)) n' said k -> hosts_ok (settle name p h n' said k s).
Proof.
  intros Hs Hp He. pose proof (Hs p h Hp) as Hh. pose proof (refresh_ok p s h Hh) as Hr.
  destruct (node_event_behaved _ _ _ _ _ _ _ _ He Hr (ho_legal _ _ Hh)) as (Hl & Hn & Ho).
  intros q h' Hq. unfold settle in Hq. ssimp. destruct (decide (p = q)) as [<-|Hne].
  - rewrite lookup_insert_eq in Hq. injection Hq as <-. split; ssimp; [|done| |].
    + eapply node_step_inv; [by eapply node_event_step|done].
    + apply Forall_app. split; [exact (ho_down _ _ Hh)|]. destruct said; [|constructor].
      apply Forall_forall. intros e Hin. apply list_elem_of_In, List.filter_In in Hin as [Hin _].
      apply list_elem_of_In in Hin. revert e Hin. apply Forall_forall. exact (proj2 Hl).
    + rewrite Hn. exact (ho_name _ _ Hh).
  - rewrite lookup_insert_ne, map_lookup_imap in Hq by done. destruct (nodes s !! q) as [hq|] eqn:Eq; [|done].
    injection Hq as <-. apply called_ok; [by apply Hs|]. specialize (Ho (name q)).
    by rewrite <- (others_of_lookup p q hq (nodes s)).
Qed.

(** A new host has said nothing yet. *)
Lemma join_ok p addr g nd q o n :
  contents q = [] -> ned_queue nd = Some true ->
  node_initialize (name p) nd q (MacTypes.mkWorld (name p) (srwsn802154Mac_ctor addr g).1 o) = Ok n -> host_ok p (mkHost n [] 0).
Proof.
  intros Hq Hnd Hn. assert (Hb : well_behaved (mkNode (net_initialize 0 (name p) (ned_isPANCoor nd)) (Queue.initialize q)
    (MacTypes.mkWorld (name p) (srwsn802154Mac_ctor addr g).1 o) [] [] [] [] []) n).
  { eapply on_mac_behaved; [|split; [apply map_Forall_empty|constructor]|exact Hn]. intros nm x. apply c_own, l_initialize. }
  destruct Hb as (Hl & Hs & _). split; ssimp; [|done|done|done].
  by apply (node_initialize_inv addr g (name p) nd q (MacTypes.mkWorld (name p) (srwsn802154Mac_ctor addr g).1 o) n Hq Hnd).
Qed.

(** ** Steps *)

Lemma sys_step_ok s s' : sys_step (contents := contents) name s s' -> hosts_ok s -> hosts_ok s'.
Proof.
  intros [p h t n' said k Hp Ht He|p h e l m t r w' Hp Hd Hm Hr Ht Hi Hnd E|p r k t w' Hr Hk Ht E|l1 f l2 r q w' Hf Ht Hr Hq E
    |p t x w' Hr Ht E|p m x power frequency sens noise snir ch pMax junk t w' addr g nd q n Hp Hc Ht Hch E Hnd Hq Hn] Hs; try exact Hs.
  - by eapply settle_ok.
  - intros q hq Hq. ssimp. destruct (decide (p = q)) as [<-|Hne].
    + rewrite lookup_insert_eq in Hq. injection Hq as <-. destruct (Hs p h Hp) as [H2 H3 H4 H5]. split; ssimp; try done.
      rewrite Hd in H4. by inversion H4.
    + rewrite lookup_insert_ne in Hq by done. by apply Hs.
  - intros z hz Hz. ssimp. destruct (decide (p = z)) as [<-|Hne].
    + rewrite lookup_insert_eq in Hz. injection Hz as <-. by eapply join_ok.
    + rewrite lookup_insert_ne in Hz by done. by apply Hs.
Qed.

(** The message of a MAC that keeps its promise is one the radio knows. *)
Lemma legal_phy_message e m :
  phy_message e m -> legal_event e = true ->
  match m with
  | UpperPrimitive k st _ _ tl => (k = 6 -> legal_request st) /\ NoDup tl.*1 /\ (k = 2 \/ k = 6)
  | UpperFrame f => getBitLength f <> 0
  | _ => False
  end.
Proof.
  intros [st| |f|ch tl] He; cbn in He; [| | |done].
  - split; [intros _; by apply legal_requested|]. split; [constructor|by right].
  - split; [done|]. split; [constructor|by left].
  - by apply negb_true_iff, Z.eqb_neq in He.
Qed.

(** A step of the hosts is a step of the radios, or none of theirs. *)
Lemma sys_step_air s s' :
  sys_step (contents := contents) name s s' -> hosts_ok s -> rtc world_step (air s) (air s').
Proof.
  intros [p h t n' said k Hp Ht He|p h e l m t r w' Hp Hd Hm Hr Ht Hi Hnd E|p r k t w' Hr Hk Ht E|l1 f l2 r q w' Hf Ht Hr Hq E
    |p t x w' Hr Ht E|p m x power frequency sens noise snir ch pMax junk t w' addr g nd q n Hp Hc Ht Hch E Hnd Hq Hn] Hs;
    ssimp; [apply rtc_refl|apply rtc_once..].
  - eapply ws_mac; [done|done| |done|done]. destruct (Hs p h Hp) as [_ _ Hl _]. rewrite Hd in Hl. apply Forall_inv in Hl.
    pose proof (legal_phy_message e m Hm Hl) as Hk. destruct m; try done. by destruct Hk as (? & ? & _).
  - by eapply ws_timer.
  - by eapply ws_arrive.
  - by eapply ws_move.
  - by eapply ws_join.
Qed.

Lemma sys_reachable_ok channels range s :
  rtc (sys_step (contents := contents) name) (empty_system channels range) s ->
  hosts_ok s /\ rtc world_step (empty_world channels range) (air s).
Proof.
  intros Hr. remember (empty_system channels range) as s0 eqn:E0.
  assert (Hs : hosts_ok s0 /\ rtc world_step (empty_world channels range) (air s0)).
  { subst. split; [apply map_Forall_empty|apply rtc_refl]. }
  clear E0. induction Hr as [|s1 s2 s3 Hstep _ IH]; [done|]. apply IH. destruct Hs as [H2 H3].
  split; [by eapply sys_step_ok|]. etrans; [exact H3|]. by apply sys_step_air.
Qed.

(** C5: The hosts drive the radios as they should be driven.  For every run of the whole
    simulation (hosts that join, start, move, send and receive, whatever their packets,
    queues and random numbers), what happens to the radios and the channel is a run of the
    radios alone, in which MACs only make requests the radio knows: all that holds of
    those runs (agreement of channel and radios, no undefined access) holds of the whole
    simulation. *)
Theorem system_refines_air (channels range : Z) (s : System Q) :
  rtc (sys_step (contents := contents) name) (empty_system channels range) s ->
  rtc world_step (empty_world channels range) (air s).
Proof. intros Hr. by apply (sys_reachable_ok _ _ _ Hr). Qed.

(** C6: Every host keeps its books, whatever the others do.  In every state of the whole
    simulation that can be reached, at each host the requests its queue has yet to
    answer, the packets between queue and MAC and the packet the MAC is busy with are one
    together; and the packets its network layer sent are, in order, handed to the MAC, on
    their way, in the queue, or on their way to it, and all accounted for. *)
Theorem system_hosts_account (channels range : Z) (s : System Q) (p : positive) (h : Host Q) :
  rtc (sys_step (contents := contents) name) (empty_system channels range) s -> nodes s !! p = Some h ->
  paced (contents := contents) (node h) /\ in_order (contents := contents) (node h).
Proof.
  intros Hr Hp. destruct (proj1 (sys_reachable_ok _ _ _ Hr) p h Hp) as [Hn _ _ _].
  split; [by apply node_inv_paced|by apply node_inv_in_order].
Qed.

(** C7: What a MAC says is understood.  In every state of the whole simulation that can be
    reached, the next message of a host's MAC to its PHY is a request for an assessment
    of the channel or for one of the states of the transceiver, or a frame of some length;
    and the radio and the channel carry it out, or end the run with a failed assertion or
    a thrown error, but nothing undefined is done (the received powers are taken to be
    nonnegative). *)
Theorem system_interface_safe (channels range : Z) (s : System Q) (p : positive) (h : Host Q) (e : mevent)
    (l : list mevent) (m : phy_msg) (r : Radio) (t : Z)
    (Hpower : forall p f d, 0 <= calculateReceivedPower p f d) :
  rtc (sys_step (contents := contents) name) (empty_system channels range) s ->
  nodes s !! p = Some h -> down h = e :: l -> phy_message e m -> radios (air s) !! p = Some r -> Air.now (air s) <= t ->
  match m with
  | UpperPrimitive k st _ _ _ => k = 2 \/ (k = 6 /\ legal_request st)
  | UpperFrame f => getBitLength f <> 0
  | _ => False
  end /\
  forall fl, handle p m (Air.advance t (air s)) = Fault fl -> sound fl.
Proof.
  intros Hr Hp Hd Hm Hrad Ht. destruct (sys_reachable_ok _ _ _ Hr) as [Hs Ha].
  destruct (Hs p h Hp) as [_ _ Hl _]. rewrite Hd in Hl. apply Forall_inv in Hl.
  pose proof (legal_phy_message e m Hm Hl) as Hk. split.
  - destruct m; try done. destruct Hk as (H2 & _ & [->| ->]); auto.
  - intros fl Hrun. pose proof (winv_time _ _ _ (world_reachable_inv Hpower _ _ _ Ha) Ht) as W.
    refine (sound_for_strict _ _ _ (wpe_fault _ _ _ _ _ (wpe_handle Hpower (Air.advance t (air s)) p r m W Hrad _) Hrun) _); [|by destruct Hm].
    destruct Hm; cbn [due admissible]; try done; destruct Hk as (H2 & _ & _); (split; [done|]); split; constructor.
Qed.
End system.

(** ** A coordinator that starts *)

Module SystemSample.
Import QueueSample.
#[export] Existing Instance sample_air.

(** The digits of its address name a host. *)
Fixpoint host_name (p : positive) : string :=
  match p with
  | xH => "1"
  | xO p' => String "0" (host_name p')
  | xI p' => String "1" (host_name p')
  end.
#[export] Instance host_name_inj : Inj (=) (=) host_name.
Proof.
  intros p. induction p as [p IH|p IH|]; intros [q|q|]; cbn; try done; try (intros [= E]; by rewrite (IH q));
    [destruct p|destruct q]; done.
Qed.

Abbreviation RSystem := (System (REDQueue item)).
Abbreviation step := (sys_step (contents := red_queue) host_name).

Definition start_queue : REDQueue item := mkREDQueue (1 # 500) 5 50 (1 # 50) 150 [] 0 0 (-1) 0 O.
Definition coordinator : Ned := mkNed true 6 4 1 (host_name 5) false 20 true (Some true).
Definition none_host : Host (REDQueue item) := mkHost NodeSample.n_dummy [] 0.
Definition host_of (s : RSystem) (p : positive) : Host (REDQueue item) := default none_host (nodes s !! p).
Definition result (o : outcome (Node (REDQueue item))) : Node (REDQueue item) := NodeSample.get NodeSample.n_dummy o.

Definition sys0 : RSystem := empty_system 27 100.
Definition mac0 : MacTypes.World := MacTypes.mkWorld (host_name 5) (srwsn802154Mac_ctor 0 blank).1 ∅.
Definition sys1 : RSystem :=
  mkSystem world1 {[5%positive := mkHost (result (node_initialize (host_name 5) coordinator start_queue mac0)) [] 0]}.
(** The work [f] of host 5 at time 0. *)
Definition work (f : Node (REDQueue item) -> outcome (Node (REDQueue item))) (s : RSystem) : RSystem :=
  settle host_name 5 (host_of s 5) (result (f (refresh host_name 5 (nodes s) (node (host_of s 5))))) true (heard (host_of s 5)) s.
Definition tune : M Mac unit := receiveChangeNotification true (Some (0, 11)).
Definition late : M Mac unit := MacHandlers.initialize 2 (host_name 5) coordinator.
Definition sys2 : RSystem := work (on_mac 0 (own tune)) sys1.
Definition sys3 : RSystem := work (on_mac 0 (own late)) sys2.
Definition sys4 : RSystem := work (mac_message 0 (Timer START_PAN_COOR_TIMER)) sys3.

Lemma step_call m s :
  nodes s !! 5%positive = Some (host_of s 5) -> none_beforeb (air s) 0 = true -> mac_call m ->
  is_ok (on_mac 0 (own m) (refresh host_name 5 (nodes s) (node (host_of s 5)))) = true -> step s (work (on_mac 0 (own m)) s).
Proof.
  intros Hp Ht%none_beforeb_ok Hm Hr.
  apply (ss_node host_name s 5 (host_of s 5) 0 (result (on_mac 0 (own m) (refresh host_name 5 (nodes s) (node (host_of s 5)))))
    true (heard (host_of s 5)) Hp Ht).
  apply (ne_call _ _ _ _ _ m _ Hm). by apply NodeSample.get_ok.
Qed.

Lemma sys4_reached : rtc step sys0 sys4.
Proof.
  eapply rtc_l.
  { apply (ss_join host_name sys0 5 1 (0, 0) 60 2400 10 1 (2 # 1) 11 1000 0 0 world1 0 blank coordinator start_queue
      (result (node_initialize (host_name 5) coordinator start_queue mac0)));
      [done|done|apply none_beforeb_ok; by vm_compute|lia|apply wafter_run; by vm_compute|done|done|].
    apply NodeSample.get_ok. by vm_compute. }
  eapply rtc_l; [apply (step_call tune sys1); [by vm_compute|by vm_compute|constructor|by vm_compute]|].
  eapply rtc_l; [apply (step_call late sys2); [by vm_compute|by vm_compute|by constructor|by vm_compute]|].
  apply rtc_once. apply (ss_node host_name sys3 5 (host_of sys3 5) 0 _ true); [by vm_compute|apply none_beforeb_ok; by vm_compute|].
  apply (ne_timer _ _ _ _ _ START_PAN_COOR_TIMER); [by vm_compute|]. apply NodeSample.get_ok. by vm_compute.
Qed.
End SystemSample.
Import QueueSample SystemSample.

Lemma system_refines_air_witness : rtc world_step (empty_world 27 100) (air sys4) /\ length (down (host_of sys4 5)) = 3%nat.
Proof. split; [exact (system_refines_air host_name 27 100 sys4 sys4_reached)|vm_compute; reflexivity]. Defined.

Lemma system_hosts_account_witness :
  paced (contents := red_queue) (node (host_of sys4 5)) /\ packetRequested (ifq (node (host_of sys4 5))) = 1.
Proof.
  split; [|vm_compute; reflexivity].
  apply (system_hosts_account host_name 27 100 sys4 5 (host_of sys4 5) sys4_reached). vm_compute. reflexivity.
Defined.

(** The first message asks for the transceiver to be forced off. *)
Lemma system_interface_safe_witness :
  legal_request phy_FORCE_TRX_OFF /\ forall fl,
  handle 5 (UpperPrimitive 6 phy_FORCE_TRX_OFF PHY_CURRENT_CHANNEL (-1) []) (Air.advance 0 (air sys4)) = Fault fl -> sound fl.
Proof.
  destruct (system_interface_safe host_name 27 100 sys4 5 (host_of sys4 5) (ToPhy_SET_TRX_STATE phy_FORCE_TRX_OFF)
    (tail (down (host_of sys4 5))) (UpperPrimitive 6 phy_FORCE_TRX_OFF PHY_CURRENT_CHANNEL (-1) []) (radio_of (air sys4) 5) 0 sample_power sys4_reached) as [[?|[_ H1]] H2];
    [vm_compute; reflexivity|vm_compute; reflexivity|constructor|vm_compute; reflexivity|vm_compute; discriminate|discriminate|].
  split; [exact H1|exact H2].
Defined.
