(* ===== verification/WifiTypes.v ===== *)
(** * The 802.11 interface: frames, states and what the MAC keeps

    Data of linklayer/ieee80211/mac/{Ieee80211Consts.h, Ieee80211Frame.msg,
    Ieee80211Mac.h} and the services of the simulation kernel the MAC uses (clock,
    timers, gates).  srwsn80211Host.ned puts this interface below SR.

    Time is an integer number of picoseconds, the resolution of [simtime_t].  The
    frames carry packets of a type [P] the interface does not look into. *)

From S2P Require Import Prelude MACAddress.

Open Scope string_scope.
Open Scope list_scope.
Open Scope Z_scope.

(** ** Constants: Ieee80211Consts.h *)

(** Message kinds of frames that arrive damaged. *)
Definition BITERROR : Z := -1.
Definition COLLISION : Z := 9.

Definition LENGTH_RTS : Z := 160.
Definition LENGTH_CTS : Z := 112.
Definition LENGTH_ACK : Z := 112.

Definition sec : Z := 10 ^ 12.
Definition usec : Z := 10 ^ 6.
Definition ST : Z := 20 * usec.
Definition SIFS : Z := 10 * usec.
Definition MAX_PROPAGATION_DELAY : Z := 2 * usec.
Definition CW_MIN : Z := 31.
Definition CW_MAX : Z := 1023.
Definition PHY_HEADER_LENGTH : Z := 192.
Definition BITRATE_HEADER : Z := 10 ^ 6.

(** ** Frames: Ieee80211Frame.msg *)

(** [Ieee80211FrameType] *)
Definition ST_ASSOCIATIONREQUEST : Z := 0x00.
Definition ST_ASSOCIATIONRESPONSE : Z := 0x01.
Definition ST_REASSOCIATIONREQUEST : Z := 0x02.
Definition ST_REASSOCIATIONRESPONSE : Z := 0x03.
Definition ST_PROBEREQUEST : Z := 0x04.
Definition ST_PROBERESPONSE : Z := 0x05.
Definition ST_BEACON : Z := 0x08.
Definition ST_ATIM : Z := 0x09.
Definition ST_DISASSOCIATION : Z := 0x0a.
Definition ST_AUTHENTICATION : Z := 0x0b.
Definition ST_DEAUTHENTICATION : Z := 0x0c.
Definition ST_PSPOLL : Z := 0x1a.
Definition ST_RTS : Z := 0x1b.
Definition ST_CTS : Z := 0x1c.
Definition ST_ACK : Z := 0x1d.
Definition ST_DATA : Z := 0x20.
Definition ST_LBMS_REQUEST : Z := 0x30.
Definition ST_LBMS_REPORT : Z := 0x31.

(** The dynamic class of a frame object, which the [dynamic_cast]s look at.  The classes
    of Ieee80211MgmtFrames.msg below [Ieee80211ManagementFrame] are named by the type they
    set. *)
Inductive frame_class :=
  | Ieee80211OneAddressFrame
  | Ieee80211ACKFrame
  | Ieee80211CTSFrame
  | Ieee80211TwoAddressFrame
  | Ieee80211RTSFrame
  | Ieee80211DataOrMgmtFrame
  | Ieee80211DataFrame
  | Ieee80211ManagementFrame
  | Ieee80211MgmtFrame (t : Z)
  | Ieee80211LBMSRequest
  | Ieee80211LBMSReport.
#[export] Instance frame_class_eq_dec : EqDecision frame_class.
Proof. solve_decision. Defined.

(** [dynamic_cast<Ieee80211DataOrMgmtFrame*>], [dynamic_cast<Ieee80211TwoAddressFrame*>] *)
Definition is_DataOrMgmt (c : frame_class) : bool :=
  match c with
  | Ieee80211DataOrMgmtFrame | Ieee80211DataFrame | Ieee80211ManagementFrame | Ieee80211MgmtFrame _
  | Ieee80211LBMSRequest | Ieee80211LBMSReport => true
  | _ => false
  end.
Definition is_TwoAddress (c : frame_class) : bool :=
  match c with Ieee80211TwoAddressFrame | Ieee80211RTSFrame => true | _ => is_DataOrMgmt c end.

(** A frame object.  A field of a class further down the hierarchy has its default
    value in an object that is not of that class. *)
#[projections(primitive)]
Record Ieee80211Frame (P : Type) := mkFrame {
  fclass : frame_class;
  type : Z;
  retry : bool;
  moreFragments : bool;
  duration : Z;
  receiverAddress : MACAddress;
  transmitterAddress : MACAddress;
  address3 : MACAddress;
  fragmentNumber : Z;
  fseq : Z;
  byteLength : Z;
  kind : Z;
  controlInfo : option Z;
  encapsulated : option P;
}.
Arguments mkFrame {P}.
Arguments fclass {P}.
Arguments type {P}.
Arguments retry {P}.
Arguments moreFragments {P}.
Arguments duration {P}.
Arguments receiverAddress {P}.
Arguments transmitterAddress {P}.
Arguments address3 {P}.
Arguments fragmentNumber {P}.
Arguments fseq {P}.
Arguments byteLength {P}.
Arguments kind {P}.
Arguments controlInfo {P}.
Arguments encapsulated {P}.
#[export] Instance eta_Frame {P} : Eta (Ieee80211Frame P) := fun f => mkFrame (fclass f) (type f) (retry f)
  (moreFragments f) (duration f) (receiverAddress f) (transmitterAddress f) (address3 f) (fragmentNumber f)
  (fseq f) (byteLength f) (kind f) (controlInfo f) (encapsulated f).

(** The values the classes give their fields; a management frame is counted without its
    body. *)
Definition new_frame {P} (c : frame_class) : Ieee80211Frame P :=
  let '(t, len) :=
    match c with
    | Ieee80211OneAddressFrame => (0, 14)
    | Ieee80211ACKFrame => (ST_ACK, 14)
    | Ieee80211CTSFrame => (ST_CTS, 14)
    | Ieee80211TwoAddressFrame => (0, 20)
    | Ieee80211RTSFrame => (ST_RTS, 20)
    | Ieee80211DataOrMgmtFrame | Ieee80211ManagementFrame => (0, 28)
    | Ieee80211MgmtFrame t => (t, 28)
    | Ieee80211LBMSRequest => (ST_LBMS_REQUEST, 28)
    | Ieee80211LBMSReport => (ST_LBMS_REPORT, 28)
    | Ieee80211DataFrame => (ST_DATA, 34)
    end in
  mkFrame c t false false (- sec) UNSPECIFIED_ADDRESS UNSPECIFIED_ADDRESS UNSPECIFIED_ADDRESS 0 0 len 0 None None.

(** ** The MAC: Ieee80211Mac.h *)

(** The states of the radio (class [RadioState]). *)
Module RadioState.
Inductive RState := IDLE | RECV | TRANSMIT | SLEEP.
#[export] Instance RState_eq_dec : EqDecision RState.
Proof. solve_decision. Defined.
End RadioState.
Export (hints) RadioState.

Inductive State := IDLE | DEFER | WAITDIFS | BACKOFF | WAITACK | WAITBROADCAST | WAITCTS | WAITSIFS | RECEIVE.
#[export] Instance State_eq_dec : EqDecision State.
Proof. solve_decision. Defined.

Inductive Mode := DCF | PCF.

(** The self messages. *)
Inductive wtimer := endSIFS | endDIFS | endBackoff | endTimeout | endReserve | mediumStateChange.
#[export] Instance wtimer_eq_dec : EqDecision wtimer.
Proof. solve_decision. Defined.

(** [PhyControlInfo] of a command to the radio; -1 stands for a value not given. *)
#[projections(primitive)]
Record PhyControlInfo := mkPhyControlInfo { channelNumber : Z; pc_bitrate : Z }.
#[export] Instance eta_PhyControlInfo : Eta PhyControlInfo := fun c => mkPhyControlInfo (channelNumber c) (pc_bitrate c).

(** What leaves the MAC: messages to the radio and to the upper layer, calls of the
    queue module, and announcements on the notification board. *)
Inductive wevent (P : Type) :=
  | SendDown (f : Ieee80211Frame P)
  | SendDownCommand (c : PhyControlInfo)
  | SendUp (f : Ieee80211Frame P)
  | RequestPacket
  | NF_LINK_BREAK (f : Ieee80211Frame P)
  | NF_LINK_PROMISCUOUS (f : Ieee80211Frame P)
  | NF_LINK_FULL_PROMISCUOUS (f : option (Ieee80211Frame P)).
Arguments SendDown {P}.
Arguments SendDownCommand {P}.
Arguments SendUp {P}.
Arguments RequestPacket {P}.
Arguments NF_LINK_BREAK {P}.
Arguments NF_LINK_PROMISCUOUS {P}.
Arguments NF_LINK_FULL_PROMISCUOUS {P}.

(** The counters. *)
#[projections(primitive)]
Record Stats := mkStats {
  numRetry : Z;
  numSentWithoutRetry : Z;
  numGivenUp : Z;
  numCollision : Z;
  numSent : Z;
  numReceived : Z;
  numSentBroadcast : Z;
  numReceivedBroadcast : Z;
  numAckSend : Z;
  numReceivedOther : Z;
}.
#[export] Instance eta_Stats : Eta Stats := fun n => mkStats (numRetry n) (numSentWithoutRetry n) (numGivenUp n)
  (numCollision n) (numSent n) (numReceived n) (numSentBroadcast n) (numReceivedBroadcast n) (numAckSend n)
  (numReceivedOther n).

(** The parameters, fixed after the initialisation. *)
#[projections(primitive)]
Record Config := mkConfig {
  address : MACAddress;
  bitrate : Z;
  basicBitrate : Z;
  maxQueueSize : Z;
  rtsThreshold : Z;
  transmissionLimit : Z;
  cwMinData : Z;
  cwMinBroadcast : Z;
  fixFSM : bool;
  queueModule : bool;
  radioModule : Z;
}.

#[projections(primitive)]
Record Ieee80211Mac (P : Type) := mkMac {
  cfg : Config;
  fsm : State;
  mode : Mode;
  sequenceNumber : Z;
  lastReceiveFailed : bool;
  backoff : bool;
  nav : bool;
  backoffPeriod : Z;
  retryCounter : Z;
  radioState : RadioState.RState;
  transmissionQueue : list (Ieee80211Frame P);
  pendingRadioConfigMsg : option PhyControlInfo;
  noFrame : bool;
  (** when each self message is scheduled, the frame [endSIFS] points to, and when
      [endBackoff] was sent *)
  timers : wtimer -> option Z;
  sifsContext : option (Ieee80211Frame P);
  backoffSent : Z;
  stats : Stats;
  (** the kernel: the time, the random numbers drawn so far, what went out *)
  simTime : Z;
  draws : nat;
  out : list (wevent P);
}.
Arguments mkMac {P}.
Arguments cfg {P}.
Arguments fsm {P}.
Arguments mode {P}.
Arguments sequenceNumber {P}.
Arguments lastReceiveFailed {P}.
Arguments backoff {P}.
Arguments nav {P}.
Arguments backoffPeriod {P}.
Arguments retryCounter {P}.
Arguments radioState {P}.
Arguments transmissionQueue {P}.
Arguments pendingRadioConfigMsg {P}.
Arguments noFrame {P}.
Arguments timers {P}.
Arguments sifsContext {P}.
Arguments backoffSent {P}.
Arguments stats {P}.
Arguments simTime {P}.
Arguments draws {P}.
Arguments out {P}.
#[export] Instance eta_Mac {P} : Eta (Ieee80211Mac P) := fun s => mkMac (cfg s) (fsm s) (mode s) (sequenceNumber s)
  (lastReceiveFailed s) (backoff s) (nav s) (backoffPeriod s) (retryCounter s) (radioState s)
  (transmissionQueue s) (pendingRadioConfigMsg s) (noFrame s) (timers s) (sifsContext s) (backoffSent s)
  (stats s) (simTime s) (draws s) (out s).

(** Reduces the field accesses of updated records, and nothing else. *)
Ltac wsimp :=
  cbn [set_ fst snd fclass type retry moreFragments duration receiverAddress transmitterAddress address3
       fragmentNumber fseq byteLength kind controlInfo encapsulated
       channelNumber pc_bitrate
       numRetry numSentWithoutRetry numGivenUp numCollision numSent numReceived numSentBroadcast
       numReceivedBroadcast numAckSend numReceivedOther
       cfg fsm mode sequenceNumber lastReceiveFailed backoff nav backoffPeriod retryCounter radioState
       transmissionQueue pendingRadioConfigMsg noFrame timers sifsContext backoffSent stats simTime draws out] in *.

(** ** The environment

    The number of turns after which the macros of FSMA.h give up, and the random
    numbers: [intrand n] draws from 0 up to and without [n]. *)
Class WifiEnv := {
  FSM_MAXT : nat;
  intrand : nat -> Z -> Z;
}.
Class WifiEnvOk `{WifiEnv} : Prop := {
  FSM_MAXT_ok : (6 <= FSM_MAXT)%nat;
  intrand_ok k n : 0 < n -> 0 <= intrand k n < n;
}.
