(* ===== verification/WifiMac.v ===== *)
(** * The 802.11 MAC: timing, timers, frames and helpers

    The functions of linklayer/ieee80211/mac/Ieee80211Mac.cc that the state machine of
    WifiFsm.v calls, in the order of the source.  A null pointer is [None]; following
    one is an undefined operation. *)

From S2P Require Import Prelude MACAddress WifiTypes.

Open Scope string_scope.
Open Scope list_scope.
Open Scope Z_scope.

Section mac.
Context {P : Type}.
Local Abbreviation Frame := (Ieee80211Frame P).
Local Abbreviation Mac := (Ieee80211Mac P).
Implicit Types (s : Mac) (f : Frame).

Definition self : M Mac Mac := gets id.
Definition upd (g : Mac -> Mac) : M Mac unit := modify g.
Definition upd_stats (g : Stats -> Stats) : M Mac unit := upd (fun s => s<| stats ::= g |>).
Definition emit (e : wevent P) : M Mac unit := upd (fun s => s<| out ::= fun l => l ++ [e] |>).

(** ** The kernel and WirelessMacBase.cc *)

Definition isScheduled (t : wtimer) s : bool := bool_decide (is_Some (timers s t)).

Definition set_timer (t : wtimer) (v : option Z) (g : wtimer -> option Z) : wtimer -> option Z :=
  fun u => if bool_decide (u = t) then v else g u.

(** The kernel refuses a message that is scheduled already, and a time that is over. *)
Definition scheduleAt (time : Z) (t : wtimer) : M Mac unit :=
  s ← self;
  if isScheduled t s then fail (Thrown "scheduleAt(): message is already scheduled")
  else if time <? simTime s then fail (Thrown "scheduleAt(): cannot schedule to the past")
  else upd (fun s => s<| timers ::= set_timer t (Some time) |>).

Definition cancelEvent (t : wtimer) : M Mac unit := upd (fun s => s<| timers ::= set_timer t None |>).

Definition sendDown f : M Mac unit := emit (SendDown f).
Definition sendUp f : M Mac unit := emit (SendUp f).

(** ** Timing functions *)

Definition getSIFS : Z := SIFS.
Definition getSlotTime : Z := ST.
Definition getPIFS : Z := getSIFS + getSlotTime.
Definition getDIFS : Z := getSIFS + 2 * getSlotTime.
Definition getEIFS : Z := getSIFS + getDIFS + (8 * LENGTH_ACK + PHY_HEADER_LENGTH) * sec / 10 ^ 6.

(** [computeFrameDuration(bits, bitrate)], to the picosecond. *)
Definition computeFrameDuration (bits rate : Z) : Z :=
  bits * sec / rate + PHY_HEADER_LENGTH * sec / BITRATE_HEADER.

(** [computeFrameDuration(msg)] *)
Definition frameDuration s f : Z := computeFrameDuration (8 * byteLength f) (bitrate (cfg s)).

(** [isBroadcast(frame)], [isForUs(frame)], [isDataOrMgmtFrame(frame)]: a null pointer
    gives [false]. *)
Definition isBroadcastFrame (o : option Frame) : bool :=
  match o with Some f => isBroadcast (receiverAddress f) | None => false end.
Definition isForUs s (o : option Frame) : bool :=
  match o with Some f => equals (receiverAddress f) (address (cfg s)) | None => false end.
Definition isDataOrMgmtFrame (o : option Frame) : bool :=
  match o with Some f => is_DataOrMgmt (fclass f) | None => false end.

(** The contention window of attempt [r], an [int]. *)
Definition contentionWindow s (msg : option Frame) (r : Z) : outcome Z :=
  if isBroadcastFrame msg then Ok (cwMinBroadcast (cfg s))
  else
    check ((0 <=? r) && (r <? transmissionLimit (cfg s))) (AssertFailed "0 <= r && r < transmissionLimit");;
    check (r <? 31) (Undefined "1 << r");;
    check (in_int ((cwMinData (cfg s) + 1) * Z.shiftl 1 r)) (Undefined "signed overflow");;
    let cw := (cwMinData (cfg s) + 1) * Z.shiftl 1 r - 1 in
    Ok (if CW_MAX <? cw then CW_MAX else cw).

Context `{WifiEnv}.

Definition computeBackoffPeriod (msg : option Frame) (r : Z) : M Mac Z :=
  s ← self;
  cw ← lift (contentionWindow s msg r);
  upd (fun s => s<| draws ::= S |>);;
  mret (intrand (draws s) (cw + 1) * getSlotTime).

(** ** Timer functions *)

Definition getCurrentTransmission s : option Frame := head (transmissionQueue s).

(** Following the pointer. *)
Definition deref (o : option Frame) : M Mac Frame :=
  match o with Some f => mret f | None => fail (Undefined "null pointer") end.

(** A copy of a message has no control info. *)
Definition dup f : Frame := f<| controlInfo := None |>.

Definition scheduleSIFSPeriod (frame : option Frame) : M Mac unit :=
  f ← deref frame;
  upd (fun s => s<| sifsContext := Some (dup f) |>);;
  s ← self;
  scheduleAt (simTime s + getSIFS) endSIFS.

Definition scheduleDIFSPeriod : M Mac unit :=
  s ← self;
  if lastReceiveFailed s then scheduleAt (simTime s + getEIFS) endDIFS
  else scheduleAt (simTime s + getDIFS) endDIFS.

Definition cancelDIFSPeriod : M Mac unit := cancelEvent endDIFS.

(** The wait for an acknowledgement of a frame. *)
Definition dataTimeout s f : Z :=
  frameDuration s f + getSIFS + computeFrameDuration LENGTH_ACK (basicBitrate (cfg s)) + MAX_PROPAGATION_DELAY * 2.

Definition scheduleDataTimeoutPeriod (frameToSend : option Frame) : M Mac unit :=
  f ← deref frameToSend;
  s ← self;
  scheduleAt (simTime s + dataTimeout s f) endTimeout.

Definition scheduleBroadcastTimeoutPeriod (frameToSend : option Frame) : M Mac unit :=
  f ← deref frameToSend;
  s ← self;
  scheduleAt (simTime s + frameDuration s f) endTimeout.

Definition cancelTimeoutPeriod : M Mac unit := cancelEvent endTimeout.

Definition scheduleCTSTimeoutPeriod : M Mac unit :=
  s ← self;
  scheduleAt (simTime s + computeFrameDuration LENGTH_RTS (basicBitrate (cfg s)) + getSIFS
              + computeFrameDuration LENGTH_CTS (basicBitrate (cfg s)) + MAX_PROPAGATION_DELAY * 2) endTimeout.

(** The tail of [scheduleReservePeriod]: the medium is reserved from now on. *)
Definition startReserve (reserve : Z) : M Mac unit :=
  assert_ (0 <? reserve) "reserve > 0";;
  upd (fun s => s<| nav := true |>);;
  s ← self;
  scheduleAt (simTime s + reserve) endReserve.

Definition scheduleReservePeriod f : M Mac unit :=
  s ← self;
  let reserve := duration f in
  if negb (isForUs s (Some f)) && negb (reserve =? 0) && (reserve <? 32768 * sec) then
    match timers s endReserve with
    | Some t =>
        let oldReserve := t - simTime s in
        if reserve <? oldReserve then mret tt
        else cancelEvent endReserve;; startReserve (Z.max reserve oldReserve)
    | None =>
        when (bool_decide (radioState s = RadioState.IDLE)) (scheduleAt (simTime s) mediumStateChange);;
        startReserve reserve
    end
  else mret tt.

(** No backoff period: minus one second. *)
Definition invalidBackoff : Z := - sec.
Definition invalidateBackoffPeriod : M Mac unit := upd (fun s => s<| backoffPeriod := invalidBackoff |>).
Definition isInvalidBackoffPeriod s : bool := backoffPeriod s =? invalidBackoff.

Definition generateBackoffPeriod : M Mac unit :=
  s ← self;
  p ← computeBackoffPeriod (getCurrentTransmission s) (retryCounter s);
  upd (fun s => s<| backoffPeriod := p |>);;
  assert_ (0 <=? p) "backoffPeriod >= 0".

Definition decreaseBackoffPeriod : M Mac unit :=
  s ← self;
  let elapsedBackoffTime := simTime s - backoffSent s in
  let p := backoffPeriod s - elapsedBackoffTime ÷ getSlotTime * getSlotTime in
  upd (fun s => s<| backoffPeriod := p |>);;
  assert_ (0 <=? p) "backoffPeriod >= 0".

Definition scheduleBackoffPeriod : M Mac unit :=
  s ← self;
  scheduleAt (simTime s + backoffPeriod s) endBackoff;;
  upd (fun s => s<| backoffSent := simTime s |>).

Definition cancelBackoffPeriod : M Mac unit := cancelEvent endBackoff.

(** ** Frame builders *)

Definition buildDataFrame s f : Frame :=
  let frame := dup f in
  if isBroadcastFrame (Some f) then frame<| duration := 0 |>
  else if negb (moreFragments f) then
    frame<| duration := getSIFS + computeFrameDuration LENGTH_ACK (basicBitrate (cfg s)) |>
  else frame<| duration := 3 * getSIFS + 2 * computeFrameDuration LENGTH_ACK (basicBitrate (cfg s)) + frameDuration s f |>.

Definition buildACKFrame s (frameToACK : Frame) : Frame :=
  let frame := (new_frame Ieee80211ACKFrame)<| receiverAddress := transmitterAddress frameToACK |> in
  if negb (moreFragments frameToACK) then frame<| duration := 0 |>
  else frame<| duration := duration frameToACK - getSIFS - computeFrameDuration LENGTH_ACK (basicBitrate (cfg s)) |>.

Definition buildRTSFrame s (frameToSend : Frame) : Frame :=
  (new_frame Ieee80211RTSFrame)
    <| transmitterAddress := address (cfg s) |>
    <| receiverAddress := receiverAddress frameToSend |>
    <| duration := 3 * getSIFS + computeFrameDuration LENGTH_CTS (basicBitrate (cfg s)) + frameDuration s frameToSend
                   + computeFrameDuration LENGTH_ACK (basicBitrate (cfg s)) |>.

Definition buildCTSFrame s (rtsFrame : Frame) : Frame :=
  (new_frame Ieee80211CTSFrame)
    <| receiverAddress := transmitterAddress rtsFrame |>
    <| duration := duration rtsFrame - getSIFS - computeFrameDuration LENGTH_CTS (basicBitrate (cfg s)) |>.

Definition buildBroadcastFrame f : Frame := (dup f)<| duration := 0 |>.

Definition setBasicBitrate f : M Mac Frame :=
  assert_ (bool_decide (controlInfo f = None)) "frame->getControlInfo()==NULL";;
  s ← self;
  mret (f<| controlInfo := Some (basicBitrate (cfg s)) |>).

(** ** Frame senders *)

Definition sendACKFrame (frameToACK : Frame) : M Mac unit :=
  upd_stats (fun n => n<| numAckSend ::= Z.succ |>);;
  s ← self;
  f ← setBasicBitrate (buildACKFrame s frameToACK);
  sendDown f.

(** [endSIFS->getContextPointer()], then the pointer is cleared. *)
Definition takeContext : M Mac (option Frame) :=
  s ← self;
  upd (fun s => s<| sifsContext := None |>);;
  mret (sifsContext s).

(** [check_and_cast]: throws where the object is not of the class. *)
Definition check_and_cast (is_class : frame_class -> bool) (o : option Frame) : M Mac Frame :=
  f ← deref o;
  if is_class (fclass f) then mret f else fail (Thrown "check_and_cast").

Definition sendACKFrameOnEndSIFS : M Mac unit :=
  o ← takeContext;
  f ← check_and_cast is_DataOrMgmt o;
  sendACKFrame f.

Definition sendDataFrame (frameToSend : option Frame) : M Mac unit :=
  f ← deref frameToSend;
  s ← self;
  sendDown (buildDataFrame s f).

Definition sendDataFrameOnEndSIFS (frameToSend : option Frame) : M Mac unit :=
  _ ← takeContext;
  sendDataFrame frameToSend.

Definition sendBroadcastFrame (frameToSend : option Frame) : M Mac unit :=
  f ← deref frameToSend;
  sendDown (buildBroadcastFrame f).

Definition sendRTSFrame (frameToSend : option Frame) : M Mac unit :=
  f ← deref frameToSend;
  s ← self;
  r ← setBasicBitrate (buildRTSFrame s f);
  sendDown r.

Definition sendCTSFrame (rtsFrame : Frame) : M Mac unit :=
  s ← self;
  f ← setBasicBitrate (buildCTSFrame s rtsFrame);
  sendDown f.

Definition sendCTSFrameOnEndSIFS : M Mac unit :=
  o ← takeContext;
  f ← check_and_cast (fun c => bool_decide (c = Ieee80211RTSFrame)) o;
  sendCTSFrame f.

(** ** Helpers *)

(** A method call on the frame at the front of the queue. *)
Definition on_current (g : Frame -> Frame) : M Mac unit :=
  s ← self;
  match transmissionQueue s with
  | f :: q => upd (fun s => s<| transmissionQueue := g f :: q |>)
  | [] => fail (Undefined "null pointer")
  end.

Definition resetStateVariables : M Mac unit :=
  upd (fun s => s<| backoffPeriod := 0 |><| retryCounter := 0 |>);;
  s ← self;
  match transmissionQueue s with
  | _ :: _ => upd (fun s => s<| backoff := true |>);; on_current (fun f => f<| retry := false |>)
  | [] => upd (fun s => s<| backoff := false |><| noFrame := false |>)
  end.

(** [front] and [pop_front] of an empty list are undefined, and so is reading the
    member [queueModule] where no queue module is named: nothing sets it then. *)
Definition popTransmissionQueue : M Mac unit :=
  s ← self;
  match transmissionQueue s with
  | _ :: q =>
      upd (fun s => s<| transmissionQueue := q |>);;
      if queueModule (cfg s) then emit RequestPacket else fail (Undefined "queueModule")
  | [] => fail (Undefined "front() of an empty list")
  end.

Definition finishCurrentTransmission : M Mac unit := popTransmissionQueue;; resetStateVariables.

Definition giveUpCurrentTransmission : M Mac unit :=
  s ← self;
  temp ← deref (head (transmissionQueue s));
  emit (NF_LINK_BREAK temp);;
  popTransmissionQueue;;
  resetStateVariables;;
  upd_stats (fun n => n<| numGivenUp ::= Z.succ |>).

Definition retryCurrentTransmission : M Mac unit :=
  s ← self;
  assert_ (retryCounter s <? transmissionLimit (cfg s) - 1) "retryCounter < transmissionLimit - 1";;
  on_current (fun f => f<| retry := true |>);;
  upd (fun s => s<| retryCounter ::= Z.succ |>);;
  upd_stats (fun n => n<| numRetry ::= Z.succ |>);;
  upd (fun s => s<| backoff := true |>);;
  generateBackoffPeriod.

Definition sendDownPendingRadioConfigMsg : M Mac unit :=
  s ← self;
  match pendingRadioConfigMsg s with
  | Some c => emit (SendDownCommand c);; upd (fun s => s<| pendingRadioConfigMsg := None |>)
  | None => mret tt
  end.

Definition setMode (m : Mode) : M Mac unit :=
  match m with
  | PCF => fail (Thrown "PCF mode not yet supported")
  | DCF => upd (fun s => s<| mode := m |>)
  end.

Definition isMediumFree s : bool := bool_decide (radioState s = RadioState.IDLE) && negb (isScheduled endReserve s).

Definition finishReception : M Mac unit :=
  s ← self;
  match transmissionQueue s with
  | _ :: _ => upd (fun s => s<| backoff := true |>)
  | [] => upd (fun s => s<| backoffPeriod := 0 |><| retryCounter := 0 |><| backoff := false |><| noFrame := false |>)
  end.

Definition modeName (m : Mode) : string := match m with DCF => "DCF" | PCF => "PCF" end.

(** The scalars recorded. *)
Definition finish s : list (string * Z) :=
  let n := stats s in
  [("numSent", numSent n); ("numSentWithoutRetry", numSentWithoutRetry n); ("numReceived", numReceived n);
   ("numSentBroadcast", numSentBroadcast n); ("numReceivedBroadcast", numReceivedBroadcast n);
   ("numReceivedOther", numReceivedOther n); ("numCollision", numCollision n); ("numGivenUp", numGivenUp n);
   ("numAckSend", numAckSend n); ("numRetry", numRetry n)].
End mac.
