(* ===== verification/WifiFsm.v ===== *)
(** * The 802.11 MAC: the state machine and the handlers

    [handleWithFSM] of linklayer/ieee80211/mac/Ieee80211Mac.cc in the terms of the
    macros of base/FSMA.h, the handlers of messages, commands and notifications, and
    the initialisation.  The module's events are the steps of the relation [wstep]. *)

From S2P Require Import Prelude MACAddress WifiTypes WifiMac.

Open Scope string_scope.
Open Scope list_scope.
Open Scope Z_scope.

(** ** FSMA.h *)

(** A transition: whether it answers an event or is taken on the way, its condition,
    its target and its action. *)
Record transition (P : Type) := mkTransition {
  on_event : bool;
  condition : Ieee80211Mac P -> outcome bool;
  target : State;
  action : M (Ieee80211Mac P) unit;
}.
Arguments mkTransition {P}.
Arguments on_event {P}.
Arguments condition {P}.
Arguments target {P}.
Arguments action {P}.

Section fsma.
Context {P : Type}.
Local Abbreviation Mac := (Ieee80211Mac P).

Definition FSMA_Event_Transition (c : Mac -> bool) (t : State) (a : M Mac unit) : transition P :=
  mkTransition true (fun s => Ok (c s)) t a.
Definition FSMA_No_Event_Transition (c : Mac -> bool) (t : State) (a : M Mac unit) : transition P :=
  mkTransition false (fun s => Ok (c s)) t a.

(** The transitions of a state in their order: the first that can be taken runs its
    action and sets the state.  The answer says whether one was taken. *)
Fixpoint FSMA_Transitions (is_event : bool) (ts : list (transition P)) : M Mac bool :=
  match ts with
  | [] => mret false
  | t :: ts =>
      s ← self;
      c ← lift (condition t s);
      if c && Bool.eqb (on_event t) is_event then
        action t;; upd (fun s => s<| fsm := target t |>);; mret true
      else FSMA_Transitions is_event ts
  end.

Definition FSMA_Enter (is_event : bool) (a : M Mac unit) : M Mac unit := when (negb is_event) a.

(** The loop of [FSMA_Switch]: the first turn looks at the event, and turns follow as
    long as transitions are taken. *)
Fixpoint FSMA_Switch (fuel : nat) (is_event : bool) (body : bool -> M Mac bool) : M Mac unit :=
  match fuel with
  | O => fail (Thrown "eINFLOOP")
  | S n => c ← body is_event; if c : bool then FSMA_Switch n false body else mret tt
  end.
End fsma.

(** ** The state machine *)

(** What the machine is told: a self message, a frame from above, a frame from the radio. *)
Inductive fmsg (P : Type) :=
  | Timer (t : wtimer)
  | Upper (f : Ieee80211Frame P)
  | Lower (f : Ieee80211Frame P).
Arguments Timer {P}.
Arguments Upper {P}.
Arguments Lower {P}.

Section machine.
Context {P : Type} `{WifiEnv}.
Local Abbreviation Frame := (Ieee80211Frame P).
Local Abbreviation Mac := (Ieee80211Mac P).
Implicit Types (s : Mac) (f : Frame) (msg : fmsg P).

Definition isUpperMsg msg : bool := match msg with Upper _ => true | _ => false end.
Definition isLowerMsg msg : bool := match msg with Lower _ => true | _ => false end.
Definition isTimer (t : wtimer) msg : bool := match msg with Timer u => bool_decide (u = t) | _ => false end.

(** [dynamic_cast<Ieee80211Frame*>(msg)], its type, and the kind of the message. *)
Definition msg_frame msg : option Frame := match msg with Timer _ => None | Upper f | Lower f => Some f end.
Definition frameType msg : Z := match msg_frame msg with Some f => type f | None => -1 end.
Definition msgKind msg : Z := match msg_frame msg with Some f => kind f | None => 0 end.
Definition damaged msg : bool := (msgKind msg =? COLLISION) || (msgKind msg =? BITERROR).

Definition isMediumStateChange s msg : bool :=
  isTimer mediumStateChange msg || (isTimer endReserve msg && bool_decide (radioState s = RadioState.IDLE)).

(** The frame at the front of the queue goes out as a broadcast, or announced by RTS. *)
Definition currentBroadcast s : bool := isBroadcastFrame (getCurrentTransmission s).
Definition currentLong s : bool :=
  match getCurrentTransmission s with Some f => rtsThreshold (cfg s) <=? byteLength f | None => false end.

Definition queue_empty s : bool := match transmissionQueue s with [] => true | _ => false end.

(** [if (fixFSM) finishReception(); else resetStateVariables();] *)
Definition endReception : M Mac unit :=
  s ← self; if fixFSM (cfg s) then finishReception else resetStateVariables.

Definition IDLE_transitions msg s : list (transition P) :=
  (if fixFSM (cfg s) then
    [FSMA_Event_Transition (fun s => isUpperMsg msg && (0 <? backoffPeriod s)) DEFER (assert_ false "false");
     FSMA_No_Event_Transition (fun s => negb (queue_empty s) && (0 <? backoffPeriod s)) DEFER
       (s ← self; assert_ (backoff s) "backoff")]
   else []) ++
  [FSMA_Event_Transition (fun s => isUpperMsg msg) DEFER
     (s ← self;
      assert_ (isInvalidBackoffPeriod s || (backoffPeriod s =? 0)) "isInvalidBackoffPeriod() || backoffPeriod == 0";;
      invalidateBackoffPeriod);
   FSMA_No_Event_Transition (fun s => negb (queue_empty s)) DEFER invalidateBackoffPeriod;
   FSMA_Event_Transition (fun s => isLowerMsg msg) RECEIVE (mret tt)].

Definition DEFER_transitions msg : list (transition P) :=
  [FSMA_Event_Transition (fun s => isMediumStateChange s msg && isMediumFree s) WAITDIFS (mret tt);
   FSMA_No_Event_Transition (fun s => isMediumFree s || negb (backoff s)) WAITDIFS (mret tt);
   FSMA_Event_Transition (fun s => isLowerMsg msg) RECEIVE (mret tt)].

(** A transmission of the front of the queue after [t]. *)
Definition transmissions (t : wtimer) (ready : Mac -> bool) (cleanup : M Mac unit) msg : list (transition P) :=
  [FSMA_Event_Transition (fun s => isTimer t msg && negb (currentBroadcast s) && currentLong s && ready s) WAITCTS
     (s ← self; sendRTSFrame (getCurrentTransmission s);; cleanup);
   FSMA_Event_Transition (fun s => isTimer t msg && currentBroadcast s && ready s) WAITBROADCAST
     (s ← self; sendBroadcastFrame (getCurrentTransmission s);; cleanup);
   FSMA_Event_Transition (fun s => isTimer t msg && negb (currentBroadcast s) && ready s) WAITACK
     (s ← self; sendDataFrame (getCurrentTransmission s);; cleanup)].

Definition WAITDIFS_transitions msg s : list (transition P) :=
  (if queue_empty s then [] else transmissions endDIFS (fun s => negb (backoff s)) cancelDIFSPeriod msg) ++
  [FSMA_Event_Transition (fun s => isTimer endDIFS msg) BACKOFF
     (s ← self; assert_ (backoff s) "backoff";; when (isInvalidBackoffPeriod s) generateBackoffPeriod);
   FSMA_Event_Transition (fun s => isMediumStateChange s msg && negb (isMediumFree s)) DEFER
     (upd (fun s => s<| backoff := true |>);; cancelDIFSPeriod);
   FSMA_No_Event_Transition (fun s => negb (isMediumFree s)) DEFER
     (upd (fun s => s<| backoff := true |>);; cancelDIFSPeriod);
   FSMA_Event_Transition (fun s => isLowerMsg msg) RECEIVE cancelDIFSPeriod].

Definition BACKOFF_transitions msg s : list (transition P) :=
  (if queue_empty s then [] else transmissions endBackoff (fun _ => true) (mret tt) msg) ++
  [FSMA_Event_Transition (fun s => isTimer endBackoff msg && queue_empty s) IDLE resetStateVariables;
   FSMA_Event_Transition (fun s => isMediumStateChange s msg && negb (isMediumFree s)) DEFER
     (cancelBackoffPeriod;; decreaseBackoffPeriod)].

(** The last attempt failed, or another one follows. *)
Definition timeouts msg : list (transition P) :=
  [FSMA_Event_Transition (fun s => isTimer endTimeout msg && (retryCounter s =? transmissionLimit (cfg s) - 1)) IDLE
     giveUpCurrentTransmission;
   FSMA_Event_Transition (fun s => isTimer endTimeout msg) DEFER retryCurrentTransmission].

Definition WAITACK_transitions msg : list (transition P) :=
  FSMA_Event_Transition (fun s => isLowerMsg msg && isForUs s (msg_frame msg) && (frameType msg =? ST_ACK)) IDLE
    (s ← self;
     when (retryCounter s =? 0) (upd_stats (fun n => n<| numSentWithoutRetry ::= Z.succ |>));;
     upd_stats (fun n => n<| numSent ::= Z.succ |>);;
     cancelTimeoutPeriod;;
     finishCurrentTransmission)
  :: timeouts msg.

Definition WAITBROADCAST_transitions msg : list (transition P) :=
  [FSMA_Event_Transition (fun s => isTimer endTimeout msg) DEFER
     (finishCurrentTransmission;;
      upd_stats (fun n => n<| numSentBroadcast ::= Z.succ |>);;
      upd (fun s => s<| backoff := true |>);;
      invalidateBackoffPeriod)].

Definition WAITCTS_transitions msg : list (transition P) :=
  FSMA_Event_Transition (fun s => isLowerMsg msg && isForUs s (msg_frame msg) && (frameType msg =? ST_CTS)) WAITSIFS
    cancelTimeoutPeriod
  :: timeouts msg.

(** [msg == endSIFS && getFrameReceivedBeforeSIFS()->getType() == t] *)
Definition receivedBeforeSIFS (t : Z) msg s : outcome bool :=
  if isTimer endSIFS msg then
    match sifsContext s with Some f => Ok (type f =? t) | None => Fault (Undefined "null pointer") end
  else Ok false.

Definition WAITSIFS_transitions msg : list (transition P) :=
  [mkTransition true (receivedBeforeSIFS ST_RTS msg) IDLE (sendCTSFrameOnEndSIFS;; endReception);
   mkTransition true (receivedBeforeSIFS ST_CTS msg) WAITACK
     (s ← self; sendDataFrameOnEndSIFS (getCurrentTransmission s));
   FSMA_Event_Transition (fun s => isTimer endSIFS msg && isDataOrMgmtFrame (sifsContext s)) IDLE
     (sendACKFrameOnEndSIFS;; endReception)].

(** [sendUp(frame)], the announcement of a frame for others: the frame is that of [msg]. *)
Definition with_frame msg (k : Frame -> M Mac unit) : M Mac unit := f ← deref (msg_frame msg); k f.

Definition RECEIVE_transitions msg : list (transition P) :=
  let frame := msg_frame msg in
  [FSMA_No_Event_Transition (fun s => isLowerMsg msg && damaged msg) IDLE
     (upd_stats (fun n => n<| numCollision ::= Z.succ |>);; endReception);
   FSMA_No_Event_Transition (fun s => isLowerMsg msg && isBroadcastFrame frame && isDataOrMgmtFrame frame) IDLE
     (with_frame msg sendUp;; upd_stats (fun n => n<| numReceivedBroadcast ::= Z.succ |>);; endReception);
   FSMA_No_Event_Transition (fun s => isLowerMsg msg && isForUs s frame && isDataOrMgmtFrame frame) WAITSIFS
     (with_frame msg sendUp;; upd_stats (fun n => n<| numReceived ::= Z.succ |>));
   FSMA_No_Event_Transition (fun s => isLowerMsg msg && isForUs s frame && (frameType msg =? ST_RTS)) WAITSIFS (mret tt);
   FSMA_No_Event_Transition (fun s => isLowerMsg msg && negb (isForUs s frame) && isDataOrMgmtFrame frame) IDLE
     (with_frame msg (fun f => emit (NF_LINK_PROMISCUOUS f));; endReception;;
      upd_stats (fun n => n<| numReceivedOther ::= Z.succ |>));
   FSMA_No_Event_Transition (fun s => isLowerMsg msg) IDLE
     (endReception;; upd_stats (fun n => n<| numReceivedOther ::= Z.succ |>))].

(** What is done on entering a state. *)
Definition enter_action msg (st : State) : M Mac unit :=
  s ← self;
  match st with
  | IDLE | DEFER => sendDownPendingRadioConfigMsg
  | WAITDIFS => scheduleDIFSPeriod
  | BACKOFF => scheduleBackoffPeriod
  | WAITACK => scheduleDataTimeoutPeriod (getCurrentTransmission s)
  | WAITBROADCAST => scheduleBroadcastTimeoutPeriod (getCurrentTransmission s)
  | WAITCTS => scheduleCTSTimeoutPeriod
  | WAITSIFS => scheduleSIFSPeriod (msg_frame msg)
  | RECEIVE => mret tt
  end.

Definition state_transitions msg (st : State) s : list (transition P) :=
  match st with
  | IDLE => IDLE_transitions msg s
  | DEFER => DEFER_transitions msg
  | WAITDIFS => WAITDIFS_transitions msg s
  | BACKOFF => BACKOFF_transitions msg s
  | WAITACK => WAITACK_transitions msg
  | WAITBROADCAST => WAITBROADCAST_transitions msg
  | WAITCTS => WAITCTS_transitions msg
  | WAITSIFS => WAITSIFS_transitions msg
  | RECEIVE => RECEIVE_transitions msg
  end.

(** One turn of the loop. *)
Definition fsm_body msg (is_event : bool) : M Mac bool :=
  s ← self;
  FSMA_Enter is_event (enter_action msg (fsm s));;
  s' ← self;
  FSMA_Transitions is_event (state_transitions msg (fsm s) s').

Definition handleWithFSM msg : M Mac unit :=
  s ← self;
  when (noFrame s && isUpperMsg msg) (upd (fun s => s<| noFrame := false |>));;
  if isUpperMsg msg && negb (bool_decide (fsm s = IDLE)) then mret tt
  else
    match msg with
    | Lower f => upd (fun s => s<| lastReceiveFailed := damaged msg |>);; scheduleReservePeriod f
    | _ => mret tt
    end;;
    FSMA_Switch FSM_MAXT true (fsm_body msg).

(** ** Handlers *)

(** The kernel has taken the message off the list of scheduled ones. *)
Definition handleSelfMsg (t : wtimer) : M Mac unit :=
  when (bool_decide (t = endReserve)) (upd (fun s => s<| nav := false |>));;
  handleWithFSM (Timer t).

Definition fragmentationThreshold : Z := 2346.

Definition handleUpperMsg f : M Mac unit :=
  s ← self;
  if negb (maxQueueSize (cfg s) =? 0) && (Z.of_nat (length (transmissionQueue s)) =? maxQueueSize (cfg s)) then mret tt
  else if negb (is_DataOrMgmt (fclass f)) then fail (Thrown "check_and_cast")
  else if fragmentationThreshold <? byteLength f then fail (Thrown "message from higher layer is too long for 802.11b")
  else
    assert_ (negb (isUnspecified (receiverAddress f))) "!frame->getReceiverAddress().isUnspecified()";;
    let frame := f<| transmitterAddress := address (cfg s) |><| fseq := sequenceNumber s |> in
    upd (fun s => s<| sequenceNumber := (sequenceNumber s + 1) mod 4096 |>);;
    upd (fun s => s<| transmissionQueue ::= fun q => q ++ [frame] |>);;
    handleWithFSM (Upper frame).

(** [PHY_C_CONFIGURERADIO] *)
Definition PHY_C_CONFIGURERADIO : Z := 1.

(** The new command, completed from the one that waits. *)
Definition mergeConfig (pOld pNew : PhyControlInfo) : PhyControlInfo :=
  let pNew := if (channelNumber pNew =? -1) && negb (channelNumber pOld =? -1)
              then pNew<| channelNumber := channelNumber pOld |> else pNew in
  if (pc_bitrate pNew =? -1) && negb (pc_bitrate pOld =? -1)
  then pNew<| pc_bitrate := pc_bitrate pOld |> else pNew.

Definition handleCommand (msgkind : Z) (c : PhyControlInfo) : M Mac unit :=
  if msgkind =? PHY_C_CONFIGURERADIO then
    s ← self;
    let c := match pendingRadioConfigMsg s with Some old => mergeConfig old c | None => c end in
    upd (fun s => s<| pendingRadioConfigMsg := None |>);;
    match fsm s with
    | IDLE | DEFER | BACKOFF => emit (SendDownCommand c)
    | _ => upd (fun s => s<| pendingRadioConfigMsg := Some c |>)
    end
  else fail (Thrown "Unrecognized command from mgmt layer").

(** A message from the radio: a frame of this protocol, or something else. *)
Definition handleLowerMsg (msg : option Frame) : M Mac unit :=
  emit (NF_LINK_FULL_PROMISCUOUS msg);;
  match msg with
  | None => mret tt
  | Some f =>
      let f := f<| controlInfo := None |> in
      s ← self;
      assert_ (negb (is_TwoAddress (fclass f)) || negb (equals (transmitterAddress f) (address (cfg s))))
        "!twoAddressFrame || twoAddressFrame->getTransmitterAddress() != address";;
      handleWithFSM (Lower f)
  end.

Definition receiveChangeNotification (radioId : Z) (newRadioState : RadioState.RState) : M Mac unit :=
  s ← self;
  if radioId =? radioModule (cfg s) then
    upd (fun s => s<| radioState := newRadioState |>);;
    handleWithFSM (Timer mediumStateChange)
  else mret tt.

(** What arrives: [WirelessMacBase::handleMessage] and the notifications. *)
Inductive wmsg :=
  | SelfMsg (t : wtimer)
  | Command (msgkind : Z) (c : PhyControlInfo)
  | UpperMsg (f : Frame)
  | LowerMsg (f : option Frame)
  | RadioStateChanged (radioId : Z) (r : RadioState.RState).

Definition handleMessage (m : wmsg) : M Mac unit :=
  match m with
  | SelfMsg t => handleSelfMsg t
  | Command k c => handleCommand k c
  | UpperMsg f => handleUpperMsg f
  | LowerMsg f => handleLowerMsg f
  | RadioStateChanged i r => receiveChangeNotification i r
  end.
End machine.
Arguments wmsg : clear implicits.

(** ** Initialisation *)

(** What the interface table is told; the name is the module's without its special
    characters. *)
Record InterfaceEntry := mkInterfaceEntry {
  ie_name : string;
  ie_macAddress : MACAddress;
  ie_token : Z * Z;
  ie_mtu : Z;
  ie_broadcast : bool;
  ie_multicast : bool;
  ie_pointToPoint : bool;
}.

Definition isalnum (c : ascii) : bool := isdigit c || islower c || between "A" "Z" c.

Fixpoint interfaceName (fullName : string) : string :=
  match fullName with
  | EmptyString => EmptyString
  | String c s => if isalnum c then String c (interfaceName s) else interfaceName s
  end.

(** [ift]: whether the host has an interface table. *)
Definition registerInterface (ift : bool) (fullName : string) (a : MACAddress) (mtu : Z) : option InterfaceEntry :=
  if ift then Some (mkInterfaceEntry (interfaceName fullName) a (formInterfaceIdentifier a) mtu true true false)
  else None.

Record Params := mkParams {
  p_fixFSM : bool;
  p_maxQueueSize : Z;
  p_bitrate : Z;
  p_rtsThresholdBytes : Z;
  p_retryLimit : Z;
  p_cwMinData : Z;
  p_cwMinBroadcast : Z;
  p_address : string;
  p_queueModule : bool;
  p_radio : Z;
}.

(** [initialize(0)] with the counter of automatic addresses; the address chosen is
    also written to the parameter. *)
Definition initialize {P} (p : Params) (autoAddressCtr : Z) : outcome (Ieee80211Mac P * Z) :=
  let transmissionLimit := if p_retryLimit p =? -1 then 7 else p_retryLimit p in
  check (0 <? transmissionLimit) (AssertFailed "transmissionLimit > 0");;
  let cwMinData := if p_cwMinData p =? -1 then CW_MIN else p_cwMinData p in
  check (0 <=? cwMinData) (AssertFailed "cwMinData >= 0");;
  let cwMinBroadcast := if p_cwMinBroadcast p =? -1 then 31 else p_cwMinBroadcast p in
  check (0 <=? cwMinBroadcast) (AssertFailed "cwMinBroadcast >= 0");;
  '(a, ctr) ← (if (p_address p =? "auto")%string then Ok (generateAutoAddress autoAddressCtr)
               else a ← setAddress (Some (p_address p)) UNSPECIFIED_ADDRESS; Ok (a, autoAddressCtr));
  let requests := if p_queueModule p then [RequestPacket; RequestPacket] else [] in
  Ok (mkMac (mkConfig a (p_bitrate p) (2 * 10 ^ 6) (p_maxQueueSize p) (p_rtsThresholdBytes p) transmissionLimit
               cwMinData cwMinBroadcast (p_fixFSM p) (p_queueModule p) (p_radio p))
        IDLE DCF 0 false false false invalidBackoff 0 RadioState.IDLE [] None true
        (fun _ => None) None 0 (mkStats 0 0 0 0 0 0 0 0 0 0) 0 O requests, ctr).
