(* ===== verification/WifiKeeps.v ===== *)
(** * The 802.11 MAC: predicates kept by every path through the state machine

    A predicate that every action keeps, on entering a state and on each transition, is
    kept by every event, whatever the state machine does with it. *)

From S2P Require Import Prelude MACAddress WifiTypes WifiMac WifiFsm.

Open Scope string_scope.
Open Scope list_scope.
Open Scope Z_scope.
#[local] Set Default Proof Using "All".

(** Follows a computation into the functions it calls; [tac] settles the writes. *)
Ltac head_of m := lazymatch m with ?f _ => head_of f | _ => m end.
Ltac follow_step tac :=
  first
  [ solve [auto 2 with keeps]
  | solve [tac]
  | apply keeps_bind; [|intros ?]
  | apply keeps_when
  | progress cbv zeta
  | match goal with
    | |- keeps _ (if ?b then _ else _) => destruct b
    | |- keeps _ (match ?x with _ => _ end) => destruct x
    | |- keeps _ (modify _) => apply keeps_modify; intros ? Hv; exact Hv
    | |- keeps _ ?m => let h := head_of m in unfold h
    end ].
Ltac follow tac := repeat follow_step tac.

Section machine.
Context {P : Type} `{WifiEnv} (I : Ieee80211Mac P -> Prop) (msg : fmsg P).

(** The actions of the transitions that states of [I] take keep [I]; a transition is looked
    at where those before it were passed over. *)
Fixpoint kept (ev : bool) (ts : list (transition P)) : Prop :=
  match ts with
  | [] => True
  | t :: ts =>
      ((exists s, I s /\ condition t s = Ok true) -> on_event t = ev -> keeps I (action t)) /\
      ((exists s, I s /\ condition t s = Ok false) \/ on_event t <> ev -> kept ev ts)
  end.

(** The interface to a predicate: it is kept by all actions of the machine on [msg]. *)
Class MachineKeeps : Prop := {
  mk_state st : keeps I (upd (fun s => s<| fsm := st |>));
  mk_enter st : keeps I (enter_action msg st);
  mk_action st s ev : kept ev (state_transitions msg st s);
  mk_noFrame : keeps I (upd (fun s => s<| noFrame := false |>));
  mk_failed b : keeps I (upd (fun s => s<| lastReceiveFailed := b |>));
  mk_reserve f : keeps I (scheduleReservePeriod f);
}.

Lemma kept_forall ev ts : Forall (fun t => keeps I (action t)) ts -> kept ev ts.
Proof using Type. induction 1; cbn [kept]; auto. Qed.

(** Turns without an event: what follows the transition an event caused. *)
Class TurnKeeps (ev : bool) : Prop := {
  tk_state st : keeps I (upd (fun s => s<| fsm := st |>));
  tk_enter st : keeps I (enter_action msg st);
  tk_action st s : kept ev (state_transitions msg st s);
}.

Lemma keeps_transitions ev ts :
  (forall st, keeps I (upd (fun s => s<| fsm := st |>))) -> kept ev ts -> keeps I (FSMA_Transitions ev ts).
Proof using Type.
  intros Hst. induction ts as [|t ts IH]; cbn [FSMA_Transitions kept]; [intros _; apply keeps_ret|].
  intros [Ht Hts] s Hs. apply wpe_bind, wpe_gets, wpe_bind, wpe_lift. cbv [id].
  destruct (condition t s) as [c|] eqn:Ec; [|done].
  destruct (c && Bool.eqb (on_event t) ev) eqn:Eb.
  - apply andb_true_iff in Eb as [-> Ev%Bool.eqb_prop].
    apply wpe_bind. eapply wpe_mono; [apply Ht; [by exists s | done | done]|]. intros [] s1 H1.
    apply wpe_bind. eapply wpe_mono; [by apply Hst|]. intros [] s2 H2. by apply wpe_ret.
  - apply IH; [|done]. apply Hts. apply andb_false_iff in Eb as [-> | Ev%Bool.eqb_false_iff]; [left; eauto | by right].
Qed.

Lemma keeps_turn ev : TurnKeeps ev -> keeps I (fsm_body msg ev).
Proof using Type.
  intros [Hst He Ha]. apply keeps_bind; [apply keeps_gets|]. intros s. apply keeps_bind; [apply keeps_when, He|]. intros _.
  apply keeps_bind; [apply keeps_gets|]. intros s'. by apply keeps_transitions.
Qed.

Lemma keeps_rest n : TurnKeeps false -> keeps I (FSMA_Switch n false (fsm_body msg)).
Proof using Type.
  intros Ht. induction n as [|n IH]; cbn [FSMA_Switch]; [apply keeps_fail|].
  apply keeps_bind; [by apply keeps_turn|]. intros []; [done | apply keeps_ret].
Qed.

Context `{MachineKeeps}.

#[local] Instance machine_turn ev : TurnKeeps ev.
Proof. split; intros; [apply mk_state | apply mk_enter | apply mk_action]. Qed.

Lemma keeps_switch n ev : keeps I (FSMA_Switch n ev (fsm_body msg)).
Proof.
  destruct n as [|n]; cbn [FSMA_Switch]; [apply keeps_fail|].
  apply keeps_bind; [apply keeps_turn, _|]. intros []; [apply keeps_rest, _ | apply keeps_ret].
Qed.

Lemma keeps_FSM : keeps I (handleWithFSM msg).
Proof.
  apply keeps_bind; [apply keeps_gets|]. intros s. apply keeps_bind; [apply keeps_when, mk_noFrame|]. intros _.
  case_match; [apply keeps_ret|]. apply keeps_bind; [|intros _; apply keeps_switch].
  destruct msg; [apply keeps_ret..|]. apply keeps_bind; [apply mk_failed|]. intros _. apply mk_reserve.
Qed.
End machine.

(** The transitions of all states, one by one. *)
Ltac all_actions tac :=
  apply kept_forall; match goal with |- Forall _ (state_transitions _ ?st _) => destruct st end;
  cbn [state_transitions]; unfold IDLE_transitions, WAITDIFS_transitions, BACKOFF_transitions, transmissions,
    DEFER_transitions, WAITACK_transitions, WAITBROADCAST_transitions, WAITCTS_transitions, timeouts,
    WAITSIFS_transitions, RECEIVE_transitions; repeat case_match; cbn [app];
  repeat (constructor; [cbn [action FSMA_Event_Transition FSMA_No_Event_Transition]; follow tac|]); constructor.

(** ** The parameters are never written *)

Section config.
Context {P : Type} `{WifiEnv}.

#[export] Instance config_kept (c : Config) msg : MachineKeeps (fun s : Ieee80211Mac P => cfg s = c) msg.
Proof. split; intros; first [all_actions ltac:(fail) | follow ltac:(fail)]. Qed.

Lemma handleMessage_cfg c (m : wmsg P) : keeps (fun s => cfg s = c) (handleMessage m).
Proof.
  pose proof (keeps_FSM (fun s : Ieee80211Mac P => cfg s = c)) as Hf.
  destruct m; cbn [handleMessage]; unfold handleSelfMsg, handleUpperMsg, handleLowerMsg, receiveChangeNotification;
    follow ltac:(apply Hf; apply _).
Qed.
End config.

(** ** What was put out stays *)

Section grows.
Context {P : Type} `{WifiEnv} (l0 : list (wevent P)).

Definition grows (s : Ieee80211Mac P) : Prop := exists l, out s = l0 ++ l.

Lemma grows_emit e : keeps grows (emit e).
Proof.
  apply keeps_modify. intros s [l El]. exists (l ++ [e]). change (out s ++ [e] = l0 ++ l ++ [e]).
  by rewrite El, (assoc_L (++)).
Qed.

#[export] Instance grows_kept msg : MachineKeeps grows msg.
Proof. split; intros; first [all_actions ltac:(apply grows_emit) | follow ltac:(apply grows_emit)]. Qed.

Lemma handleMessage_grows (m : wmsg P) : keeps grows (handleMessage m).
Proof.
  pose proof (keeps_FSM grows) as Hf.
  destruct m; cbn [handleMessage]; unfold handleSelfMsg, handleUpperMsg, handleLowerMsg, receiveChangeNotification, handleCommand;
    follow ltac:(first [apply grows_emit | apply Hf; apply _]).
Qed.
End grows.
