(* ===== verification/WifiInv.v ===== *)
(** * The 802.11 MAC: an invariant of its events

    Which self messages are scheduled in which state of the machine, what is known of
    the queue, the backoff period and the medium there, and that no admissible event
    makes the module fail: neither an [ASSERT], nor the kernel's checks, nor a null
    pointer, nor the bound of the macros on the number of transitions. *)

From S2P Require Import Prelude MACAddress WifiTypes WifiMac WifiFsm.

Open Scope string_scope.
Open Scope list_scope.
Open Scope Z_scope.

(** ** Frames and parameters *)

(** The dynamic class and the type field of a frame agree, and it announces a time that
    suffices for the answer it asks for. *)
Record frame_ok {P} (f : Ieee80211Frame P) : Prop := {
  ok_rts : type f = ST_RTS <-> fclass f = Ieee80211RTSFrame;
  ok_cts : type f = ST_CTS <-> fclass f = Ieee80211CTSFrame;
  ok_ack : type f = ST_ACK <-> fclass f = Ieee80211ACKFrame;
  ok_receiver : mac_wf (receiverAddress f);
  ok_transmitter : mac_wf (transmitterAddress f);
  ok_duration : 0 <= duration f;
  ok_rts_duration : fclass f = Ieee80211RTSFrame ->
    getSIFS + computeFrameDuration LENGTH_CTS (2 * 10 ^ 6) <= duration f;
  ok_fragment : is_DataOrMgmt (fclass f) = true -> moreFragments f = true ->
    isBroadcast (receiverAddress f) = false ->
    getSIFS + computeFrameDuration LENGTH_ACK (2 * 10 ^ 6) <= duration f;
}.

(** A frame the upper layer may give: of the right class, not too long, with a receiver. *)
Record upper_ok {P} (f : Ieee80211Frame P) : Prop := {
  uo_class : is_DataOrMgmt (fclass f) = true;
  uo_type : type f <> ST_RTS /\ type f <> ST_CTS /\ type f <> ST_ACK;
  uo_length : 0 <= byteLength f <= fragmentationThreshold;
  uo_receiver : isUnspecified (receiverAddress f) = false;
  uo_addresses : mac_wf (receiverAddress f) /\ mac_wf (transmitterAddress f);
}.

Record cfg_ok (c : Config) : Prop := {
  co_limit : 0 < transmissionLimit c;
  co_data : 0 <= cwMinData c;
  co_broadcast : 0 <= cwMinBroadcast c;
  co_bitrate : 0 < bitrate c;
  co_basic : basicBitrate c = 2 * 10 ^ 6;
  co_window : transmissionLimit c <= 31 /\ (cwMinData c + 1) * 2 ^ (transmissionLimit c - 1) <= INT_MAX;
  co_queue : queueModule c = true;
  co_address : isBroadcast (address c) = false;
  co_address_wf : mac_wf (address c);
}.

(** Data frames sent to the radio since a frame was last taken off the queue. *)
Definition count_sent {P} (n : Z) (e : wevent P) : Z :=
  match e with
  | RequestPacket => 0
  | SendDown f => if is_DataOrMgmt (fclass f) then n + 1 else n
  | _ => n
  end.
Definition sentSincePop {P} (l : list (wevent P)) : Z := foldl count_sent 0 l.

Lemma sentSincePop_snoc {P} (l : list (wevent P)) e : sentSincePop (l ++ [e]) = count_sent (sentSincePop l) e.
Proof. unfold sentSincePop. by rewrite foldl_app. Qed.

(** The largest contention window. *)
Definition max_window (c : Config) : Z := Z.max CW_MAX (cwMinBroadcast c).

(** ** Timers *)

Lemma set_timer_eq t v g : set_timer t v g t = v.
Proof. unfold set_timer. by rewrite bool_decide_true. Qed.
Lemma set_timer_ne t u v g : u <> t -> set_timer t v g u = g u.
Proof. intros. unfold set_timer. by rewrite bool_decide_false. Qed.
Create Rewrite HintDb wtimer.
#[export] Hint Rewrite set_timer_eq : wtimer.
#[export] Hint Rewrite set_timer_ne using done : wtimer.

(** Class and type of a frame just created. *)
Ltac class_type :=
  lazymatch goal with
  | |- _ <-> _ => lazy; split; congruence
  | |- _ = _ -> _ => intros [=]
  end.

Ltac core_split := split; wsimp; try fast_done.

Section inv.
Context {P : Type} `{WifiEnvOk}.
Local Abbreviation Frame := (Ieee80211Frame P).
Local Abbreviation Mac := (Ieee80211Mac P).
Implicit Types (s : Mac) (f : Frame) (msg : fmsg P).

(** ** The invariant *)

(** What holds in every state of the machine, also between two transitions: a predicate
    of the members it speaks of, so that writing to others is invisible to it. *)
Record core_of (c : Config) (retryC period now seq : Z) (tm : wtimer -> option Z) (navFlag : bool)
    (queue : list Frame) (ctx : option Frame) (o : list (wevent P)) : Prop := {
  c_cfg : cfg_ok c;
  c_retry : 0 <= retryC < transmissionLimit c;
  c_backoff : period = invalidBackoff \/ 0 <= period <= max_window c * getSlotTime;
  c_timers : forall t u, tm t = Some u -> now <= u;
  c_nav : navFlag = true <-> is_Some (tm endReserve);
  c_change : forall t, tm mediumStateChange = Some t ->
    t = now /\ exists e, tm endReserve = Some e /\ now < e;
  c_queue : Forall upper_ok queue;
  c_context : forall f, ctx = Some f -> frame_ok f;
  c_out : forall f, SendDown f ∈ o -> frame_ok f;
  c_empty : queue = [] -> sentSincePop o = 0;
  c_seq : 0 <= seq < 4096;
}.
Definition core s : Prop :=
  core_of (cfg s) (retryCounter s) (backoffPeriod s) (simTime s) (sequenceNumber s) (timers s) (nav s)
    (transmissionQueue s) (sifsContext s) (out s).

(** None of the self messages of the waiting states is left behind. *)
Record quiet_of (tm : wtimer -> option Z) : Prop := {
  q_sifs : tm endSIFS = None;
  q_difs : tm endDIFS = None;
  q_backoff : tm endBackoff = None;
  q_timeout : tm endTimeout = None;
}.
Definition quiet s : Prop := quiet_of (timers s).

(** The number of data transmissions of the frame at the front of the queue. *)
Definition tries s : Prop := fixFSM (cfg s) = true -> sentSincePop (out s) <= retryCounter s.
Definition trying s : Prop := fixFSM (cfg s) = true -> sentSincePop (out s) <= retryCounter s + 1.

(** What the machine waits for in WAITSIFS. *)
Definition sifs_frame s f : Prop :=
  frame_ok f /\
  (fclass f = Ieee80211RTSFrame
   \/ fclass f = Ieee80211CTSFrame /\ transmissionQueue s <> []
   \/ is_DataOrMgmt (fclass f) = true /\ isForUs s (Some f) = true).

(** The states in which events find the machine: its self messages, the queue and the
    backoff ... *)
Definition poised s : Prop :=
  match fsm s with
  | IDLE => quiet s /\ transmissionQueue s = [] /\ (backoffPeriod s = invalidBackoff \/ backoffPeriod s = 0)
      /\ tries s
  | DEFER => quiet s /\ backoff s = true /\ tries s
  | WAITDIFS =>
      (timers s endSIFS = None /\ is_Some (timers s endDIFS) /\ timers s endBackoff = None /\ timers s endTimeout = None)
      /\ (transmissionQueue s = [] -> backoff s = true) /\ tries s
  | BACKOFF =>
      (timers s endSIFS = None /\ timers s endDIFS = None /\ timers s endTimeout = None)
      /\ (timers s endBackoff = Some (backoffSent s + backoffPeriod s) /\ backoffSent s <= simTime s /\ 0 <= backoffPeriod s)
      /\ backoff s = true /\ tries s
  | WAITACK | WAITBROADCAST | WAITCTS =>
      (timers s endSIFS = None /\ timers s endDIFS = None /\ timers s endBackoff = None /\ is_Some (timers s endTimeout))
      /\ transmissionQueue s <> [] /\ trying s /\ (fsm s = WAITCTS -> tries s)
  | WAITSIFS =>
      (is_Some (timers s endSIFS) /\ timers s endDIFS = None /\ timers s endBackoff = None /\ timers s endTimeout = None)
      /\ (exists f, sifsContext s = Some f /\ sifs_frame s f) /\ tries s
  | RECEIVE => False
  end.

(** ... and the medium: it waits for a free one in DEFER, and finds it free while it counts
    down, or is about to be told otherwise. *)
Definition sensed s : Prop :=
  match fsm s with
  | DEFER => isMediumFree s = false
  | WAITDIFS => isMediumFree s = true
  | BACKOFF => isMediumFree s = true \/ is_Some (timers s mediumStateChange)
  | _ => True
  end.

Definition winv s : Prop := core s /\ poised s /\ sensed s.

(** The machine between two transitions, about to enter a state. *)
Definition entering msg (st : State) s : Prop :=
  fsm s = st /\ core s /\ quiet s /\
  match st with
  | IDLE => (transmissionQueue s = [] -> backoffPeriod s = 0) /\
            (transmissionQueue s <> [] -> backoff s = true) /\ tries s
  | DEFER | WAITDIFS => (transmissionQueue s = [] -> backoff s = true) /\ tries s
  | BACKOFF => backoff s = true /\ 0 <= backoffPeriod s /\ isMediumFree s = true /\ tries s
  | WAITACK | WAITBROADCAST => transmissionQueue s <> [] /\ trying s
  | WAITCTS => transmissionQueue s <> [] /\ tries s
  | WAITSIFS => (exists f, msg = Lower f /\ sifs_frame s (dup f)) /\ tries s
  | RECEIVE => (exists f, msg = Lower f /\ frame_ok f) /\ tries s
  end.

(** ** Rules *)

Lemma wp_switch {F : fault -> Prop} n ev (body : bool -> M Mac bool) Q s :
  wpe F (body ev) (fun c s' => if c : bool then wpe F (FSMA_Switch n false body) Q s' else Q tt s') s ->
  wpe F (FSMA_Switch (S n) ev body) Q s.
Proof.
  intros Hb. cbn [FSMA_Switch]. apply wpe_bind. eapply wpe_mono; [exact Hb|].
  intros [] s'; [done | apply wpe_ret].
Qed.

Lemma wp_transition {F : fault -> Prop} ev (t : transition P) ts Q s c :
  condition t s = Ok c ->
  (c && Bool.eqb (on_event t) ev = true -> wpe F (action t) (fun _ s1 => Q true (s1<| fsm := target t |>)) s) ->
  (c && Bool.eqb (on_event t) ev = false -> wpe F (FSMA_Transitions ev ts) Q s) ->
  wpe F (FSMA_Transitions ev (t :: ts)) Q s.
Proof.
  intros Hc Ht Hf. cbn [FSMA_Transitions]. apply wpe_bind, wpe_gets, wpe_bind, wpe_lift. cbv [id]. rewrite Hc.
  destruct (c && Bool.eqb (on_event t) ev); [|by apply Hf].
  apply wpe_bind. eapply wpe_mono; [by apply Ht|]. intros [] s1 HQ. by apply wpe_bind, wpe_modify, wpe_ret.
Qed.

Lemma wp_scheduleAt {F : fault -> Prop} time t (Q : unit -> Mac -> Prop) s :
  timers s t = None -> simTime s <= time ->
  Q tt (s<| timers ::= set_timer t (Some time) |>) -> wpe F (scheduleAt time t) Q s.
Proof.
  intros Ht Hle HQ. unfold scheduleAt. apply wpe_bind, wpe_gets. cbv [id]. unfold isScheduled.
  rewrite bool_decide_false by (rewrite Ht; by intros [? [=]]).
  rewrite (proj2 (Z.ltb_ge _ _)) by lia. by apply wpe_modify.
Qed.

Lemma wp_deref {F : fault -> Prop} f (Q : Frame -> Mac -> Prop) s : Q f s -> wpe F (deref (Some f)) Q s.
Proof. done. Qed.

(** ** The core is kept *)


Lemma core_set_timer t time s :
  t <> endReserve -> t <> mediumStateChange -> simTime s <= time ->
  core s -> core (s<| timers ::= set_timer t (Some time) |>).
Proof.
  intros H1 H2 Hle []. core_split.
  - intros u v. destruct (decide (u = t)) as [->|]; autorewrite with wtimer; [intros [= <-]; lia | eauto].
  - by autorewrite with wtimer.
  - autorewrite with wtimer. eauto.
Qed.

Lemma core_cancel t s : t <> endReserve -> core s -> core (s<| timers ::= set_timer t None |>).
Proof.
  intros H1 []. core_split.
  - intros u v. destruct (decide (u = t)) as [->|]; autorewrite with wtimer; [done | eauto].
  - by autorewrite with wtimer.
  - destruct (decide (t = mediumStateChange)) as [->|]; autorewrite with wtimer; [done | eauto].
Qed.

(** What is put out, apart from frames to the radio and requests. *)
Definition plain (e : wevent P) : bool :=
  match e with SendDown _ | RequestPacket => false | _ => true end.

Lemma plain_sent e l : plain e = true -> sentSincePop (l ++ [e]) = sentSincePop l.
Proof. intros. rewrite sentSincePop_snoc. by destruct e. Qed.

Lemma core_emit e s : plain e = true -> core s -> core (s<| out ::= fun l => l ++ [e] |>).
Proof.
  intros He []. core_split.
  - intros f Hf. apply elem_of_app in Hf as [|Hf%list_elem_of_singleton]; [eauto | by subst e].
  - rewrite plain_sent by done. auto.
Qed.

Lemma core_sendDown f s :
  frame_ok f -> (is_DataOrMgmt (fclass f) = true -> transmissionQueue s <> []) ->
  core s -> core (s<| out ::= fun l => l ++ [SendDown f] |>).
Proof.
  intros Hf Hq []. core_split.
  - intros f' Hf'. apply elem_of_app in Hf' as [|[= ->]%list_elem_of_singleton]; eauto.
  - intros E. rewrite sentSincePop_snoc. cbn. destruct (is_DataOrMgmt (fclass f)); [by specialize (Hq eq_refl)|eauto].
Qed.

Lemma core_period p s :
  p = invalidBackoff \/ 0 <= p <= max_window (cfg s) * getSlotTime -> core s -> core (s<| backoffPeriod := p |>).
Proof. intros Hp []. by split. Qed.

(** ** The frames built are in order *)

Lemma computeFrameDuration_pos bits rate : 0 <= bits -> 0 < rate -> 192 * usec <= computeFrameDuration bits rate.
Proof.
  intros. unfold computeFrameDuration. replace (PHY_HEADER_LENGTH * sec / BITRATE_HEADER) with (192 * usec) by done.
  assert (0 <= bits * sec / rate) by (apply Z.div_pos; [unfold sec; lia | done]). lia.
Qed.

Lemma frameDuration_pos s f : cfg_ok (cfg s) -> 0 <= byteLength f -> 192 * usec <= frameDuration s f.
Proof. intros [] ?. apply computeFrameDuration_pos; lia. Qed.

Lemma unspecified_wf : mac_wf UNSPECIFIED_ADDRESS.
Proof. split; [done|]. repeat constructor; lia. Qed.

Lemma data_class c :
  is_DataOrMgmt c = true -> c <> Ieee80211RTSFrame /\ c <> Ieee80211CTSFrame /\ c <> Ieee80211ACKFrame.
Proof. by destruct c. Qed.

(** A data frame with any announced time, if it is long enough. *)
Lemma data_frame_ok f d :
  upper_ok f -> 0 <= d ->
  (moreFragments f = true -> isBroadcast (receiverAddress f) = false ->
   getSIFS + computeFrameDuration LENGTH_ACK (2 * 10 ^ 6) <= d) ->
  frame_ok ((dup f)<| duration := d |>).
Proof.
  intros [Hcl (Ht1 & Ht2 & Ht3) _ _ [??]] Hd Hfr. destruct (data_class _ Hcl) as (? & ? & ?).
  split; unfold dup; wsimp; try fast_done; try tauto.
Qed.

Lemma buildDataFrame_ok s f : cfg_ok (cfg s) -> upper_ok f -> frame_ok (buildDataFrame s f).
Proof.
  intros Hc Hu. pose proof (frameDuration_pos s f Hc (proj1 (uo_length _ Hu))) as Hd.
  pose proof (computeFrameDuration_pos LENGTH_ACK (2 * 10 ^ 6) ltac:(done) ltac:(done)) as Ha.
  unfold buildDataFrame, isBroadcastFrame. rewrite (co_basic _ Hc). unfold getSIFS, SIFS, usec in *.
  destruct (isBroadcast (receiverAddress f)) eqn:Eb; [|destruct (moreFragments f) eqn:Em];
    cbn [negb]; apply data_frame_ok; unfold getSIFS, SIFS, usec; try fast_done; try lia; congruence.
Qed.

Lemma buildBroadcastFrame_ok f : upper_ok f -> isBroadcast (receiverAddress f) = true -> frame_ok (buildBroadcastFrame f).
Proof. intros Hu Hb. apply data_frame_ok; [done | lia | congruence]. Qed.

Lemma buildRTSFrame_ok s f : cfg_ok (cfg s) -> upper_ok f -> frame_ok (buildRTSFrame s f).
Proof.
  intros Hc [_ _ [Hl _] _ [? _]]. pose proof (co_address_wf _ Hc). pose proof (frameDuration_pos s f Hc Hl) as Hd.
  pose proof (computeFrameDuration_pos LENGTH_ACK (2 * 10 ^ 6) ltac:(done) ltac:(done)) as Ha.
  pose proof (computeFrameDuration_pos LENGTH_CTS (2 * 10 ^ 6) ltac:(done) ltac:(done)) as Hct.
  unfold buildRTSFrame. rewrite (co_basic _ Hc).
  split; wsimp; unfold getSIFS, SIFS, usec in *; try fast_done; try lia; class_type.
Qed.

Lemma buildCTSFrame_ok s f :
  cfg_ok (cfg s) -> frame_ok f -> fclass f = Ieee80211RTSFrame -> frame_ok (buildCTSFrame s f).
Proof.
  intros Hc Hf Ef. pose proof (ok_rts_duration f Hf Ef). pose proof (ok_transmitter f Hf).
  pose proof unspecified_wf. unfold buildCTSFrame. rewrite (co_basic _ Hc).
  split; wsimp; try fast_done; try lia; class_type.
Qed.

Lemma buildACKFrame_ok s f :
  cfg_ok (cfg s) -> frame_ok f -> is_DataOrMgmt (fclass f) = true -> isBroadcast (receiverAddress f) = false ->
  frame_ok (buildACKFrame s f).
Proof.
  intros Hc Hf Ef Hb. pose proof (ok_fragment f Hf Ef). pose proof (ok_transmitter f Hf).
  pose proof unspecified_wf. unfold buildACKFrame. rewrite (co_basic _ Hc).
  destruct (moreFragments f) eqn:Em; cbn [negb]; split; wsimp; try fast_done; try lia; try class_type.
  specialize (H1 eq_refl Hb). lia.
Qed.

(** The control info of a frame is not looked at. *)
Lemma frame_ok_ctrl f c : frame_ok f -> frame_ok (f<| controlInfo := c |>).
Proof. intros []. by split. Qed.

(** ** Entering a state *)

Lemma wp_enter {F : fault -> Prop} msg st s Q :
  fsm s = st ->
  wpe F (enter_action msg st) (fun _ s1 => wpe F (FSMA_Transitions false (state_transitions msg st s1)) Q s1) s ->
  wpe F (fsm_body msg false) Q s.
Proof.
  intros E Ha. unfold fsm_body. apply wpe_bind, wpe_gets. cbv [id]. rewrite E. apply wpe_bind.
  cbn [FSMA_Enter when negb]. eapply wpe_mono; [exact Ha|]. intros [] s1 H1. by apply wpe_bind, wpe_gets.
Qed.

Lemma wp_event {F : fault -> Prop} msg st s Q :
  fsm s = st -> wpe F (FSMA_Transitions true (state_transitions msg st s)) Q s -> wpe F (fsm_body msg true) Q s.
Proof.
  intros E Ha. unfold fsm_body. apply wpe_bind, wpe_gets. cbv [id]. rewrite E. apply wpe_bind.
  cbn [FSMA_Enter when negb]. by apply wpe_ret, wpe_bind, wpe_gets.
Qed.

(** Entering a state, only its transitions without an event are looked at. *)
Lemma wp_no_event {F : fault -> Prop} (ts : list (transition P)) Q s :
  Forall (fun t => on_event t = true /\ exists c, condition t s = Ok c) ts -> Q false s ->
  wpe F (FSMA_Transitions false ts) Q s.
Proof.
  intros Hts HQ. induction Hts as [|t ts [Ht [c Hc]] _ IH]; [by apply wpe_ret|].
  apply (wp_transition _ _ _ _ _ _ Hc); rewrite Ht; cbn; rewrite andb_false_r; done.
Qed.

(** The transitions at hand all answer an event. *)
Ltac events_only :=
  apply wp_no_event; [repeat (constructor; [split; [reflexivity | eexists; reflexivity]|]); constructor|].

Lemma upper_head s f q : core s -> transmissionQueue s = f :: q -> upper_ok f.
Proof. intros [] E. rewrite E in c_queue0. by inversion_clear c_queue0. Qed.

Lemma core_cfg s : core s -> cfg_ok (cfg s).
Proof. by intros []. Qed.

(** The answers waited for take some time. *)
Lemma timeouts_pos s f :
  core s -> upper_ok f -> 0 <= frameDuration s f /\ 0 <= dataTimeout s f /\
  0 <= computeFrameDuration LENGTH_RTS (basicBitrate (cfg s)) /\
  0 <= computeFrameDuration LENGTH_CTS (basicBitrate (cfg s)).
Proof.
  intros Hc%core_cfg Hu. unfold dataTimeout, getSIFS, SIFS, MAX_PROPAGATION_DELAY, usec. rewrite (co_basic _ Hc).
  pose proof (frameDuration_pos s f Hc (proj1 (uo_length _ Hu))) as Hd. unfold usec in Hd.
  pose proof (fun b Hb => computeFrameDuration_pos b (2 * 10 ^ 6) Hb ltac:(done)) as Ha. unfold usec in Ha.
  pose proof (Ha LENGTH_ACK ltac:(done)). pose proof (Ha LENGTH_CTS ltac:(done)).
  pose proof (Ha LENGTH_RTS ltac:(done)). lia.
Qed.

Lemma waiting_inv st time s :
  st = WAITACK \/ st = WAITBROADCAST \/ st = WAITCTS -> fsm s = st -> core s -> quiet s ->
  transmissionQueue s <> [] -> trying s -> (st = WAITCTS -> tries s) -> simTime s <= time ->
  winv (s<| timers ::= set_timer endTimeout (Some time) |>).
Proof.
  intros Hst E Hc [] Hq Ht Ht' Hle. split; [by apply core_set_timer|]. unfold poised, sensed. wsimp. rewrite E.
  autorewrite with wtimer. destruct Hst as [ -> | [ -> | -> ]]; repeat split; auto; by eexists.
Qed.

Lemma enter_waiting msg st n s :
  st = WAITACK \/ st = WAITBROADCAST \/ st = WAITCTS -> entering msg st s ->
  wp (FSMA_Switch (S n) false (fsm_body msg)) (fun _ => winv) s.
Proof.
  intros Hst (E & Hc & Hqt & Hq). apply wp_switch, (wp_enter msg st); [done|].
  assert (transmissionQueue s <> []) as Hne by (by destruct Hst as [ -> | [ -> | -> ]], Hq).
  assert (trying s) as Ht.
  { destruct Hst as [ -> | [ -> | -> ]]; destruct Hq as [_ Hq]; auto. intros Hx. specialize (Hq Hx). lia. }
  assert (st = WAITCTS -> tries s) as Ht' by (by intros ->; destruct Hq).
  pose proof (waiting_inv st) as Hend.
  destruct (transmissionQueue s) as [|f q] eqn:Eq; [done|].
  pose proof (timeouts_pos s f Hc (upper_head _ _ _ Hc Eq)) as (Hp1 & Hp2 & Hp3 & Hp4).
  apply wpe_bind, wpe_gets. cbv [id]. unfold getCurrentTransmission. rewrite Eq. cbn [head].
  destruct Hst as [ -> | [ -> | -> ]];
    [apply wpe_bind, wp_deref | apply wpe_bind, wp_deref | unfold scheduleCTSTimeoutPeriod];
    (apply wpe_bind, wpe_gets; cbv [id]; apply wp_scheduleAt;
     [apply q_timeout, Hqt | unfold getSIFS, SIFS, MAX_PROPAGATION_DELAY, usec; lia |];
     events_only; apply Hend);
    rewrite ?Eq; auto; unfold getSIFS, SIFS, MAX_PROPAGATION_DELAY, usec; lia.
Qed.

Lemma enter_sifs msg n s :
  entering msg WAITSIFS s -> wp (FSMA_Switch (S n) false (fsm_body msg)) (fun _ => winv) s.
Proof.
  intros (E & Hc & Hqt & (f & -> & Hf) & Ht). apply wp_switch, (wp_enter _ WAITSIFS); [done|].
  apply wpe_bind, wpe_gets. cbv [id]. apply wpe_bind, wp_deref, wpe_bind, wpe_modify, wpe_bind, wpe_gets. cbv [id].
  apply wp_scheduleAt; [apply q_sifs, Hqt | wsimp; unfold getSIFS, SIFS, usec; lia |]. events_only.
  split; [|split; [|unfold sensed; wsimp; by rewrite E]].
  - apply core_set_timer; [done | done | wsimp; unfold getSIFS, SIFS, usec; lia |].
    destruct Hc, Hf. core_split. by intros ? [= <-].
  - unfold poised. wsimp. rewrite E. destruct Hqt. autorewrite with wtimer. split; [by eauto|]. eauto.
Qed.

Lemma enter_backoff msg n s :
  entering msg BACKOFF s -> wp (FSMA_Switch (S n) false (fsm_body msg)) (fun _ => winv) s.
Proof.
  intros (E & Hc & Hqt & Hb & Hp & Hfree & Ht). apply wp_switch, (wp_enter _ BACKOFF); [done|].
  apply wpe_bind, wpe_gets. cbv [id]. apply wpe_bind, wpe_gets. cbv [id]. apply wpe_bind, wp_scheduleAt;
    [apply q_backoff, Hqt | lia |]. apply wpe_modify.
  replace (state_transitions _ _ _) with (BACKOFF_transitions msg s) by reflexivity.
  unfold BACKOFF_transitions. destruct (queue_empty s); events_only.
  all: split; [apply core_set_timer; [done | done | lia | exact Hc]|split];
    [unfold poised | unfold sensed]; wsimp; rewrite E; destruct Hqt; autorewrite with wtimer; auto.
  all: repeat split; auto; lia.
Qed.

(** IDLE and DEFER pass on a command that waited, which changes nothing else. *)
Lemma wp_pending (Q : unit -> Mac -> Prop) s :
  (forall o p, Forall (fun e => plain e = true) o ->
     Q tt (s<| out ::= fun l => l ++ o |><| pendingRadioConfigMsg := p |>)) ->
  wp sendDownPendingRadioConfigMsg Q s.
Proof.
  intros HQ. apply wpe_bind, wpe_gets. cbv [id]. destruct (pendingRadioConfigMsg s) as [c|] eqn:E.
  - apply wpe_bind, wpe_modify, wpe_modify. by apply (HQ [SendDownCommand c] None); repeat constructor.
  - apply wpe_ret. specialize (HQ [] (pendingRadioConfigMsg s) ltac:(constructor)). cbv [set_] in HQ.
    rewrite app_nil_r in HQ. exact HQ.
Qed.

Lemma plain_app o l : Forall (fun e => plain e = true) o -> sentSincePop (l ++ o) = sentSincePop l.
Proof.
  intros Ho. revert l. induction Ho as [|e o He _ IH]; intros l; [by rewrite app_nil_r|].
  change (e :: o) with ([e] ++ o). rewrite (assoc_L (++)), IH. by apply plain_sent.
Qed.

Lemma core_plain o s : Forall (fun e => plain e = true) o -> core s -> core (s<| out ::= fun l => l ++ o |>).
Proof.
  intros Ho []. core_split.
  - intros f [Hf|Hf]%elem_of_app; [eauto|]. rewrite Forall_forall in Ho. by specialize (Ho _ Hf).
  - rewrite plain_app by done. auto.
Qed.

(** The count of transmissions is that of the frames put out. *)
Lemma tries_same s s1 :
  sentSincePop (out s1) = sentSincePop (out s) -> retryCounter s1 = retryCounter s -> cfg s1 = cfg s ->
  (tries s -> tries s1) /\ (trying s -> trying s1).
Proof. intros Ho Hr Hcf. unfold tries, trying. rewrite Ho, Hr, Hcf. auto. Qed.

Lemma entering_pending msg st o p s :
  Forall (fun e => plain e = true) o -> entering msg st s ->
  entering msg st (s<| out ::= fun l => l ++ o |><| pendingRadioConfigMsg := p |>).
Proof.
  intros Ho (E & Hc & Hq & Hst). split; [done|]. split; [by apply core_plain|]. split; [done|].
  destruct (tries_same s (s<| out ::= fun l => l ++ o |><| pendingRadioConfigMsg := p |>)) as [H1 H2];
    [|reflexivity|reflexivity|].
  { transitivity (sentSincePop (out s ++ o)); [reflexivity | by apply plain_app]. }
  destruct st; repeat (destruct Hst as [? Hst]); repeat split; auto.
Qed.

(** The first transition listed is not, or is, the one taken. *)
Lemma wp_pass {F : fault -> Prop} ev (t : transition P) ts Q s :
  (exists c, condition t s = Ok c /\ c && Bool.eqb (on_event t) ev = false) ->
  wpe F (FSMA_Transitions ev ts) Q s -> wpe F (FSMA_Transitions ev (t :: ts)) Q s.
Proof. intros (c & Hc & Hf) HQ. apply (wp_transition _ _ _ _ _ _ Hc); [by rewrite Hf | done]. Qed.
Lemma wp_take {F : fault -> Prop} ev (t : transition P) ts (Q : bool -> Mac -> Prop) s :
  condition t s = Ok true -> Bool.eqb (on_event t) ev = true ->
  wpe F (action t) (fun _ s1 => Q true (s1<| fsm := target t |>)) s -> wpe F (FSMA_Transitions ev (t :: ts)) Q s.
Proof. intros Hc Ht HQ. apply (wp_transition _ _ _ _ _ _ Hc); rewrite Ht; [done|by intros]. Qed.

(** A transition for an event is passed over when there is none, and the other way
    round; otherwise its condition decides. *)
Ltac skip := apply wp_pass; [eexists; split; [reflexivity | apply andb_false_r]|].
Ltac skip_if H := apply wp_pass; [eexists; split; [reflexivity | cbn; rewrite H; reflexivity]|].

Lemma enter_defer_busy msg n s :
  entering msg DEFER s -> isMediumFree s = false -> backoff s = true ->
  wp (FSMA_Switch (S n) false (fsm_body msg)) (fun _ => winv) s.
Proof.
  intros He Hfree Hb. apply wp_switch, (wp_enter _ DEFER); [apply He|].
  apply wpe_bind, wpe_gets. cbv [id]. apply wp_pending. intros o p Ho.
  pose proof (entering_pending _ _ o p s Ho He) as (E & Hc & Hqt & _ & Ht).
  assert (Hf : isMediumFree s || negb (backoff s) = false) by (by rewrite Hfree, Hb).
  skip. apply wp_pass. { eexists. split; [reflexivity|]. cbn. unfold isMediumFree, isScheduled in *. wsimp. by rewrite Hf. }
  skip. apply wpe_ret. split; [exact Hc|]. unfold poised, sensed. rewrite E. done.
Qed.

(** Transitions in front of others that all answer events. *)
Lemma wp_events_app (ts ts' : list (transition P)) Q s :
  Forall (fun t => on_event t = true /\ exists c, condition t s = Ok c) ts ->
  wp (FSMA_Transitions false ts') Q s -> wp (FSMA_Transitions false (ts ++ ts')) Q s.
Proof.
  intros Hts HQ. induction Hts as [|t ts [Ht [c Hc]] _ IH]; [done|]. cbn [app].
  apply wp_pass; [|done]. exists c. by rewrite Ht, andb_false_r.
Qed.

Lemma transmissions_events b t ready cleanup msg s :
  Forall (fun t => on_event t = true /\ exists c, condition t s = Ok c)
    (if b : bool then [] else transmissions t ready cleanup msg).
Proof. destruct b; repeat (constructor; [split; [reflexivity | eexists; reflexivity]|]); constructor. Qed.

Lemma wp_DIFS (Q : unit -> Mac -> Prop) s :
  timers s endDIFS = None ->
  (forall time, simTime s <= time -> Q tt (s<| timers ::= set_timer endDIFS (Some time) |>)) ->
  wp scheduleDIFSPeriod Q s.
Proof.
  intros Ht HQ. apply wpe_bind, wpe_gets. cbv [id].
  destruct (lastReceiveFailed s); apply wp_scheduleAt; try done; try apply HQ; vm_compute (getEIFS); vm_compute (getDIFS); lia.
Qed.

Lemma enter_difs msg n s :
  entering msg WAITDIFS s -> wp (FSMA_Switch (S (S n)) false (fsm_body msg)) (fun _ => winv) s.
Proof.
  intros (E & Hc & Hqt & Hb & Ht). apply wp_switch, (wp_enter _ WAITDIFS); [done|].
  apply wpe_bind, wpe_gets. cbv [id]. apply wp_DIFS; [apply q_difs, Hqt|]. intros time Hle.
  pose proof (core_set_timer endDIFS time s ltac:(done) ltac:(done) Hle Hc) as Hc1.
  apply wp_events_app; [apply transmissions_events|]. skip. skip.
  assert (isMediumFree (s<| timers ::= set_timer endDIFS (Some time) |>) = isMediumFree s) as Ef
    by (unfold isMediumFree, isScheduled; wsimp; by autorewrite with wtimer).
  destruct (isMediumFree s) eqn:Hfree.
  - skip_if Ef. skip. apply wpe_ret. split; [done|]. unfold poised, sensed. wsimp. rewrite E.
    destruct Hqt. autorewrite with wtimer. repeat split; auto; by eexists.
  - apply wp_take; [cbn; by rewrite Ef | done |]. apply wpe_bind, wpe_modify, wpe_modify. apply enter_defer_busy; [|..|done].
    + split; [done|]. split; [by apply core_cancel|]. destruct Hqt. repeat split; wsimp; by autorewrite with wtimer.
    + rewrite <- Ef. unfold isMediumFree, isScheduled. wsimp. by autorewrite with wtimer.
Qed.

Lemma enter_defer msg n s :
  entering msg DEFER s -> wp (FSMA_Switch (S (S (S n))) false (fsm_body msg)) (fun _ => winv) s.
Proof.
  intros He. destruct (isMediumFree s || negb (backoff s)) eqn:Hf.
  - apply wp_switch, (wp_enter _ DEFER); [apply He|].
    apply wpe_bind, wpe_gets. cbv [id]. apply wp_pending. intros o p Ho.
    pose proof (entering_pending _ _ o p s Ho He) as (E & Hc & Hqt & Hb & Ht).
    skip. apply wp_take; [cbn; unfold isMediumFree, isScheduled in *; wsimp; by rewrite Hf | done |].
    apply wpe_ret. by apply enter_difs.
  - apply orb_false_iff in Hf as [Hf Hb]. apply enter_defer_busy; [done | done | by destruct (backoff s)].
Qed.

(** Ready for IDLE: the outcome of a transmission or a reception. *)
Definition settled s : Prop :=
  core s /\ quiet s /\ (transmissionQueue s = [] -> backoffPeriod s = 0) /\
  (transmissionQueue s <> [] -> backoff s = true) /\ tries s.

Lemma enter_idle msg n s :
  fsm s = IDLE -> settled s -> wp (FSMA_Switch (S (S (S (S n)))) false (fsm_body msg)) (fun _ => winv) s.
Proof.
  intros E He. assert (entering msg IDLE s) as Hi by (split; [done | exact He]). clear E He.
  apply wp_switch, (wp_enter _ IDLE); [apply Hi|].
  apply wpe_bind, wpe_gets. cbv [id]. apply wp_pending. intros o p Ho.
  pose proof (entering_pending _ _ o p s Ho Hi) as (E & Hc & Hqt & Hb & Hb' & Ht). clear Hi.
  set (s1 := s<| out ::= _ |><| pendingRadioConfigMsg := _ |>) in *. clearbody s1. clear s. rename s1 into s.
  destruct (queue_empty s) eqn:Eq.
  - assert (transmissionQueue s = []) as E0 by (unfold queue_empty in Eq; by destruct (transmissionQueue s)).
    assert (winv s) as Hw. { split; [done|]. unfold poised, sensed. rewrite E. auto 10. }
    unfold state_transitions, IDLE_transitions. destruct (fixFSM (cfg s)); cbn [app]; [skip; skip_if Eq|];
      skip; skip_if Eq; skip; by apply wpe_ret.
  - assert (transmissionQueue s <> []) as E0 by (unfold queue_empty in Eq; by destruct (transmissionQueue s)).
    specialize (Hb' E0).
    assert (forall p, p = invalidBackoff \/ p = backoffPeriod s ->
      wp (FSMA_Switch (S (S (S n))) false (fsm_body msg)) (fun _ => winv) (s<| backoffPeriod := p |><| fsm := DEFER |>)) as Hd.
    { intros p' Hp'. apply enter_defer. split; [done|]. split; [|done]. apply (core_period p' s); [|done].
      destruct Hp' as [ -> | -> ]; [by left | by destruct Hc]. }
    apply negb_true_iff in Eq as Eq'.
    unfold state_transitions, IDLE_transitions. destruct (fixFSM (cfg s)); cbn [app]; [skip|].
    + destruct (0 <? backoffPeriod s) eqn:Ep.
      * apply wp_take; [cbn; by rewrite Eq', Ep | done |]. apply wpe_bind, wpe_gets, wpe_assert; [|cbv [id]; congruence].
        intros _. apply (Hd (backoffPeriod s)). by right.
      * apply wp_pass; [eexists; split; [reflexivity|]; cbn; by rewrite Ep, andb_false_r|].
        skip. apply wp_take; [cbn; by rewrite Eq' | done |]. apply wpe_modify, Hd. by left.
    + skip. apply wp_take; [cbn; by rewrite Eq' | done |]. apply wpe_modify, Hd. by left.
Qed.

(** ** The outcomes of transmissions and receptions *)

Lemma core_reset s : core s -> core (s<| backoffPeriod := 0 |><| retryCounter := 0 |>).
Proof.
  intros []. pose proof (co_limit _ c_cfg0). pose proof (co_broadcast _ c_cfg0). core_split; [lia|].
  right. unfold max_window, getSlotTime, ST, usec. lia.
Qed.

Lemma core_front f f' q s :
  transmissionQueue s = f :: q -> upper_ok f' -> core s -> core (s<| transmissionQueue := f' :: q |>).
Proof.
  intros E Hf []. rewrite E in c_queue0. core_split; [|intros [=]].
  constructor; [done|]. by inversion_clear c_queue0.
Qed.

Lemma upper_ok_retry f b : upper_ok f -> upper_ok (f<| retry := b |>).
Proof. intros []. by split. Qed.

(** The call of a method of the front of the queue. *)
Lemma wp_on_current g f q (Q : unit -> Mac -> Prop) s :
  transmissionQueue s = f :: q -> Q tt (s<| transmissionQueue := g f :: q |>) -> wp (on_current g) Q s.
Proof. intros E HQ. apply wpe_bind, wpe_gets. cbv [id]. rewrite E. by apply wpe_modify. Qed.

Lemma reset_settled s :
  core s -> quiet s -> (fixFSM (cfg s) = true -> sentSincePop (out s) = 0) ->
  wp resetStateVariables (fun _ => settled) s.
Proof.
  intros Hc Hq Hs. pose proof (core_reset s Hc) as Hr.
  assert (tries (s<| retryCounter := 0 |>)) as Ht by (intros Hx; wsimp; by rewrite Hs).
  apply wpe_bind, wpe_modify, wpe_bind, wpe_gets. cbv [id]. wsimp.
  destruct (transmissionQueue s) as [|f q] eqn:Eq.
  - apply wpe_modify. split; [exact Hr|]. split; [done|]. split; [done|]. split; [|exact Ht]. wsimp. by rewrite Eq.
  - apply wpe_bind, wpe_modify, (wp_on_current _ f q); [done|].
    split; [|split; [exact Hq|split; [wsimp; by intros|split; [done | exact Ht]]]].
    refine (core_front f _ q _ _ _ Hr); [done|]. apply upper_ok_retry. by apply (upper_head s f q).
Qed.

Lemma reception_settled s : core s -> quiet s -> tries s -> wp endReception (fun _ => settled) s.
Proof.
  intros Hc Hq Ht. apply wpe_bind, wpe_gets. cbv [id]. destruct (fixFSM (cfg s)) eqn:Ef.
  - apply wpe_bind, wpe_gets. cbv [id]. destruct (transmissionQueue s) as [|f q] eqn:Eq; apply wpe_modify.
    + split; [exact (core_reset s Hc)|]. split; [done|]. split; [done|]. split; [wsimp; by rewrite Eq|].
      intros _. wsimp. by rewrite (c_empty _ _ _ _ _ _ _ _ _ _ Hc Eq).
    + split; [exact Hc|]. split; [done|]. split; [wsimp; by rewrite Eq|]. by split.
  - apply reset_settled; [done..|]. by rewrite Ef.
Qed.

Lemma finish_settled s : core s -> quiet s -> transmissionQueue s <> [] -> wp finishCurrentTransmission (fun _ => settled) s.
Proof.
  intros Hc Hq Hne. apply wpe_bind, wpe_bind, wpe_gets. cbv [id].
  destruct (transmissionQueue s) as [|f q] eqn:Eq; [done|]. apply wpe_bind, wpe_modify.
  rewrite (co_queue _ (core_cfg _ Hc)). apply wpe_modify. apply reset_settled; [|done|].
  - destruct Hc. rewrite Eq in c_queue0. core_split.
    + by inversion_clear c_queue0.
    + intros f' Hf. apply elem_of_app in Hf as [|Hf%list_elem_of_singleton]; [eauto | done].
    + intros _. by rewrite sentSincePop_snoc.
  - intros _. wsimp. by rewrite sentSincePop_snoc.
Qed.

(** Sending something up, or announcing it, is not a transmission. *)
Lemma tries_plain e s : plain e = true -> tries s -> tries (s<| out ::= fun l => l ++ [e] |>).
Proof. intros He Ht Hx. wsimp. rewrite plain_sent by done. by apply Ht. Qed.

(** A transition that was passed over tells that its condition is false. *)
Ltac try_next H := eapply wp_transition; [reflexivity | cbn [on_event FSMA_Event_Transition FSMA_No_Event_Transition
  action target Bool.eqb]; rewrite andb_true_r; intros H | cbn [on_event FSMA_Event_Transition
  FSMA_No_Event_Transition Bool.eqb]; rewrite andb_true_r; intros H].

(** After the end of a reception the machine is in IDLE. *)
Lemma end_idle msg n (g : Mac -> Mac) s :
  (forall s, settled s -> settled (g s) /\ fsm (g s) = IDLE) -> core s -> quiet s -> tries s ->
  wp endReception (fun _ s1 => wp (FSMA_Switch (S (S (S (S n)))) false (fsm_body msg)) (fun _ => winv) (g s1)) s.
Proof.
  intros Hg Hc Hq Ht. eapply wpe_mono; [by apply reception_settled|]. intros [] s1 H1.
  destruct (Hg _ H1). by apply enter_idle.
Qed.

Lemma enter_receive msg n s :
  entering msg RECEIVE s -> wp (FSMA_Switch (S (S (S (S (S n))))) false (fsm_body msg)) (fun _ => winv) s.
Proof.
  intros (E & Hc & Hqt & (f & -> & Hf) & Ht). apply wp_switch, (wp_enter _ RECEIVE); [done|].
  apply wpe_bind, wpe_gets. cbv [id]. apply wpe_ret.
  unfold state_transitions, RECEIVE_transitions. cbn [isLowerMsg andb].
  try_next H1. { apply wpe_bind, wpe_modify. by apply (end_idle _ n (fun s => s<| fsm := IDLE |>)). }
  try_next H2. { apply wpe_bind, wpe_bind, wp_deref, wpe_modify, wpe_bind, wpe_modify.
    apply (end_idle _ n (fun s => s<| fsm := IDLE |>)); [done | by apply (core_emit (SendUp f)) | done
      | by apply (tries_plain (SendUp f))]. }
  try_next H3. { apply wpe_bind, wpe_bind, wp_deref, wpe_modify, wpe_modify. apply enter_sifs.
    split; [done|]. split; [by apply (core_emit (SendUp f))|]. split; [done|].
    split; [|by apply (tries_plain (SendUp f))]. exists f. split; [done|]. split; [by apply frame_ok_ctrl|].
    right; right. by apply andb_true_iff in H3 as []. }
  try_next H4. { apply wpe_ret. apply enter_sifs. split; [done|]. split; [done|]. split; [done|]. split; [|done].
    exists f. split; [done|]. split; [by apply frame_ok_ctrl|]. left. apply andb_true_iff in H4 as [_ H4%Z.eqb_eq].
    by apply Hf. }
  try_next H5. { apply wpe_bind, wpe_bind, wp_deref, wpe_modify, wpe_bind.
    apply (end_idle _ n (fun s => s<| stats ::= _ |><| fsm := IDLE |>)); [done | by apply (core_emit (NF_LINK_PROMISCUOUS f)) | done
      | by apply (tries_plain (NF_LINK_PROMISCUOUS f))]. }
  try_next H6. { apply wpe_bind. by apply (end_idle _ n (fun s => s<| stats ::= _ |><| fsm := IDLE |>)). }
  done.
Qed.
End inv.
