(* ===== verification/WifiSafe.v ===== *)
(** * The 802.11 MAC: no event makes it fail

    Each kind of event, handled in a state of the invariant of WifiInv.v, ends in a
    state of the invariant.  The reachable states follow by induction. *)

From S2P Require Import Prelude MACAddress WifiTypes WifiMac WifiFsm WifiInv.

Open Scope string_scope.
Open Scope list_scope.
Open Scope Z_scope.
#[local] Set Default Proof Using "All".

Section safe.
Context {P : Type} `{WifiEnvOk}.
Local Abbreviation Frame := (Ieee80211Frame P).
Local Abbreviation Mac := (Ieee80211Mac P).
Implicit Types (s : Mac) (f : Frame) (msg : fmsg P).

(** ** One event *)

(** The transition listed first does not answer the event at hand. *)
Ltac pass := apply wp_pass; [eexists; split; [reflexivity | first [reflexivity | apply andb_false_r]]|].
Ltac try_next H := eapply wp_transition; [reflexivity | cbn [on_event FSMA_Event_Transition action target Bool.eqb];
  rewrite andb_true_r; intros H | cbn [on_event FSMA_Event_Transition Bool.eqb]; rewrite andb_true_r; intros H].

Lemma maxt : exists n, FSM_MAXT = S (S (S (S (S (S n))))).
Proof. exists (FSM_MAXT - 6)%nat. pose proof FSM_MAXT_ok. lia. Qed.

(** The transmissions do not answer it. *)
Lemma wp_not_transmission t b ready cleanup msg ts Q s :
  isTimer t msg = false -> wp (FSMA_Transitions true ts) Q s ->
  wp (FSMA_Transitions true ((if b : bool then [] else transmissions t ready cleanup msg) ++ ts)) Q s.
Proof.
  intros Ht HQ. destruct b; [done|].
  do 3 (apply wp_pass; [eexists; split; [reflexivity | cbn; by rewrite Ht]|]). done.
Qed.

(** A frame arrives from the radio. *)
Lemma lower_event f s :
  core s -> poised s -> (fsm s = BACKOFF -> sensed s) -> frame_ok f ->
  wp (FSMA_Switch FSM_MAXT true (fsm_body (Lower f))) (fun _ => winv) s.
Proof.
  destruct maxt as [n ->]. intros Hc Hp Hs Hf. apply wp_switch.
  assert (Hrec : quiet s -> tries s -> wp (FSMA_Switch (S (S (S (S (S n))))) false (fsm_body (Lower f))) (fun _ => winv)
    (s<| fsm := RECEIVE |>)).
  { intros Hq Ht. apply enter_receive. repeat (split; [done|]). split; [by exists f | done]. }
  destruct (fsm s) eqn:E; (eapply wp_event; [exact E|]); unfold poised in Hp; rewrite E in Hp; unfold state_transitions.
  - destruct Hp as (Hq & ? & ? & Ht). unfold IDLE_transitions. destruct (fixFSM (cfg s)); cbn [app]; [pass; pass|];
      pass; pass; (apply wp_take; [done | done | by apply wpe_ret, Hrec]).
  - destruct Hp as (Hq & ? & Ht). pass. pass. apply wp_take; [done | done | by apply wpe_ret, Hrec].
  - destruct Hp as ((T1 & T2 & T3 & T4) & Hb & Ht). apply wp_not_transmission; [done|]. pass. pass. pass.
    apply wp_take; [done | done |]. apply wpe_modify. apply enter_receive.
    split; [done|]. split; [by apply core_cancel|]. split; [split; wsimp; by autorewrite with wtimer|]. split; [by exists f | done].
  - apply wp_not_transmission; [done|]. pass. pass. apply wpe_ret. split; [done|].
    split; [unfold poised; by rewrite E | auto].
  - destruct Hp as ((T1 & T2 & T3 & T4) & Hq & Ht & Ht'). try_next Hk.
    + apply wpe_bind, wpe_gets. cbv [id]. apply wpe_bind.
      assert (Hst : forall (s1 : Mac) , core s1 -> quiet s1 -> transmissionQueue s1 <> [] ->
        wp finishCurrentTransmission (fun _ s2 => wp (FSMA_Switch (S (S (S (S (S n))))) false (fsm_body (Lower f))) (fun _ => winv)
          (s2<| fsm := IDLE |>)) s1).
      { intros s1 Hc1 Hq1 Hne. eapply wpe_mono; [by apply finish_settled|]. intros [] s2 H6. by apply enter_idle. }
      apply wpe_when; intros _; [apply wpe_modify|]; (apply wpe_bind, wpe_modify, wpe_bind, wpe_modify, Hst; [|split|done]; wsimp;
        [by apply (core_cancel endTimeout s)|autorewrite with wtimer; done..]).
    + pass. pass. apply wpe_ret. split; [done|]. unfold poised, sensed. rewrite E. auto 10.
  - pass. apply wpe_ret. split; [done|]. unfold poised, sensed. rewrite E. auto 10.
  - destruct Hp as ((T1 & T2 & T3 & T4) & Hq & Ht & Ht'). try_next Hk.
    + apply wpe_modify. apply enter_sifs. split; [done|]. split; [by apply core_cancel|].
      split; [split; wsimp; by autorewrite with wtimer|]. split; [|by apply Ht'].
      exists f. split; [done|]. split; [by apply frame_ok_ctrl|]. right; left. split; [|done].
      apply andb_true_iff in Hk as [_ Hk%Z.eqb_eq]. by apply Hf.
    + pass. pass. apply wpe_ret. split; [done|]. unfold poised, sensed. rewrite E. auto 10.
  - pass. pass. pass. apply wpe_ret. split; [done|]. unfold poised, sensed. rewrite E. auto 10.
  - done.
Qed.

(** A transition whose condition depends on the medium. *)
Ltac pass_if E := apply wp_pass; [eexists; split; [reflexivity | cbn [on_event FSMA_Event_Transition Bool.eqb];
  rewrite E; reflexivity]|].
Ltac stay E := apply wpe_ret; split; [done|]; unfold poised, sensed; rewrite E.

(** The medium may have changed. *)
Lemma medium_event t s :
  t = mediumStateChange \/ t = endReserve -> isMediumStateChange s (Timer t) = true ->
  core s -> poised s -> wp (FSMA_Switch FSM_MAXT true (fsm_body (Timer t))) (fun _ => winv) s.
Proof.
  destruct maxt as [n ->]. intros Ht Hm Hc Hp. apply wp_switch.
  assert (Hother : forall u, u <> mediumStateChange -> u <> endReserve -> @isTimer P u (Timer t) = false).
  { intros u ??. cbn. apply bool_decide_eq_false. by destruct Ht as [ -> | -> ]. }
  destruct (fsm s) eqn:E; (eapply wp_event; [exact E|]); unfold poised in Hp; rewrite E in Hp; unfold state_transitions.
  - unfold IDLE_transitions. destruct (fixFSM (cfg s)); cbn [app]; [pass; pass|]; pass; pass; pass; by stay E.
  - destruct Hp as (Hq & Hb & Htr). destruct (isMediumFree s) eqn:Ef.
    + apply wp_take; [cbn; by rewrite Hm, Ef | done |]. apply wpe_ret, enter_difs. by repeat (split; [done|]).
    + apply wp_pass; [eexists; split; [reflexivity | cbn; by rewrite Ef, andb_false_r]|]. pass. pass. stay E. auto.
  - destruct Hp as ((T1 & T2 & T3 & T4) & Hb & Htr). apply wp_not_transmission; [by apply Hother|].
    pass_if (Hother endDIFS ltac:(done) ltac:(done)). destruct (isMediumFree s) eqn:Ef.
    + apply wp_pass; [eexists; split; [reflexivity | cbn; by rewrite Ef, andb_false_r]|]. pass. pass. stay E. auto 10.
    + apply wp_take; [cbn; by rewrite Hm, Ef | done |]. apply wpe_bind, wpe_modify, wpe_modify, enter_defer.
      split; [done|]. split; [by apply core_cancel|]. split; [split; wsimp; by autorewrite with wtimer | done].
  - destruct Hp as ((T1 & T2 & T3) & (T4 & Hle & Hbp) & Hb & Htr).
    apply wp_not_transmission; [by apply Hother|]. pass_if (Hother endBackoff ltac:(done) ltac:(done)).
    destruct (isMediumFree s) eqn:Ef.
    + apply wp_pass; [eexists; split; [reflexivity | cbn; by rewrite Ef, andb_false_r]|]. stay E. auto 10.
    + apply wp_take; [cbn; by rewrite Hm, Ef | done |].
      apply wpe_bind, wpe_modify, wpe_bind, wpe_gets, wpe_bind, wpe_modify. cbv [id]. wsimp.
      assert (Hnow : simTime s <= backoffSent s + backoffPeriod s) by (by apply (c_timers _ _ _ _ _ _ _ _ _ _ Hc endBackoff)).
      assert (Hel : 0 <= (simTime s - backoffSent s) ÷ getSlotTime * getSlotTime <= simTime s - backoffSent s).
      { unfold getSlotTime, ST, usec. rewrite Z.quot_div_nonneg by lia. dmlia. }
      apply wpe_assert; [|intros ?%Z.leb_gt; lia]. intros _. apply enter_defer.
      split; [done|]. split; [|split; [split; wsimp; by autorewrite with wtimer | done]].
      apply (core_period _ (s<| timers ::= set_timer endBackoff None |>)); [|by apply core_cancel].
      right. wsimp. destruct Hc as [_ _ [Hinv|Hb'] _ _ _ _ _ _ _ _]; [unfold invalidBackoff, sec in Hinv|]; lia.
  - pass. pass_if (Hother endTimeout ltac:(done) ltac:(done)). pass_if (Hother endTimeout ltac:(done) ltac:(done)). by stay E.
  - pass_if (Hother endTimeout ltac:(done) ltac:(done)). by stay E.
  - pass. pass_if (Hother endTimeout ltac:(done) ltac:(done)). pass_if (Hother endTimeout ltac:(done) ltac:(done)). by stay E.
  - pose proof (Hother endSIFS ltac:(done) ltac:(done)) as Ho.
    do 2 (apply wp_pass; [exists false; cbn [condition]; unfold receivedBeforeSIFS; by rewrite Ho|]).
    pass_if Ho. by stay E.
  - done.
Qed.

(** ** Backoff periods *)

Lemma contentionWindow_ok s o r :
  cfg_ok (cfg s) -> 0 <= r < transmissionLimit (cfg s) ->
  exists cw, contentionWindow s o r = Ok cw /\ 0 <= cw <= max_window (cfg s).
Proof.
  intros [] Hr. unfold contentionWindow, max_window. destruct (isBroadcastFrame o); [eexists; split; [done|lia]|].
  destruct co_window as [H31 Hw].
  assert (Hpow : 1 <= 2 ^ r /\ 2 ^ r <= 2 ^ (transmissionLimit (cfg s) - 1)).
  { split; [|apply Z.pow_le_mono_r; lia]. rewrite <- (Z.pow_0_r 2). apply Z.pow_le_mono_r; lia. }
  rewrite Z.shiftl_1_l. unfold check, in_int.
  rewrite (proj2 (Z.leb_le 0 r)), (proj2 (Z.ltb_lt r (transmissionLimit (cfg s)))) by lia. cbn.
  rewrite (proj2 (Z.ltb_lt r 31)) by lia. cbn.
  rewrite !bool_decide_true by nia. cbn. eexists. split; [done|].
  unfold CW_MAX in *. destruct (Z.ltb_spec 1023 ((cwMinData (cfg s) + 1) * 2 ^ r - 1)); nia.
Qed.

Lemma wp_generate (Q : unit -> Mac -> Prop) s :
  core s -> (forall p, 0 <= p <= max_window (cfg s) * getSlotTime -> Q tt (s<| draws ::= S |><| backoffPeriod := p |>)) ->
  wp generateBackoffPeriod Q s.
Proof.
  intros Hc HQ. apply wpe_bind, wpe_gets, wpe_bind, wpe_bind, wpe_gets. cbv [id].
  destruct (contentionWindow_ok s (getCurrentTransmission s) (retryCounter s)) as (cw & Ecw & Hcw);
    [by apply core_cfg | by destruct Hc |].
  pose proof (intrand_ok (draws s) (cw + 1) ltac:(lia)) as Hi.
  apply wpe_bind, wpe_lift. rewrite Ecw. apply wpe_bind, wpe_modify, wpe_ret, wpe_bind, wpe_modify.
  assert (0 <= intrand (draws s) (cw + 1) * getSlotTime <= max_window (cfg s) * getSlotTime)
    by (unfold getSlotTime, ST, usec; lia).
  apply wpe_assert; [|intros ?%Z.leb_gt; lia]. intros _. by apply HQ.
Qed.

(** ** Transmissions *)

Lemma wp_sendDown_basic f (Q : unit -> Mac -> Prop) s :
  controlInfo f = None -> Q tt (s<| out ::= fun l => l ++ [SendDown (f<| controlInfo := Some (basicBitrate (cfg s)) |>)] |>) ->
  wp (f ← setBasicBitrate f; sendDown f) Q s.
Proof.
  intros Hf HQ. apply wpe_bind, wpe_bind, wpe_assert; [|intros Hx; by rewrite bool_decide_true in Hx].
  intros _. apply wpe_bind, wpe_gets. cbv [id]. by apply wpe_ret, wpe_modify.
Qed.

(** The control frames do not count as transmissions of data. *)
Lemma tries_control f s : is_DataOrMgmt (fclass f) = false -> tries s -> tries (s<| out ::= fun l => l ++ [SendDown f] |>).
Proof. intros He Ht Hx. wsimp. rewrite sentSincePop_snoc. cbn. rewrite He. by apply Ht. Qed.
Lemma trying_data f s : tries s -> trying (s<| out ::= fun l => l ++ [SendDown f] |>).
Proof.
  intros Ht Hx. wsimp. rewrite sentSincePop_snoc. cbn. specialize (Ht Hx). destruct (is_DataOrMgmt (fclass f)); lia.
Qed.

(** The timers a transmission leaves behind. *)
Definition cleans (m : M Mac unit) : Prop :=
  forall s (Q : unit -> Mac -> Prop), core s -> quiet s ->
  (forall tm, quiet_of tm -> core (s<| timers := tm |>) -> Q tt (s<| timers := tm |>)) -> wp m Q s.
Lemma cleans_ret : cleans (mret tt).
Proof. intros s Q Hc Hq HQ. apply wpe_ret. by apply (HQ (timers s)). Qed.
Lemma cleans_DIFS : cleans cancelDIFSPeriod.
Proof.
  intros s Q Hc Hq HQ. apply wpe_modify, (HQ (set_timer endDIFS None (timers s))); [|by apply core_cancel].
  destruct Hq. split; by autorewrite with wtimer.
Qed.

Lemma transmit t ready cleanup ts n s :
  transmissionQueue s <> [] -> ready s = true -> core s -> quiet s -> tries s -> cleans cleanup ->
  wp (FSMA_Transitions true (transmissions t ready cleanup (Timer t) ++ ts))
     (fun c s' => if c : bool then wp (FSMA_Switch (S n) false (fsm_body (Timer t))) (fun _ => winv) s' else winv s') s.
Proof.
  intros Hne Hr Hc Hq Htr Hcl. destruct (transmissionQueue s) as [|f q] eqn:Eq; [done|].
  pose proof (upper_head s f q Hc Eq) as Hu. pose proof (core_cfg _ Hc) as Hcf.
  assert (Hcur : getCurrentTransmission s = Some f) by (unfold getCurrentTransmission; by rewrite Eq).
  assert (Hne' : transmissionQueue s <> []) by (by rewrite Eq).
  assert (Hself : @isTimer P t (Timer t) = true) by (by apply bool_decide_true).
  cbn [transmissions app]. try_next H1.
  { apply wpe_bind, wpe_gets. cbv [id]. rewrite Hcur. apply wpe_bind, wpe_bind, wp_deref, wpe_bind, wpe_gets. cbv [id].
    apply wp_sendDown_basic; [done|]. apply Hcl; [|done|].
    - apply core_sendDown; [|by intros [=]|done]. by apply frame_ok_ctrl, buildRTSFrame_ok.
    - intros tm Hqt Hct. apply (enter_waiting _ WAITCTS); [auto|]. split; [done|]. split; [exact Hct|]. split; [done|].
      split; [exact Hne'|]. by apply (tries_control (_<| controlInfo := _ |>) s). }
  try_next H2.
  { apply wpe_bind, wpe_gets. cbv [id]. rewrite Hcur. apply wpe_bind, wpe_bind, wp_deref, wpe_modify. apply Hcl; [|done|].
    - apply core_sendDown; [|done|done]. apply buildBroadcastFrame_ok; [done|].
      cbn in H2. unfold currentBroadcast in H2. rewrite Hcur in H2. by apply andb_true_iff in H2 as [[_ ?]%andb_true_iff _].
    - intros tm Hqt Hct. apply (enter_waiting _ WAITBROADCAST); [auto|]. split; [done|]. split; [exact Hct|].
      split; [done|]. split; [exact Hne'|]. by apply (trying_data (buildBroadcastFrame f) s). }
  try_next H3.
  { apply wpe_bind, wpe_gets. cbv [id]. rewrite Hcur. apply wpe_bind, wpe_bind, wp_deref, wpe_bind, wpe_gets, wpe_modify.
    apply Hcl; [|done|].
    - apply core_sendDown; [|done|done]. by apply buildDataFrame_ok.
    - intros tm Hqt Hct. apply (enter_waiting _ WAITACK); [auto|]. split; [done|]. split; [exact Hct|].
      split; [done|]. split; [exact Hne'|]. by apply (trying_data (buildDataFrame s f) s). }
  cbn in H2, H3. rewrite bool_decide_true, Hr in H2, H3 by done. by destruct (currentBroadcast s).
Qed.

Lemma DIFS_event s :
  fsm s = WAITDIFS -> core s -> quiet s -> isMediumFree s = true -> (transmissionQueue s = [] -> backoff s = true) ->
  tries s -> wp (FSMA_Switch FSM_MAXT true (fsm_body (Timer endDIFS))) (fun _ => winv) s.
Proof.
  destruct maxt as [n ->]. intros E Hc Hq Hfree Hb Ht. apply wp_switch, (wp_event _ WAITDIFS); [done|].
  unfold state_transitions, WAITDIFS_transitions.
  assert (Hover : forall ts, backoff s = true -> wp (FSMA_Transitions true (FSMA_Event_Transition (fun s => @isTimer P endDIFS (Timer endDIFS)) BACKOFF
     (s ← self; assert_ (backoff s) "backoff";; when (isInvalidBackoffPeriod s) generateBackoffPeriod) :: ts))
     (fun c s' => if c : bool then wp (FSMA_Switch (S (S (S (S (S n))))) false (fsm_body (Timer endDIFS))) (fun _ => winv) s' else winv s') s).
  { intros ts Hbt. apply wp_take; [done|done|]. apply wpe_bind, wpe_gets. cbv [id]. apply wpe_bind, wpe_assert; [|congruence].
    intros _. apply wpe_when; intros Hi.
    - apply wp_generate; [done|]. intros p Hp. apply enter_backoff. split; [done|].
      split; [by apply (core_period p s); [right|]|]. split; [done|]. split; [done|]. split; [wsimp; lia | done].
    - apply enter_backoff. split; [done|]. split; [done|]. split; [done|]. split; [done|]. split; [|done].
      apply Z.eqb_neq in Hi. destruct Hc as [_ _ [Hx|Hx] _ _ _ _ _ _ _ _]; [by destruct (Hi Hx) | exact (proj1 Hx)]. }
  destruct (queue_empty s) eqn:Eq; [|destruct (backoff s) eqn:Ebk].
  - apply Hover, Hb. unfold queue_empty in Eq. by destruct (transmissionQueue s).
  - cbn [transmissions app]. do 3 (apply wp_pass; [eexists; split; [reflexivity | cbn; by rewrite Ebk, !andb_false_r]|]).
    by apply Hover.
  - apply transmit; [|by rewrite Ebk|done..|apply cleans_DIFS]. unfold queue_empty in Eq. by destruct (transmissionQueue s).
Qed.

Lemma Backoff_event s :
  fsm s = BACKOFF -> core s -> quiet s -> tries s ->
  wp (FSMA_Switch FSM_MAXT true (fsm_body (Timer endBackoff))) (fun _ => winv) s.
Proof.
  destruct maxt as [n ->]. intros E Hc Hq Ht. apply wp_switch, (wp_event _ BACKOFF); [done|].
  unfold state_transitions, BACKOFF_transitions. destruct (queue_empty s) eqn:Eq.
  - apply wp_take; [cbn; by rewrite Eq | done |]. eapply wpe_mono; [apply reset_settled; [done|done|]|].
    + intros _. apply Hc. unfold queue_empty in Eq. by destruct (transmissionQueue s).
    + intros [] s1 Hs1. by apply enter_idle.
  - apply transmit; try done; [|apply cleans_ret]. unfold queue_empty in Eq. by destruct (transmissionQueue s).
Qed.

Lemma wp_seq {A B} (m : M Mac A) (k : A -> M Mac B) Q s : wp (m ≫= k) Q s -> wp m (fun a => wp (k a) Q) s.
Proof. unfold wpe, mbind, M_bind. by destruct (m s) as [[??]|]. Qed.

Lemma timeouts_event n s :
  core s -> quiet s -> transmissionQueue s <> [] -> trying s ->
  wp (FSMA_Transitions true (timeouts (Timer endTimeout)))
     (fun c s' => if c : bool then wp (FSMA_Switch (S (S (S (S n)))) false (fsm_body (Timer endTimeout))) (fun _ => winv) s'
                  else winv s') s.
Proof.
  intros Hc Hq Hne Ht. destruct (transmissionQueue s) as [|f q] eqn:Eq; [done|]. try_next H1.
  - apply wpe_bind, wpe_gets. cbv [id]. rewrite Eq. apply wpe_bind, wp_deref, wpe_bind, wpe_modify, wpe_bind.
    eapply wpe_mono; [apply (wp_seq popTransmissionQueue (fun _ => resetStateVariables) (fun _ => settled)),
      (finish_settled _ (core_emit (NF_LINK_BREAK f) s eq_refl Hc) Hq); wsimp; by rewrite Eq|].
    intros [] s1 H2. apply wpe_bind. eapply wpe_mono; [exact H2|]. intros [] s2 H3. by apply wpe_modify, enter_idle.
  - apply wp_take; [done|done|]. cbn in H1. apply Z.eqb_neq in H1. pose proof (c_retry _ _ _ _ _ _ _ _ _ _ Hc) as Hr.
    apply wpe_bind, wpe_gets, wpe_bind, wpe_assert; cbv [id]; [|intros ?%Z.ltb_ge; lia]. intros _.
    apply wpe_bind, (wp_on_current _ f q); [done|].
    apply wpe_bind, wpe_modify, wpe_bind, wpe_modify, wpe_bind, wpe_modify.
    assert (Hc1 : core (s<| transmissionQueue := f<| retry := true |> :: q |><| retryCounter ::= Z.succ |>)).
    { pose proof (core_front f (f<| retry := true |>) q s Eq (upper_ok_retry _ _ (upper_head _ _ _ Hc Eq)) Hc) as [].
      core_split. lia. }
    apply wp_generate; [exact Hc1|]. intros p Hp. apply enter_defer. split; [done|].
    split; [apply (core_period p) in Hc1; [exact Hc1 | by right]|]. split; [done|]. split; [done|].
    intros Hx. specialize (Ht Hx). wsimp. lia.
Qed.

Lemma Timeout_event s :
  fsm s = WAITACK \/ fsm s = WAITBROADCAST \/ fsm s = WAITCTS -> core s -> quiet s -> transmissionQueue s <> [] -> trying s ->
  wp (FSMA_Switch FSM_MAXT true (fsm_body (Timer endTimeout))) (fun _ => winv) s.
Proof.
  destruct maxt as [n ->]. intros E Hc Hq Hne Ht. apply wp_switch.
  destruct E as [E|[E|E]]; (eapply wp_event; [exact E|]).
  - pass. by apply timeouts_event.
  - apply wp_take; [done|done|]. apply wpe_bind. eapply wpe_mono; [by apply finish_settled|].
    intros [] s1 (Hc1 & Hq1 & _ & _ & Ht1). apply wpe_bind, wpe_modify, wpe_bind, wpe_modify, wpe_modify, enter_defer.
    split; [done|]. split; [|done]. apply (core_period invalidBackoff s1); [by left | done].
  - pass. by apply timeouts_event.
Qed.

Lemma wp_takeContext f (Q : option Frame -> Mac -> Prop) s :
  sifsContext s = Some f -> Q (Some f) (s<| sifsContext := None |>) -> wp takeContext Q s.
Proof. intros E HQ. rewrite <- E in HQ. exact HQ. Qed.

Lemma wp_cast (is_class : frame_class -> bool) f (Q : Frame -> Mac -> Prop) s :
  is_class (fclass f) = true -> Q f s -> wp (check_and_cast is_class (Some f)) Q s.
Proof. intros E HQ. apply wpe_bind, wp_deref. by rewrite E. Qed.

Lemma SIFS_event f s :
  fsm s = WAITSIFS -> core s -> quiet s -> sifsContext s = Some f -> sifs_frame s f -> tries s ->
  wp (FSMA_Switch FSM_MAXT true (fsm_body (Timer endSIFS))) (fun _ => winv) s.
Proof.
  destruct maxt as [n ->]. intros E Hc Hq Ectx (Hf & Hcl) Ht. apply wp_switch, (wp_event _ WAITSIFS); [done|].
  assert (Hc0 : core (s<| sifsContext := None |>)) by (destruct Hc; core_split; by intros).
  pose proof (core_cfg _ Hc) as Hcf.
  assert (Hrec : forall t, receivedBeforeSIFS t (Timer endSIFS) s = Ok (type f =? t)) by (intros t; unfold receivedBeforeSIFS; by rewrite Ectx).
  destruct Hcl as [Hcl|[[Hcl Hne]|[Hcl Hus]]].
  - apply wp_take; [cbn [condition]; rewrite Hrec; apply f_equal, Z.eqb_eq; by apply Hf | done |].
    apply wpe_bind, wpe_bind, (wp_takeContext f); [done|]. apply wpe_bind, wp_cast; [by rewrite Hcl|].
    apply wpe_bind, wpe_gets. cbv [id].
    apply wp_sendDown_basic; [done|]. apply (end_idle _ (S n) (fun s => s<| fsm := IDLE |>)); [done| |done|].
    + apply (core_sendDown _ (s<| sifsContext := None |>)); [|by intros [=]|done]. by apply frame_ok_ctrl, buildCTSFrame_ok.
    + by apply (tries_control (_<| controlInfo := _ |>) (s<| sifsContext := None |>)).
  - apply wp_pass. { eexists. split; [apply Hrec|]. rewrite (proj2 (ok_cts f Hf) Hcl). reflexivity. }
    apply wp_take; [cbn [condition]; rewrite Hrec; apply f_equal, Z.eqb_eq; by apply Hf | done |].
    apply wpe_bind, wpe_gets. cbv [id]. destruct (transmissionQueue s) as [|g q] eqn:Eq; [done|].
    unfold getCurrentTransmission. rewrite Eq. cbn [head].
    apply wpe_bind, wpe_bind, wpe_gets, wpe_bind, wpe_modify, wpe_ret, wpe_bind, wp_deref, wpe_bind, wpe_gets, wpe_modify.
    apply (enter_waiting _ WAITACK); [auto|]. split; [done|].
    split; [|split; [done|split; [wsimp; by rewrite Eq | by apply (trying_data _ (s<| sifsContext := None |>))]]].
    apply (core_sendDown _ (s<| sifsContext := None |>)); [|wsimp; by rewrite Eq|done].
    apply buildDataFrame_ok; [done | by apply (upper_head s g q)].
  - destruct (data_class _ Hcl) as (Hn1 & Hn2 & _).
    apply wp_pass. { eexists. split; [apply Hrec|]. rewrite andb_true_r. apply Z.eqb_neq. by intros ?%(ok_rts f Hf). }
    apply wp_pass. { eexists. split; [apply Hrec|]. rewrite andb_true_r. apply Z.eqb_neq. by intros ?%(ok_cts f Hf). }
    apply wp_take; [cbn [condition FSMA_Event_Transition]; unfold isDataOrMgmtFrame; by rewrite Ectx, Hcl | done |].
    apply wpe_bind, wpe_bind, (wp_takeContext f); [done|]. apply wpe_bind, wp_cast; [done|].
    apply wpe_bind, wpe_modify, wpe_bind, wpe_gets. cbv [id].
    apply wp_sendDown_basic; [by unfold buildACKFrame; destruct (moreFragments f)|].
    assert (Hbc : isBroadcast (receiverAddress f) = false).
    { cbn in Hus. rewrite equals_spec in Hus; [|apply Hf | apply Hcf]. apply bool_decide_eq_true in Hus.
      rewrite Hus. apply Hcf. }
    apply (end_idle _ (S n) (fun s => s<| fsm := IDLE |>)); [done| |done|].
    + apply core_sendDown; [|by unfold buildACKFrame; destruct (moreFragments f)|exact Hc0].
      by apply frame_ok_ctrl, buildACKFrame_ok.
    + apply tries_control; [|exact Ht].
      by unfold buildACKFrame; destruct (moreFragments f).
Qed.

(** ** The network allocation vector *)

(** Setting the vector: the other self messages stay. *)
Record nav_set (s : Mac) (e : Z) (tm : wtimer -> option Z) : Prop := {
  ns_end : tm endReserve = Some e;
  ns_later : simTime s < e;
  ns_same : forall t, t <> endReserve -> t <> mediumStateChange -> tm t = timers s t;
  ns_change : forall t, tm mediumStateChange = Some t -> t = simTime s;
  ns_told : isMediumFree s = true -> is_Some (tm mediumStateChange);
  ns_kept : is_Some (timers s mediumStateChange) -> is_Some (tm mediumStateChange);
}.

Lemma nav_set_core s e tm : core s -> nav_set s e tm -> core (s<| nav := true |><| timers := tm |>).
Proof.
  intros [] []. core_split.
  - intros t u Ht. destruct (decide (t = endReserve)) as [->|]; [rewrite ns_end0 in Ht; injection Ht; lia|].
    destruct (decide (t = mediumStateChange)) as [->|]; [by rewrite (ns_change0 u Ht)|].
    rewrite ns_same0 in Ht by done. eauto.
  - rewrite ns_end0. split; [by eexists | done].
  - intros t Ht. split; [by apply ns_change0|]. eauto.
Qed.

Lemma poised_timers s b tm :
  (forall t, t <> endReserve -> t <> mediumStateChange -> tm t = timers s t) ->
  poised s -> poised (s<| nav := b |><| timers := tm |>).
Proof.
  intros Ht. assert (Hq : quiet s -> quiet (s<| timers := tm |>)) by (intros []; split; wsimp; by rewrite Ht).
  unfold poised. wsimp. rewrite !(Ht endSIFS), !(Ht endDIFS), !(Ht endBackoff), !(Ht endTimeout) by done.
  destruct (fsm s); try done.
  - intros (? & ? & ? & ?). by split; [apply Hq|].
  - intros (? & ? & ?). by split; [apply Hq|].
Qed.

Lemma nav_set_sensed s e tm :
  nav_set s e tm -> sensed s -> fsm s = BACKOFF -> sensed (s<| nav := true |><| timers := tm |>).
Proof.
  intros [] Hs Hb. revert Hs. unfold sensed. wsimp. rewrite Hb. intros [Hf|Hk]; right; [by apply ns_told0 | by apply ns_kept0].
Qed.

(** What the rest of the handling finds. *)
Definition heard s : Prop := core s /\ poised s /\ (fsm s = BACKOFF -> sensed s).

Lemma wp_startReserve r (Q : unit -> Mac -> Prop) s :
  0 < r -> timers s endReserve = None ->
  Q tt (s<| nav := true |><| timers ::= set_timer endReserve (Some (simTime s + r)) |>) -> wp (startReserve r) Q s.
Proof.
  intros Hr Ht HQ. apply wpe_bind, wpe_assert; [|intros ?%Z.ltb_ge; lia]. intros _.
  apply wpe_bind, wpe_modify, wpe_bind, wpe_gets. cbv [id]. apply wp_scheduleAt; [done | wsimp; lia | done].
Qed.

Lemma reserve_heard f s : winv s -> frame_ok f -> wp (scheduleReservePeriod f) (fun _ => heard) s.
Proof.
  intros (Hc & Hp & Hs) Hf. apply wpe_bind, wpe_gets. cbv [id].
  destruct (negb (isForUs s (Some f)) && negb (duration f =? 0) && (duration f <? 32768 * sec)) eqn:Ec;
    [|by apply wpe_ret; split; [|split]].
  apply andb_true_iff in Ec as [[_ Hd%negb_true_iff%Z.eqb_neq]%andb_true_iff _]. pose proof (ok_duration f Hf) as Hd0.
  assert (Hset : forall e tm, nav_set s e tm -> heard (s<| nav := true |><| timers := tm |>)).
  { intros e tm Hn. split; [by apply (nav_set_core s e)|]. split; [by apply poised_timers; [apply Hn|]|].
    wsimp. intros. by apply (nav_set_sensed s e). }
  destruct (timers s endReserve) as [t|] eqn:Et.
  - destruct (Z.ltb_spec (duration f) (t - simTime s)); [by apply wpe_ret; split; [|split]|].
    apply wpe_bind, wpe_modify, wp_startReserve; [lia | wsimp; by autorewrite with wtimer |].
    apply (Hset (simTime s + Z.max (duration f) (t - simTime s))). split; wsimp; autorewrite with wtimer.
    + done.
    + lia.
    + intros u ??. by autorewrite with wtimer.
    + intros u Hu. by apply (c_change _ _ _ _ _ _ _ _ _ _ Hc) in Hu as [].
    + unfold isMediumFree, isScheduled. rewrite Et. by rewrite andb_false_r.
    + done.
  - assert (Hm : timers s mediumStateChange = None).
    { destruct (timers s mediumStateChange) as [u|] eqn:Eu; [|done].
      apply (c_change _ _ _ _ _ _ _ _ _ _ Hc) in Eu as (_ & e & He & _). by rewrite Et in He. }
    apply wpe_bind, wpe_when; intros Hr.
    + apply wp_scheduleAt; [done | lia |]. apply wp_startReserve; [lia | wsimp; by autorewrite with wtimer |].
      apply (Hset (simTime s + duration f)). split; wsimp; autorewrite with wtimer.
      * done.
      * lia.
      * intros u ??. by autorewrite with wtimer.
      * by intros u [= <-].
      * by eexists.
      * by eexists.
    + apply wp_startReserve; [lia | done |]. apply (Hset (simTime s + duration f)). split; wsimp; autorewrite with wtimer.
      * done.
      * lia.
      * intros u ??. by autorewrite with wtimer.
      * by rewrite Hm.
      * unfold isMediumFree. by rewrite Hr.
      * by rewrite Hm.
Qed.

(** ** The handlers *)

Lemma upper_event g s :
  fsm s = IDLE -> core s -> quiet s -> transmissionQueue s <> [] -> backoffPeriod s = invalidBackoff \/ backoffPeriod s = 0 ->
  tries s -> wp (FSMA_Switch FSM_MAXT true (fsm_body (Upper g))) (fun _ => winv) s.
Proof.
  destruct maxt as [n ->]. intros E Hc Hq Hne Hb Ht. apply wp_switch, (wp_event _ IDLE); [done|].
  assert (Hnp : (0 <? backoffPeriod s) = false) by (apply Z.ltb_ge; destruct Hb as [ -> | -> ]; unfold invalidBackoff, sec; lia).
  unfold state_transitions, IDLE_transitions. destruct (fixFSM (cfg s)); cbn [app];
    [apply wp_pass; [eexists; split; [reflexivity | cbn; by rewrite Hnp]|]; pass|].
  all: apply wp_take; [done|done|]; apply wpe_bind, wpe_gets, wpe_bind, wpe_assert; cbv [id];
    [|unfold isInvalidBackoffPeriod; destruct Hb as [ -> | -> ]; by vm_compute].
  all: intros _; apply wpe_modify, enter_defer; split; [done|]; split; [|done].
  all: apply (core_period invalidBackoff s); [by left | done].
Qed.

Definition msg_ok s (m : wmsg P) : Prop :=
  match m with
  | SelfMsg t => timers s t = Some (simTime s)
  | Command k _ => k = PHY_C_CONFIGURERADIO
  | UpperMsg f => upper_ok f
  | LowerMsg None => True
  | LowerMsg (Some f) => frame_ok f /\ (is_TwoAddress (fclass f) = true -> equals (transmitterAddress f) (address (cfg s)) = false)
  | RadioStateChanged _ _ => True
  end.

(** The kernel takes a self message off its list, then calls the handler. *)
Definition event (m : wmsg P) : M Mac unit :=
  match m with SelfMsg t => cancelEvent t | _ => mret tt end;; handleMessage m.

Lemma poised_push n f s :
  fsm s <> IDLE -> poised s -> poised (s<| sequenceNumber := n |><| transmissionQueue ::= fun q => q ++ [f] |>).
Proof.
  intros E. assert (Hne : transmissionQueue s ++ [f] <> []) by (by destruct (transmissionQueue s)).
  unfold poised. wsimp. destruct (fsm s); try done.
  - by intros (? & _ & ?).
  - by intros (? & _ & ? & ?).
  - by intros (? & _ & ? & ?).
  - by intros (? & _ & ? & ?).
  - intros (? & (g & ? & Hg & Hcl) & ?). split; [done|]. split; [|done]. exists g. split; [done|]. split; [done|].
    destruct Hcl as [|[[??]|?]]; auto.
Qed.

Lemma upper_safe f s : winv s -> upper_ok f -> wp (handleUpperMsg f) (fun _ => winv) s.
Proof.
  intros (Hc & Hp & Hs) Hu. apply wpe_bind, wpe_gets. cbv [id]. case_match; [by apply wpe_ret|].
  rewrite (uo_class f Hu). cbn [negb]. rewrite (proj2 (Z.ltb_ge _ _)) by apply Hu.
  apply wpe_bind, wpe_assert; [|rewrite (uo_receiver f Hu); done]. intros _.
  apply wpe_bind, wpe_modify, wpe_bind, wpe_modify. cbv zeta.
  set (frame := f<| transmitterAddress := address (cfg s) |><| fseq := sequenceNumber s |>).
  set (s1 := s<| sequenceNumber := _ |><| transmissionQueue ::= _ |>).
  assert (Hne : transmissionQueue s1 <> []) by (unfold s1; wsimp; by destruct (transmissionQueue s)).
  assert (Hc1 : core s1).
  { pose proof (co_address_wf _ (core_cfg _ Hc)). destruct Hc. core_split.
    - apply Forall_app_2; [done|]. constructor; [|done]. destruct Hu as [??? ? []]. by split.
    - by intros ?%Hne.
    - by apply Z.mod_pos_bound. }
  apply wpe_bind, wpe_gets. cbv [id]. apply wpe_bind, wpe_when; intros _; [apply wpe_modify|]; cbn [isUpperMsg andb].
  all: destruct (decide (fsm s = IDLE)) as [E|E];
    [rewrite (bool_decide_true (fsm s1 = IDLE)) by done | rewrite (bool_decide_false (fsm s1 = IDLE)) by done];
    cbn [negb].
  all: try (apply wpe_bind, wpe_ret; unfold poised in Hp; rewrite E in Hp; destruct Hp as (Hq & _ & Hb & Ht);
    by apply upper_event).
  all: apply wpe_ret; split; [done|]; split; [|exact Hs]; by apply poised_push.
Qed.

(** Something put out that is not a frame or a request. *)
Lemma winv_plain e s : plain e = true -> winv s -> winv (s<| out ::= fun l => l ++ [e] |>).
Proof.
  intros He (Hc & Hp & Hs). split; [by apply core_emit|]. split; [|exact Hs].
  destruct (tries_same s (s<| out ::= fun l => l ++ [e] |>)) as [Ht1 Ht2]; [|reflexivity|reflexivity|].
  { transitivity (sentSincePop (out s ++ [e])); [reflexivity | by apply plain_sent]. }
  revert Hp. unfold poised. cbn [fsm set_]. destruct (fsm s); intros; destruct_and?; split_and?; auto.
Qed.

Lemma lower_safe f s :
  winv s -> frame_ok f -> (is_TwoAddress (fclass f) = true -> equals (transmitterAddress f) (address (cfg s)) = false) ->
  wp (handleLowerMsg (Some f)) (fun _ => winv) s.
Proof.
  intros Hw Hf Ha. assert (Hw1 : forall b, winv (s<| out ::= fun l => l ++ [NF_LINK_FULL_PROMISCUOUS (Some f)] |>
    <| lastReceiveFailed := b |>)).
  { intros b. exact (winv_plain (NF_LINK_FULL_PROMISCUOUS (Some f)) s eq_refl Hw). }
  apply wpe_bind, wpe_modify, wpe_bind, wpe_gets. cbv [id]. apply wpe_bind, wpe_assert.
  2: { wsimp. destruct (is_TwoAddress (fclass f)); [rewrite Ha by done|]; done. }
  intros _. apply wpe_bind, wpe_gets. cbv [id]. apply wpe_bind, wpe_when; intros Hx; [by rewrite andb_false_r in Hx|].
  cbn [isUpperMsg andb]. apply wpe_bind, wpe_bind, wpe_modify.
  eapply wpe_mono; [apply reserve_heard; [apply Hw1 | by apply frame_ok_ctrl]|].
  intros [] s1 (Hc1 & Hp1 & Hs1). apply lower_event; [done..|by apply frame_ok_ctrl].
Qed.

Lemma command_safe c s : winv s -> wp (handleCommand PHY_C_CONFIGURERADIO c) (fun _ => winv) s.
Proof.
  intros Hw. apply wpe_bind, wpe_gets, wpe_bind, wpe_modify. cbv [id].
  destruct (fsm s); apply wpe_modify; try exact Hw; by apply winv_plain.
Qed.

(** The medium has changed: [mediumStateChange] is handled at once. *)
Lemma change_safe s : core s -> poised s -> wp (handleWithFSM (Timer mediumStateChange)) (fun _ => winv) s.
Proof.
  intros Hc Hp. apply wpe_bind, wpe_gets. cbv [id]. apply wpe_bind, wpe_when; intros Hx; [by rewrite andb_false_r in Hx|].
  cbn [isUpperMsg andb]. apply wpe_bind, wpe_ret, medium_event; [by left | done | done | done].
Qed.

Lemma radio_safe i r s : winv s -> wp (receiveChangeNotification i r) (fun _ => winv) s.
Proof.
  intros Hw. apply wpe_bind, wpe_gets. cbv [id]. case_match; [|by apply wpe_ret].
  apply wpe_bind, wpe_modify. destruct Hw as (Hc & Hp & _). apply change_safe; [exact Hc | exact Hp].
Qed.

(** ** The self messages *)

(** The state a self message of the machine belongs to. *)
Lemma fires t s :
  poised s -> is_Some (timers s t) ->
  match t with
  | endSIFS => fsm s = WAITSIFS
  | endDIFS => fsm s = WAITDIFS
  | endBackoff => fsm s = BACKOFF
  | endTimeout => fsm s = WAITACK \/ fsm s = WAITBROADCAST \/ fsm s = WAITCTS
  | endReserve | mediumStateChange => True
  end.
Proof.
  unfold poised, quiet. intros Hp [u Hu].
  destruct t, (fsm s); auto; destruct_and?; repeat match goal with H : quiet_of _ |- _ => destruct H end; try done; congruence.
Qed.

(** The end of a reservation while the radio is busy changes nothing. *)
Lemma ignored_event s :
  radioState s <> RadioState.IDLE -> core s -> poised s -> sensed s ->
  wp (FSMA_Switch FSM_MAXT true (fsm_body (Timer endReserve))) (fun _ => winv) s.
Proof.
  destruct maxt as [n ->]. intros Hr Hc Hp Hs. assert (Hw : winv s) by done. clear Hc Hp Hs. apply wp_switch.
  assert (Hm : isMediumStateChange s (Timer endReserve) = false) by (by apply bool_decide_false).
  destruct (fsm s) eqn:E; (eapply wp_event; [exact E|]); unfold state_transitions.
  - unfold IDLE_transitions. destruct (fixFSM (cfg s)); cbn [app]; [pass; pass|]; pass; pass; pass; by apply wpe_ret.
  - pass_if Hm. pass. pass. by apply wpe_ret.
  - apply wp_not_transmission; [done|]. pass. pass_if Hm. pass. pass. by apply wpe_ret.
  - apply wp_not_transmission; [done|]. pass. pass_if Hm. by apply wpe_ret.
  - pass. pass. pass. by apply wpe_ret.
  - pass. by apply wpe_ret.
  - pass. pass. pass. by apply wpe_ret.
  - pass. pass. pass. by apply wpe_ret.
  - destruct Hw as (_ & Hp & _). unfold poised in Hp. by rewrite E in Hp.
Qed.

Lemma reserve_over s :
  winv s -> timers s endReserve = Some (simTime s) ->
  wp (FSMA_Switch FSM_MAXT true (fsm_body (Timer endReserve))) (fun _ => winv)
     (s<| timers ::= set_timer endReserve None |><| nav := false |>).
Proof.
  intros (Hc & Hp & Hs) Ht.
  assert (Hm : timers s mediumStateChange = None).
  { destruct (timers s mediumStateChange) as [u|] eqn:Eu; [|done].
    apply (c_change _ _ _ _ _ _ _ _ _ _ Hc) in Eu as (_ & e & He & ?). rewrite Ht in He. injection He. lia. }
  assert (Hc1 : core (s<| timers ::= set_timer endReserve None |><| nav := false |>)).
  { destruct Hc. core_split.
    - intros u v. destruct (decide (u = endReserve)) as [->|]; autorewrite with wtimer; [done|eauto].
    - autorewrite with wtimer. split; [done | by intros []].
    - intros u Hx. autorewrite with wtimer in Hx. congruence. }
  assert (Hp1 : poised (s<| timers ::= set_timer endReserve None |><| nav := false |>)).
  { apply (poised_timers s false (set_timer endReserve None (timers s))); [|done]. intros u ??. by autorewrite with wtimer. }
  destruct (decide (radioState s = RadioState.IDLE)) as [Hr|Hr].
  - apply medium_event; [by right | by apply bool_decide_true | done | done].
  - apply ignored_event; [done..|]. revert Hs. unfold sensed, isMediumFree. wsimp.
    rewrite (bool_decide_false (radioState s = RadioState.IDLE)) by done.
    by destruct (fsm s).
Qed.

Lemma timer_safe t s :
  winv s -> timers s t = Some (simTime s) -> wp (event (SelfMsg t)) (fun _ => winv) s.
Proof.
  intros Hw Ht. apply wpe_bind, wpe_modify.
  assert (Hfsm : forall s1, wp (FSMA_Switch FSM_MAXT true (fsm_body (Timer t))) (fun _ => winv) s1 ->
    wp (handleWithFSM (Timer t)) (fun _ => winv) s1).
  { intros s1 Hw1. apply wpe_bind, wpe_gets. cbv [id]. apply wpe_bind, wpe_when; intros Hx; [by rewrite andb_false_r in Hx|].
    cbn [isUpperMsg andb]. by apply wpe_bind, wpe_ret. }
  apply wpe_bind, wpe_when; intros Hr; [apply bool_decide_eq_true in Hr as -> | apply bool_decide_eq_false in Hr].
  { apply wpe_modify, Hfsm. by apply reserve_over. }
  apply Hfsm. destruct Hw as (Hc & Hp & Hs). pose proof (core_cancel t s Hr Hc) as Hc1.
  pose proof (fires t s Hp (ex_intro _ _ Ht)) as Hst. revert Hp Hs. unfold poised, sensed.
  destruct t; [rewrite Hst|rewrite Hst|rewrite Hst| |done|].
  - intros ((_ & T2 & T3 & T4) & (f & Ef & Hf) & Htr) _. by apply (SIFS_event f).
  - intros ((T1 & _ & T3 & T4) & Hb & Htr) Hfree. by apply DIFS_event.
  - intros ((T1 & T2 & T3) & _ & Hb & Htr) _. by apply Backoff_event.
  - intros Hp _. apply Timeout_event; [exact Hst | done |..]; destruct Hst as [E|[E|E]]; rewrite E in Hp;
      by destruct Hp as ((T1 & T2 & T3 & _) & Hne & Htr & _).
  - intros Hp _. apply medium_event; [by left | done | done |].
    apply (poised_timers s (nav s) (set_timer mediumStateChange None (timers s))); [|exact Hp].
    intros u ??. by autorewrite with wtimer.
Qed.

(** Every admissible event is handled without a fault and keeps the invariant. *)
Lemma event_safe m s : winv s -> msg_ok s m -> wp (event m) (fun _ => winv) s.
Proof.
  intros Hw Hm. destruct m as [t|k c|f|[f|]|i r]; cbn in Hm.
  - by apply timer_safe.
  - subst k. by apply wpe_bind, wpe_ret, command_safe.
  - by apply wpe_bind, wpe_ret, upper_safe.
  - destruct Hm. by apply wpe_bind, wpe_ret, lower_safe.
  - by apply wpe_bind, wpe_ret, wpe_bind, wpe_modify, wpe_ret, winv_plain.
  - by apply wpe_bind, wpe_ret, radio_safe.
Qed.
End safe.
