(* ===== verification/WifiAccess.v ===== *)
(** * The 802.11 MAC: access to the channel

    Data frames and requests to send go out only where the medium was sensed free for
    the interframe space or for the backoff, or where a clear-to-send answers: the
    other paths through the state machine put out nothing of that kind. *)

From S2P Require Import Prelude MACAddress WifiTypes WifiMac WifiFsm WifiInv WifiSafe.

Open Scope string_scope.
Open Scope list_scope.
Open Scope Z_scope.
#[local] Set Default Proof Using "Type".

Section access.
Context {P : Type} `{WifiEnv}.
Local Abbreviation Frame := (Ieee80211Frame P).
Local Abbreviation Mac := (Ieee80211Mac P).
Implicit Types (s : Mac) (f : Frame) (msg : fmsg P).

(** A frame that contends for the channel; the others answer one within SIFS. *)
Definition contends (e : wevent P) : bool :=
  match e with SendDown f => is_DataOrMgmt (fclass f) || bool_decide (fclass f = Ieee80211RTSFrame) | _ => false end.

(** Nothing of that kind has been put out since [l0]. *)
Definition mute (l0 : list (wevent P)) s : Prop :=
  exists l, out s = l0 ++ l /\ existsb contends l = false.

Variable l0 : list (wevent P).

Lemma mute_emit e : contends e = false -> keeps (mute l0) (emit e).
Proof.
  intros He. apply keeps_modify. intros s (l & El & Hl). exists (l ++ [e]).
  split; [change (out s ++ [e] = l0 ++ l ++ [e]); by rewrite El, (assoc_L (++))|].
  rewrite existsb_app, Hl. cbn. by rewrite He.
Qed.

Lemma mute_basic f : contends (SendDown f) = false -> keeps (mute l0) (f ← setBasicBitrate f; sendDown f).
Proof.
  intros Hf s Hs. apply wpe_bind, wpe_bind, wpe_assert; [|done]. intros _. apply wpe_bind, wpe_gets, wpe_ret.
  by apply (mute_emit (SendDown (f<| controlInfo := Some (basicBitrate (cfg s)) |>))).
Qed.

(** ** What puts out nothing *)

Ltac head_of m := lazymatch m with ?f _ => head_of f | _ => m end.
Ltac mute_step :=
  first
  [ solve [auto 2 with keeps]
  | match goal with |- keeps _ (mbind _ (setBasicBitrate _)) => apply mute_basic end
  | apply keeps_bind; [|intros ?]
  | apply keeps_when
  | progress cbv zeta
  | match goal with
    | |- keeps _ (emit _) => apply mute_emit; reflexivity
    | |- keeps _ (if ?b then _ else _) => destruct b
    | |- keeps _ (match ?x with _ => _ end) => destruct x
    | |- keeps _ (modify _) => apply keeps_modify; intros ? Hv; exact Hv
    | |- keeps _ ?m => let h := head_of m in unfold h
    end ].
Ltac mute_body := repeat mute_step.

Lemma mute_enter msg st : keeps (mute l0) (enter_action msg st).
Proof. mute_body. Qed.

Lemma mute_endReception : keeps (mute l0) endReception.
Proof. mute_body. Qed.

Lemma mute_ACK : keeps (mute l0) sendACKFrameOnEndSIFS.
Proof. mute_body. by unfold buildACKFrame; destruct (moreFragments _). Qed.
Lemma mute_CTS : keeps (mute l0) sendCTSFrameOnEndSIFS.
Proof. by mute_body. Qed.

(** ** Transitions *)

(** From one state: only the transitions that can be taken there matter. *)
Lemma mute_transitions ev (ts : list (transition P)) s :
  Forall (fun t => condition t s = Ok true -> on_event t = ev -> keeps (mute l0) (action t)) ts -> mute l0 s ->
  wpe (fun _ => True) (FSMA_Transitions ev ts) (fun _ => mute l0) s.
Proof.
  intros Hts Hs. induction Hts as [|t ts Ht _ IH]; [by apply wpe_ret|]. cbn [FSMA_Transitions].
  apply wpe_bind, wpe_gets, wpe_bind, wpe_lift. cbv [id]. destruct (condition t s) as [c|] eqn:Ec; [|done].
  destruct (c && Bool.eqb (on_event t) ev) eqn:Eb; [|done].
  apply andb_true_iff in Eb as [-> Ev%Bool.eqb_prop]. apply wpe_bind.
  eapply wpe_mono; [by apply Ht|]. intros [] s1 H1. by apply wpe_bind, wpe_modify, wpe_ret.
Qed.

(** The events after which the machine may contend, seen from a state. *)
Definition may_contend msg s : bool :=
  isTimer endDIFS msg || isTimer endBackoff msg ||
  match receivedBeforeSIFS ST_CTS msg s with Ok b => b | Fault _ => false end.

Lemma mute_transmissions t ready cleanup msg (ev b : bool) s :
  (ev = true -> isTimer t msg = false) ->
  Forall (fun t => condition t s = Ok true -> on_event t = ev -> keeps (mute l0) (action t))
    (if b then [] else transmissions t ready cleanup msg).
Proof.
  intros Ht. destruct b; [constructor|].
  repeat (constructor; [cbn; intros Hc Hev; rewrite (Ht (eq_sym Hev)) in Hc; discriminate|]). constructor.
Qed.

Lemma mute_state ev msg st s :
  (ev = true -> may_contend msg s = false) ->
  Forall (fun t => condition t s = Ok true -> on_event t = ev -> keeps (mute l0) (action t)) (state_transitions msg st s).
Proof.
  intros Hm. destruct st; unfold state_transitions.
  - unfold IDLE_transitions. destruct (fixFSM (cfg s)); repeat (constructor; [cbn; intros _ _; mute_body|]); constructor.
  - repeat (constructor; [cbn; intros _ _; mute_body|]); constructor.
  - apply Forall_app_2.
    + apply mute_transmissions. intros Hev. specialize (Hm Hev). unfold may_contend in Hm. by destruct (isTimer endDIFS msg).
    + repeat (constructor; [cbn; intros _ _; mute_body|]); constructor.
  - apply Forall_app_2.
    + apply mute_transmissions. intros Hev. specialize (Hm Hev). unfold may_contend in Hm.
      by destruct (isTimer endBackoff msg), (isTimer endDIFS msg).
    + repeat (constructor; [cbn; intros _ _; mute_body|]); constructor.
  - repeat (constructor; [cbn; intros _ _; mute_body|]); constructor.
  - repeat (constructor; [cbn; intros _ _; mute_body|]); constructor.
  - repeat (constructor; [cbn; intros _ _; mute_body|]); constructor.
  - constructor; [intros _ _; apply keeps_bind; [apply mute_CTS | intros; apply mute_endReception]|].
    constructor; [|constructor; [intros _ _; apply keeps_bind; [apply mute_ACK | intros; apply mute_endReception]|constructor]].
    cbn [condition on_event]. intros Hc Hev. specialize (Hm (eq_sym Hev)). unfold may_contend in Hm. rewrite Hc in Hm.
    by rewrite orb_true_r in Hm.
  - repeat (constructor; [cbn; intros _ _; mute_body|]); constructor.
Qed.

(** The state machine: the transition that answers the event, and those after it. *)
Lemma mute_turn msg : keeps (mute l0) (fsm_body msg false).
Proof.
  intros s Hs. unfold fsm_body. apply wpe_bind, wpe_gets, wpe_bind. cbv [id]. cbn [FSMA_Enter when negb].
  eapply wpe_mono; [by apply mute_enter|]. intros [] s1 H1. apply wpe_bind, wpe_gets, mute_transitions; [|done]. cbv [id].
  by apply mute_state.
Qed.

Lemma mute_rest n msg : keeps (mute l0) (FSMA_Switch n false (fsm_body msg)).
Proof.
  induction n as [|n IH]; cbn [FSMA_Switch]; [apply keeps_fail|]. apply keeps_bind; [apply mute_turn|].
  intros []; [done | apply keeps_ret].
Qed.

Lemma mute_machine n msg s :
  may_contend msg s = false -> mute l0 s ->
  wpe (fun _ => True) (FSMA_Switch n true (fsm_body msg)) (fun _ => mute l0) s.
Proof.
  intros Hm Hs. destruct n as [|n]; cbn [FSMA_Switch]; [done|]. apply wpe_bind.
  unfold fsm_body at 1. apply wpe_bind, wpe_gets, wpe_bind. cbv [id]. cbn [FSMA_Enter when negb]. apply wpe_ret.
  apply wpe_bind, wpe_gets. cbv [id]. eapply wpe_mono; [apply mute_transitions; [by apply mute_state | done]|].
  intros [] s1 H1; [by apply mute_rest | by apply wpe_ret].
Qed.

(** ** Handlers *)

Lemma mute_FSM msg s :
  (forall b tm n, may_contend msg (s<| noFrame := b |><| timers := tm |><| nav := n |>) = false) -> mute l0 s ->
  wpe (fun _ => True) (handleWithFSM msg) (fun _ => mute l0) s.
Proof.
  intros Hm Hs. unfold handleWithFSM. apply wpe_bind, wpe_gets. cbv [id]. apply wpe_bind.
  assert (Hgo : forall b, wpe (fun _ => True)
    (if isUpperMsg msg && negb (bool_decide (fsm s = IDLE)) then mret tt
     else
       match msg with
       | Lower f => upd (fun s => s<| lastReceiveFailed := damaged msg |>);; scheduleReservePeriod f
       | _ => mret tt
       end;; FSMA_Switch FSM_MAXT true (fsm_body msg)) (fun _ => mute l0) (s<| noFrame := b |>)).
  { intros b. destruct (isUpperMsg msg && negb (bool_decide (fsm s = IDLE))); [by apply wpe_ret|].
    apply wpe_bind. destruct msg as [t|f|f].
    - apply wpe_ret, mute_machine; [|done]. apply (Hm b (timers s) (nav s)).
    - apply wpe_ret, mute_machine; [|done]. apply (Hm b (timers s) (nav s)).
    - assert (Hk : keeps (mute l0) (upd (fun s => s<| lastReceiveFailed := damaged (Lower f) |>);; scheduleReservePeriod f))
        by mute_body.
      eapply wpe_mono; [by apply Hk|]. intros [] s1 H1. by apply mute_machine. }
  apply wpe_when; intros _; [apply wpe_modify|]; apply (Hgo _).
Qed.

(** Nothing that arrives makes the machine contend at once. *)
Lemma mute_arrival m s :
  match m with SelfMsg _ => False | _ => True end -> mute l0 s ->
  wpe (fun _ => True) (handleMessage m) (fun _ => mute l0) s.
Proof.
  intros Hm Hs. destruct m as [t|k c|f|o|i r]; [done|..]; cbn [handleMessage].
  - assert (Hk : keeps (mute l0) (handleCommand k c)) by mute_body. by apply Hk.
  - apply wpe_bind, wpe_gets. cbv [id]. case_match; [by apply wpe_ret|].
    destruct (is_DataOrMgmt (fclass f)); [|done]. destruct (fragmentationThreshold <? byteLength f); [done|]. cbn [negb].
    apply wpe_bind, wpe_assert; [|done]. intros _. apply wpe_bind, wpe_modify, wpe_bind, wpe_modify. by apply mute_FSM.
  - apply wpe_bind. eapply wpe_mono; [by apply mute_emit|]. intros [] s1 H1. destruct o as [f|]; [|by apply wpe_ret].
    apply wpe_bind, wpe_gets, wpe_bind, wpe_assert; [|done]. intros _. by apply mute_FSM.
  - apply wpe_bind, wpe_gets. cbv [id]. case_match; [|by apply wpe_ret].
    apply wpe_bind, wpe_modify. by apply mute_FSM.
Qed.
End access.

(** When the machine may contend: the medium was found free for the interframe space, or
    for the backoff (a reservation that begins at this moment is announced but not
    handled yet), or the receiver has cleared it to send. *)
Definition granted {P} (m : wmsg P) (s : Ieee80211Mac P) : Prop :=
  match m with
  | SelfMsg endDIFS => isMediumFree s = true
  | SelfMsg endBackoff => isMediumFree s = true \/ timers s mediumStateChange = Some (simTime s)
  | SelfMsg endSIFS => exists f, sifsContext s = Some f /\ fclass f = Ieee80211CTSFrame /\ transmissionQueue s <> []
  | _ => False
  end.

#[local] Set Default Proof Using "All".
Section handlers.
Context {P : Type} `{WifiEnvOk}.
Implicit Types (s : Ieee80211Mac P) (m : wmsg P).

Lemma mute_start s : mute (out s) s.
Proof. exists []. by rewrite app_nil_r. Qed.

Lemma event_access m s s' :
  winv s -> msg_ok s m -> event m s = Ok (tt, s') -> granted m s \/ mute (out s) s'.
Proof.
  intros (Hc & Hp & Hs) Hm He.
  assert (Hmute : wpe (fun _ => True) (event m) (fun _ => mute (out s)) s -> mute (out s) s').
  { intros Hw. exact (wpe_run _ _ _ _ _ _ Hw He). }
  pose proof (mute_start s) as Hs0.
  destruct m as [t|k c|f|[f|]|i r]; cbn in Hm.
  - pose proof (fires t s Hp (ex_intro _ _ Hm)) as Hst. revert Hp Hs. unfold poised, sensed.
    assert (Hself : (forall b tm n, may_contend (Timer t) (s<| noFrame := b |><| timers := tm |><| nav := n |>) = false) ->
      mute (out s) s').
    { intros Hmc. apply Hmute. apply wpe_bind, wpe_modify, wpe_bind, wpe_when; intros _; [apply wpe_modify|];
        (apply mute_FSM; [|exact Hs0]; intros; apply (Hmc _ _ _)). }
    destruct t; [rewrite Hst|rewrite Hst|rewrite Hst|..]; intros Hp Hs; try (right; by apply Hself).
    + destruct Hp as (_ & (f & Ef & Hf & Hcl) & _). destruct (decide (fclass f = Ieee80211CTSFrame)) as [Ecl|Ecl].
      * left. exists f. split; [done|]. split; [done|]. destruct Hcl as [Hcl|[[_ ?]|[Hcl _]]]; [congruence|done|].
        by rewrite Ecl in Hcl.
      * right. apply Hself. intros. unfold may_contend, receivedBeforeSIFS. wsimp. rewrite Ef.
        change ((type f =? ST_CTS) = false). apply Z.eqb_neq. by intros ?%(ok_cts f Hf).
    + left. exact Hs.
    + left. destruct Hs as [?|[u Hu]]; [by left|]. right. rewrite Hu. by destruct (c_change _ _ _ _ _ _ _ _ _ _ Hc u Hu) as [-> _].
  - right. by apply Hmute, wpe_bind, wpe_ret, mute_arrival.
  - right. by apply Hmute, wpe_bind, wpe_ret, mute_arrival.
  - right. by apply Hmute, wpe_bind, wpe_ret, mute_arrival.
  - right. by apply Hmute, wpe_bind, wpe_ret, mute_arrival.
  - right. by apply Hmute, wpe_bind, wpe_ret, mute_arrival.
Qed.
End handlers.
