(* ===== verification/WifiProps.v ===== *)
(** * The 802.11 MAC: its reachable states and what follows for its users

    The module from its initialisation on: time passes and admissible events are
    handled.  No event fails, a frame is transmitted a bounded number of times where
    [fixFSM] is set, and the medium is sensed before a transmission. *)

From S2P Require Import Prelude MACAddress WifiTypes WifiMac WifiFsm WifiKeeps WifiInv WifiSafe WifiAccess.

Open Scope string_scope.
Open Scope list_scope.
Open Scope Z_scope.
#[local] Set Default Proof Using "All".

(** ** Runs *)

Section runs.
Context {P : Type} `{WifiEnvOk}.
Local Abbreviation Frame := (Ieee80211Frame P).
Local Abbreviation Mac := (Ieee80211Mac P).
Implicit Types (s : Mac) (f : Frame) (m : wmsg P).

(** A step: the clock moves, not beyond a self message that is due, or something is
    handled. *)
Inductive wstep : Mac -> Mac -> Prop :=
  | step_time t s :
      simTime s <= t -> (forall k u, timers s k = Some u -> t <= u) -> wstep s (s<| simTime := t |>)
  | step_event m s s' : msg_ok s m -> event m s = Ok (tt, s') -> wstep s s'.

Inductive wreach (s0 : Mac) : Mac -> Prop :=
  | reach_init : wreach s0 s0
  | reach_step s s' : wreach s0 s -> wstep s s' -> wreach s0 s'.

Lemma time_winv t s :
  simTime s <= t -> (forall k u, timers s k = Some u -> t <= u) -> winv s -> winv (s<| simTime := t |>).
Proof.
  intros Hle Hlast (Hc & Hp & Hs). split; [|split; [|exact Hs]].
  - destruct Hc. core_split.
    intros u Hu. destruct (c_change u Hu) as (-> & e & He & Hlt). pose proof (Hlast _ _ Hu).
    assert (t = simTime s) as -> by lia. eauto.
  - revert Hp. unfold poised. wsimp. destruct (fsm s); try done.
    intros (? & (? & ? & ?) & ?). repeat (split; [done|]). split; [|done]. split; [done|]. split; [lia|done].
Qed.

Lemma wstep_winv s s' : wstep s s' -> winv s -> winv s'.
Proof.
  intros [t s1 Hle Hlast|m s1 s2 Hm He] Hw; [by apply time_winv|].
  exact (wpe_run _ _ _ _ _ _ (event_safe m s1 Hw Hm) He).
Qed.

Lemma wreach_winv s0 s : wreach s0 s -> winv s0 -> winv s.
Proof. induction 1; eauto using wstep_winv. Qed.

Lemma wreach_cfg s0 s : wreach s0 s -> cfg s = cfg s0.
Proof.
  induction 1 as [|s1 s2 _ IH Hst]; [done|]. revert IH. destruct Hst as [t s3 _ _|m s3 s4 _ He]; intros IH; [exact IH|].
  refine (keeps_run (fun s => cfg s = cfg s0) (event m) s3 tt s4 _ IH He).
  apply keeps_bind; [|intros _; apply handleMessage_cfg].
  destruct m; first [apply keeps_ret | by apply keeps_modify].
Qed.

(** ** Initialisation *)

(** The parameters a configuration gives. *)
Record params_ok (p : Params) : Prop := {
  po_bitrate : 0 < p_bitrate p;
  po_retry : p_retryLimit p = -1 \/ 0 < p_retryLimit p <= 31;
  po_data : p_cwMinData p = -1 \/ 0 <= p_cwMinData p;
  po_broadcast : p_cwMinBroadcast p = -1 \/ 0 <= p_cwMinBroadcast p;
  po_window : ((if p_cwMinData p =? -1 then CW_MIN else p_cwMinData p) + 1)
              * 2 ^ ((if p_retryLimit p =? -1 then 7 else p_retryLimit p) - 1) <= INT_MAX;
  po_address : p_address p = "auto";
  po_queue : p_queueModule p = true;
}.

Lemma auto_not_broadcast n : isBroadcast (generateAutoAddress n).1 = false.
Proof.
  unfold isBroadcast. apply Z.eqb_neq. cbn [generateAutoAddress fst foldr]. intros E.
  apply (f_equal (fun z => Z.testbit z 0)) in E. rewrite Z.land_spec in E. discriminate.
Qed.

Lemma initialize_winv p ctr :
  params_ok p -> exists s ctr', @initialize P p ctr = Ok (s, ctr') /\ winv s /\ fixFSM (cfg s) = p_fixFSM p.
Proof.
  intros []. unfold initialize.
  set (tl := if p_retryLimit p =? -1 then 7 else _) in *. set (cd := if p_cwMinData p =? -1 then CW_MIN else _) in *.
  set (cb := if p_cwMinBroadcast p =? -1 then 31 else _).
  assert (0 < tl <= 31) by (unfold tl; destruct (Z.eqb_spec (p_retryLimit p) (-1)); lia).
  assert (0 <= cd) by (unfold cd, CW_MIN; destruct (Z.eqb_spec (p_cwMinData p) (-1)); lia).
  assert (0 <= cb) by (unfold cb; destruct (Z.eqb_spec (p_cwMinBroadcast p) (-1)); lia).
  rewrite (proj2 (Z.ltb_lt 0 tl)), (proj2 (Z.leb_le 0 cd)), (proj2 (Z.leb_le 0 cb)), po_address0, po_queue0 by lia.
  cbn [check mbind outcome_bind String.eqb Ascii.eqb Bool.eqb].
  destruct (generateAutoAddress ctr) as [a ctr'] eqn:Ea. do 2 eexists. split; [reflexivity|]. split; [|done].
  assert (Ha : a = (generateAutoAddress ctr).1) by (by rewrite Ea).
  split; [|split; [|done]].
  - core_split.
    + split; cbn [transmissionLimit cwMinData cwMinBroadcast bitrate basicBitrate queueModule address];
        try fast_done; try lia; rewrite Ha; [apply auto_not_broadcast | apply generateAutoAddress_wf].
    + cbn [transmissionLimit]. lia.
    + by left.
    + by intros.
    + split; [done | by intros []].
    + by intros.
    + by intros.
    + by intros.
    + intros f [[=]|[[=]|[]%elem_of_nil]%elem_of_cons]%elem_of_cons.
    + done.
  - unfold poised. wsimp. split; [done|]. split; [done|]. split; [by left|]. by intros _.
Qed.
End runs.

(** ** The states and their self messages *)

Section props.
Context {P : Type} `{WifiEnvOk}.
Implicit Types (s : Ieee80211Mac P) (m : wmsg P).

(** What a reachable state looks like from outside. *)
Record consistent s : Prop := {
  cs_sifs : is_Some (timers s endSIFS) <-> fsm s = WAITSIFS;
  cs_difs : is_Some (timers s endDIFS) <-> fsm s = WAITDIFS;
  cs_backoff : is_Some (timers s endBackoff) <-> fsm s = BACKOFF;
  cs_timeout : is_Some (timers s endTimeout) <-> fsm s = WAITACK \/ fsm s = WAITBROADCAST \/ fsm s = WAITCTS;
  cs_nav : is_Some (timers s endReserve) <-> nav s = true;
  cs_due : forall t u, timers s t = Some u -> simTime s <= u;
  cs_idle : fsm s = IDLE -> transmissionQueue s = [];
  cs_waiting : fsm s = WAITACK \/ fsm s = WAITBROADCAST \/ fsm s = WAITCTS -> transmissionQueue s <> [];
  cs_transient : fsm s <> RECEIVE;
  (** a frame that waits is waited for: by a self message, or by a busy medium that ends *)
  cs_progress : transmissionQueue s <> [] ->
    is_Some (timers s endSIFS) \/ is_Some (timers s endDIFS) \/ is_Some (timers s endBackoff) \/
    is_Some (timers s endTimeout) \/
    (fsm s = DEFER /\ (radioState s <> RadioState.IDLE \/ is_Some (timers s endReserve)));
  cs_retry : 0 <= retryCounter s < transmissionLimit (cfg s);
  cs_period : backoffPeriod s = invalidBackoff \/ 0 <= backoffPeriod s <= max_window (cfg s) * getSlotTime;
}.

Lemma busy_medium s : isMediumFree s = false -> radioState s <> RadioState.IDLE \/ is_Some (timers s endReserve).
Proof.
  unfold isMediumFree, isScheduled. rewrite andb_false_iff, negb_false_iff, bool_decide_eq_false, bool_decide_eq_true. auto.
Qed.

Lemma winv_consistent s : winv s -> consistent s.
Proof.
  intros (Hc & Hp & Hs). pose proof (fun t => fires t s Hp) as Hf.
  assert (Ht : forall t, is_Some (timers s t) \/ timers s t = None) by (intros t; destruct (timers s t); eauto).
  revert Hp Hs. unfold poised, sensed, quiet. intros Hp Hs. split; try by destruct Hc.
  - split; [apply (Hf endSIFS)|]. intros E. rewrite E in Hp. apply Hp.
  - split; [apply (Hf endDIFS)|]. intros E. rewrite E in Hp. apply Hp.
  - split; [apply (Hf endBackoff)|]. intros E. rewrite E in Hp. destruct Hp as (_ & (-> & _) & _). eauto.
  - split; [apply (Hf endTimeout)|]. intros [E|[E|E]]; rewrite E in Hp; apply Hp.
  - intros E. rewrite E in Hp. apply Hp.
  - intros [E|[E|E]]; rewrite E in Hp; apply Hp.
  - intros E. by rewrite E in Hp.
  - intros Hne. destruct (fsm s); try done.
    + by destruct Hp as (_ & ? & _).
    + pose proof (busy_medium _ Hs). auto 6.
    + destruct Hp as ((_ & ? & _) & _). auto.
    + destruct Hp as (_ & (-> & _) & _). eauto 6.
    + destruct Hp as ((_ & _ & _ & ?) & _). auto.
    + destruct Hp as ((_ & _ & _ & ?) & _). auto.
    + destruct Hp as ((_ & _ & _ & ?) & _). auto.
    + destruct Hp as ((? & _) & _). auto.
Qed.

Lemma attempts_winv s : winv s -> fixFSM (cfg s) = true -> sentSincePop (out s) <= transmissionLimit (cfg s).
Proof.
  intros (Hc & Hp & _) Hx. pose proof (c_retry _ _ _ _ _ _ _ _ _ _ Hc) as Hr.
  assert (trying s) as Ht.
  { revert Hp. unfold poised, tries. destruct (fsm s); intros; destruct_and?; try done; intros ?;
      match goal with H : fixFSM _ = true -> _ |- _ => specialize (H Hx) end; lia. }
  specialize (Ht Hx). lia.
Qed.

Lemma reached p ctr s0 ctr' s :
  params_ok p -> @initialize P p ctr = Ok (s0, ctr') -> wreach s0 s ->
  winv s /\ cfg s = cfg s0 /\ fixFSM (cfg s) = p_fixFSM p.
Proof.
  intros Hp Hi Hr. destruct (initialize_winv (P := P) p ctr Hp) as (s1 & c1 & Hi1 & Hw & Hfix). rewrite Hi in Hi1.
  injection Hi1 as -> ->. rewrite (wreach_cfg _ _ Hr). split; [by apply (wreach_winv s1) | done].
Qed.

(** ** Claims *)

(** C10: The 802.11 MAC never fails.  Initialised with parameters as a configuration gives
    them, it handles every admissible event in every state it can reach: no [ASSERT] of
    Ieee80211Mac.cc fails, the kernel refuses no [scheduleAt] (a self message that is
    already scheduled, or a time that is over), no null pointer is followed (the front of
    an empty queue, the frame received before a SIFS that was not one), no shift or product
    of the contention window overflows, and the machine comes to rest within the number of
    transitions the macros of FSMA.h allow. *)
Theorem wifi_never_fails p ctr :
  params_ok p ->
  exists s0 ctr', @initialize P p ctr = Ok (s0, ctr') /\
  forall s m, wreach s0 s -> msg_ok s m -> exists s', event m s = Ok (tt, s').
Proof.
  intros Hp. destruct (initialize_winv (P := P) p ctr Hp) as (s0 & ctr' & Hi & Hw & _). exists s0, ctr'. split; [done|].
  intros s m Hr Hm. destruct (wp_ok _ _ _ (event_safe m s (wreach_winv _ _ Hr Hw) Hm)) as ([] & s' & He & _). eauto.
Qed.

(** C12: The states of the 802.11 machine and its self messages agree in every reachable
    state: [endSIFS], [endDIFS], [endBackoff] and [endTimeout] are scheduled exactly in the
    states that wait for them, [nav] says whether a reservation runs, nothing scheduled is
    overdue; IDLE has an empty queue, the states that wait for an answer a frame to repeat;
    the transient RECEIVE is never seen; the retry counter is below the limit and the
    backoff period within the largest contention window.  And the machine is never stuck
    with a frame in its queue: a self message is on its way, or it is in DEFER with the
    radio busy or the medium reserved. *)
Theorem wifi_state_consistent p ctr s0 ctr' s :
  params_ok p -> @initialize P p ctr = Ok (s0, ctr') -> wreach s0 s -> consistent s.
Proof.
  intros Hp Hi Hr. apply winv_consistent. by destruct (reached p ctr s0 ctr' s).
Qed.

(** C14: Where [fixFSM] is set, a frame is transmitted at most [transmissionLimit] times: in
    every reachable state, the data frames given to the radio since a frame was last taken
    off the transmission queue (all transmissions of the frame at its front) are at most
    that many, whatever was received in between, and whatever collided. *)
Theorem wifi_attempts_bounded p ctr s0 ctr' s :
  params_ok p -> p_fixFSM p = true -> @initialize P p ctr = Ok (s0, ctr') -> wreach s0 s ->
  sentSincePop (out s) <= transmissionLimit (cfg s0).
Proof.
  intros Hp Hx Hi Hr. destruct (reached p ctr s0 ctr' s) as (Hw & Hc & Hfix); [done..|].
  rewrite <- Hc. apply attempts_winv; congruence.
Qed.

(** C13: The medium is sensed before the channel is used.  Handling an event in a reachable
    state puts out a data frame or a request to send only if the event is the end of DIFS
    and the medium is free (the radio idle and no reservation running), the end of the
    backoff with the medium free (or busy from this very moment on: the change is
    announced for now and not handled yet), or the end of SIFS after a clear-to-send frame
    that answers for the frame at the front of the queue.  In all other cases nothing of
    the kind is among what the event adds to the output. *)
Theorem wifi_channel_access p ctr s0 ctr' s m s' :
  params_ok p -> @initialize P p ctr = Ok (s0, ctr') -> wreach s0 s -> msg_ok s m -> event m s = Ok (tt, s') ->
  granted m s \/ exists l, out s' = out s ++ l /\ existsb contends l = false.
Proof.
  intros Hp Hi Hr Hm He. destruct (reached p ctr s0 ctr' s) as [Hw _]; [done..|]. by apply (event_access m s s').
Qed.
End props.
