(* ===== verification/WifiExchange.v ===== *)
(** * The 802.11 MAC: data and acknowledgements

    What a station does with a data frame addressed to it, with the end of the short
    space that follows, and with the acknowledgement of its own frame. *)

From S2P Require Import Prelude MACAddress WifiTypes WifiMac WifiFsm WifiKeeps WifiInv WifiSafe WifiAccess WifiProps.

Open Scope string_scope.
Open Scope list_scope.
Open Scope Z_scope.
#[local] Set Default Proof Using "All".

(** ** After a transition *)

Section after.
Context {P : Type} `{WifiEnv} (qs : list (option P)) (sent : Z) (l0 : list (wevent P)).
Implicit Types (s : Ieee80211Mac P) (f : Ieee80211Frame P).

(** The packets that wait, the next attempt's number, and what was put out. *)
Definition cleared s : Prop :=
  encapsulated <$> transmissionQueue s = qs /\ retryCounter s = 0 /\ numSent (stats s) = sent /\ grows l0 s.

Lemma cleared_emit e : keeps cleared (emit e).
Proof.
  apply keeps_modify. intros s (Hq & Hr & Hn & l & El). repeat (split; [done|]). exists (l ++ [e]).
  change (out s ++ [e] = l0 ++ l ++ [e]). by rewrite El, (assoc_L (++)).
Qed.

Lemma cleared_current g : (forall f, encapsulated (g f) = encapsulated f) -> keeps cleared (on_current g).
Proof.
  intros Hg s (Hq & Hrest). apply wpe_bind, wpe_gets. cbv [id].
  destruct (transmissionQueue s) as [|f q] eqn:Eq; [done|]. apply wpe_modify. split; [|done].
  rewrite <- Hq. cbn. by rewrite Hg.
Qed.

Ltac cleared_step := first
  [apply cleared_emit | apply cleared_current; reflexivity
  | apply keeps_modify; intros ? (Hq & Hr & Hn & Hg); first [exact (conj Hq (conj Hr (conj Hn Hg))) | exact (conj Hq (conj eq_refl (conj Hn Hg)))]].

(** A transition for an event is not taken where there is none. *)
Ltac no_events :=
  repeat first
  [ exact I
  | split; [intros _ Hx; discriminate Hx|intros _]
  | split; [intros _ _; cbn [action FSMA_No_Event_Transition]; follow ltac:(cleared_step)|intros _] ].

#[export] Instance cleared_kept msg : TurnKeeps cleared msg false.
Proof.
  split; intros; try solve [follow ltac:(cleared_step)].
  destruct st; cbn [state_transitions]; unfold IDLE_transitions, WAITDIFS_transitions, BACKOFF_transitions;
    try destruct (fixFSM (cfg s)); try destruct (queue_empty s); cbn [app transmissions kept]; no_events.
Qed.
End after.

Section exchange.
Context {P : Type} `{WifiEnvOk}.
Local Abbreviation Frame := (Ieee80211Frame P).
Local Abbreviation Mac := (Ieee80211Mac P).
Implicit Types (s : Mac) (f : Frame).

(** ** Frames for this station *)

(** The frame the machine sees, and the state it sees it in: no reservation is made. *)
Definition bare f : Frame := f<| controlInfo := None |>.
Definition hearing f s : Mac :=
  s<| out ::= fun l => l ++ [NF_LINK_FULL_PROMISCUOUS (Some f)] |><| lastReceiveFailed := damaged (Lower (bare f)) |>.

Lemma wp_for_us {F : fault -> Prop} f s (Q : unit -> Mac -> Prop) :
  isForUs s (Some f) = true -> (is_TwoAddress (fclass f) = true -> equals (transmitterAddress f) (address (cfg s)) = false) ->
  wpe F (FSMA_Switch FSM_MAXT true (fsm_body (Lower (bare f)))) Q (hearing f s) ->
  wpe F (event (LowerMsg (Some f))) Q s.
Proof.
  intros Hus Ha HQ. apply wpe_bind, wpe_ret. cbn [handleMessage]. unfold handleLowerMsg.
  apply wpe_bind, wpe_modify, wpe_bind, wpe_gets. cbv [id]. apply wpe_bind, wpe_assert.
  2: { wsimp. destruct (is_TwoAddress (fclass f)); [rewrite Ha by done|]; done. }
  intros _. apply wpe_bind, wpe_gets. cbv [id]. apply wpe_bind, wpe_when; intros Hx; [by rewrite andb_false_r in Hx|].
  cbn [isUpperMsg andb]. apply wpe_bind, wpe_bind, wpe_modify, wpe_bind, wpe_gets. cbv [id].
  match goal with |- wpe _ (if negb ?b && _ && _ then _ else _) _ _ => replace b with true by exact (eq_sym Hus) end.
  by apply wpe_ret.
Qed.

Lemma acked_run f s d q :
  fsm s = WAITACK -> transmissionQueue s = d :: q -> queueModule (cfg s) = true -> type f = ST_ACK -> isForUs s (Some f) = true ->
  (is_TwoAddress (fclass f) = true -> equals (transmitterAddress f) (address (cfg s)) = false) ->
  wpe (fun _ => True) (event (LowerMsg (Some f)))
    (fun _ => cleared (encapsulated <$> q) (numSent (stats s) + 1)
                (out s ++ [NF_LINK_FULL_PROMISCUOUS (Some f); RequestPacket])) s.
Proof.
  intros E Eq Hqm Ht Hus Ha. apply wp_for_us; [done..|]. destruct (maxt (P := P)) as [n ->].
  apply wp_switch, (wp_event _ WAITACK); [done|]. cbn [state_transitions]. unfold WAITACK_transitions.
  assert (Hc : isForUs (hearing f s) (Some (bare f)) && (type f =? ST_ACK) = true) by (by rewrite Ht, Z.eqb_refl, andb_true_r).
  apply wp_take; [cbn [condition FSMA_Event_Transition isLowerMsg msg_frame andb]; by rewrite <- Hc | done |].
  cbn [action FSMA_Event_Transition].
  set (k := FSMA_Switch _ false _). assert (Hk : forall qs m l, keeps (cleared qs m l) k) by (intros; apply keeps_rest, _).
  set (Q := cleared _ _ _).
  assert (Hfin : forall s1, transmissionQueue s1 = d :: q -> cfg s1 = cfg s -> numSent (stats s1) = numSent (stats s) + 1 ->
    out s1 = out s ++ [NF_LINK_FULL_PROMISCUOUS (Some f)] ->
    wpe (fun _ => True) finishCurrentTransmission (fun _ s2 => wpe (fun _ => True) k (fun _ => Q) (s2<| fsm := IDLE |>)) s1).
  { intros s1 Eq1 Ec1 En1 Eo1. apply wpe_bind, wpe_bind, wpe_gets. cbv [id]. rewrite Eq1, Ec1, Hqm. apply wpe_bind, wpe_modify, wpe_modify.
    apply wpe_bind, wpe_modify, wpe_bind, wpe_gets. cbv [id]. wsimp.
    assert (Hout : exists l, out s1 ++ [RequestPacket] = (out s ++ [NF_LINK_FULL_PROMISCUOUS (Some f); RequestPacket]) ++ l).
    { exists []. rewrite Eo1, app_nil_r, <- (assoc_L (++)). done. }
    destruct q as [|g q].
    - apply wpe_modify, Hk. split; [done|]. split; [done|]. split; [exact En1 | exact Hout].
    - apply wpe_bind, wpe_modify, wpe_bind, wpe_gets. cbv [id]. wsimp. apply wpe_modify, Hk.
      split; [done|]. split; [done|]. split; [exact En1 | exact Hout]. }
  apply wpe_bind, wpe_gets. cbv [id].
  apply wpe_bind, wpe_when; intros _; [apply wpe_modify|]; apply wpe_bind, wpe_modify, wpe_bind, wpe_modify, Hfin; done.
Qed.

(** ** Data for this station *)

(** RECEIVE, with a whole data frame for this station. *)
Lemma receive_run f s n (Q : unit -> Mac -> Prop) :
  fsm s = RECEIVE -> isForUs s (Some f) = true -> isBroadcast (receiverAddress f) = false ->
  is_DataOrMgmt (fclass f) = true -> damaged (Lower f) = false ->
  (forall s1, fsm s1 = WAITSIFS -> sifsContext s1 = Some (dup f) -> transmissionQueue s1 = transmissionQueue s ->
     timers s1 endSIFS = Some (simTime s + getSIFS) -> out s1 = out s ++ [SendUp f] -> Q tt s1) ->
  wpe (fun _ => True) (FSMA_Switch (S (S n)) false (fsm_body (Lower f))) Q s.
Proof.
  intros E Hus Hb Hd Hw HQ. apply wp_switch, (wp_enter _ RECEIVE); [done|]. apply wpe_bind, wpe_gets, wpe_ret.
  cbn [state_transitions]. unfold RECEIVE_transitions. cbn [msg_frame].
  apply wp_pass; [eexists; split; [reflexivity|]; cbn [isLowerMsg andb]; by rewrite Hw|].
  apply wp_pass; [eexists; split; [reflexivity|]; cbn [isLowerMsg isBroadcastFrame andb]; by rewrite Hb|].
  apply wp_take; [cbn [condition FSMA_No_Event_Transition isLowerMsg isDataOrMgmtFrame andb]; by rewrite Hus, Hd | done |].
  cbn [action FSMA_No_Event_Transition]. apply wpe_bind, wpe_bind, wpe_ret, wpe_modify, wpe_modify.
  apply wp_switch, (wp_enter _ WAITSIFS); [done|]. apply wpe_bind, wpe_gets, wpe_bind, wpe_ret, wpe_bind, wpe_modify.
  apply wpe_bind, wpe_gets. cbv [id]. unfold scheduleAt. apply wpe_bind, wpe_gets.
  case_match; [done|]. case_match; [done|]. apply wpe_modify.
  apply wp_no_event; [repeat (constructor; [split; [reflexivity | eexists; reflexivity]|]); constructor|].
  by apply HQ.
Qed.

Lemma data_run f s :
  fsm s = IDLE \/ fsm s = DEFER \/ fsm s = WAITDIFS -> isForUs s (Some f) = true -> isBroadcast (receiverAddress f) = false ->
  (is_TwoAddress (fclass f) = true -> equals (transmitterAddress f) (address (cfg s)) = false) ->
  is_DataOrMgmt (fclass f) = true -> damaged (Lower f) = false ->
  wpe (fun _ => True) (event (LowerMsg (Some f)))
    (fun _ s1 => fsm s1 = WAITSIFS /\ sifsContext s1 = Some (bare f) /\ transmissionQueue s1 = transmissionQueue s /\
       timers s1 endSIFS = Some (simTime s + getSIFS) /\
       out s1 = out s ++ [NF_LINK_FULL_PROMISCUOUS (Some f); SendUp (bare f)]) s.
Proof.
  intros E Hus Hb Ha Hd Hw. apply wp_for_us; [done..|]. destruct (maxt (P := P)) as [n ->]. apply wp_switch.
  assert (Hrec : forall tm, wpe (fun _ => True) (FSMA_Switch (S (S (S (S (S n))))) false (fsm_body (Lower (bare f))))
    (fun _ s1 => fsm s1 = WAITSIFS /\ sifsContext s1 = Some (bare f) /\ transmissionQueue s1 = transmissionQueue s /\
       timers s1 endSIFS = Some (simTime s + getSIFS) /\
       out s1 = out s ++ [NF_LINK_FULL_PROMISCUOUS (Some f); SendUp (bare f)]) ((hearing f s)<| timers := tm |><| fsm := RECEIVE |>)).
  { intros tm. apply receive_run; [done..|]. intros s1 E1 E2 E3 E4 E5. repeat (split; [done|]). rewrite E5. wsimp.
    change (out (hearing f s)) with (out s ++ [NF_LINK_FULL_PROMISCUOUS (Some f)]). by rewrite <- (assoc_L (++)). }
  pose proof (Hrec (timers s)) as Hsame.
  destruct E as [E|[E|E]]; (eapply wp_event; [exact E|]); cbn [state_transitions].
  - unfold IDLE_transitions. destruct (fixFSM _); cbn [app];
      repeat (apply wp_pass; [eexists; split; [reflexivity | first [reflexivity | apply andb_false_r]]|]);
      (apply wp_take; [done | done | by apply wpe_ret]).
  - repeat (apply wp_pass; [eexists; split; [reflexivity | first [reflexivity | apply andb_false_r]]|]);
      (apply wp_take; [done | done | by apply wpe_ret]).
  - unfold WAITDIFS_transitions. destruct (queue_empty _); cbn [app transmissions];
      repeat (apply wp_pass; [eexists; split; [reflexivity | first [reflexivity | apply andb_false_r]]|]);
      (apply wp_take; [done | done | by apply wpe_modify, (Hrec (set_timer endDIFS None (timers s)))]).
Qed.

(** ** The acknowledgement of a frame received *)

Definition acknowledgement s f : Frame := (buildACKFrame s f)<| controlInfo := Some (basicBitrate (cfg s)) |>.

Lemma ack_run f s :
  fsm s = WAITSIFS -> sifsContext s = Some f -> is_DataOrMgmt (fclass f) = true -> type f <> ST_RTS -> type f <> ST_CTS ->
  wpe (fun _ => True) (event (SelfMsg endSIFS)) (fun _ => grows (out s ++ [SendDown (acknowledgement s f)])) s.
Proof.
  intros E Ec Hd H1 H2. apply wpe_bind, wpe_modify, wpe_bind, wpe_when; intros Hx; [done|].
  apply wpe_bind, wpe_gets. cbv [id]. apply wpe_bind, wpe_when; intros Hy; [by rewrite andb_false_r in Hy|].
  cbn [isUpperMsg andb]. apply wpe_bind, wpe_ret. destruct (maxt (P := P)) as [n ->].
  apply wp_switch, (wp_event _ WAITSIFS); [done|]. cbn [state_transitions]. unfold WAITSIFS_transitions.
  set (s0 := s<| timers ::= _ |>).
  assert (Hrec : forall t, receivedBeforeSIFS t (Timer endSIFS) s0 = Ok (type f =? t))
    by (intros t; unfold receivedBeforeSIFS; cbn [isTimer]; rewrite bool_decide_true by done;
        change (sifsContext s0) with (sifsContext s); by rewrite Ec).
  apply wp_pass; [eexists; split; [apply Hrec|]; rewrite andb_true_r; by apply Z.eqb_neq|].
  apply wp_pass; [eexists; split; [apply Hrec|]; rewrite andb_true_r; by apply Z.eqb_neq|].
  apply wp_take; [cbn [condition FSMA_Event_Transition]; change (sifsContext s0) with (sifsContext s);
    unfold isDataOrMgmtFrame; by rewrite Ec, Hd | done |].
  set (k := FSMA_Switch _ false _). set (G := grows _). cbn [action FSMA_Event_Transition].
  assert (Hend : keeps G endReception) by follow ltac:(apply grows_emit).
  assert (Hk : keeps G k) by (apply keeps_switch, _).
  apply wpe_bind, wpe_bind, wpe_bind, wpe_gets, wpe_bind, wpe_modify, wpe_ret. cbv [id].
  change (sifsContext s0) with (sifsContext s). rewrite Ec. apply wpe_bind, wpe_bind, wp_deref. rewrite Hd. apply wpe_ret.
  apply wpe_bind, wpe_modify, wpe_bind, wpe_gets. cbv [id].
  apply wpe_bind, wpe_bind, wpe_assert; [|done]. intros _. apply wpe_bind, wpe_gets, wpe_ret, wpe_modify.
  eapply wpe_mono; [apply Hend; exists []; by rewrite app_nil_r|]. intros [] s1 Hs1. by apply Hk.
Qed.

Lemma for_us_unicast s f : cfg_ok (cfg s) -> frame_ok f -> isForUs s (Some f) = true -> isBroadcast (receiverAddress f) = false.
Proof.
  intros Hc Hf Hus. cbn in Hus. rewrite equals_spec in Hus; [|apply Hf | apply Hc]. apply bool_decide_eq_true in Hus.
  rewrite Hus. apply Hc.
Qed.

(** An event of a reachable state that is known to end in [Q], if it ends. *)
Lemma event_ends s m (Q : Mac -> Prop) :
  winv s -> msg_ok s m -> wpe (fun _ => True) (event m) (fun _ => Q) s -> exists s', event m s = Ok (tt, s') /\ Q s'.
Proof.
  intros Hw Hm HQ. destruct (wp_ok _ _ _ (event_safe m s Hw Hm)) as ([] & s' & He & _).
  exists s'. split; [done|]. exact (wpe_run _ _ _ _ _ _ HQ He).
Qed.

(** ** Claims *)

(** C27: A data frame for this station is handed up once and answered.  In every reachable
    state in which the machine is free to receive (IDLE, DEFER or WAITDIFS), a frame that
    arrives whole and carries the station's address is handed to the module above, exactly
    once and as it was received, the machine waits for the end of SIFS, which is scheduled
    for SIFS from now, and remembers whom to answer; the queue of frames to send is left as
    it is. *)
Theorem wifi_data_received p ctr s0 ctr' s f :
  params_ok p -> @initialize P p ctr = Ok (s0, ctr') -> wreach s0 s ->
  fsm s = IDLE \/ fsm s = DEFER \/ fsm s = WAITDIFS ->
  msg_ok s (LowerMsg (Some f)) -> isForUs s (Some f) = true -> is_DataOrMgmt (fclass f) = true -> damaged (Lower f) = false ->
  exists s1, event (LowerMsg (Some f)) s = Ok (tt, s1) /\
    fsm s1 = WAITSIFS /\ sifsContext s1 = Some (bare f) /\ transmissionQueue s1 = transmissionQueue s /\
    timers s1 endSIFS = Some (simTime s + getSIFS) /\
    out s1 = out s ++ [NF_LINK_FULL_PROMISCUOUS (Some f); SendUp (bare f)].
Proof.
  intros Hp Hi Hr E Hm Hus Hd Hw. destruct (reached p ctr s0 ctr' s) as [Hinv _]; [done..|].
  apply event_ends; [done..|]. destruct Hm as [Hf Ha]. apply data_run; try done.
  apply (for_us_unicast s); [apply core_cfg, Hinv | done..].
Qed.

(** C29: At the end of SIFS the acknowledgement goes out.  In every reachable state in which
    the end of SIFS is due and a data frame was received before it, the first thing handling
    it puts out is an acknowledgement to the sender of that frame, at the basic bitrate. *)
Theorem wifi_ack_sent p ctr s0 ctr' s f :
  params_ok p -> @initialize P p ctr = Ok (s0, ctr') -> wreach s0 s ->
  fsm s = WAITSIFS -> timers s endSIFS = Some (simTime s) -> sifsContext s = Some f -> is_DataOrMgmt (fclass f) = true ->
  exists s' ack l, event (SelfMsg endSIFS) s = Ok (tt, s') /\ out s' = out s ++ SendDown ack :: l /\
    fclass ack = Ieee80211ACKFrame /\ receiverAddress ack = transmitterAddress f /\
    controlInfo ack = Some (basicBitrate (cfg s)).
Proof.
  intros Hp Hi Hr E Ht Ec Hd. destruct (reached p ctr s0 ctr' s) as [Hinv _]; [done..|].
  pose proof (c_context _ _ _ _ _ _ _ _ _ _ (proj1 Hinv) f Ec) as Hf. destruct (data_class _ Hd) as (H1 & H2 & _).
  destruct (event_ends s (SelfMsg endSIFS) (grows (out s ++ [SendDown (acknowledgement s f)])) Hinv Ht) as (s' & He & l & Hl).
  { apply ack_run; [done..| |]; intros Hty; [apply H1 | apply H2]; by apply Hf. }
  exists s', (acknowledgement s f), l. split; [done|]. split; [by rewrite Hl, <- (assoc_L (++))|].
  unfold acknowledgement, buildACKFrame. by destruct (negb (moreFragments f)).
Qed.

(** C28: The acknowledgement completes the transmission.  In every reachable state in which
    the machine waits for it, an acknowledgement that carries the station's address takes
    the frame off the queue and leaves the packets behind it in their order, asks the module
    above for another one at once, counts the frame as sent and starts the attempts of the
    next one from zero. *)
Theorem wifi_acknowledged p ctr s0 ctr' s f d q :
  params_ok p -> @initialize P p ctr = Ok (s0, ctr') -> wreach s0 s ->
  fsm s = WAITACK -> transmissionQueue s = d :: q ->
  msg_ok s (LowerMsg (Some f)) -> isForUs s (Some f) = true -> type f = ST_ACK ->
  exists s' l, event (LowerMsg (Some f)) s = Ok (tt, s') /\
    out s' = out s ++ NF_LINK_FULL_PROMISCUOUS (Some f) :: RequestPacket :: l /\
    encapsulated <$> transmissionQueue s' = encapsulated <$> q /\ retryCounter s' = 0 /\
    numSent (stats s') = numSent (stats s) + 1.
Proof.
  intros Hp Hi Hr E Eq Hm Hus Hty. destruct (reached p ctr s0 ctr' s) as [Hinv _]; [done..|].
  destruct (event_ends s (LowerMsg (Some f)) _ Hinv Hm (acked_run f s d q E Eq (co_queue _ (core_cfg _ (proj1 Hinv))) Hty Hus (proj2 Hm)))
    as (s' & He & Hq & Hrc & Hn & l & Hl).
  exists s', l. split; [done|]. split; [by rewrite Hl, <- (assoc_L (++)) | done].
Qed.
End exchange.
