(* ===== verification/WifiSample.v ===== *)
(** * The 802.11 MAC: concrete runs

    Executing a schedule of events, with the parameters of the configuration srwsn80211 of
    omnetpp.ini; a schedule that executes is a run of [wstep]. *)

From S2P Require Import Prelude MACAddress WifiTypes WifiMac WifiFsm WifiKeeps WifiInv WifiSafe WifiAccess WifiProps WifiExchange.

Open Scope string_scope.
Open Scope list_scope.
Open Scope Z_scope.
#[local] Set Default Proof Using "All".

(** ** Schedules *)

Definition all_timers : list wtimer := [endSIFS; endDIFS; endBackoff; endTimeout; endReserve; mediumStateChange].

Section play.
Context {P : Type} `{WifiEnvOk}.
Implicit Types s : Ieee80211Mac P.

(** The clock may move to [t]. *)
Definition in_time (t : Z) s : bool :=
  (simTime s <=? t) && forallb (fun k => match timers s k with Some u => t <=? u | None => true end) all_timers.

Definition due (t : Z) (m : wmsg P) s : bool :=
  match m with SelfMsg k => bool_decide (timers s k = Some t) | _ => true end.

Fixpoint play (l : list (Z * wmsg P)) s : outcome (Ieee80211Mac P) :=
  match l with
  | [] => Ok s
  | (t, m) :: l =>
      if in_time t s && due t m s then
        match event m (s<| simTime := t |>) with Ok (_, s') => play l s' | Fault e => Fault e end
      else Fault (Thrown "not a schedule")
  end.

(** What the schedule brings from outside is admissible for the address [a]. *)
Definition arrival_ok (a : MACAddress) (m : wmsg P) : Prop :=
  match m with
  | SelfMsg _ | RadioStateChanged _ _ | LowerMsg None => True
  | Command k _ => k = PHY_C_CONFIGURERADIO
  | UpperMsg f => upper_ok f
  | LowerMsg (Some f) => frame_ok f /\ (is_TwoAddress (fclass f) = true -> equals (transmitterAddress f) a = false)
  end.

Lemma in_time_ok t s : in_time t s = true -> simTime s <= t /\ forall k u, timers s k = Some u -> t <= u.
Proof.
  unfold in_time. rewrite andb_true_iff, List.forallb_forall. intros [Hle%Z.leb_le Hall]. split; [done|].
  intros k u Hk. specialize (Hall k). rewrite Hk in Hall. apply Z.leb_le, Hall. destruct k; cbn; auto 10.
Qed.

Lemma play_from s0 l : Forall (fun p => arrival_ok (address (cfg s0)) p.2) l ->
  forall s s', wreach s0 s -> play l s = Ok s' -> wreach s0 s'.
Proof.
  induction 1 as [|[t m] l Hm _ IH]; intros s s' Hr; cbn [play]; [by intros [= <-]|].
  destruct (in_time t s && due t m s) eqn:Ed; [|done]. apply andb_true_iff in Ed as [[Hle Ht]%in_time_ok Hd].
  destruct (event m (s<| simTime := t |>)) as [[[] s1]|] eqn:He; [|done]. apply IH.
  pose proof (wreach_cfg _ _ Hr) as Hc.
  refine (reach_step _ _ _ (reach_step _ _ _ Hr (step_time t s Hle Ht)) (step_event m _ _ _ He)).
  revert Hm Hd. rewrite <- Hc. destruct m as [k|k c|f|[f|]|i r]; cbn; auto. intros _. apply bool_decide_eq_true.
Qed.

Lemma play_wreach l s s' :
  Forall (fun p => arrival_ok (address (cfg s)) p.2) l -> play l s = Ok s' -> wreach s s'.
Proof. intros Hl. apply (play_from s l Hl s s'). constructor. Qed.
End play.

(** ** The configuration *)

(** The kernel's bound on transitions is 64; the random numbers are as large as they may be. *)
#[export] Instance sample_env : WifiEnv := {| FSM_MAXT := 64; intrand := fun _ n => n - 1 |}.
#[export] Instance sample_env_ok : WifiEnvOk.
Proof. split; [cbn; lia | intros; cbn; lia]. Qed.

Definition sample_params (fix_ : bool) : Params := mkParams fix_ 14 (2 * 10 ^ 6) 3000 7 7 31 "auto" true 5.

Lemma sample_params_ok b : params_ok (sample_params b).
Proof. split; cbn; unfold INT_MAX; try lia; done. Qed.

(** Two stations: the address of the module below, and another one. *)
Definition addressA : MACAddress := [10; 170; 0; 0; 0; 1].
Definition addressB : MACAddress := [10; 170; 0; 0; 0; 2].

Definition sample_mac (b : bool) : Ieee80211Mac nat :=
  mkMac (mkConfig addressA (2 * 10 ^ 6) (2 * 10 ^ 6) 14 3000 7 7 31 b true 5)
    IDLE DCF 0 false false false invalidBackoff 0 RadioState.IDLE [] None true
    (fun _ => None) None 0 (mkStats 0 0 0 0 0 0 0 0 0 0) 0 O [RequestPacket; RequestPacket].

Lemma sample_init b : initialize (sample_params b) 0 = Ok (sample_mac b, 1).
Proof. reflexivity. Qed.

(** A packet for B, and an acknowledgement from B, whole or damaged. *)
Definition data_for_B : Ieee80211Frame nat :=
  (new_frame Ieee80211DataFrame)<| receiverAddress := addressB |><| byteLength := 100 |><| encapsulated := Some 42%nat |>.
Definition ack_for_A (k : Z) : Ieee80211Frame nat :=
  (new_frame Ieee80211ACKFrame)<| receiverAddress := addressA |><| duration := 0 |><| kind := k |>.

Ltac wf_address := split; [done | repeat constructor; lia].

Lemma data_for_B_ok : upper_ok data_for_B.
Proof. split; [done | by vm_compute | by vm_compute | done | split; wf_address]. Qed.

Lemma ack_for_A_ok k : frame_ok (ack_for_A k).
Proof. split; try class_type; try wf_address; done. Qed.

(** The packet is sent after DIFS; one acknowledgement arrives in time. *)
Definition exchange (k : Z) : list (Z * wmsg nat) :=
  [(0, UpperMsg data_for_B); (50 * usec, SelfMsg endDIFS); (900 * usec, LowerMsg (Some (ack_for_A k)))].

Definition endp (b : bool) (l : list (Z * wmsg nat)) : Ieee80211Mac nat :=
  match play l (sample_mac b) with Ok s => s | Fault _ => sample_mac b end.

Lemma exchange_ok b k : Forall (fun p => arrival_ok (address (cfg (sample_mac b))) p.2) (exchange k).
Proof.
  constructor; [exact data_for_B_ok|]. constructor; [exact I|]. constructor; [|constructor].
  split; [apply ack_for_A_ok | done].
Qed.

Lemma sample_reach b k n s : play (take n (exchange k)) (sample_mac b) = Ok s -> wreach (sample_mac b) s.
Proof. apply play_wreach, Forall_take, exchange_ok. Qed.

(** ** Witnesses *)

(** After the end of DIFS the frame is on the air and the machine waits for the
    acknowledgement. *)
Definition sent_mac (b : bool) : Ieee80211Mac nat := endp b (take 2 (exchange 0)).
Lemma sent_reach b : wreach (sample_mac b) (sent_mac b).
Proof. apply (sample_reach b 0 2). by destruct b; vm_compute. Qed.

Lemma wifi_never_fails_witness :
  params_ok (sample_params false) /\ msg_ok (sent_mac false) (LowerMsg (Some (ack_for_A 0))) /\
  exists s', event (LowerMsg (Some (ack_for_A 0))) (sent_mac false) = Ok (tt, s').
Proof.
  assert (Hm : msg_ok (sent_mac false) (LowerMsg (Some (ack_for_A 0)))) by (split; [apply ack_for_A_ok | done]).
  split; [apply sample_params_ok|]. split; [exact Hm|].
  destruct (wifi_never_fails (P := nat) (sample_params false) 0 (sample_params_ok false)) as (s0 & c & Hi & Hsafe).
  rewrite sample_init in Hi. injection Hi as <- <-. exact (Hsafe _ _ (sent_reach false) Hm).
Defined.

Lemma wifi_state_consistent_witness : fsm (sent_mac true) = WAITACK /\ consistent (sent_mac true).
Proof.
  split; [by vm_compute|].
  exact (wifi_state_consistent (sample_params true) 0 (sample_mac true) 1 _ (sample_params_ok true) (sample_init true) (sent_reach true)).
Defined.

Lemma wifi_attempts_bounded_witness :
  sentSincePop (out (sent_mac true)) = 1 /\ sentSincePop (out (sent_mac true)) <= transmissionLimit (cfg (sample_mac true)).
Proof.
  split; [by vm_compute|].
  exact (wifi_attempts_bounded (sample_params true) 0 (sample_mac true) 1 _ (sample_params_ok true) eq_refl (sample_init true)
    (sent_reach true)).
Defined.

Lemma wifi_channel_access_witness :
  exists s s', wreach (sample_mac false) s /\ event (SelfMsg endDIFS) s = Ok (tt, s') /\
    existsb contends (drop (length (out s)) (out s')) = true /\
    (granted (SelfMsg endDIFS) s \/ exists l, out s' = out s ++ l /\ existsb contends l = false).
Proof.
  assert (Hr : exists s, wreach (sample_mac false) s /\ msg_ok s (SelfMsg endDIFS) /\
    exists s', event (SelfMsg endDIFS) s = Ok (tt, s') /\ existsb contends (drop (length (out s)) (out s')) = true).
  { exists ((endp false (take 1 (exchange 0)))<| simTime := 50 * usec |>). split; [|split; [by vm_compute|]].
    - eapply reach_step; [apply (sample_reach false 0 1); by vm_compute|]. apply step_time; [by vm_compute|].
      intros [] u; vm_compute; [done | by intros [= <-] | done..].
    - eexists. split; by vm_compute. }
  destruct Hr as (s & Hs & Hm & s' & He & Hc). exists s, s'. repeat (split; [done|]).
  exact (wifi_channel_access (sample_params false) 0 (sample_mac false) 1 s _ s' (sample_params_ok false) (sample_init false) Hs Hm He).
Defined.

(** The acknowledgement arrives. *)
Lemma wifi_acknowledged_witness :
  exists d s' l, transmissionQueue (sent_mac false) = [d] /\
    event (LowerMsg (Some (ack_for_A 0))) (sent_mac false) = Ok (tt, s') /\
    out s' = out (sent_mac false) ++ NF_LINK_FULL_PROMISCUOUS (Some (ack_for_A 0)) :: RequestPacket :: l /\
    encapsulated <$> transmissionQueue s' = [] /\ retryCounter s' = 0 /\ numSent (stats s') = numSent (stats (sent_mac false)) + 1.
Proof.
  assert (Hm : msg_ok (sent_mac false) (LowerMsg (Some (ack_for_A 0)))) by (split; [apply ack_for_A_ok | done]).
  assert (Hq : exists d, transmissionQueue (sent_mac false) = [d]) by (eexists; vm_compute; reflexivity).
  destruct Hq as [d Hq]. exists d.
  destruct (wifi_acknowledged (sample_params false) 0 (sample_mac false) 1 (sent_mac false) (ack_for_A 0) d []
    (sample_params_ok false) (sample_init false) (sent_reach false)) as (s' & l & He);
    [by vm_compute | exact Hq | exact Hm | by vm_compute | by vm_compute |].
  exists s', l. split; [exact Hq | exact He].
Defined.

(** ** A frame for this station *)

Definition data_for_A : Ieee80211Frame nat :=
  (new_frame Ieee80211DataFrame)<| receiverAddress := addressA |><| transmitterAddress := addressB |>
    <| byteLength := 100 |><| duration := 258 * usec |><| encapsulated := Some 42%nat |>.

Lemma data_for_A_ok : msg_ok (sample_mac false) (LowerMsg (Some data_for_A)).
Proof.
  split; [|done]. split; [class_type..| | | | |].
  - change (mac_wf addressA). wf_address.
  - change (mac_wf addressB). wf_address.
  - by vm_compute.
  - class_type.
  - done.
Qed.

Lemma wifi_data_received_witness :
  exists s1, event (LowerMsg (Some data_for_A)) (sample_mac false) = Ok (tt, s1) /\ fsm s1 = WAITSIFS /\
    out s1 = out (sample_mac false) ++ [NF_LINK_FULL_PROMISCUOUS (Some data_for_A); SendUp (bare data_for_A)].
Proof.
  destruct (wifi_data_received (sample_params false) 0 (sample_mac false) 1 (sample_mac false) data_for_A
    (sample_params_ok false) (sample_init false) (reach_init _)) as (s1 & He & E & _ & _ & _ & Ho);
    [by left | exact data_for_A_ok | done | done | done |].
  exists s1. split; [exact He|]. split; [exact E | exact Ho].
Defined.

(** It is answered after SIFS. *)
Definition answering : Ieee80211Mac nat :=
  (endp false [(0, LowerMsg (Some data_for_A))])<| simTime := 10 * usec |>.

Lemma answering_reach : wreach (sample_mac false) answering.
Proof.
  eapply reach_step.
  - apply (play_wreach [(0, LowerMsg (Some data_for_A))]); [constructor; [exact data_for_A_ok | constructor]|]. by vm_compute.
  - apply step_time; [by vm_compute|]. intros [] u; vm_compute; [by intros [= <-] | done..].
Qed.

Lemma wifi_ack_sent_witness :
  exists s' ack l, event (SelfMsg endSIFS) answering = Ok (tt, s') /\ out s' = out answering ++ SendDown ack :: l /\
    fclass ack = Ieee80211ACKFrame /\ receiverAddress ack = addressB /\ controlInfo ack = Some (basicBitrate (cfg answering)).
Proof.
  exact (wifi_ack_sent (sample_params false) 0 (sample_mac false) 1 answering (bare data_for_A) (sample_params_ok false)
    (sample_init false) answering_reach eq_refl eq_refl eq_refl eq_refl).
Defined.

(** ** Receptions reset the retry counter *)

(** No acknowledgement comes; before each new attempt a frame for another station is heard. *)
Definition ack_for_B : Ieee80211Frame nat :=
  (new_frame Ieee80211ACKFrame)<| receiverAddress := addressB |><| duration := 0 |>.
Definition attempt (k : nat) : list (Z * wmsg nat) :=
  let t := 904 * usec + 1044 * usec * Z.of_nat k in
  [(t, SelfMsg endTimeout); (t, LowerMsg (Some ack_for_B)); (t + 50 * usec, SelfMsg endDIFS); (t + 190 * usec, SelfMsg endBackoff)].
Definition attempts (n : nat) : list (Z * wmsg nat) :=
  [(0, UpperMsg data_for_B); (50 * usec, SelfMsg endDIFS)] ++ concat (attempt <$> seq 0 n).

(** Without [fixFSM] the limit of seven transmissions does not hold: with 19 such attempts
    the frame is sent 20 times. *)
Example retries_unbounded :
  (s ← play (attempts 19) (sample_mac false); Ok (sentSincePop (out s), retryCounter s, transmissionLimit (cfg s))) = Ok (20, 0, 7).
Proof. vm_compute. reflexivity. Qed.

(** A damaged acknowledgement is taken for a good one. *)
Example damaged_ack_accepted :
  damaged (Lower (ack_for_A COLLISION)) = true /\
  (s ← play (exchange COLLISION) (sample_mac false); Ok (length (transmissionQueue s), numSent (stats s))) = Ok (0%nat, 1).
Proof. split; vm_compute; reflexivity. Qed.
