(* ===== verification/WifiLedger.v ===== *)
(** * The 802.11 MAC: its queue against what it asks for, and where frames come from

    The frames in the transmission queue are the latest of those the module was given, in
    their order: every request for another one stands for the one taken off.  The data
    frames sent to the radio are copies of frames of the queue, and the frames handed up
    are frames received whole. *)

From S2P Require Import Prelude MACAddress WifiTypes WifiMac WifiFsm WifiKeeps.

Open Scope string_scope.
Open Scope list_scope.
Open Scope Z_scope.
#[local] Set Default Proof Using "All".

(** ** The queue and the requests *)

Definition is_request {P} (e : wevent P) : bool := match e with RequestPacket => true | _ => false end.
Definition requests_in {P} (l : list (wevent P)) : nat := length (filter (fun e => is_request e = true) l).

Section ledger.
Context {P : Type} `{WifiEnv} (base : nat) (given : list (option P)).
Implicit Types (s : Ieee80211Mac P) (f : Ieee80211Frame P).

(** [given]: the packets in the frames the module was given. *)
Definition ledger s : Prop :=
  exists k, requests_in (out s) = (base + k)%nat /\ (k <= length given)%nat /\
  encapsulated <$> transmissionQueue s = drop k given.

Lemma requests_snoc l (e : wevent P) :
  requests_in (l ++ [e]) = (requests_in l + if is_request e then 1 else 0)%nat.
Proof. unfold requests_in. rewrite filter_app, length_app. f_equal. by destruct e. Qed.

Lemma ledger_emit e : is_request e = false -> keeps ledger (emit e).
Proof.
  intros He. apply keeps_modify. intros s (k & Hk & Hle & Hq). exists k. split; [|done].
  change (requests_in (out s ++ [e]) = (base + k)%nat). rewrite requests_snoc, He. lia.
Qed.

Lemma ledger_current g : (forall f, encapsulated (g f) = encapsulated f) -> keeps ledger (on_current g).
Proof.
  intros Hg s (k & Hk & Hle & Hq). apply wpe_bind, wpe_gets. cbv [id].
  destruct (transmissionQueue s) as [|f q] eqn:Eq; [done|]. apply wpe_modify. exists k. split; [done|]. split; [done|].
  rewrite <- Hq. cbn. by rewrite Hg.
Qed.

Lemma ledger_pop : keeps ledger popTransmissionQueue.
Proof.
  intros s (k & Hk & Hle & Hq). apply wpe_bind, wpe_gets. cbv [id].
  destruct (transmissionQueue s) as [|f q] eqn:Eq; [done|]. apply wpe_bind, wpe_modify.
  destruct (queueModule (cfg s)); [|done]. apply wpe_modify. exists (S k).
  assert (Hlt : (k < length given)%nat).
  { destruct (decide (k < length given)%nat) as [|Hge]; [done|]. rewrite drop_ge in Hq by lia. done. }
  split; [|split; [lia|]].
  - change (requests_in (out s ++ [RequestPacket]) = (base + S k)%nat). rewrite requests_snoc. cbn. lia.
  - change (encapsulated <$> q = drop (S k) given). rewrite <- Nat.add_1_r, <- drop_drop, <- Hq. done.
Qed.

Ltac ledger_step := first [apply ledger_pop | apply ledger_current; reflexivity | apply ledger_emit; reflexivity].

#[export] Instance ledger_kept msg : MachineKeeps ledger msg.
Proof. split; intros; first [all_actions ltac:(ledger_step) | follow ltac:(ledger_step)]. Qed.

(** Everything but a frame from above leaves the list of given ones as it is. *)
Lemma handleMessage_ledger (m : wmsg P) :
  match m with UpperMsg _ => False | _ => True end -> keeps ledger (handleMessage m).
Proof.
  intros Hm. pose proof (keeps_FSM ledger) as Hf.
  destruct m; [| |done|..]; cbn [handleMessage]; unfold handleSelfMsg, handleLowerMsg, receiveChangeNotification, handleCommand;
    follow ltac:(first [ledger_step | apply Hf; apply _]).
Qed.
End ledger.

(** A frame from above, with room in the queue. *)
Lemma handleUpperMsg_ledger {P} `{WifiEnv} base given (f : Ieee80211Frame P) s :
  maxQueueSize (cfg s) = 0 \/ Z.of_nat (length (transmissionQueue s)) < maxQueueSize (cfg s) ->
  ledger base given s ->
  wpe (fun _ => True) (handleUpperMsg f) (fun _ => ledger base (given ++ [encapsulated f])) s.
Proof.
  intros Hroom (k & Hk & Hle & Hq). apply wpe_bind, wpe_gets. cbv [id].
  rewrite (proj2 (andb_false_iff _ _)) by (rewrite negb_false_iff, Z.eqb_eq, Z.eqb_neq; lia).
  destruct (is_DataOrMgmt (fclass f)); [|done]. destruct (fragmentationThreshold <? byteLength f); [done|]. cbn [negb].
  apply wpe_bind, wpe_assert; [|done]. intros _. apply wpe_bind, wpe_modify, wpe_bind, wpe_modify.
  apply keeps_FSM; [apply _|]. exists k. split; [done|]. split; [rewrite length_app; lia|].
  change (encapsulated <$> (transmissionQueue s ++
    [f<| transmitterAddress := address (cfg s) |><| fseq := sequenceNumber s |>]) = drop k (given ++ [encapsulated f])).
  rewrite fmap_app, Hq, drop_app_le by done. done.
Qed.

(** ** Where frames come from *)

(** Two frames with the same packet between the same stations. *)
Record same_packet {P} (f g : Ieee80211Frame P) : Prop := {
  sp_class : fclass f = fclass g;
  sp_type : type f = type g;
  sp_receiver : receiverAddress f = receiverAddress g;
  sp_transmitter : transmitterAddress f = transmitterAddress g;
  sp_content : encapsulated f = encapsulated g;
}.

Section origin.
Context {P : Type} `{WifiEnv} (c : Config) (G R : Ieee80211Frame P -> Prop).
Context (G_same : forall f g, same_packet f g -> G f -> G g) (G_data : forall f, G f -> is_DataOrMgmt (fclass f) = true).
Implicit Types (s : Ieee80211Mac P) (f : Ieee80211Frame P).

(** The frame is for the station, or for all. *)
Definition addressed f : Prop :=
  isBroadcast (receiverAddress f) = true \/ equals (receiverAddress f) (address c) = true.

(** A frame that may be handed up: received whole, and addressed to the station. *)
Definition delivered f : Prop :=
  R f /\ addressed f /\ damaged (Lower f) = false /\ is_DataOrMgmt (fclass f) = true.

(** A frame that may be sent: one given from above, or with the address of the station. *)
Definition put f : Prop :=
  (is_DataOrMgmt (fclass f) = true -> G f) /\
  (is_DataOrMgmt (fclass f) = false -> is_TwoAddress (fclass f) = true -> transmitterAddress f = address c).

(** [G] holds of the frames given from above, [R] of those received. *)
Definition origin s : Prop :=
  cfg s = c /\ Forall G (transmissionQueue s) /\
  (forall f, SendDown f ∈ out s -> put f) /\
  (forall f, SendUp f ∈ out s -> delivered f).

Lemma origin_emit e :
  match e with
  | SendDown f => put f
  | SendUp f => delivered f
  | _ => True
  end -> keeps origin (emit e).
Proof.
  intros He. apply keeps_modify. intros s (Hc & Hq & Hd & Hu). split; [done|]. split; [done|].
  split; intros f [Hf|Hf%list_elem_of_singleton]%elem_of_app; try (by auto); subst e; done.
Qed.

Lemma origin_basic f :
  is_DataOrMgmt (fclass f) = false -> (is_TwoAddress (fclass f) = true -> transmitterAddress f = address c) ->
  keeps origin (f ← setBasicBitrate f; sendDown f).
Proof.
  intros Hf Hr s Hs. apply wpe_bind, wpe_bind, wpe_assert; [|done]. intros _. apply wpe_bind, wpe_gets, wpe_ret.
  apply (origin_emit (SendDown (f<| controlInfo := Some (basicBitrate (cfg s)) |>))); [|done]. split; [|intros _; exact Hr].
  wsimp. by rewrite Hf.
Qed.

Lemma origin_current g : (forall f, same_packet f (g f)) -> keeps origin (on_current g).
Proof.
  intros Hg s (Hc & Hq & Hd & Hu). apply wpe_bind, wpe_gets. cbv [id].
  destruct (transmissionQueue s) as [|f q] eqn:Eq; [done|]. apply wpe_modify. split; [done|]. split; [|done].
  change (Forall G (g f :: q)). inversion_clear Hq as [|?? Hf Hq']. constructor; [by apply (G_same f)|done].
Qed.

Lemma origin_pop : keeps origin popTransmissionQueue.
Proof.
  intros s (Hc & Hq & Hd & Hu). apply wpe_bind, wpe_gets. cbv [id].
  destruct (transmissionQueue s) as [|f q] eqn:Eq; [done|]. apply wpe_bind, wpe_modify.
  destruct (queueModule (cfg s)); [|done]. apply (origin_emit RequestPacket); [done|]. split; [done|]. split; [|done].
  by inversion_clear Hq.
Qed.

(** The front of the queue is sent. *)
Lemma origin_front (k : option (Ieee80211Frame P) -> M (Ieee80211Mac P) unit) :
  keeps origin (k None) -> (forall f, G f -> keeps origin (k (Some f))) -> keeps origin (s ← self; k (getCurrentTransmission s)).
Proof.
  intros H0 H1 s Hs. apply wpe_bind, wpe_gets. cbv [id]. unfold getCurrentTransmission.
  destruct (transmissionQueue s) as [|f q] eqn:Eq; cbn [head]; [by apply H0|]. apply H1; [|done].
  destruct Hs as (_ & Hq & _). rewrite Eq in Hq. by inversion_clear Hq.
Qed.

Lemma same_dup f d : same_packet f ((dup f)<| duration := d |>).
Proof. done. Qed.

(** A data frame. *)
Lemma put_given f g : G f -> same_packet f g -> put g.
Proof.
  intros Hf Hs. pose proof (G_data f Hf) as Hd. split; [intros _; by apply (G_same f)|]. destruct Hs as [Hc _ _ _ _]. rewrite <- Hc. by rewrite Hd.
Qed.

Lemma origin_data f : G f -> keeps origin (sendDataFrame (Some f)).
Proof.
  intros Hf s Hs. apply wpe_bind, wpe_ret, wpe_bind, wpe_gets. apply origin_emit; [|done]. apply (put_given f); [done|].
  unfold buildDataFrame. by repeat case_match.
Qed.
Lemma origin_broadcast f : G f -> keeps origin (sendBroadcastFrame (Some f)).
Proof. intros Hf s Hs. apply wpe_bind, wpe_ret. apply origin_emit; [|done]. by apply (put_given f). Qed.

Ltac origin_step :=
  idtac; match goal with
  | |- keeps _ (mbind _ (setBasicBitrate _)) => apply origin_basic; unfold buildACKFrame; by repeat case_match
  | |- keeps _ popTransmissionQueue => apply origin_pop
  | |- keeps _ (on_current _) => by apply origin_current
  | |- keeps _ (emit _) => by apply origin_emit
  | H : G ?f |- keeps _ (sendDataFrame (Some ?f)) => by apply origin_data
  | H : G ?f |- keeps _ (sendBroadcastFrame (Some ?f)) => by apply origin_broadcast
  end.

Definition msg_R (msg : fmsg P) : Prop := match msg with Lower f => R f | _ => True end.

Lemma origin_RTS f : keeps origin (sendRTSFrame (Some f)).
Proof.
  intros s Hs. apply wpe_bind, wpe_ret, wpe_bind, wpe_gets. apply origin_basic; [done | | done].
  intros _. change (address (cfg s) = address c). by destruct Hs as [-> _].
Qed.

Lemma origin_up f : delivered f -> keeps origin (with_frame (Lower f) sendUp).
Proof. intros Hr s Hs. apply wpe_bind, wpe_ret. by apply (origin_emit (SendUp f)). Qed.

Ltac origin_solve := follow ltac:(origin_step).

Lemma origin_transmissions t ready cleanup msg (b : bool) :
  keeps origin cleanup -> Forall (fun t => keeps origin (action t)) (if b then [] else transmissions t ready cleanup msg).
Proof.
  intros Hc. destruct b; [constructor|]. repeat constructor; cbn [action FSMA_Event_Transition].
  - apply (origin_front (fun o => sendRTSFrame o;; cleanup)); [by intros s|].
    intros f _. apply keeps_bind; [apply origin_RTS | done].
  - apply (origin_front (fun o => sendBroadcastFrame o;; cleanup)); [by intros s|].
    intros f Hf. apply keeps_bind; [by apply origin_broadcast | done].
  - apply (origin_front (fun o => sendDataFrame o;; cleanup)); [by intros s|].
    intros f Hf. apply keeps_bind; [by apply origin_data | done].
Qed.

Ltac actions := repeat (constructor; [cbn [action FSMA_Event_Transition FSMA_No_Event_Transition]; origin_solve|]); constructor.

(** RECEIVE: a frame is handed up where the transition for damaged ones was passed over. *)
Lemma origin_receive msg ev : msg_R msg -> kept origin ev (RECEIVE_transitions msg).
Proof.
  intros Hr. destruct ev; [do 6 (split; [intros _ [=]|intros _]); done|].
  destruct msg as [t|f|f]; [do 6 (split; [intros (? & _ & [=])|intros _]); done..|].
  split; [intros _ _; cbn [action FSMA_No_Event_Transition]; origin_solve|].
  intros [(s1 & _ & Hd)|Hd]; [|done]. cbn [condition FSMA_No_Event_Transition isLowerMsg andb] in Hd. injection Hd as Hd.
  assert (Hup : addressed f -> is_DataOrMgmt (fclass f) = true -> keeps origin (with_frame (Lower f) sendUp))
    by (intros; by apply origin_up).
  split.
  { intros (s & _ & Hc) _. injection Hc as Hc. apply andb_true_iff in Hc as [Hb Hm]. apply keeps_bind;
      [apply Hup; [by left | done] | intros _; origin_solve]. }
  intros _. split.
  { intros (s & (Hcf & _) & Hc) _. injection Hc as Hc. apply andb_true_iff in Hc as [Hb Hm]. apply keeps_bind;
      [apply Hup; [right; by rewrite <- Hcf | done] | intros _; origin_solve]. }
  intros _. apply kept_forall. actions.
Qed.

Lemma origin_kept msg : msg_R msg -> MachineKeeps origin msg.
Proof.
  intros Hr. split; intros; try origin_solve. destruct st; cbn [state_transitions]; [..|by apply origin_receive];
    apply kept_forall.
  - unfold IDLE_transitions. destruct (fixFSM (cfg s)); cbn [app]; actions.
  - actions.
  - apply Forall_app_2; [apply origin_transmissions; origin_solve | actions].
  - apply Forall_app_2; [apply origin_transmissions; origin_solve | actions].
  - actions.
  - actions.
  - actions.
  - constructor; [cbn [action]; origin_solve|]. constructor; [|actions]. cbn [action].
    apply origin_front; [by intros s'|]. intros f Hf. apply keeps_bind; [origin_solve|]. intros _. by apply origin_data.
Qed.

Lemma handleMessage_origin (m : wmsg P) :
  match m with UpperMsg _ => False | LowerMsg (Some f) => R (f<| controlInfo := None |>) | _ => True end ->
  keeps origin (handleMessage m).
Proof.
  intros Hm. destruct m as [t|k pc|f|[f|]|i r]; cbn [handleMessage]; [| |done|..].
  - pose proof (origin_kept (Timer t) I) as Hk. unfold handleSelfMsg.
    follow ltac:(first [origin_step | apply keeps_FSM; apply Hk]).
  - unfold handleCommand. origin_solve.
  - pose proof (origin_kept (Lower (f<| controlInfo := None |>)) Hm) as Hk. unfold handleLowerMsg.
    follow ltac:(first [origin_step | apply keeps_FSM; apply Hk]).
  - unfold handleLowerMsg. origin_solve.
  - pose proof (origin_kept (Timer mediumStateChange) I) as Hk. unfold receiveChangeNotification.
    follow ltac:(first [origin_step | apply keeps_FSM; apply Hk]).
Qed.

Lemma handleUpperMsg_origin f s :
  G (f<| transmitterAddress := address (cfg s) |>) -> origin s ->
  wpe (fun _ => True) (handleUpperMsg f) (fun _ => origin) s.
Proof.
  intros Hf (Hc & Hq & Hd & Hu). apply wpe_bind, wpe_gets. cbv [id]. case_match; [by apply wpe_ret|].
  destruct (is_DataOrMgmt (fclass f)); [|done]. destruct (fragmentationThreshold <? byteLength f); [done|]. cbn [negb].
  apply wpe_bind, wpe_assert; [|done]. intros _. apply wpe_bind, wpe_modify, wpe_bind, wpe_modify.
  apply keeps_FSM; [by apply origin_kept|]. split; [done|]. split; [|done].
  change (Forall G (transmissionQueue s ++ [f<| transmitterAddress := address (cfg s) |><| fseq := sequenceNumber s |>])).
  apply Forall_app_2; [done|]. constructor; [|done]. refine (G_same _ _ _ Hf). done.
Qed.
End origin.
