(* ===== verification/WifiMgmt.v ===== *)
(** * 802.11 management in ad-hoc mode: Ieee80211MgmtBase.cc, Ieee80211MgmtAdhoc.cc

    The module between the network layer and the MAC: it puts packets into data frames,
    keeps frames until the MAC asks for them (a subclass of [PassiveQueueBase], with a
    queue of its own for management frames), and takes packets out of the frames the MAC
    hands up. *)

From S2P Require Import Prelude MACAddress WifiTypes Queue QueueProps.

Open Scope string_scope.
Open Scope list_scope.
Open Scope Z_scope.

(** ** The queues *)

#[projections(primitive)]
Record MgmtQueues (P : Type) := mkMgmtQueues {
  frameCapacity : Z;
  dataQueue : list (Ieee80211Frame P);
  mgmtQueue : list (Ieee80211Frame P);
}.
Arguments mkMgmtQueues {P}.
Arguments frameCapacity {P}.
Arguments dataQueue {P}.
Arguments mgmtQueue {P}.
#[export] Instance eta_MgmtQueues {P} : Eta (MgmtQueues P) := fun q => mkMgmtQueues (frameCapacity q) (dataQueue q) (mgmtQueue q).

(** [dynamic_cast<Ieee80211DataFrame *>(msg)!=NULL] *)
Definition isDataFrame {P} (f : Ieee80211Frame P) : bool := bool_decide (fclass f = Ieee80211DataFrame).

Section queues.
Context {P : Type}.
Local Abbreviation Frame := (Ieee80211Frame P).

Definition mgmt_enqueue (t : Z) (f : Frame) (q : MgmtQueues P) : bool * MgmtQueues P :=
  if negb (isDataFrame f) then (false, q<| mgmtQueue ::= fun l => l ++ [f] |>)
  else if negb (frameCapacity q =? 0) && (frameCapacity q <=? Z.of_nat (length (dataQueue q))) then (true, q)
  else (false, q<| dataQueue ::= fun l => l ++ [f] |>).

Definition mgmt_dequeue (t : Z) (q : MgmtQueues P) : option Frame * MgmtQueues P :=
  match mgmtQueue q with
  | f :: l => (Some f, q<| mgmtQueue := l |>)
  | [] =>
      match dataQueue q with
      | [] => (None, q)
      | f :: l => (Some f, q<| dataQueue := l |>)
      end
  end.

#[export] Instance mgmt_passive : PassiveQueue Frame (MgmtQueues P) :=
  {| enqueue := mgmt_enqueue; dequeue := mgmt_dequeue |}.
End queues.

(** ** The module *)

(** What a packet of the upper layer carries: [Ieee802Ctrl], and its length. *)
Record Ieee802Ctrl := mkIeee802Ctrl { ctrlSrc : MACAddress; ctrlDest : MACAddress }.

Record cPacket (P : Type) := mkcPacket { content : P; pkByteLength : Z; ctrl : option Ieee802Ctrl }.
Arguments mkcPacket {P}.
Arguments content {P}.
Arguments pkByteLength {P}.
Arguments ctrl {P}.

#[projections(primitive)]
Record Mgmt (P : Type) := mkMgmt {
  queue : PassiveQueueBase (Ieee80211Frame P) (MgmtQueues P);
  myAddress : MACAddress;
  numDataFramesReceived : Z;
  numMgmtFramesReceived : Z;
  numMgmtFramesDropped : Z;
  upperOut : list (cPacket P);
}.
Arguments mkMgmt {P}.
Arguments queue {P}.
Arguments myAddress {P}.
Arguments numDataFramesReceived {P}.
Arguments numMgmtFramesReceived {P}.
Arguments numMgmtFramesDropped {P}.
Arguments upperOut {P}.
#[export] Instance eta_Mgmt {P} : Eta (Mgmt P) := fun g => mkMgmt (queue g) (myAddress g) (numDataFramesReceived g)
  (numMgmtFramesReceived g) (numMgmtFramesDropped g) (upperOut g).

(** The length of a packet inside a frame. *)
Class PacketLength (P : Type) := packetLength : P -> Z.

Section mgmt.
Context {P : Type} `{PacketLength P}.
Local Abbreviation Frame := (Ieee80211Frame P).

(** [initialize(0)] and [initialize(1)] with the address parameter of the MAC. *)
Definition mgmt_initialize (capacity : Z) (macAddress : string) : outcome (Mgmt P) :=
  a ← setAddress (Some macAddress) UNSPECIFIED_ADDRESS;
  Ok (mkMgmt (Queue.initialize (mkMgmtQueues capacity [] [])) a 0 0 0 []).

(** [sendOrEnqueue]: the base class queues the frame where nothing was asked for. *)
Definition sendOrEnqueue (t : Z) (f : Frame) (g : Mgmt P) : outcome (Mgmt P) :=
  check ((0 <? packetRequested (queue g)) || is_DataOrMgmt (fclass f))
    (AssertFailed "dynamic_cast<Ieee80211DataOrMgmtFrame *>(msg)!=NULL");;
  Ok (g<| queue ::= Queue.handleMessage t f |>).

Definition encapsulate (pk : cPacket P) : outcome Frame :=
  match ctrl pk with
  | Some c =>
      Ok ((new_frame Ieee80211DataFrame)
            <| receiverAddress := ctrlDest c |>
            <| byteLength ::= Z.add (pkByteLength pk) |>
            <| encapsulated := Some (content pk) |>)
  | None => Fault (Thrown "check_and_cast")
  end.

(** [handleUpperMessage], for a packet that fits into a frame. *)
Definition handleUpperMessage (t : Z) (pk : cPacket P) (g : Mgmt P) : outcome (Mgmt P) :=
  if 2312 <? pkByteLength pk then Fault (Thrown "message from higher layer is too long for 802.11b")
  else f ← encapsulate pk; sendOrEnqueue t f g.

(** [handleCommand] and [handleTimer]: there are neither commands nor timers. *)
Definition mgmt_handleCommand : outcome (Mgmt P) := Fault (Thrown "handleCommand(): no commands supported").
Definition mgmt_handleTimer : outcome (Mgmt P) := Fault (AssertFailed "false").

Definition decapsulate (f : Frame) : outcome (cPacket P) :=
  match encapsulated f with
  | Some p => Ok (mkcPacket p (packetLength p) (Some (mkIeee802Ctrl (transmitterAddress f) (receiverAddress f))))
  | None => Fault (Undefined "null pointer")
  end.

Definition handleDataFrame (f : Frame) (g : Mgmt P) : outcome (Mgmt P) :=
  pk ← decapsulate f; Ok (g<| upperOut ::= fun l => l ++ [pk] |>).

Definition dropManagementFrame (g : Mgmt P) : Mgmt P := g<| numMgmtFramesDropped ::= Z.succ |>.

(** Management frames of the types of this list are cast to their classes and dropped. *)
Definition dropped_types : list Z :=
  [ST_AUTHENTICATION; ST_DEAUTHENTICATION; ST_ASSOCIATIONREQUEST; ST_ASSOCIATIONRESPONSE; ST_REASSOCIATIONREQUEST;
   ST_REASSOCIATIONRESPONSE; ST_DISASSOCIATION; ST_BEACON; ST_PROBEREQUEST; ST_PROBERESPONSE].

Definition processFrame (f : Frame) (g : Mgmt P) : outcome (Mgmt P) :=
  let cast c := check (bool_decide (fclass f = c)) (Thrown "check_and_cast") in
  if type f =? ST_DATA then
    cast Ieee80211DataFrame;; handleDataFrame f (g<| numDataFramesReceived ::= Z.succ |>)
  else if bool_decide (type f ∈ dropped_types) then
    cast (Ieee80211MgmtFrame (type f));; Ok (dropManagementFrame (g<| numMgmtFramesReceived ::= Z.succ |>))
  else if type f =? ST_LBMS_REQUEST then
    cast Ieee80211LBMSRequest;; Ok (g<| numMgmtFramesReceived ::= Z.succ |>)
  else if type f =? ST_LBMS_REPORT then
    cast Ieee80211LBMSReport;; Ok (g<| numMgmtFramesReceived ::= Z.succ |>)
  else Fault (Thrown "unexpected frame type").

(** A message on one of the gates. *)
Inductive mgmt_msg :=
  | FromMac (f : Frame)
  | FromUpper (pk : cPacket P)
  | FromAgent
  | SelfTimer.

Definition mgmt_handleMessage (t : Z) (m : mgmt_msg) (g : Mgmt P) : outcome (Mgmt P) :=
  match m with
  | SelfTimer => mgmt_handleTimer
  | FromMac f =>
      check (is_DataOrMgmt (fclass f)) (Thrown "check_and_cast");; processFrame f g
  | FromAgent => mgmt_handleCommand
  | FromUpper pk => handleUpperMessage t pk g
  end.
End mgmt.
Arguments mgmt_msg : clear implicits.
