(* ===== verification/WifiNic.v ===== *)
(** * The 802.11 network interface and a network of them: Ieee80211NicAdhoc.ned

    The management module and the MAC of a station, joined as the NED file joins them:
    the MAC asks the management module for frames (a method call), frames go down and up
    on links.  The stations of a network share the ether: a frame a MAC gives to its radio
    may reach any other station, at any time, any number of times or not at all, whole or
    marked as damaged; the states the radios report are arbitrary. *)

From S2P Require Import Prelude MACAddress Queue WifiTypes WifiMac WifiFsm WifiInv WifiSafe WifiMgmt.

Open Scope string_scope.
Open Scope list_scope.
Open Scope Z_scope.

(** ** A station *)

(** [offered] records the packets the network layer gave. *)
#[projections(primitive)]
Record Nic (P : Type) := mkNic {
  mgmt : Mgmt P;
  mac : Ieee80211Mac P;
  toMac : list (Ieee80211Frame P);
  toMgmt : list (Ieee80211Frame P);
  offered : list (cPacket P);
}.
Arguments mkNic {P}.
Arguments mgmt {P}.
Arguments mac {P}.
Arguments toMac {P}.
Arguments toMgmt {P}.
Arguments offered {P}.
#[export] Instance eta_Nic {P} : Eta (Nic P) := fun n => mkNic (mgmt n) (mac n) (toMac n) (toMgmt n) (offered n).

Ltac nsimp := cbn [set_ fst snd mgmt mac toMac toMgmt offered queue myAddress numDataFramesReceived
  numMgmtFramesReceived numMgmtFramesDropped upperOut] in *.

Section nic.
Context {P : Type} `{PacketLength P} `{WifiEnv}.
Local Abbreviation Frame := (Ieee80211Frame P).
Implicit Types n : Nic P.

(** The management module works; the frames it sends are on their way to the MAC. *)
Definition on_mgmt (g : Mgmt P) n : Nic P :=
  n<| mgmt := g |><| toMac ::= fun l => l ++ drop (length (sent (queue (mgmt n)))) (sent (queue g)) |>.

(** What the MAC said: a request is a call of the queue, a frame goes up; the rest is for
    the radio and for the notification board. *)
Definition absorb (t : Z) (e : wevent P) n : Nic P :=
  match e with
  | RequestPacket => on_mgmt ((mgmt n)<| queue ::= requestPacket t |>) n
  | SendUp f => n<| toMgmt ::= fun l => l ++ [f] |>
  | _ => n
  end.
Definition absorb_all (t : Z) (l : list (wevent P)) n : Nic P := foldl (fun n e => absorb t e n) n l.

(** The MAC handles an event. *)
Definition mac_event (m : wmsg P) n : outcome (Nic P) :=
  match event m (mac n) with
  | Ok (_, s) => Ok (absorb_all (simTime s) (drop (length (out (mac n))) (out s)) (n<| mac := s |>))
  | Fault f => Fault f
  end.

(** The modules start in the order of the NED file; the MAC writes its address to its
    parameter before the second stage reads it. *)
Definition nic_initialize (p : Params) (ctr capacity : Z) : outcome (Nic P * Z) :=
  '(s, ctr') ← WifiFsm.initialize p ctr;
  g ← mgmt_initialize capacity (if (p_address p =? "auto")%string then str (address (cfg s)) else p_address p);
  Ok (absorb_all 0 (out s) (mkNic g s [] [] []), ctr').

(** ** Events of a station *)

(** A packet of the network layer names its destination and fits into a frame. *)
Definition packet_ok (pk : cPacket P) : Prop :=
  0 <= pkByteLength pk <= 2312 /\
  exists c, ctrl pk = Some c /\ mac_wf (ctrlDest c) /\ isUnspecified (ctrlDest c) = false.

Inductive nic_event :=
  | NUpper (pk : cPacket P)                       (* a packet from the network layer *)
  | NDown                                         (* the next frame reaches the MAC *)
  | NUp                                           (* the next frame reaches the management module *)
  | NSelf (k : wtimer)                            (* a self message of the MAC *)
  | NRadio (i : Z) (r : RadioState.RState)      (* a notification of the board *)
  | NHear (o : option Frame).                     (* something from the radio *)

Definition nic_handle (e : nic_event) n : outcome (Nic P) :=
  match e with
  | NUpper pk =>
      g ← mgmt_handleMessage (simTime (mac n)) (FromUpper pk) (mgmt n);
      Ok (on_mgmt g (n<| offered ::= fun l => l ++ [pk] |>))
  | NDown =>
      match toMac n with
      | f :: l => mac_event (UpperMsg f) (n<| toMac := l |>)
      | [] => Ok n
      end
  | NUp =>
      match toMgmt n with
      | f :: l => g ← mgmt_handleMessage (simTime (mac n)) (FromMac f) (mgmt n); Ok (on_mgmt g (n<| toMgmt := l |>))
      | [] => Ok n
      end
  | NSelf k => mac_event (SelfMsg k) n
  | NRadio i r => mac_event (RadioStateChanged i r) n
  | NHear o => mac_event (LowerMsg o) n
  end.

(** [hears f]: the radio may hand [f] up. *)
Definition nic_enabled (hears : Frame -> Prop) n (e : nic_event) : Prop :=
  match e with
  | NUpper pk => packet_ok pk
  | NDown => toMac n <> []
  | NUp => toMgmt n <> []
  | NSelf k => timers (mac n) k = Some (simTime (mac n))
  | NRadio _ _ => True
  | NHear o => match o with Some f => hears f | None => True end
  end.

(** The clock of the simulation moves on, not beyond a self message. *)
Definition tick (t : Z) n : Nic P := n<| mac ::= fun s => s<| simTime := t |> |>.
Definition may_tick (t : Z) n : Prop :=
  simTime (mac n) <= t /\ forall k u, timers (mac n) k = Some u -> t <= u.

(** ** A network of stations *)

(** Every frame ever sent, with the number of its sender. *)
#[projections(primitive)]
Record Ether := mkEther { stations : list (Nic P); air : list (nat * Frame) }.

(** The frames a station gave to its radio in a step. *)
Definition radiated (l : list (wevent P)) : list Frame :=
  omap (fun e => match e with SendDown f => Some f | _ => None end) l.

(** What station [i] may receive: a frame another station sent, with any message kind and
    any control information. *)
Definition may_hear (w : Ether) (i : nat) (f : Frame) : Prop :=
  exists j g, j <> i /\ (j, g) ∈ air w /\ f = g<| kind := kind f |><| controlInfo := controlInfo f |>.

Inductive ether_event :=
  | ETime (t : Z)
  | EStation (i : nat) (e : nic_event).

Definition ether_handle (e : ether_event) (w : Ether) : outcome Ether :=
  match e with
  | ETime t => Ok (mkEther (tick t <$> stations w) (air w))
  | EStation i e =>
      match stations w !! i with
      | Some n =>
          n' ← nic_handle e n;
          Ok (mkEther (<[i := n']> (stations w))
                (air w ++ ((fun f => (i, f)) <$> radiated (drop (length (out (mac n))) (out (mac n'))))))
      | None => Ok w
      end
  end.

Definition ether_enabled (w : Ether) (e : ether_event) : Prop :=
  match e with
  | ETime t => Forall (may_tick t) (stations w)
  | EStation i e => exists n, stations w !! i = Some n /\ nic_enabled (may_hear w i) n e
  end.

(** The stations start one after the other, with the counter of automatic addresses. *)
Fixpoint stations_initialize (l : list (Params * Z)) (ctr : Z) : outcome (list (Nic P)) :=
  match l with
  | [] => Ok []
  | (p, capacity) :: l =>
      '(n, ctr') ← nic_initialize p ctr capacity;
      ns ← stations_initialize l ctr';
      Ok (n :: ns)
  end.

Definition ether_initialize (l : list (Params * Z)) (ctr : Z) : outcome Ether :=
  ns ← stations_initialize l ctr; Ok (mkEther ns []).

Inductive ether_reach (w0 : Ether) : Ether -> Prop :=
  | ether_init : ether_reach w0 w0
  | ether_step w e w' : ether_reach w0 w -> ether_enabled w e -> ether_handle e w = Ok w' -> ether_reach w0 w'.
End nic.
Arguments Ether : clear implicits.
Arguments nic_event : clear implicits.
Arguments ether_event : clear implicits.
