(* ===== verification/WifiNicProps.v ===== *)
(** * The 802.11 interface: frames are handed over one for one, and packets arrive as sent

    Two frames are on their way at most, none is lost between the modules and the order
    is kept; no event of a network of stations fails; and a packet a station hands up was
    given to another one for it. *)

From S2P Require Import Prelude MACAddress Queue QueueProps WifiTypes WifiMac WifiFsm WifiKeeps WifiInv WifiSafe WifiAccess WifiProps WifiLedger WifiMgmt WifiNic.

Open Scope string_scope.
Open Scope list_scope.
Open Scope Z_scope.
#[local] Set Default Proof Using "All".

Section props.
Context {P : Type} `{PacketLength P} `{WifiEnvOk}.
Local Abbreviation Frame := (Ieee80211Frame P).
Implicit Types (n : Nic P) (f : Frame) (s : Ieee80211Mac P) (m : wmsg P).

(** ** The link between the modules *)

(** The frames between the network layer and the MAC, in their order, and the requests
    that are answered by none yet or whose answer is on its way. *)
Definition line n : list Frame := toMac n ++ dataQueue (subclass (queue (mgmt n))).
Definition credit n : Z := packetRequested (queue (mgmt n)) + Z.of_nat (length (toMac n)).

(** Requests wait only where nothing is queued; there are no management frames. *)
Record link_ok n : Prop := {
  lk_requests : 0 <= packetRequested (queue (mgmt n));
  lk_waits : 0 < packetRequested (queue (mgmt n)) -> dataQueue (subclass (queue (mgmt n))) = [];
  lk_mgmt : mgmtQueue (subclass (queue (mgmt n))) = [];
}.

(** What a call of [requestPacket] does to the queue of the management module. *)
Lemma mgmt_request t (b : PassiveQueueBase Frame (MgmtQueues P)) :
  mgmtQueue (subclass b) = [] ->
  requestPacket t b =
  match dataQueue (subclass b) with
  | [] => b<| packetRequested ::= Z.succ |>
  | f :: l => b<| subclass ::= fun q => q<| dataQueue := l |> |><| sent ::= fun x => x ++ [f] |>
  end.
Proof.
  intros Hm. unfold requestPacket, dequeue, mgmt_passive, mgmt_dequeue. rewrite Hm.
  destruct (dataQueue (subclass b)); reflexivity.
Qed.

Lemma on_mgmt_sent g n l :
  sent (queue g) = sent (queue (mgmt n)) ++ l -> on_mgmt g n = n<| mgmt := g |><| toMac ::= fun x => x ++ l |>.
Proof. intros E. unfold on_mgmt. rewrite E, drop_app_length. reflexivity. Qed.

Lemma absorb_request t n :
  link_ok n ->
  link_ok (absorb t RequestPacket n) /\ credit (absorb t RequestPacket n) = credit n + 1 /\
  line (absorb t RequestPacket n) = line n.
Proof.
  destruct n as [[b ma nd nm nf uo] s tm tg off]. intros [Hr Hw Hm]. cbn [absorb]. nsimp.
  pose proof (mgmt_request t b Hm) as Hq. destruct (dataQueue (subclass b)) as [|f l] eqn:Ed.
  - rewrite (on_mgmt_sent _ _ []); [|nsimp; rewrite Hq; qsimp; by rewrite app_nil_r].
    unfold line, credit. nsimp. rewrite Hq, app_nil_r. qsimp. rewrite Ed.
    split; [|split; [lia | done]]. split; nsimp; rewrite Hq; qsimp; [lia | done | done].
  - rewrite (on_mgmt_sent _ _ [f]); [|nsimp; by rewrite Hq].
    unfold line, credit. nsimp. rewrite Hq. qsimp. rewrite Ed, length_app, <- (assoc_L (++)).
    split; [|split; [cbn; lia | done]]. split; nsimp; rewrite Hq; qsimp; [done | intros Hp; by specialize (Hw Hp) | done].
Qed.

(** The rest of what the MAC says leaves the link alone. *)
Definition ups (l : list (wevent P)) : list Frame :=
  omap (fun e => match e with SendUp f => Some f | _ => None end) l.

Lemma requests_app (l1 l2 : list (wevent P)) : requests_in (l1 ++ l2) = (requests_in l1 + requests_in l2)%nat.
Proof. unfold requests_in. by rewrite filter_app, length_app. Qed.

Lemma absorb_all_spec t l : forall n,
  link_ok n ->
  link_ok (absorb_all t l n) /\ credit (absorb_all t l n) = credit n + Z.of_nat (requests_in l) /\
  line (absorb_all t l n) = line n /\ toMgmt (absorb_all t l n) = toMgmt n ++ ups l /\
  mac (absorb_all t l n) = mac n /\ offered (absorb_all t l n) = offered n /\
  upperOut (mgmt (absorb_all t l n)) = upperOut (mgmt n) /\
  numQueueDropped (queue (mgmt (absorb_all t l n))) = numQueueDropped (queue (mgmt n)).
Proof.
  induction l as [|e l IH]; intros n Hl.
  { cbn. rewrite app_nil_r. repeat (split; [done || lia|]). done. }
  change (absorb_all t (e :: l) n) with (absorb_all t l (absorb t e n)).
  destruct e as [f|c|f| |f|f|f];
    try (destruct (IH n Hl) as (A1 & A2 & A3); split; [exact A1|]; split; [exact A2|]; exact A3).
  - cbn [absorb]. assert (Hl1 : link_ok (n<| toMgmt ::= fun l => l ++ [f] |>)) by (by destruct Hl).
    destruct (IH _ Hl1) as (A1 & A2 & A3 & A4 & A5).
    split; [exact A1|]. split; [exact A2|]. split; [exact A3|]. split; [|exact A5].
    rewrite A4. cbn. by rewrite <- (assoc_L (++)).
  - destruct (absorb_request t n Hl) as (Hl1 & Hc1 & Hn1).
    destruct (IH _ Hl1) as (A1 & A2 & A3 & A4 & A5 & A6 & A7 & A8).
    assert (numQueueDropped (queue (mgmt (absorb t RequestPacket n))) = numQueueDropped (queue (mgmt n))) as Hd.
    { cbn [absorb]. unfold on_mgmt. nsimp. rewrite mgmt_request by apply Hl. by case_match. }
    split; [done|]. pose proof (requests_app [RequestPacket] l) as Ha. change (requests_in (RequestPacket :: l) = (1 + requests_in l)%nat) in Ha.
    split; [rewrite A2, Hc1, Ha; lia|]. split; [congruence|].
    split; [exact A4|]. split; [exact A5|]. split; [exact A6|]. split; [exact A7|]. congruence.
Qed.

(** ** Events of the MAC *)

(** A predicate that does not look at the self messages is kept by an event if it is kept
    by its handler. *)
Lemma event_keeps (J : Ieee80211Mac P -> Prop) m :
  (forall s tm, J s -> J (s<| timers := tm |>)) -> keeps J (handleMessage m) -> keeps J (event m).
Proof.
  intros Ht Hm. apply keeps_bind; [|done]. destruct m; try apply keeps_ret.
  apply keeps_modify. intros s Hs. apply (Ht s (set_timer t None (timers s)) Hs).
Qed.

Lemma event_out m s s' : event m s = Ok (tt, s') -> exists l, out s' = out s ++ l.
Proof.
  intros He. apply (keeps_run (grows (out s)) (event m) s tt s'); [|exists []; by rewrite app_nil_r | done].
  apply event_keeps; [done | apply handleMessage_grows].
Qed.

Lemma event_cfg m s s' : event m s = Ok (tt, s') -> cfg s' = cfg s.
Proof.
  intros He. apply (keeps_run (fun s1 => cfg s1 = cfg s) (event m) s tt s'); [|done | done].
  apply event_keeps; [done | apply handleMessage_cfg].
Qed.

(** An admissible event of the MAC, seen from the station. *)
Lemma mac_event_ok m n :
  winv (mac n) -> msg_ok (mac n) m ->
  exists s l, event m (mac n) = Ok (tt, s) /\ winv s /\ cfg s = cfg (mac n) /\ out s = out (mac n) ++ l /\
  mac_event m n = Ok (absorb_all (simTime s) l (n<| mac := s |>)).
Proof.
  intros Hw Hm. destruct (wp_ok _ _ _ (event_safe m (mac n) Hw Hm)) as ([] & s & He & Hw').
  destruct (event_out _ _ _ He) as [l Hl]. exists s, l. split; [done|]. split; [done|].
  split; [by apply (event_cfg m)|]. split; [done|]. unfold mac_event. rewrite He, Hl, drop_app_length. reflexivity.
Qed.

(** ** The books of a station *)

(** The frame carries one of the packets of the list. *)
Definition packs (off : list (cPacket P)) f : Prop :=
  upper_ok f /\ fclass f = Ieee80211DataFrame /\ type f = ST_DATA /\
  exists pk c, pk ∈ off /\ ctrl pk = Some c /\ receiverAddress f = ctrlDest c /\ encapsulated f = Some (content pk).

(** The packets accepted are those offered without the ones dropped; those the MAC has been
    given, and then those on the line, are just these, in their order. *)
Definition booked n (given : list (option P)) (acc : list P) : Prop :=
  credit n + Z.of_nat (length given) = Z.of_nat (requests_in (out (mac n))) /\
  given ++ (encapsulated <$> line n) = Some <$> acc /\
  acc `sublist_of` (content <$> offered n) /\
  Z.of_nat (length (offered n)) = Z.of_nat (length acc) + numQueueDropped (queue (mgmt n)).

Definition accounted n given acc : Prop := ledger 2 given (mac n) /\ booked n given acc.

Record nic_inv n : Prop := {
  nv_link : link_ok n;
  nv_mac : winv (mac n);
  nv_room : maxQueueSize (cfg (mac n)) = 0 \/ 2 <= maxQueueSize (cfg (mac n));
  nv_books : exists given acc, accounted n given acc;
  nv_frames : Forall (packs (offered n)) (line n);
}.

(** The two requests of the MAC are the frames it has or waits for. *)
Lemma accounted_credit n given acc :
  accounted n given acc -> credit n + Z.of_nat (length (transmissionQueue (mac n))) = 2.
Proof.
  intros ((k & Hk & Hle & Hq) & Hc & _). apply (f_equal length) in Hq. rewrite length_fmap, length_drop in Hq. lia.
Qed.

(** The station after an event of its MAC. *)
Lemma absorb_inv n s l t given acc :
  link_ok n -> maxQueueSize (cfg (mac n)) = 0 \/ 2 <= maxQueueSize (cfg (mac n)) -> Forall (packs (offered n)) (line n) ->
  winv s -> cfg s = cfg (mac n) -> out s = out (mac n) ++ l -> ledger 2 given s ->
  booked n given acc -> nic_inv (absorb_all t l (n<| mac := s |>)).
Proof.
  intros Hl Hr Hf Hw' Hcf Ho Hled (Hc & Hg & Hsub & Hlen).
  assert (Hl0 : link_ok (n<| mac := s |>)) by (by destruct Hl).
  destruct (absorb_all_spec t l _ Hl0) as (A1 & A2 & A3 & A4 & A5 & A6 & A7 & A8).
  split; [done | by rewrite A5 | by rewrite A5; nsimp; rewrite Hcf | | by rewrite A3, A6].
  exists given, acc. unfold accounted, booked. rewrite A2, A3, A5, A6, A8. nsimp. rewrite Ho, requests_app.
  split; [done|]. split; [|done]. change (credit (n<| mac := s |>)) with (credit n). lia.
Qed.

Lemma nic_mac_step_inv m n :
  nic_inv n -> msg_ok (mac n) m -> match m with UpperMsg _ => False | _ => True end ->
  exists n', mac_event m n = Ok n' /\ nic_inv n'.
Proof.
  intros Hn Hm Hu. destruct (mac_event_ok m n (nv_mac _ Hn) Hm) as (s & l & He & Hw & Hc & Ho & Hev).
  eexists. split; [exact Hev|]. destruct (nv_books _ Hn) as (given & acc & Hacc).
  apply (absorb_inv n s l _ given acc); try apply Hn; try done; [|apply Hacc].
  apply (keeps_run (ledger 2 given) (event m) (mac n) tt s); [|apply Hacc | done].
  apply event_keeps; [done | by apply handleMessage_ledger].
Qed.

(** A frame reaches the MAC; there is room for it. *)
Lemma down_step_inv f l n :
  nic_inv n -> toMac n = f :: l -> exists n', mac_event (UpperMsg f) (n<| toMac := l |>) = Ok n' /\ nic_inv n'.
Proof.
  intros Hn El. destruct (nv_books _ Hn) as (given & acc & Hled & Hc & Hg & Hsub & Hlen).
  assert (Eline : line n = f :: line (n<| toMac := l |>)) by (unfold line; nsimp; by rewrite El).
  assert (Ecred : credit n = credit (n<| toMac := l |>) + 1) by (unfold credit; nsimp; rewrite El; cbn; lia).
  pose proof (nv_frames _ Hn) as Hf. rewrite Eline in Hf. inversion_clear Hf as [|?? Hpk Hrest].
  assert (Hm : msg_ok (mac (n<| toMac := l |>)) (UpperMsg f)) by apply Hpk.
  pose (n1 := n<| toMac := l |>).
  destruct (mac_event_ok (UpperMsg f) n1 (nv_mac n Hn) Hm) as (s & lo & He & Hw & Hcf & Ho & Hev).
  eexists. split; [exact Hev|].
  apply (absorb_inv n1 s lo _ (given ++ [encapsulated f]) acc); try done.
  - by destruct (nv_link _ Hn).
  - apply (nv_room _ Hn).
  - assert (Hroom : Z.of_nat (length (transmissionQueue (mac n))) <= 1).
    { pose proof (accounted_credit n given acc (conj Hled (conj Hc (conj Hg (conj Hsub Hlen))))).
      pose proof (lk_requests _ (nv_link _ Hn)). unfold credit in *. rewrite El in *. cbn in *. lia. }
    refine (wpe_run _ _ _ _ _ _ (handleUpperMsg_ledger 2 given f (mac n) _ Hled) He).
    destruct (nv_room _ Hn); [by left | right; lia].
  - rewrite Eline in Hg. split; [|split; [by rewrite <- (assoc_L (++)) | done]].
    change (credit n1 + Z.of_nat (length (given ++ [encapsulated f])) = Z.of_nat (requests_in (out (mac n)))).
    rewrite length_app. cbn [length]. rewrite <- Hc, Ecred. fold n1. lia.
Qed.

(** A packet arrives from the network layer. *)
Lemma encapsulate_packs pk off :
  packet_ok pk -> pk ∈ off -> exists f, encapsulate pk = Ok f /\ packs off f /\ encapsulated f = Some (content pk).
Proof.
  intros (Hlen & c & Hc & Hwf & Hun) Hin. unfold encapsulate. rewrite Hc. eexists. split; [done|]. split; [|done].
  split; [|repeat (split; [done|]); by exists pk, c].
  split; wsimp; [done | done | | done | split; [done | apply unspecified_wf]].
  change (0 <= pkByteLength pk + 34 <= 2346). lia.
Qed.

Lemma packs_mono off pk f : packs off f -> packs (off ++ [pk]) f.
Proof.
  intros (Hu & Hc & Ht & p & c & Hp & Hrest). repeat (split; [done|]). exists p, c. split; [|done].
  apply elem_of_app. by left.
Qed.

(** The queue of the management module, given a data frame. *)
Lemma mgmt_arrive t f (b : PassiveQueueBase Frame (MgmtQueues P)) :
  fclass f = Ieee80211DataFrame ->
  Queue.handleMessage t f b =
  if 0 <? packetRequested b then
    b<| numQueueReceived ::= Z.succ |><| packetRequested ::= Z.pred |><| sent ::= fun l => l ++ [f] |>
  else
    let q := subclass b in
    if negb (WifiMgmt.frameCapacity q =? 0) && (WifiMgmt.frameCapacity q <=? Z.of_nat (length (dataQueue q)))
    then b<| numQueueReceived ::= Z.succ |><| numQueueDropped ::= Z.succ |>
    else b<| numQueueReceived ::= Z.succ |><| subclass ::= fun q => q<| dataQueue ::= fun l => l ++ [f] |> |>.
Proof.
  intros Hf. unfold Queue.handleMessage. qsimp. destruct (0 <? packetRequested b); [done|].
  unfold enqueue, mgmt_passive, mgmt_enqueue, isDataFrame. rewrite bool_decide_true by done. cbn [negb].
  destruct (negb (WifiMgmt.frameCapacity (subclass b) =? 0) && _); reflexivity.
Qed.

(** A packet was taken on, or dropped. *)
Lemma taken_inv pk f n n' :
  nic_inv n -> packs (offered n ++ [pk]) f -> encapsulated f = Some (content pk) ->
  link_ok n' -> mac n' = mac n -> offered n' = offered n ++ [pk] -> credit n' = credit n -> line n' = line n ++ [f] ->
  numQueueDropped (queue (mgmt n')) = numQueueDropped (queue (mgmt n)) -> nic_inv n'.
Proof.
  intros [Hl Hw Hr (given & acc & Hled & Hc & Hg & Hsub & Hlen) Hf] Hpk Hcont Hl' Em Eo Ec El Ed.
  split; [done | by rewrite Em | by rewrite Em | |].
  - exists given, (acc ++ [content pk]). unfold accounted, booked. rewrite Em, Eo, Ec, El, Ed. split; [done|]. split; [done|].
    rewrite !fmap_app, (assoc_L (++)), Hg.
    split; [f_equal; change ([encapsulated f] = [Some (content pk)]); by rewrite Hcont|].
    split; [by apply sublist_app|]. rewrite !length_app. cbn. lia.
  - rewrite El, Eo. apply Forall_app_2; [|by constructor]. eapply Forall_impl; [exact Hf|]. intros. by apply packs_mono.
Qed.

Lemma dropped_inv pk n n' :
  nic_inv n -> link_ok n' -> mac n' = mac n -> offered n' = offered n ++ [pk] -> credit n' = credit n -> line n' = line n ->
  numQueueDropped (queue (mgmt n')) = numQueueDropped (queue (mgmt n)) + 1 -> nic_inv n'.
Proof.
  intros [Hl Hw Hr (given & acc & Hled & Hc & Hg & Hsub & Hlen) Hf] Hl' Em Eo Ec El Ed.
  split; [done | by rewrite Em | by rewrite Em | |].
  - exists given, acc. unfold accounted, booked. rewrite Em, Eo, Ec, El, Ed. repeat (split; [done|]).
    rewrite fmap_app. split; [by apply sublist_inserts_r|]. rewrite length_app. cbn. lia.
  - rewrite El, Eo. eapply Forall_impl; [exact Hf|]. intros. by apply packs_mono.
Qed.

Lemma upper_step_inv t pk n :
  nic_inv n -> packet_ok pk ->
  exists g, mgmt_handleMessage t (FromUpper pk) (mgmt n) = Ok g /\ nic_inv (on_mgmt g (n<| offered ::= fun l => l ++ [pk] |>)).
Proof.
  intros Hn Hp. destruct (encapsulate_packs pk (offered n ++ [pk]) Hp) as (f & Ef & Hf & Hcont).
  { apply elem_of_app. right. by apply list_elem_of_singleton. }
  assert (Hcl : fclass f = Ieee80211DataFrame) by apply Hf.
  exists ((mgmt n)<| queue ::= Queue.handleMessage t f |>). split.
  { cbn [mgmt_handleMessage]. unfold handleUpperMessage. destruct Hp as ((_ & Hlen) & _).
    rewrite (proj2 (Z.ltb_ge _ _)) by lia. rewrite Ef. cbn [mbind outcome_bind].
    unfold sendOrEnqueue. rewrite Hcl, orb_true_r. reflexivity. }
  pose proof (nv_link _ Hn) as [Hr Hw Hm].
  destruct n as [[b ma nd nm nf uo] s tm tg off]. nsimp. pose proof (mgmt_arrive t f b Hcl) as Hq.
  destruct (0 <? packetRequested b) eqn:Er; [apply Z.ltb_lt in Er | apply Z.ltb_ge in Er].
  - specialize (Hw Er). rewrite (on_mgmt_sent _ _ [f]); [|nsimp; by rewrite Hq].
    apply (taken_inv pk f _ _ Hn Hf Hcont); unfold line, credit; nsimp; try done; rewrite ?Hq; qsimp; try done.
    + split; nsimp; rewrite Hq; qsimp; [lia | done | done].
    + rewrite length_app. cbn. lia.
    + by rewrite Hw, !app_nil_r.
  - cbv zeta in Hq. match type of Hq with _ = if ?c then _ else _ => destruct c end;
      (rewrite (on_mgmt_sent _ _ []); [|nsimp; rewrite Hq; qsimp; by rewrite app_nil_r]).
    + apply (dropped_inv pk _ _ Hn); unfold line, credit; nsimp; try done; rewrite ?Hq, ?app_nil_r; qsimp; try done.
      split; nsimp; rewrite Hq; qsimp; done.
    + apply (taken_inv pk f _ _ Hn Hf Hcont); unfold line, credit; nsimp; try done; rewrite ?Hq, ?app_nil_r; qsimp; try done.
      * split; nsimp; rewrite Hq; qsimp; [done | lia | done].
      * exact (assoc_L (++) tm (dataQueue (subclass b)) [f]).
Qed.

(** A frame goes up to the management module. *)
Lemma up_step_inv t f l n :
  nic_inv n -> toMgmt n = f :: l -> fclass f = Ieee80211DataFrame -> type f = ST_DATA -> encapsulated f <> None ->
  exists g pk, mgmt_handleMessage t (FromMac f) (mgmt n) = Ok g /\ decapsulate f = Ok pk /\
  nic_inv (on_mgmt g (n<| toMgmt := l |>)) /\
  on_mgmt g (n<| toMgmt := l |>) = n<| mgmt := g |><| toMgmt := l |> /\ upperOut g = upperOut (mgmt n) ++ [pk].
Proof.
  intros Hn El Hc Ht He. destruct (encapsulated f) as [p|] eqn:Ep; [|done].
  set (pk := mkcPacket p (packetLength p) (Some (mkIeee802Ctrl (transmitterAddress f) (receiverAddress f)))).
  assert (Hd : decapsulate f = Ok pk) by (unfold decapsulate; by rewrite Ep).
  exists ((mgmt n)<| numDataFramesReceived ::= Z.succ |><| upperOut ::= fun l => l ++ [pk] |>), pk.
  split; [|split; [done|]].
  { cbn [mgmt_handleMessage]. unfold processFrame, handleDataFrame. rewrite Hc, Ht, Hd. by rewrite bool_decide_true. }
  rewrite (on_mgmt_sent _ _ []) by (nsimp; by rewrite app_nil_r). destruct n as [[b ma nd nm nf uo] s tm tg off].
  assert (E : forall g, (mkNic (mkMgmt b ma nd nm nf uo) s tm tg off)<| toMgmt := l |><| mgmt := g |><| toMac ::= fun x => x ++ [] |>
    = mkNic g s tm l off) by (intros g; change (mkNic g s (tm ++ []) l off = mkNic g s tm l off); by rewrite app_nil_r).
  rewrite E. split; [|done]. destruct Hn as [[] ? ? (given & acc & Hacc) ?]. split; [done..| |done].
  exists given, acc. exact Hacc.
Qed.

Lemma tick_inv t n : nic_inv n -> may_tick t n -> nic_inv (tick t n).
Proof.
  intros [[] ? ? (given & acc & Hacc) ?] [Hle Hlast]. split; [done | by apply time_winv | done | | done].
  exists given, acc. exact Hacc.
Qed.

(** A station at the start. *)
Lemma initialize_start p ctr s ctr' :
  params_ok p -> @WifiFsm.initialize P p ctr = Ok (s, ctr') ->
  address (cfg s) = (generateAutoAddress ctr).1 /\ ctr' = u32 (ctr + 1) /\ maxQueueSize (cfg s) = p_maxQueueSize p /\
  out s = [RequestPacket; RequestPacket] /\ transmissionQueue s = [].
Proof.
  intros Hp. unfold WifiFsm.initialize. rewrite (po_address _ Hp), (po_queue _ Hp). cbv zeta.
  do 3 (match goal with |- mbind _ (check ?b ?x) = _ -> _ => destruct b end; [|done]; cbn [check mbind outcome_bind]).
  by intros [= <- <-].
Qed.

Lemma nic_initialize_inv p ctr capacity :
  params_ok p -> p_maxQueueSize p = 0 \/ 2 <= p_maxQueueSize p ->
  exists n, nic_initialize p ctr capacity = Ok (n, u32 (ctr + 1)) /\ nic_inv n /\
  address (cfg (mac n)) = (generateAutoAddress ctr).1 /\
  out (mac n) = [RequestPacket; RequestPacket] /\ transmissionQueue (mac n) = [] /\
  offered n = [] /\ toMgmt n = [] /\ upperOut (mgmt n) = [].
Proof.
  intros Hp Hr. destruct (initialize_winv (P := P) p ctr Hp) as (s & ctr' & Hi & Hw & _).
  destruct (initialize_start p ctr s ctr' Hp Hi) as (Ha & -> & Hmax & Ho & Hq).
  unfold nic_initialize, mgmt_initialize. rewrite Hi, (po_address _ Hp). cbn [mbind outcome_bind].
  pose proof (MACAddress_of_str_str (address (cfg s))) as Hs. unfold MACAddress_of_str in Hs.
  change (if ("auto" =? "auto")%string then str (address (cfg s)) else "auto") with (str (address (cfg s))).
  rewrite Hs by (rewrite Ha; apply generateAutoAddress_wf). cbn [mbind outcome_bind]. eexists. split; [reflexivity|].
  rewrite Ho. split; [|by repeat (split; [done|])].
  split; [done | done | by rewrite <- Hmax in Hr | | constructor].
  exists [], []. split; [exists O; cbn; by rewrite ?Ho, ?Hq|]. split; [change (2 + 0 = Z.of_nat (requests_in (out s))); by rewrite Ho | done].
Qed.
End props.
