(* ===== verification/WifiEther.v ===== *)
(** * Stations on a shared ether: no event fails, and packets arrive as they were sent

    The books of the network say which packets each station was given.  Every data frame
    on the ether, in a queue, on a link or handed up goes back to an entry of another
    station; that is what the frames a MAC receives have to be for its own invariant. *)

From S2P Require Import Prelude MACAddress Queue QueueProps WifiTypes WifiMac WifiFsm WifiKeeps WifiInv WifiSafe WifiAccess WifiProps WifiLedger WifiMgmt WifiNic WifiNicProps.

Open Scope string_scope.
Open Scope list_scope.
Open Scope Z_scope.
#[local] Set Default Proof Using "All".

Section ether.
Context {P : Type} `{PacketLength P} `{WifiEnvOk}.
Local Abbreviation Frame := (Ieee80211Frame P).
Local Abbreviation Books := (list (MACAddress * list (cPacket P))).
Implicit Types (n : Nic P) (f g : Frame) (s : Ieee80211Mac P) (B : Books) (w : Ether P) (a b : MACAddress) (off : list (cPacket P)).

(** ** The books *)

Definition entry n : MACAddress * list (cPacket P) := (address (cfg (mac n)), offered n).
Definition books w : Books := entry <$> stations w.

(** The frame carries a packet given to the station with address [a]. *)
Record carries a off f : Prop := {
  cr_class : fclass f = Ieee80211DataFrame;
  cr_type : type f = ST_DATA;
  cr_from : transmitterAddress f = a;
  cr_packet : exists pk c, pk ∈ off /\ ctrl pk = Some c /\ receiverAddress f = ctrlDest c /\ encapsulated f = Some (content pk);
}.

(** The frame comes from another station than [i]. *)
Definition heard B (i : nat) f : Prop :=
  is_DataOrMgmt (fclass f) = true -> exists j a off, j <> i /\ B !! j = Some (a, off) /\ carries a off f.

(** The packet handed up at station [i] with address [a] is one that another station was
    given for it, or for all, with the addresses of the two. *)
Definition received B (i : nat) a (pk : cPacket P) : Prop :=
  exists j b off pk0 c,
    j <> i /\ B !! j = Some (b, off) /\ pk0 ∈ off /\ ctrl pk0 = Some c /\
    (isBroadcast (ctrlDest c) = true \/ equals (ctrlDest c) a = true) /\
    content pk = content pk0 /\ ctrl pk = Some (mkIeee802Ctrl b (ctrlDest c)).

Definition extends B B' : Prop :=
  forall j a off, B !! j = Some (a, off) -> exists off', B' !! j = Some (a, off') /\ off ⊆ off'.

Lemma carries_mono a off off' f : off ⊆ off' -> carries a off f -> carries a off' f.
Proof. intros Hs [? ? ? (pk & c & ? & ?)]. split; [done..|]. exists pk, c. auto. Qed.

Lemma heard_mono B B' i f : extends B B' -> heard B i f -> heard B' i f.
Proof.
  intros HB Hh Hd. destruct (Hh Hd) as (j & a & off & Hne & Hj & Hc). destruct (HB j a off Hj) as (off' & Hj' & Hs).
  exists j, a, off'. eauto using carries_mono.
Qed.

Lemma received_mono B B' i a pk : extends B B' -> received B i a pk -> received B' i a pk.
Proof.
  intros HB (j & b & off & pk0 & c & Hne & Hj & Hin & Hrest). destruct (HB j b off Hj) as (off' & Hj' & Hs).
  exists j, b, off', pk0, c. split; [done|]. split; [done|]. split; [by apply Hs | done].
Qed.

Lemma carries_same a off f g : same_packet f g -> carries a off f -> carries a off g.
Proof. intros [Hc Ht Hr Hm He] [? ? ? (pk & c & ?)]. split; [congruence..|]. exists pk, c. by rewrite <- Hr, <- He. Qed.

Lemma heard_same B i f g : same_packet f g -> heard B i f -> heard B i g.
Proof.
  intros Hs Hh. unfold heard. rewrite <- (sp_class _ _ Hs). intros Hd. destruct (Hh Hd) as (j & a & off & ? & ? & Hc).
  exists j, a, off. eauto using carries_same.
Qed.

Lemma carries_data a off f : carries a off f -> is_DataOrMgmt (fclass f) = true.
Proof. by intros [-> _ _ _]. Qed.

Lemma packs_carries a off f : packs off f -> carries a off (f<| transmitterAddress := a |>).
Proof. by intros (_ & Hc & Ht & Hp); split. Qed.

(** ** A station within the network *)

(** Frames handed up were heard; what is on the way up, and what went up, too. *)
Definition deliverable B i n : Frame -> Prop := delivered (cfg (mac n)) (heard B i).

Record station_ok B (i : nat) n : Prop := {
  so_inv : nic_inv n;
  so_entry : B !! i = Some (entry n);
  so_origin : origin (cfg (mac n)) (carries (address (cfg (mac n))) (offered n)) (heard B i) (mac n);
  so_link : Forall (deliverable B i n) (toMgmt n);
  so_up : Forall (received B i (address (cfg (mac n)))) (upperOut (mgmt n));
}.

Lemma origin_mono c (G G' R R' : Frame -> Prop) s :
  (forall f, G f -> G' f) -> (forall f, R f -> R' f) -> origin c G R s -> origin c G' R' s.
Proof.
  intros HG HR (Hc & Hq & Hd & Hu). split; [done|]. split; [by eapply Forall_impl|]. split; intros f Hf.
  - destruct (Hd f Hf). split; auto.
  - destruct (Hu f Hf) as [? ?]. split; auto.
Qed.

Lemma station_mono B B' i n : extends B B' -> B' !! i = Some (entry n) -> station_ok B i n -> station_ok B' i n.
Proof.
  intros HB Hi [? ? Ho Hl Hu]. split; [done | done | ..].
  - eapply origin_mono; [done | | exact Ho]. intros f. by apply heard_mono.
  - eapply Forall_impl; [exact Hl|]. intros f [? ?]. split; [by eapply heard_mono | done].
  - eapply Forall_impl; [exact Hu|]. intros pk. by apply received_mono.
Qed.

(** What station [n], the [i]-th, may be given by its radio. *)
Definition hearable B i n f : Prop :=
  frame_ok f /\ heard B i f /\ (is_TwoAddress (fclass f) = true -> equals (transmitterAddress f) (address (cfg (mac n))) = false).

(** The station after an event of its MAC. *)
Lemma absorbed_station B i n s l t :
  link_ok n -> B !! i = Some (entry n) -> Forall (deliverable B i n) (toMgmt n) ->
  Forall (received B i (address (cfg (mac n)))) (upperOut (mgmt n)) ->
  cfg s = cfg (mac n) -> out s = out (mac n) ++ l ->
  origin (cfg (mac n)) (carries (address (cfg (mac n))) (offered n)) (heard B i) s ->
  let n' := absorb_all t l (n<| mac := s |>) in nic_inv n' -> station_ok B i n' /\ entry n' = entry n /\ out (mac n') = out (mac n) ++ l.
Proof.
  intros Hl Hi Hd Hu Hc Ho Horig n' Hn'.
  assert (Hl0 : link_ok (n<| mac := s |>)) by (by destruct Hl).
  destruct (absorb_all_spec t l _ Hl0) as (_ & _ & _ & A4 & A5 & A6 & A7 & _). fold n' in A4, A5, A6, A7.
  assert (Em : mac n' = s) by exact A5. assert (Eo : offered n' = offered n) by exact A6.
  assert (Eu : upperOut (mgmt n') = upperOut (mgmt n)) by exact A7.
  assert (El : toMgmt n' = toMgmt n ++ ups l) by exact A4.
  assert (Ee : entry n' = entry n) by (unfold entry; by rewrite Em, Eo, Hc).
  split; [|split; [done | by rewrite Em]]. split; [done | by rewrite Ee | | |].
  - by rewrite Em, Eo, Hc.
  - rewrite El. unfold deliverable. rewrite Em, Hc. apply Forall_app_2; [done|]. apply Forall_forall.
    intros f (e & He & Hf)%list_elem_of_omap. destruct e; try done. injection Hf as <-.
    destruct Horig as (_ & _ & _ & Hup). apply Hup. rewrite Ho. apply elem_of_app. by right.
  - by rewrite Eu, Em, Hc.
Qed.

(** One event, for each kind. *)
Definition good_step B i n n' : Prop :=
  station_ok (<[i := entry n']> B) i n' /\ address (cfg (mac n')) = address (cfg (mac n)) /\ offered n ⊆ offered n' /\
  exists l, out (mac n') = out (mac n) ++ l.

Lemma good_same B i n n' l :
  B !! i = Some (entry n) -> station_ok B i n' -> entry n' = entry n -> out (mac n') = out (mac n) ++ l -> good_step B i n n'.
Proof.
  intros Hi Hs He Ho. unfold good_step. rewrite He, list_insert_id by done. split; [done|].
  injection He as -> ->. split; [done|]. split; [done|]. by exists l.
Qed.

Lemma mac_good B i n m :
  station_ok B i n -> msg_ok (mac n) m ->
  match m with UpperMsg _ => False | LowerMsg (Some f) => heard B i f | _ => True end ->
  exists n', mac_event m n = Ok n' /\ good_step B i n n'.
Proof.
  intros [Hn Hi Ho Hl Hu] Hm Hh.
  destruct (mac_event_ok m n (nv_mac _ Hn) Hm) as (s & l & He & Hw & Hc & Hout & Hev).
  destruct (nic_mac_step_inv m n Hn Hm) as (n' & Hev' & Hn'); [by destruct m|]. rewrite Hev in Hev'. injection Hev' as <-.
  eexists. split; [exact Hev|].
  destruct (absorbed_station B i n s l (simTime s)) as (Hs & Hentry & Houts); try done; [apply Hn | | by apply (good_same _ _ _ _ l)].
  refine (keeps_run _ (event m) (mac n) tt s _ Ho He).
  apply event_keeps; [done|]. apply handleMessage_origin; [apply carries_same | apply carries_data|].
  destruct m as [| | |[f|]|]; first [exact I | exact Hh | by apply (heard_same _ _ f)].
Qed.

Lemma down_good B i n :
  station_ok B i n -> toMac n <> [] -> exists n', nic_handle NDown n = Ok n' /\ good_step B i n n'.
Proof.
  intros [Hn Hi Ho Hl Hu] Hne. cbn [nic_handle]. destruct (toMac n) as [|f l] eqn:El; [done|].
  destruct (down_step_inv f l n Hn El) as (n' & Hev' & Hn'). pose (n1 := n<| toMac := l |>).
  assert (Hf : packs (offered n) f).
  { pose proof (nv_frames _ Hn) as Hf. unfold line in Hf. rewrite El in Hf. by inversion_clear Hf. }
  destruct (mac_event_ok (UpperMsg f) n1 (nv_mac n Hn) (proj1 Hf)) as (s & lo & He & Hw & Hc & Hout & Hev).
  pose proof Hev as Hev2. unfold n1 in Hev2. rewrite Hev' in Hev2. injection Hev2 as ->. eexists. split; [exact Hev|].
  destruct (absorbed_station B i n1 s lo (simTime s)) as (Hs & Hentry & Houts); try done.
  - by destruct (nv_link _ Hn).
  - refine (wpe_run _ _ _ _ _ _ (handleUpperMsg_origin _ _ _ _ _ f (mac n) _ Ho) He);
      [apply carries_same | apply carries_data | by apply packs_carries].
  - by apply (good_same _ _ _ _ lo).
Qed.

(** A frame reaches the management module: it is a data frame that was heard. *)
Lemma up_good B i n :
  station_ok B i n -> toMgmt n <> [] -> exists n', nic_handle NUp n = Ok n' /\ good_step B i n n'.
Proof.
  intros [Hn Hi Ho Hl Hu] Hne. cbn [nic_handle]. destruct (toMgmt n) as [|f l] eqn:El; [done|].
  apply Forall_cons in Hl as [(Hh & Hadr & Hdam & Hd) Hrest].
  destruct (Hh Hd) as (j & a & off & Hji & Hj & [Hc Ht Ha (pk0 & c & Hin & Hctrl & Hrcv & Henc)]).
  destruct (up_step_inv (simTime (mac n)) f l n) as (g & pk & Hg & Hpk & Hn' & En' & Eup); [done..|by rewrite Henc|].
  exists (on_mgmt g (n<| toMgmt := l |>)). rewrite Hg. split; [done|].
  apply (good_same _ _ _ _ []); [done | | by rewrite En' | rewrite En'; by rewrite app_nil_r].
  rewrite En' in *. split; [done..|]. cbn [mgmt set_]. rewrite Eup. apply Forall_app_2; [done|]. constructor; [|done].
  unfold decapsulate in Hpk. rewrite Henc in Hpk. injection Hpk as <-.
  exists j, a, off, pk0, c. repeat (split; [done|]). cbn. rewrite Ha, Hrcv. split; [|done].
  unfold addressed in Hadr. by rewrite Hrcv in Hadr.
Qed.

Lemma extends_insert B i a off off' : B !! i = Some (a, off) -> off ⊆ off' -> extends B (<[i := (a, off')]> B).
Proof.
  intros Hi Hs j b o Hj. destruct (decide (j = i)) as [->|Hne].
  - rewrite Hi in Hj. injection Hj as <- <-. exists off'. split; [|done]. apply list_lookup_insert_eq. by apply lookup_lt_Some in Hi.
  - exists o. by rewrite list_lookup_insert_ne by done.
Qed.

(** A packet arrives from the network layer. *)
Lemma upper_good B i n pk :
  station_ok B i n -> packet_ok pk -> exists n', nic_handle (NUpper pk) n = Ok n' /\ good_step B i n n'.
Proof.
  intros [Hn Hi Ho Hl Hu] Hp. destruct (upper_step_inv (simTime (mac n)) pk n Hn Hp) as (g & Hg & Hn').
  cbn [nic_handle]. rewrite Hg. eexists. split; [reflexivity|].
  assert (Hup : upperOut g = upperOut (mgmt n)).
  { revert Hg. cbn [mgmt_handleMessage]. unfold handleUpperMessage, sendOrEnqueue. case_match; [done|].
    destruct (encapsulate pk); [|done]. cbn [mbind outcome_bind]. destruct (_ || _); [|done]. by intros [= <-]. }
  assert (Hsub : offered n ⊆ offered n ++ [pk]) by (intros x Hx; apply elem_of_app; by left).
  split; [|split; [done|]; split; [done|]; exists []; by rewrite app_nil_r].
  change (entry (on_mgmt g (n<| offered ::= fun l => l ++ [pk] |>))) with (address (cfg (mac n)), offered n ++ [pk]).
  pose proof (extends_insert B i _ _ _ Hi Hsub) as Hext. split; [done | | | |].
  - apply list_lookup_insert_eq. by apply lookup_lt_Some in Hi.
  - refine (origin_mono _ _ _ _ _ _ _ _ Ho); intros f; [by apply carries_mono | by apply heard_mono].
  - eapply Forall_impl; [exact Hl|]. intros f [? ?]. split; [by eapply heard_mono | done].
  - change (upperOut (mgmt (on_mgmt g (n<| offered ::= fun l => l ++ [pk] |>)))) with (upperOut g). rewrite Hup.
    eapply Forall_impl; [exact Hu|]. intros p. by apply received_mono.
Qed.

(** Every event of a station that may happen is handled. *)
Lemma nic_handle_good B i n e :
  station_ok B i n -> nic_enabled (hearable B i n) n e -> exists n', nic_handle e n = Ok n' /\ good_step B i n n'.
Proof.
  intros Hs He. destruct e as [pk| | |k|j r|[f|]]; cbn [nic_enabled] in He.
  - by apply upper_good.
  - by apply down_good.
  - by apply up_good.
  - by apply mac_good.
  - by apply mac_good.
  - destruct He as (Hf & Hh & Ha). by apply mac_good.
  - by apply mac_good.
Qed.

(** ** The network *)

Record on_air B (j : nat) g : Prop := {
  oa_frame : frame_ok g;
  oa_from : exists a off, B !! j = Some (a, off) /\ (is_DataOrMgmt (fclass g) = true -> carries a off g) /\
    (is_TwoAddress (fclass g) = true -> transmitterAddress g = a);
}.

Record ether_inv w : Prop := {
  ei_station : forall i n, stations w !! i = Some n -> station_ok (books w) i n;
  ei_air : forall j g, (j, g) ∈ air w -> on_air (books w) j g;
  ei_apart : forall i j n n', i <> j -> stations w !! i = Some n -> stations w !! j = Some n' ->
    address (cfg (mac n)) <> address (cfg (mac n'));
}.

Lemma books_lookup w i : books w !! i = entry <$> stations w !! i.
Proof. apply list_lookup_fmap. Qed.

Lemma on_air_mono B B' j g : extends B B' -> on_air B j g -> on_air B' j g.
Proof.
  intros HB [Hf (a & off & Hj & Hc & Ht)]. split; [done|]. destruct (HB j a off Hj) as (off' & Hj' & Hs).
  exists a, off'. split; [done|]. split; [|done]. intros Hd. eauto using carries_mono.
Qed.

(** What the ether brings to a station is what its MAC may be given. *)
Lemma may_hear_hearable w i n f : ether_inv w -> stations w !! i = Some n -> may_hear w i f -> hearable (books w) i n f.
Proof.
  intros [Hst Hair Hap] Hi (j & g & Hne & Hg & Hf). destruct (Hair j g Hg) as [Hok (a & off & Hj & Hc & Ht)].
  assert (Hsame : same_packet g f) by (by rewrite Hf).
  split; [by rewrite Hf; destruct Hok|]. split.
  - apply (heard_same _ _ g f Hsame). intros Hd. exists j, a, off. auto.
  - rewrite <- (sp_class _ _ Hsame), <- (sp_transmitter _ _ Hsame). intros Htwo. specialize (Ht Htwo).
    rewrite books_lookup in Hj. destruct (stations w !! j) as [nj|] eqn:Enj; [|done]. injection Hj as Ea _.
    pose proof (so_inv _ _ _ (Hst _ _ Hi)) as Hni.
    assert (Hwf : mac_wf (address (cfg (mac n)))) by apply (nv_mac _ Hni).
    rewrite equals_spec, bool_decide_false; [done | | apply Hok | done].
    rewrite Ht, <- Ea. by apply (Hap j i).
Qed.

(** What a station gave to its radio. *)
Lemma sent_on_air B i n f : station_ok B i n -> SendDown f ∈ out (mac n) -> on_air B i f.
Proof.
  intros [Hn Hi (_ & _ & Hd & _) _ _] Hf. split; [exact (c_out _ _ _ _ _ _ _ _ _ _ (proj1 (nv_mac _ Hn)) f Hf)|].
  exists (address (cfg (mac n))), (offered n). split; [done|]. destruct (Hd f Hf) as [Hd1 Hd2]. split; [done|].
  intros Htwo. destruct (is_DataOrMgmt (fclass f)) eqn:E; [by apply Hd1 | by apply Hd2].
Qed.

Lemma tick_good w t : ether_inv w -> Forall (may_tick t) (stations w) -> ether_inv (mkEther (tick t <$> stations w) (air w)).
Proof.
  intros [Hst Hair Hap] Ht. assert (Eb : books (mkEther (tick t <$> stations w) (air w)) = books w).
  { unfold books. cbn [stations]. rewrite <- list_fmap_compose. by apply list_fmap_ext. }
  assert (Hget : forall i n, (tick t <$> stations w) !! i = Some n -> exists n0, stations w !! i = Some n0 /\ n = tick t n0).
  { intros i n. rewrite list_lookup_fmap. destruct (stations w !! i) as [n0|]; [|done]. intros [= <-]. eauto. }
  split; rewrite ?Eb; [|done|].
  - intros i n (n0 & Hi & ->)%Hget. destruct (Hst i n0 Hi) as [Hn Hen Ho Hl Hu]. split; [|done..].
    apply tick_inv; [done|]. rewrite Forall_lookup in Ht. by apply (Ht i).
  - intros i j n n' Hne (n0 & Hi & ->)%Hget (n1 & Hj & ->)%Hget. by apply (Hap i j n0 n1).
Qed.

Lemma ether_handle_good w e : ether_inv w -> ether_enabled w e -> exists w', ether_handle e w = Ok w' /\ ether_inv w'.
Proof.
  intros Hw He. destruct e as [t|i e]; cbn [ether_handle ether_enabled] in *; [eauto using tick_good|].
  destruct He as (n & Hi & He). rewrite Hi. pose proof Hw as [Hst Hair Hap].
  destruct (nic_handle_good (books w) i n e) as (n' & Hh & Hgood & Ha & Hoff & l & Hout); [by apply Hst | |].
  { destruct e as [| | | | |[f|]]; [exact He..| |exact He]. by apply may_hear_hearable. }
  rewrite Hh. cbn [mbind outcome_bind]. eexists. split; [reflexivity|].
  set (w' := mkEther _ _). assert (Eb : books w' = <[i := entry n']> (books w)) by (apply list_fmap_insert).
  assert (Hbi : books w !! i = Some (address (cfg (mac n)), offered n)) by (rewrite books_lookup; by rewrite Hi).
  assert (Hext : extends (books w) (books w')).
  { rewrite Eb. unfold entry. rewrite Ha. by apply (extends_insert _ _ _ (offered n)). }
  pose proof (lookup_lt_Some _ _ _ Hi) as Hlt. assert (Hself : stations w' !! i = Some n') by (by apply list_lookup_insert_eq).
  assert (Hother : forall j, j <> i -> stations w' !! j = stations w !! j) by (intros; by apply list_lookup_insert_ne).
  assert (Hbook : forall j m, stations w' !! j = Some m -> books w' !! j = Some (entry m))
    by (intros j m Hj; by rewrite books_lookup, Hj).
  assert (Hadr : forall j m, stations w' !! j = Some m -> exists m0, stations w !! j = Some m0 /\
    address (cfg (mac m)) = address (cfg (mac m0))).
  { intros j m Hj. destruct (decide (j = i)) as [->|Hji]; [|rewrite Hother in Hj by done; eauto].
    rewrite Hself in Hj. injection Hj as <-. eauto. }
  split.
  - intros j m Hj. destruct (decide (j = i)) as [->|Hji].
    + rewrite Hself in Hj. injection Hj as <-. by rewrite Eb.
    + apply (station_mono (books w)); [done | by apply Hbook | apply Hst; by rewrite <- Hother].
  - intros j g. unfold w'. cbn [air]. intros [Hg|(f & [= -> ->] & Hf)%list_elem_of_fmap]%elem_of_app;
      [by apply (on_air_mono (books w)), Hair|].
    apply list_elem_of_omap in Hf as (x & Hx & Hf). destruct x; try discriminate Hf. injection Hf as ->.
    assert (Hsent : SendDown f ∈ out (mac n')) by (rewrite Hout, drop_app_length in Hx; rewrite Hout; apply elem_of_app; by right).
    rewrite <- Eb in Hgood. exact (sent_on_air _ _ n' f Hgood Hsent).
  - intros i1 j1 m m' Hne H1' H2'. destruct (Hadr _ _ H1') as (m0 & Hm0 & ->). destruct (Hadr _ _ H2') as (m1 & Hm1 & ->).
    by apply (Hap i1 j1).
Qed.

(** ** The start *)

Definition setup_ok (x : Params * Z) : Prop := params_ok x.1 /\ (p_maxQueueSize x.1 = 0 \/ 2 <= p_maxQueueSize x.1).

Lemma stations_start l : forall ctr,
  Forall setup_ok l -> 0 <= ctr -> ctr + Z.of_nat (length l) < 2 ^ 32 ->
  exists ns, stations_initialize l ctr = Ok ns /\
  forall i n, ns !! i = Some n ->
    nic_inv n /\ address (cfg (mac n)) = (generateAutoAddress (ctr + Z.of_nat i)).1 /\ (i < length l)%nat /\
    out (mac n) = [RequestPacket; RequestPacket] /\ transmissionQueue (mac n) = [] /\
    offered n = [] /\ toMgmt n = [] /\ upperOut (mgmt n) = [].
Proof.
  induction l as [|[p capacity] l IH]; intros ctr Hl Hc Hlen; cbn [stations_initialize length] in *.
  { exists []. split; [done|]. by intros i n Hi. }
  apply Forall_cons in Hl as [[Hp Hmax] Hl]. destruct (nic_initialize_inv p ctr capacity Hp Hmax) as (n & Hn & Hinv & Ha & Hrest).
  rewrite Hn. cbn [mbind outcome_bind]. assert (Eu : u32 (ctr + 1) = ctr + 1) by (apply Z.mod_small; lia).
  destruct (IH (ctr + 1) Hl) as (ns & Hns & Hall); [lia..|]. rewrite Eu, Hns. cbn [mbind outcome_bind].
  exists (n :: ns). split; [done|]. intros [|i] m Hi; cbn [lookup list_lookup] in Hi.
  - injection Hi as <-. rewrite Z.add_0_r. repeat (split; [done || lia|]). done.
  - destruct (Hall i m Hi) as (A1 & A2 & A3 & A4). split; [done|].
    replace (ctr + Z.of_nat (S i)) with (ctr + 1 + Z.of_nat i) by lia. split; [done|]. split; [lia | done].
Qed.

Lemma ether_start l ctr :
  Forall setup_ok l -> 0 <= ctr -> ctr + Z.of_nat (length l) < 2 ^ 32 ->
  exists w, ether_initialize l ctr = Ok w /\ ether_inv w.
Proof.
  intros Hl Hc Hlen. destruct (stations_start l ctr Hl Hc Hlen) as (ns & Hns & Hall). unfold ether_initialize. rewrite Hns.
  cbn [mbind outcome_bind]. eexists. split; [reflexivity|]. split; cbn [stations air].
  - intros i n Hi. destruct (Hall i n Hi) as (Hn & _ & _ & Ho & Hq & Hoff & Hl1 & Hu). split; [done | | | |].
    + rewrite books_lookup. cbn [stations]. by rewrite Hi.
    + split; [done|]. rewrite Hq, Ho. split; [constructor|].
      split; intros f [[=]|[[=]|[]%elem_of_nil]%elem_of_cons]%elem_of_cons.
    + by rewrite Hl1.
    + by rewrite Hu.
  - by intros j g []%elem_of_nil.
  - intros i j n n' Hne (_ & -> & Hi & _)%Hall (_ & -> & Hj & _)%Hall E. apply generateAutoAddress_inj in E; lia.
Qed.

Lemma ether_reach_inv w0 w : ether_inv w0 -> ether_reach w0 w -> ether_inv w.
Proof.
  intros Hw0. induction 1 as [|w1 e w2 _ IH He Hh]; [done|].
  destruct (ether_handle_good w1 e IH He) as (w' & Hh' & Hw'). congruence.
Qed.

Lemma ether_reached l ctr w0 w :
  Forall setup_ok l -> 0 <= ctr -> ctr + Z.of_nat (length l) < 2 ^ 32 ->
  ether_initialize l ctr = Ok w0 -> ether_reach w0 w -> ether_inv w.
Proof.
  intros Hl Hc Hlen Hi. destruct (ether_start l ctr Hl Hc Hlen) as (w1 & Hi1 & Hw1). rewrite Hi in Hi1. injection Hi1 as <-.
  by apply ether_reach_inv.
Qed.

(** ** Claims *)

(** C8: A network of 802.11 stations never fails.  Stations with automatic addresses and a
    MAC queue for two frames or more start, and whatever sequence of events follows (packets
    from the network layers, frames on the links between the modules, self messages at their
    time, arbitrary states of the radios, frames of the other stations heard whole, damaged,
    twice, late or not at all), every event that may happen is handled: none of the faults of
    the MAC (of [wifi_never_fails]) and none of the management module's casts and null
    pointers occurs.  What the MAC expects of the frames it receives is established by the
    stations that send them, not assumed. *)
Theorem ether_never_fails l ctr :
  Forall setup_ok l -> 0 <= ctr -> ctr + Z.of_nat (length l) < 2 ^ 32 ->
  exists w0, ether_initialize l ctr = Ok w0 /\
  forall w e, ether_reach w0 w -> ether_enabled w e -> exists w', ether_handle e w = Ok w'.
Proof.
  intros Hl Hc Hlen. destruct (ether_start l ctr Hl Hc Hlen) as (w0 & Hi & Hw0). exists w0. split; [done|].
  intros w e Hr He. destruct (ether_handle_good w e (ether_reach_inv _ _ Hw0 Hr) He) as (w' & Hh & _). eauto.
Qed.

(** C9: Packets arrive as they were sent.  In every state a network of 802.11 stations can
    reach, each packet a station has handed up to its network layer is one that a different
    station was given by its own: the content is the same, the packet was addressed to the
    receiving station or to all, and the control information handed up names the sending
    station's address and the destination that was asked for.  Nothing is made up, altered,
    delivered to a third station or looped back, whatever the ether does. *)
Theorem ether_integrity l ctr w0 w i n pk :
  Forall setup_ok l -> 0 <= ctr -> ctr + Z.of_nat (length l) < 2 ^ 32 ->
  ether_initialize l ctr = Ok w0 -> ether_reach w0 w ->
  stations w !! i = Some n -> pk ∈ upperOut (mgmt n) ->
  exists j m pk0 c,
    j <> i /\ stations w !! j = Some m /\ pk0 ∈ offered m /\ ctrl pk0 = Some c /\
    (isBroadcast (ctrlDest c) = true \/ equals (ctrlDest c) (address (cfg (mac n))) = true) /\
    content pk = content pk0 /\ ctrl pk = Some (mkIeee802Ctrl (address (cfg (mac m))) (ctrlDest c)).
Proof.
  intros Hl Hc Hlen Hini Hr Hi Hpk. pose proof (ether_reached l ctr w0 w Hl Hc Hlen Hini Hr) as Hw.
  pose proof (so_up _ _ _ (ei_station _ Hw i n Hi)) as Hup. rewrite Forall_forall in Hup.
  destruct (Hup pk Hpk) as (j & b & off & pk0 & c & Hne & Hj & Hin & Hctrl & Hdest & Hcont & Hc2).
  rewrite books_lookup in Hj. destruct (stations w !! j) as [m|] eqn:Ej; [|done]. injection Hj as <- <-.
  exists j, m, pk0, c. done.
Qed.

(** C11: A station loses nothing between the network layer and the air except by its queue
    being full, and keeps the order.  In every reachable state, the packets accepted are
    those offered, in their order, without the [numQueueDropped] ones; the packets in the
    MAC's transmission queue, on the link down to it and in the management module's queue,
    one after the other, are the accepted ones without those the MAC is done with (as many
    as it asked for after its first two requests); and the frames in the MAC, those on the
    link and the open requests are always two, so that the MAC's queue never overflows. *)
Theorem station_fifo l ctr w0 w i n :
  Forall setup_ok l -> 0 <= ctr -> ctr + Z.of_nat (length l) < 2 ^ 32 ->
  ether_initialize l ctr = Ok w0 -> ether_reach w0 w -> stations w !! i = Some n ->
  packetRequested (queue (mgmt n)) + Z.of_nat (length (toMac n)) + Z.of_nat (length (transmissionQueue (mac n))) = 2 /\
  exists acc,
    acc `sublist_of` (content <$> offered n) /\
    Z.of_nat (length (offered n)) = Z.of_nat (length acc) + numQueueDropped (queue (mgmt n)) /\
    encapsulated <$> (transmissionQueue (mac n) ++ toMac n ++ dataQueue (subclass (queue (mgmt n))))
      = Some <$> drop (requests_in (out (mac n)) - 2) acc.
Proof.
  intros Hl Hc Hlen Hini Hr Hi. pose proof (ether_reached l ctr w0 w Hl Hc Hlen Hini Hr) as Hw.
  pose proof (so_inv _ _ _ (ei_station _ Hw i n Hi)) as Hn. destruct (nv_books _ Hn) as (given & acc & Hacc).
  split; [exact (accounted_credit n given acc Hacc)|]. exists acc.
  destruct Hacc as ((k & Hk & Hle & Hq) & _ & Hg & Hsub & Hcount). split; [done|]. split; [done|].
  replace (requests_in (out (mac n)) - 2)%nat with k by lia.
  rewrite fmap_app, Hq, fmap_drop, <- Hg, drop_app_le by done. done.
Qed.
End ether.
