(* ===== verification/WifiEtherSample.v ===== *)
(** * Stations on a shared ether: concrete runs

    Two stations with the parameters of the configuration srwsn80211; a list of cues is
    executed, and what executes is a run of [ether_reach]. *)

From S2P Require Import Prelude MACAddress Queue QueueProps WifiTypes WifiMac WifiFsm WifiKeeps WifiInv WifiSafe WifiAccess WifiProps WifiSample WifiLedger WifiMgmt WifiNic WifiNicProps WifiEther.

Open Scope string_scope.
Open Scope list_scope.
Open Scope Z_scope.
#[local] Set Default Proof Using "All".

(** ** Cues *)

(** A cue is an event without what the state already says; [CHear i k] brings the [k]-th
    frame of the ether to station [i], with message kind [kd]. *)
Inductive cue :=
  | CTime (t : Z)
  | CUpper (i : nat) (pk : cPacket nat)
  | CDown (i : nat)
  | CUp (i : nat)
  | CSelf (i : nat) (k : wtimer)
  | CHear (i k : nat) (kd : Z).

#[export] Instance sample_length : PacketLength nat := fun _ => 100.

Definition guard_ (b : bool) (e : ether_event nat) : option (ether_event nat) := if b then Some e else None.

Definition cue_event (w : Ether nat) (c : cue) : option (ether_event nat) :=
  match c with
  | CTime t => guard_ (forallb (fun n => in_time t (mac n)) (stations w)) (ETime t)
  | CUpper i pk => n ← stations w !! i; Some (EStation i (NUpper pk))
  | CDown i => n ← stations w !! i; guard_ (0 <? Z.of_nat (length (toMac n))) (EStation i NDown)
  | CUp i => n ← stations w !! i; guard_ (0 <? Z.of_nat (length (toMgmt n))) (EStation i NUp)
  | CSelf i k =>
      n ← stations w !! i; guard_ (bool_decide (timers (mac n) k = Some (simTime (mac n)))) (EStation i (NSelf k))
  | CHear i k kd =>
      n ← stations w !! i; '(j, g) ← air w !! k;
      guard_ (negb (Nat.eqb j i)) (EStation i (NHear (Some (g<| kind := kd |>))))
  end.

Definition cue_ok (c : cue) : Prop := match c with CUpper _ pk => packet_ok pk | _ => True end.

Lemma guard_some b e e' : guard_ b e = Some e' -> b = true /\ e = e'.
Proof. destruct b; [|done]. by intros [= ->]. Qed.

Lemma nonempty {A} (l : list A) : (0 <? Z.of_nat (length l)) = true -> l <> [].
Proof. by destruct l. Qed.

Lemma cue_enabled w c e : cue_ok c -> cue_event w c = Some e -> ether_enabled w e.
Proof.
  intros Hc. destruct c as [t|i pk|i|i|i k|i k kd]; cbn [cue_event].
  1: { intros [Hb <-]%guard_some. apply Forall_forall. intros n Hn. rewrite List.forallb_forall in Hb.
       apply in_time_ok, Hb. by apply list_elem_of_In. }
  all: destruct (stations w !! i) as [n|] eqn:Ei; [|done]; cbn [mbind option_bind].
  - intros [= <-]. by exists n.
  - intros [Hb <-]%guard_some. exists n. split; [done | by apply nonempty].
  - intros [Hb <-]%guard_some. exists n. split; [done | by apply nonempty].
  - intros [Hb%bool_decide_eq_true <-]%guard_some. by exists n.
  - destruct (air w !! k) as [[j g]|] eqn:Ek; [|done]. intros [Hb%negb_true_iff%Nat.eqb_neq <-]%guard_some.
    exists n. split; [done|]. exists j, g. split; [done|]. split; [by apply list_elem_of_lookup_2 in Ek | done].
Qed.

Fixpoint ether_play (l : list cue) (w : Ether nat) : outcome (Ether nat) :=
  match l with
  | [] => Ok w
  | c :: l =>
      match cue_event w c with
      | Some e => w' ← ether_handle e w; ether_play l w'
      | None => Fault (Thrown "not a schedule")
      end
  end.

Lemma ether_play_reach w0 l : Forall cue_ok l -> forall w w', ether_reach w0 w -> ether_play l w = Ok w' -> ether_reach w0 w'.
Proof.
  induction 1 as [|c l Hc _ IH]; intros w w' Hr; cbn [ether_play]; [by intros [= <-]|].
  destruct (cue_event w c) as [e|] eqn:Ee; [|done]. destruct (ether_handle e w) as [w1|] eqn:Eh; [|done].
  apply IH. exact (ether_step w0 w e w1 Hr (cue_enabled w c e Hc Ee) Eh).
Qed.

(** ** Two stations *)

Definition two_setups : list (Params * Z) := [(sample_params false, 14); (sample_params false, 14)].
Lemma two_setups_ok : Forall setup_ok two_setups.
Proof. repeat constructor; try apply sample_params_ok; cbn; lia. Qed.

Definition two_stations : Ether nat :=
  match ether_initialize two_setups 0 with Ok w => w | Fault _ => mkEther [] [] end.
Lemma two_stations_init : ether_initialize two_setups 0 = Ok two_stations.
Proof. reflexivity. Qed.

(** The first station has a packet for the second; it is sent after DIFS, acknowledged
    after SIFS, and handed up. *)
Definition packet_for_B : cPacket nat := mkcPacket 42%nat 100 (Some (mkIeee802Ctrl addressA addressB)).
Lemma packet_for_B_ok : packet_ok packet_for_B.
Proof. split; [cbn; lia|]. eexists. split; [reflexivity|]. split; [wf_address | done]. Qed.

Definition delivery : list cue :=
  [CUpper 0 packet_for_B; CDown 0; CTime (50 * usec); CSelf 0 endDIFS; CTime (778 * usec); CHear 1 0 0; CUp 1;
   CTime (788 * usec); CSelf 1 endSIFS; CTime (1036 * usec); CHear 0 1 0].

Definition after (k : nat) : Ether nat :=
  match ether_play (take k delivery) two_stations with Ok w => w | Fault _ => two_stations end.

Lemma after_reach k w : ether_play (take k delivery) two_stations = Ok w -> ether_reach two_stations w.
Proof.
  apply ether_play_reach; [|constructor]. apply Forall_take. repeat (constructor; [first [exact I | exact packet_for_B_ok]|]). constructor.
Qed.

(** The exchange ends with the packet handed up once, the acknowledged frame off the queue,
    both machines at rest and a third request made. *)
Definition view (n : Nic nat) : State * nat * nat * list (cPacket nat) :=
  (fsm (mac n), length (transmissionQueue (mac n)), requests_in (out (mac n)), upperOut (mgmt n)).

Example delivery_runs :
  (w ← ether_play delivery two_stations; Ok (view <$> stations w)) =
  Ok [(IDLE, 0%nat, 3%nat, []);
      (IDLE, 0%nat, 2%nat, [mkcPacket 42%nat 100 (Some (mkIeee802Ctrl addressA addressB))])].
Proof. vm_compute. reflexivity. Qed.

(** ** Witnesses *)

Definition nth_station (k i : nat) : Nic nat :=
  match stations (after k) !! i with Some n => n | None => mkNic (mkMgmt (Queue.initialize (mkMgmtQueues 0 [] [])) [] 0 0 0 []) (sample_mac false) [] [] [] end.

Lemma played k : (match ether_play (take k delivery) two_stations with Ok _ => true | Fault _ => false end) = true ->
  ether_reach two_stations (after k).
Proof. unfold after. destruct (ether_play _ _) as [w|] eqn:E; [|done]. intros _. by apply (after_reach k). Qed.

Lemma has_station k i : (match stations (after k) !! i with Some _ => true | None => false end) = true ->
  stations (after k) !! i = Some (nth_station k i).
Proof. unfold nth_station. by destruct (stations (after k) !! i). Qed.

Lemma ether_never_fails_witness :
  ether_enabled (after 10) (EStation 0 (NRadio 5 RadioState.IDLE)) /\
  exists w', ether_handle (EStation 0 (NRadio 5 RadioState.IDLE)) (after 10) = Ok w'.
Proof.
  assert (He : ether_enabled (after 10) (EStation 0 (NRadio 5 RadioState.IDLE))).
  { exists (nth_station 10 0). split; [apply has_station; by vm_compute | exact I]. }
  split; [exact He|].
  destruct (ether_never_fails (P := nat) two_setups 0 two_setups_ok) as (w0 & Hi & Hsafe); [lia | cbn; lia |].
  rewrite two_stations_init in Hi. injection Hi as <-. apply Hsafe; [|exact He]. apply played. by vm_compute.
Defined.

Lemma ether_integrity_witness :
  exists pk, pk ∈ upperOut (mgmt (nth_station 11 1)) /\
  exists j m pk0 c,
    j <> 1%nat /\ stations (after 11) !! j = Some m /\ pk0 ∈ offered m /\ ctrl pk0 = Some c /\
    (isBroadcast (ctrlDest c) = true \/ equals (ctrlDest c) (address (cfg (mac (nth_station 11 1)))) = true) /\
    content pk = content pk0 /\ ctrl pk = Some (mkIeee802Ctrl (address (cfg (mac m))) (ctrlDest c)).
Proof.
  assert (Hin : packet_for_B ∈ upperOut (mgmt (nth_station 11 1))).
  { assert (E : upperOut (mgmt (nth_station 11 1)) = [packet_for_B]) by (by vm_compute). rewrite E. by apply list_elem_of_singleton. }
  exists packet_for_B. split; [exact Hin|].
  apply (ether_integrity two_setups 0 two_stations (after 11) 1 _ _ two_setups_ok); [lia | cbn; lia | exact two_stations_init | | | exact Hin].
  - apply played. by vm_compute.
  - apply has_station. by vm_compute.
Defined.

Lemma station_fifo_witness :
  length (transmissionQueue (mac (nth_station 4 0))) = 1%nat /\
  packetRequested (queue (mgmt (nth_station 4 0))) + Z.of_nat (length (toMac (nth_station 4 0)))
    + Z.of_nat (length (transmissionQueue (mac (nth_station 4 0)))) = 2.
Proof.
  split; [by vm_compute|].
  refine (proj1 (station_fifo two_setups 0 two_stations (after 4) 0 _ two_setups_ok _ _ two_stations_init _ _)); [lia | cbn; lia | |].
  - apply played. by vm_compute.
  - apply has_station. by vm_compute.
Defined.
